(* ===== verification/_CoqProject ===== *)
-Q . S2P
Prelude.v
GoStrings.v
Regexp.v
GoTime.v
GoConv.v
GoPath.v
Types.v
LogBuffer.v
Options.v
ProblemClient.v
ConditionManager.v
Metrics.v
ProblemMetrics.v
OpenCensusMetric.v
Platform.v
StartTime.v
LogMonitor.v
MonitorInterface.v
LogMonitorLoop.v
K8sExporter.v
ProblemDetector.v
CustomPluginConfig.v
CustomPluginMonitor.v
CustomMonitorLoop.v
Plugin.v
PluginLifecycle.v
CustomDaemon.v
HealthChecker.v
Transitions.v
Pipeline.v
Process.v
PipelineDrain.v
FilelogWatcher.v
KmsgWatcher.v
JournaldWatcher.v
LogSources.v
PluginSource.v
StopSources.v
EndToEnd.v
Shutdown.v
LogCounter.v
SystemFiles.v
Recording.v
SystemStatsConfig.v
DiskCollector.v
CPUCollector.v
MemoryCollector.v
HostCollector.v
NetCollector.v
SystemStatsMonitor.v
Stackdriver.v
TailReader.v
WindowsService.v
TailedFilelog.v
Program.v
OtherPlatforms.v
