(* ===== verification/Prelude.v ===== *)
(** * node-problem-detector: a verification development

    node-problem-detector runs on every node of a Kubernetes cluster.  Problem
    daemons watch the node and report statuses (temporary events, and
    conditions for permanent problems); exporters publish them to the API
    server and as metrics.  Two small programs, the health checker and the log
    counter, are run by the custom plugin daemon and report through exit codes.

    ** The parts and the files that model them

    Foundations.
    - [Prelude]: outcomes (a call returns or takes the process down), results
      (a value or an error), int64, slices, list lemmas.
    - [GoStrings], [Regexp], [GoTime], [GoConv], [GoPath]: what the program uses
      of packages strings, utf8, fmt, regexp/syntax, time, strconv and
      path/filepath.  [Regexp]
      has an executable matcher on syntax trees, proved to compute a declarative
      relation; the parser of expressions is a parameter.
    - [Types]: pkg/types, pkg/systemlogmonitor/types, pkg/util/helpers.go and
      convert.go.
    - [Transitions]: runs of labelled transition systems.
    - [Platform]: pkg/util/exec_unix.go and exec_windows.go, and the version of
      the operating system on Windows and Darwin.

    Problem daemons.
    - [StartTime]: pkg/util/helpers.go GetStartTime and the uptime.
    - [FilelogWatcher], [KmsgWatcher], [JournaldWatcher]: the three log watchers
      of pkg/systemlogmonitor/logwatchers, each a transition system of the watch
      loop, its channel, its tomb and the log monitor that receives.
    - [MonitorInterface]: what a problem daemon promises to the detector, the
      class [Monitor] (pkg/types/types.go); two kinds of monitors side by side are
      again one.
    - [LogSources]: what the producer in front of a monitor promises to it, the
      class [Source] of channels that are read while something fills them; a
      [LogWatcher] is a source of logs, with the three watchers and the
      repository's fake as instances.  [StopSources] adds what they promise to a
      monitor that stops them, the class [Stoppable], of which the plugin is an
      instance too.
    - [TailReader]: third_party/forked/cadvisor/tail, the reader that follows a
      log file through rotations: its goroutine, [Read], [Close] and their lock;
      [TailedFilelog] composes it with the file log watcher, one more instance of
      [LogWatcher].
    - [LogBuffer]: pkg/systemlogmonitor/log_buffer.go, the ring of recent lines
      and the matching of patterns against it.
    - [LogMonitor]: pkg/systemlogmonitor/log_monitor.go and config.go.  The
      monitor owns a slice of conditions that every status shares; the slice
      lives in an explicit store.  [LogMonitorLoop] is its loop one rule and one
      send at a time, an instance of [Monitor].
    - [CustomPluginConfig] (pkg/custompluginmonitor/types), [Plugin]
      (plugin/plugin.go: grouping by interval, bounded parallel runs, the run of
      one plugin), [PluginLifecycle] (Run, the groups and Stop), [PluginSource]
      (the same as executable steps, and the channel of results as a [Source]),
      [CustomPluginMonitor] (custom_plugin_monitor.go), [CustomMonitorLoop]
      (its loop one result and one send at a time, an instance of [Monitor]) and
      [CustomDaemon] (the monitor with its plugin: what can end the process).
    - [HealthChecker] (cmd/healthchecker, pkg/healthchecker; on Linux and on
      Windows) and [LogCounter] (cmd/logcounter, pkg/logcounter).

    System statistics (pkg/systemstatsmonitor).
    - [SystemFiles]: pkg/util/metrics/system and the collection of
      osfeature_collector.go.
    - [Recording]: the metrics a collector creates and the calls of [Record] it
      makes, executed against the metrics library (class [OpenCensus]); series of
      values and totals per metric and tags.
    - [SystemStatsConfig]: types/config.go, defaults and validation.
    - [DiskCollector], [CPUCollector], [MemoryCollector], [HostCollector],
      [NetCollector]: one file per collector, constructor and collection; procfs
      and gopsutil are inputs.
    - [SystemStatsMonitor]: system_stats_monitor.go, the collectors together and
      the loop that runs them until it is stopped.

    Metrics.
    - [Metrics]: pkg/util/metrics.  A metric is an interface (class
      [Int64MetricInterface]), which may refuse values of tags; the repository's
      fake is an instance, and so is [Int64Metric] over a library that records
      ([OpenCensusMetric]).
    - [ProblemMetrics]: pkg/problemmetrics, proved against that interface.

    Exporters.
    - [ProblemClient]: pkg/exporters/k8sexporter/problemclient.  The interface
      [Client] with its law is what the condition manager is proved against; the
      fake client is an instance.
    - [ConditionManager]: k8sexporter/condition/manager.go, as a step relation of
      the callers and the sync goroutine.
    - [K8sExporter]: k8s_exporter.go.
    - [Stackdriver]: pkg/exporters/stackdriver: metric types, configuration, the
      instance metadata with its retries, construction.

    The process.
    - [Options]: cmd/options, pkg/problemdaemon, pkg/exporters (registries).
    - [ProblemDetector]: pkg/problemdetector, pkg/util/tomb and
      cmd/nodeproblemdetector/node_problem_detector.go: start-up, the loop with
      one forwarder per monitor, shutdown; and the Prometheus exporter.
    - [WindowsService]: node_problem_detector_windows.go, the goroutines of the
      Windows service.
    - [Program]: the entry points, what the packages register, the flags.
    - [OtherPlatforms]: the files of the builds for Windows and Darwin that say
      that something is not supported, and what relies on them.

    The parts together.
    - [Pipeline]: monitors of any kind, forwarders, the loop of the detector, the
      Kubernetes exporter and the condition manager as one transition system over
      one store, proved against the class [Monitor]; [Process]: log and plugin
      monitors side by side in it, with a sample; [PipelineDrain]: it empties.
    - [EndToEnd]: the pipeline with a [Source] in front of every monitor, a watcher
      or a plugin.
    - [Shutdown]: the end of [Run] against the monitors, sources and forwarders,
      which go on.

    ** What the theorems show

    - Logs to problems: the watchers deliver every line, message and entry they
      should, in order ([filelog_delivers_lines], [kmsg_delivers_messages],
      [journald_delivers_entries]; in common, the law of [LogWatcher]); the buffer is the window of recent lines
      ([log_buffer_window]), a match returns exactly the lines of the leftmost
      match, and the last-line shortcut is equivalent to the full search
      ([last_line_shortcut_equiv]); [parseLog] refines its specification, and
      permanent rules report changes and only changes.
    - Plugins to problems: intervals partition the rules, parallelism is bounded,
      every rule runs once per batch, no deadlock, the outcome of a run on every
      path with its output cut exactly at the limit, and the effect of a result of
      any kind of rule on conditions and events ([result_effect]).  The executable steps of
      a batch and of a plugin are sound and complete for the step relations.
    - Statistics to metrics: a system stats monitor that was created, with names
      for its network metrics, ends the process exactly in a round that finds no
      CPU timer or cannot read the command line or the modules, and each of its
      calls reaches the library with all its tags
      ([system_stats_calls_reach_library]); the deltas of the disk counters and of
      the CPU times add up to the readings, the memory states to the total, and
      each device and interface is recorded once; what the network collector does
      with cumulative counters and with metrics without a name; the exported
      types of Stackdriver and the bounds of its metadata retries.  At most one
      reason of a permanent problem has its gauge at 1, the last one set as long as
      the metric accepts the reasons; one that it refuses blocks the gauge of its
      type ([problem_gauge_last_reason]).
    - Problems to the API server: no status is lost or reordered, the newest
      condition wins under every interleaving, a successful sync publishes it, a
      tick syncs exactly when there is a change, a refused sync to repeat or a
      heartbeat due ([sync_decision]), and a refused one is retried.
    - From what is observed to the API server: once what a watcher read, or what a
      plugin sent, has been dealt with, the condition manager holds, and after a
      successful sync the API server has been told, the conditions that the
      specification of the monitor computes from it
      ([node_state_follows_logs], [node_published_follows_logs],
      [node_state_follows_plugins], [node_published_follows_plugins]), in a process
      with any number of monitors of both kinds; without new input the pipeline is
      idle after a bounded number of steps, and until then one of them is always
      possible ([pipeline_drains]).
    - Life cycle: start-up accepts the configurations it means to, and runs one
      daemon per configuration path, made by the handler of its type; a log monitor
      never takes the process down, a custom plugin monitor only with a negative
      output limit ([log_monitor_runs], [custom_monitor_runs]); shutdown does not
      complete when a monitor failed to start; stopping the kernel watcher never
      deadlocks (stopping the other two can, in a send to a full channel).  Stopping a plugin waits for its batches and
      closes the channel of results only after the last of them was sent
      ([plugin_stop_completes], [plugin_results_safe]).  The monitors of a
      running process can all be stopped while their channels have room, and so
      does the channel of a journald or file log watcher in front of them
      ([running_shutdown_completes]); not when the channel of a monitor in its
      send is full ([shutdown_blocks_on_full_channel]).  The main programs accept their flags
      and reach the loop of the detector or say why not ([flags_accepted],
      [unix_main_reaches_loop], [run_gives_up_without_sources]).  On Windows
      and Darwin a configuration for the kernel log, and on Darwin the health
      checker, take the process down ([other_watcher_by_plugin],
      [darwin_health_main_dies]).  The Windows service returns only
      after a stop request, and then waits for nothing but [npdMain]
      ([service_stops], [service_waits_for_request]).  The
      tail reader never dereferences a nil reader and gives up after a bounded
      time; with the watcher on top of it, what is read are prefixes of the files in
      turn ([tailed_filelog_reads_files]), but a rotation can end the watcher
      ([rotation_ends_watcher]).

    ** Conventions

    A definition that models code carries the lines it translates in a comment.
    Go maps are [gmap]s; where the code iterates over one, the visiting order is
    an argument and the theorems hold for every order.  Integers are [Z] with
    int64 wrap-around written out where the code computes with them; times are
    nanoseconds since the zero time.  [klog.Fatalf] and run-time panics are the
    outcome [Panic].  Fuel is only used where a bound is evident: the decimal
    digits of a uint64 (20), the length of a format string, the length of a text
    for the star of an expression, the ring for the match loop.

    Concurrent code is a transition system whose steps are the operations that
    other goroutines can observe; theorems about it hold for every interleaving.
    Channels have the capacity the code gives them (1000 for statuses and
    results), except in [ProblemDetector], where they are unbounded, which allows
    more runs.  Where the code reads the clock once per default condition the
    readings of one call are taken as one; times are compared as instants.  In the compositions one condition of a shared slice is read or
    written in one step: the code synchronises neither, and what a torn read
    would give is outside Go's memory model and of this development.  The number
    of logs and the size of a buffer together stay within int64, a hypothesis of
    the theorems that need it.

    What lies outside the repository (the API server client, OpenCensus, the
    journal and kmsg libraries, commands, HTTP, the file system, the zone
    database, the parser of regular expressions) is a parameter or an input of a
    step; what the code relies on is a named hypothesis.

    ** Not modelled

    The parsing of command lines, a parameter ([Program] has the names that are
    defined); log output; the JSON decoders, and the JSON and text forms that only
    log output uses; the log reader of the file log watcher on Windows and Darwin,
    a vendored library (on Linux it is [TailReader]); the cleaning of Windows
    paths, which is an argument; the HTTP server, and the cloud, metrics and
    journal libraries, whose answers are inputs; the programs of the end-to-end
    tests.  The composed process exports to the Kubernetes exporter; the other
    exporters ignore the statuses they are given, and are modelled on their own.
    The time at which a condition is read or written is that of one step, as said
    above: what a data race on the fields of one condition could show is left
    out. *)

From Stdlib Require Export ZArith Lia Ascii.
From stdpp Require Export base tactics option list strings gmap sorting.

#[export] Set Warnings "-clear-no-such-hyp".

(** stdpp blocks the reduction of string append; the proofs here compute with it. *)
#[global] Arguments String.append !_ _ / : simpl nomatch.

(** ** Outcomes

    A Go call ends in one of two ways that matter here: it returns, or it
    takes the process down ([panic], a run-time error such as a nil
    dereference, an index out of range, a division by zero, and
    [klog.Fatalf]).  [Panic] carries a short tag of the cause. *)
Inductive outcome (A : Type) : Type :=
| Ret (a : A)
| Panic (cause : string).
Arguments Ret {A} a.
Arguments Panic {A} cause.

(** A Go pair [(T, error)] of which the callers use the value only when the
    error is nil.  The error carries the format string of its message. *)
Inductive result (A : Type) : Type :=
| Ok (a : A)
| Err (msg : string).
Arguments Ok {A} a.
Arguments Err {A} msg.

#[export] Instance outcome_ret : MRet outcome := fun A a => Ret a.
#[export] Instance outcome_bind : MBind outcome := fun A B f m =>
  match m with Ret a => f a | Panic c => Panic c end.
#[export] Instance outcome_fmap : FMap outcome := fun A B f m =>
  match m with Ret a => Ret (f a) | Panic c => Panic c end.

#[export] Instance result_ret : MRet result := fun A a => Ok a.
#[export] Instance result_bind : MBind result := fun A B f m =>
  match m with Ok a => f a | Err e => Err e end.

(** One step of a sequence whose first call is known to return. *)
Tactic Notation "ret_step" := cbn [mbind outcome_bind].
Tactic Notation "ret_step" "in" hyp(H) := cbn [mbind outcome_bind] in H.

Definition is_ok {A} (r : result A) : bool :=
  match r with Ok _ => true | Err _ => false end.

(** The dereference [*p] of a pointer that may be nil. *)
Definition deref {A} (p : option A) : outcome A :=
  match p with
  | Some a => Ret a
  | None => Panic "nil dereference"
  end.

(** ** Machine integers *)
Definition int64_max : Z := 2 ^ 63 - 1.
Definition int64_min : Z := - 2 ^ 63.

(** Two's complement wrap-around of a Go [int64] (and of [int], which is 64
    bits wide on the supported platforms). *)
Definition int64 (z : Z) : Z := (z + 2 ^ 63) mod 2 ^ 64 - 2 ^ 63.
Definition uint64 (z : Z) : Z := z mod 2 ^ 64.

Definition in_int64 (z : Z) : Prop := (int64_min <= z <= int64_max)%Z.

Lemma int64_id z : in_int64 z -> int64 z = z.
Proof.
  unfold in_int64, int64, int64_min, int64_max; intros H.
  rewrite Z.mod_small; lia.
Qed.

Lemma int64_range z : in_int64 (int64 z).
Proof.
  unfold in_int64, int64, int64_min, int64_max.
  pose proof (Z.mod_pos_bound (z + 2 ^ 63) (2 ^ 64) ltac:(lia)); lia.
Qed.

Lemma uint64_range z : (0 <= uint64 z < 2 ^ 64)%Z.
Proof. apply Z.mod_pos_bound; lia. Qed.

(** ** Slices

    Go slice accesses with an [int] index, which panic out of range. *)
Definition slice_get {A} (l : list A) (i : Z) : outcome A :=
  if (i <? 0)%Z then Panic "index out of range"
  else match l !! Z.to_nat i with
       | Some a => Ret a
       | None => Panic "index out of range"
       end.

Definition slice_set {A} (l : list A) (i : Z) (a : A) : outcome (list A) :=
  if ((0 <=? i) && (i <? Z.of_nat (length l)))%Z
  then Ret (<[Z.to_nat i := a]> l)
  else Panic "index out of range".

(** [make([]T, n)] *)
Definition make_slice {A} (n : Z) (zero : A) : outcome (list A) :=
  if (n <? 0)%Z then Panic "makeslice: len out of range"
  else Ret (replicate (Z.to_nat n) zero).

(** The [%] operator: truncated, with a panic on a zero divisor. *)
Definition go_rem (a b : Z) : outcome Z :=
  if (b =? 0)%Z then Panic "integer divide by zero" else Ret (Z.rem a b).

Lemma slice_get_lookup {A} (l : list A) (i : nat) a :
  l !! i = Some a -> slice_get l (Z.of_nat i) = Ret a.
Proof.
  intros H. unfold slice_get.
  rewrite (proj2 (Z.ltb_ge _ _)) by lia. by rewrite Nat2Z.id, H.
Qed.

Lemma slice_set_insert {A} (l : list A) (i : nat) a :
  i < length l -> slice_set l (Z.of_nat i) a = Ret (<[i := a]> l).
Proof.
  intros H. unfold slice_set.
  rewrite (proj2 (Z.leb_le _ _)), (proj2 (Z.ltb_lt _ _)) by lia.
  by rewrite Nat2Z.id.
Qed.

Lemma go_rem_nat (a n : nat) :
  n ≠ 0 -> go_rem (Z.of_nat a) (Z.of_nat n) = Ret (Z.of_nat (a mod n)).
Proof.
  intros Hn. unfold go_rem. rewrite (proj2 (Z.eqb_neq _ _)) by lia.
  rewrite Z.rem_mod_nonneg by lia. by rewrite Nat2Z.inj_mod.
Qed.

(** ** Lists *)

(** The last [n] elements. *)
Definition lastn {A} (n : nat) (l : list A) : list A := drop (length l - n) l.

Lemma lastn_length {A} n (l : list A) : length (lastn n l) = Nat.min n (length l).
Proof. unfold lastn. rewrite length_drop. lia. Qed.

Lemma lastn_suffix {A} n (l : list A) : lastn n l `suffix_of` l.
Proof. exists (take (length l - n) l). unfold lastn. by rewrite take_drop. Qed.

Lemma lastn_snoc {A} n (l : list A) x :
  0 < n -> lastn n (l ++ [x]) = lastn (n - 1) l ++ [x].
Proof.
  intros Hn. unfold lastn. rewrite length_app. simpl.
  replace (length l + 1 - n) with (length l - (n - 1)) by lia.
  rewrite drop_app_le by lia. done.
Qed.

Lemma lastn_S_drop {A} n (l : list A) :
  S n <= length l -> lastn n l = drop 1 (lastn (S n) l).
Proof. intros H. unfold lastn. rewrite drop_drop. f_equal. lia. Qed.

Lemma mod_succ (k n : nat) :
  n ≠ 0 -> S k mod n = if decide (S (k mod n) = n) then 0 else S (k mod n).
Proof.
  intros Hn. pose proof (Nat.mod_upper_bound k n Hn) as Hh.
  pose proof (Nat.div_mod_eq k n) as Hk.
  destruct (decide (S (k mod n) = n)) as [E|E]; symmetry.
  - apply (Nat.mod_unique _ _ (S (k / n))); lia.
  - apply (Nat.mod_unique _ _ (k / n)); lia.
Qed.

(** Overwriting the oldest slot of a ring, seen from the oldest element. *)
Lemma rotate_push {A} (l : list A) (k : nat) (x : A) :
  l ≠ [] ->
  rotate (S k) (<[k mod length l := x]> l) = drop 1 (rotate k l) ++ [x].
Proof.
  intros Hl. assert (Hn : length l ≠ 0) by (by destruct l).
  unfold rotate. rewrite length_insert, mod_succ by done.
  pose proof (Nat.mod_upper_bound k (length l) Hn) as Hh.
  generalize dependent (k mod length l); intros h Hh.
  destruct (lookup_lt_is_Some_2 l h Hh) as [y Hy].
  rewrite (drop_S l y h Hy). change (drop 1 ((y :: ?a) ++ ?b)) with (drop 0 (a ++ b)).
  rewrite drop_0.
  assert (Ht : take (S h) (<[h:=x]> l) = take h l ++ [x]).
  { rewrite (take_S_r _ h x) by (by apply list_lookup_insert_eq).
    by rewrite take_insert_ge by lia. }
  rewrite <- app_assoc, <- Ht. destruct (decide (S h = length l)) as [E|E].
  - rewrite drop_0, take_0, app_nil_r, (drop_ge l (S h)) by lia. simpl.
    by rewrite take_ge by (rewrite length_insert; lia).
  - by rewrite drop_insert_lt by lia.
Qed.

(** A sum over a list, one element of which is replaced. *)
Lemma sum_list_insert {A} (f : A -> nat) l i x y :
  l !! i = Some x -> sum_list_with f (<[i := y]> l) + f x = sum_list_with f l + f y.
Proof.
  revert i. induction l as [|z l IH]; intros [|i] H; simpl in *; try done; [simplify_eq; lia|].
  specialize (IH i H). lia.
Qed.
