(* ===== verification/GoStrings.v ===== *)
(** Go strings: byte sequences, their UTF-8 decoding, and the functions of
    [strings], [strconv] and [unicode/utf8] that node-problem-detector calls.
    A Go string is a [string] (one [ascii] per byte), so [String.length] is
    Go's [len].  The two Unicode tables that are pure data ([IsPrint] above
    ASCII and simple case folding) are fields of the class [Unicode]. *)

From S2P Require Import Prelude.

(** ** Bytes *)
Definition byte_val (b : ascii) : Z := Z.of_N (N_of_ascii b).
Definition byte_of (z : Z) : ascii := ascii_of_N (Z.to_N z).

Definition newline : string := String (byte_of 10) EmptyString.
Definition nl_rune : Z := 10.

(** ** Append and length *)
Lemma append_nil_r s : s +:+ "" = s.
Proof. induction s as [|a s IH]; simpl; [done | by rewrite IH]. Qed.

Lemma append_assoc (s1 s2 s3 : string) : s1 +:+ (s2 +:+ s3) = (s1 +:+ s2) +:+ s3.
Proof. induction s1 as [|a s1 IH]; simpl; [done | by rewrite IH]. Qed.

Lemma append_length (s1 s2 : string) :
  String.length (s1 +:+ s2) = String.length s1 + String.length s2.
Proof. induction s1 as [|a s1 IH]; simpl; [done | by rewrite IH]. Qed.

(** [s[n:]] and [s[:n]] for an index within the string. *)
Fixpoint sdrop (n : nat) (s : string) : string :=
  match n, s with
  | O, _ => s
  | S n, String _ s => sdrop n s
  | S _, EmptyString => EmptyString
  end.

Fixpoint stake (n : nat) (s : string) : string :=
  match n, s with
  | O, _ => EmptyString
  | S n, String a s => String a (stake n s)
  | S _, EmptyString => EmptyString
  end.

Lemma stake_sdrop n s : stake n s +:+ sdrop n s = s.
Proof. revert s; induction n as [|n IH]; intros [|a s]; simpl; [done..|by rewrite IH]. Qed.

Lemma stake_length n s : String.length (stake n s) = Nat.min n (String.length s).
Proof. revert s; induction n as [|n IH]; intros [|a s]; simpl; [done..|by rewrite IH]. Qed.

Lemma sdrop_length n s : String.length (sdrop n s) = String.length s - n.
Proof. revert s; induction n as [|n IH]; intros [|a s]; simpl; [done..|by rewrite IH]. Qed.

(** ** strings.Join, HasPrefix, HasSuffix, Contains, TrimSuffix *)

(** [strings.Join elems sep] *)
Fixpoint strings_Join (elems : list string) (sep : string) : string :=
  match elems with
  | [] => ""
  | [e] => e
  | e :: rest => e +:+ (sep +:+ strings_Join rest sep)
  end.

(** [strings.HasPrefix s p] *)
Fixpoint strings_HasPrefix (s p : string) {struct p} : bool :=
  match p, s with
  | EmptyString, _ => true
  | String a p, String b s => Ascii.eqb a b && strings_HasPrefix s p
  | String _ _, EmptyString => false
  end.

(** [strings.Contains s sub] *)
Fixpoint strings_Contains (s sub : string) : bool :=
  strings_HasPrefix s sub ||
  match s with
  | EmptyString => false
  | String _ s => strings_Contains s sub
  end.

Definition strings_HasSuffix (s suf : string) : bool :=
  (String.length suf <=? String.length s) &&
  String.eqb (sdrop (String.length s - String.length suf) s) suf.

(** [strings.TrimSuffix s suf] *)
Definition strings_TrimSuffix (s suf : string) : string :=
  if strings_HasSuffix s suf
  then stake (String.length s - String.length suf) s
  else s.

Lemma strings_HasPrefix_spec s p :
  strings_HasPrefix s p = true <-> exists t, s = p +:+ t.
Proof.
  revert s; induction p as [|a p IH]; intros s.
  - split; [intros _; by exists s | done].
  - destruct s as [|b s]; simpl; [split; [done | intros [t Ht]; discriminate Ht]|].
    rewrite andb_true_iff, Ascii.eqb_eq, IH. split.
    + intros [-> [t ->]]. by exists t.
    + intros [t Ht]; simpl in Ht; injection Ht as -> ->. split; [done | by exists t].
Qed.

Lemma strings_Contains_spec s sub :
  strings_Contains s sub = true <-> exists a b, s = a +:+ (sub +:+ b).
Proof.
  induction s as [|c s IH]; simpl; rewrite orb_true_iff, strings_HasPrefix_spec.
  - split.
    + intros [[t Ht]|]; [exists "", t; done | done].
    + intros (a & b & H). destruct a; [left; by exists b | discriminate H].
  - rewrite IH. split.
    + intros [[t Ht] | (a & b & ->)]; [by exists "", t | by exists (String c a), b].
    + intros ([|d a] & b & H); [left; by exists b|].
      simpl in H; injection H as -> ->. right. by exists a, b.
Qed.

Lemma strings_TrimSuffix_app s suf : strings_TrimSuffix (s +:+ suf) suf = s.
Proof.
  unfold strings_TrimSuffix, strings_HasSuffix. rewrite append_length.
  replace (String.length s + String.length suf - String.length suf)
    with (String.length s) by lia.
  assert (Hd : sdrop (String.length s) (s +:+ suf) = suf) by (induction s; simpl; auto).
  assert (Ht : stake (String.length s) (s +:+ suf) = s)
    by (clear Hd; induction s as [|a s IH]; simpl; [by destruct suf | by rewrite IH]).
  rewrite Hd, Ht, String.eqb_refl, (proj2 (Nat.leb_le _ _)) by lia. done.
Qed.

Lemma strings_Join_cons e es sep :
  es ≠ [] -> strings_Join (e :: es) sep = e +:+ (sep +:+ strings_Join es sep).
Proof. by destruct es. Qed.

Lemma strings_Join_snoc es e sep :
  es ≠ [] -> strings_Join (es ++ [e]) sep = strings_Join es sep +:+ (sep +:+ e).
Proof.
  induction es as [|x es IH]; [done|intros _].
  destruct es as [|y es]; [reflexivity|].
  change ((x :: y :: es) ++ [e]) with (x :: ((y :: es) ++ [e])).
  rewrite strings_Join_cons by done. rewrite IH by done.
  rewrite (strings_Join_cons x) by done. by rewrite !append_assoc.
Qed.

(** ** unicode/utf8 *)
Definition RuneError : Z := 65533.

Definition cont (b : ascii) (lo hi : Z) : bool :=
  (Z.leb lo (byte_val b) && Z.leb (byte_val b) hi)%Z.

(** [utf8.DecodeRuneInString s]: the first rune of [s] and its width, with
    [(RuneError, 1)] for an invalid encoding and [(RuneError, 0)] for "". *)
Definition DecodeRuneInString (s : string) : Z * nat :=
  match s with
  | EmptyString => (RuneError, 0)
  | String b0 s1 =>
    let c0 := byte_val b0 in
    if (c0 <? 128)%Z then (c0, 1)
    else if (c0 <? 194)%Z then (RuneError, 1)
    else if (c0 <? 224)%Z then
      match s1 with
      | String b1 _ =>
        if cont b1 128 191
        then (Z.lor (Z.shiftl (Z.land c0 31) 6) (Z.land (byte_val b1) 63), 2)
        else (RuneError, 1)
      | EmptyString => (RuneError, 1)
      end
    else if (c0 <? 240)%Z then
      let lo := if (c0 =? 224)%Z then 160%Z else 128%Z in
      let hi := if (c0 =? 237)%Z then 159%Z else 191%Z in
      match s1 with
      | String b1 (String b2 _) =>
        if cont b1 lo hi && cont b2 128 191
        then (Z.lor (Z.shiftl (Z.land c0 15) 12)
                (Z.lor (Z.shiftl (Z.land (byte_val b1) 63) 6) (Z.land (byte_val b2) 63)), 3)
        else (RuneError, 1)
      | _ => (RuneError, 1)
      end
    else if (c0 <? 245)%Z then
      let lo := if (c0 =? 240)%Z then 144%Z else 128%Z in
      let hi := if (c0 =? 244)%Z then 143%Z else 191%Z in
      match s1 with
      | String b1 (String b2 (String b3 _)) =>
        if cont b1 lo hi && cont b2 128 191 && cont b3 128 191
        then (Z.lor (Z.shiftl (Z.land c0 7) 18)
                (Z.lor (Z.shiftl (Z.land (byte_val b1) 63) 12)
                   (Z.lor (Z.shiftl (Z.land (byte_val b2) 63) 6) (Z.land (byte_val b3) 63))), 4)
        else (RuneError, 1)
      | _ => (RuneError, 1)
      end
    else (RuneError, 1)
  end.

(** A decoded text is a list of cells: a rune and the bytes it took. *)
Abbreviation cell := (Z * nat)%type.

(** [for _, r := range s]: the runes of [s] with their widths.  [skip] is the
    number of bytes that still belong to the rune last decoded. *)
Fixpoint decode_from (skip : nat) (s : string) : list cell :=
  match s with
  | EmptyString => []
  | String _ t =>
    match skip with
    | S k => decode_from k t
    | O => let rw := DecodeRuneInString s in rw :: decode_from (pred rw.2) t
    end
  end.

Definition decode (s : string) : list cell := decode_from 0 s.

Definition cells_len (l : list cell) : nat := sum_list_with snd l.

Example decode_ex :
  decode (String (byte_of 97) (String (byte_of 226) (String (byte_of 130)
    (String (byte_of 172) (String (byte_of 255) EmptyString)))))
  = [(97%Z, 1); (8364%Z, 3); (65533%Z, 1)].
Proof. vm_compute. reflexivity. Qed.

Lemma DecodeRune_width s :
  s ≠ "" -> 1 <= (DecodeRuneInString s).2 <= String.length s.
Proof.
  intros Hs. destruct s as [|b0 [|b1 [|b2 [|b3 s]]]]; [done|..]; simpl;
    repeat case_match; simpl; lia.
Qed.

(** A newline byte never continues a rune, so decoding the text before it
    does not look beyond it. *)
Lemma DecodeRune_newline a b :
  a ≠ "" -> DecodeRuneInString (a +:+ (newline +:+ b)) = DecodeRuneInString a.
Proof.
  intros Ha.
  destruct a as [|b0 [|b1 [|b2 [|b3 s]]]]; [done|..]; simpl.
  all: repeat (case_match; simpl; try done).
  all: rewrite ?andb_true_iff in *; destruct_and?.
  all: match goal with H : cont (byte_of 10) _ _ = true |- _ => discriminate H end.
Qed.

Lemma decode_from_newline k a b :
  k <= String.length a ->
  decode_from k (a +:+ (newline +:+ b)) = decode_from k a ++ (10%Z, 1) :: decode b.
Proof.
  revert k; induction a as [|c a IH]; intros k Hk.
  - destruct k; [done | simpl in Hk; lia].
  - destruct k as [|k].
    + pose proof (DecodeRune_width (String c a) ltac:(done)) as Hw.
      pose proof (DecodeRune_newline (String c a) b ltac:(done)) as Hd.
      change (String c a +:+ (newline +:+ b)) with (String c (a +:+ (newline +:+ b))) in *.
      unfold decode_from; fold decode_from. cbv zeta. rewrite Hd.
      rewrite IH by (cbn [String.length] in Hw; lia). done.
    + simpl in *. apply IH. lia.
Qed.

Lemma decode_newline a b :
  decode (a +:+ (newline +:+ b)) = decode a ++ (10%Z, 1) :: decode b.
Proof. apply decode_from_newline. lia. Qed.

Lemma decode_from_len k s :
  k <= String.length s -> cells_len (decode_from k s) = String.length s - k.
Proof.
  revert k; induction s as [|c s IH]; intros k Hk; [simpl in *; by destruct k|].
  destruct k as [|k]; [|simpl in *; apply IH; lia].
  pose proof (DecodeRune_width (String c s) ltac:(done)) as Hw.
  unfold decode_from; fold decode_from. cbv zeta.
  cbn [String.length] in *. unfold cells_len in *. cbn [sum_list_with].
  rewrite IH by lia. lia.
Qed.

Lemma decode_len s : cells_len (decode s) = String.length s.
Proof. unfold decode. rewrite decode_from_len; lia. Qed.

Lemma cells_len_app l1 l2 : cells_len (l1 ++ l2) = cells_len l1 + cells_len l2.
Proof. unfold cells_len. induction l1; simpl; lia. Qed.

(** ** Unicode data *)

(** The data tables of package [unicode] that the code reaches through
    [strconv.Quote] and case-insensitive literals.  [fold_nl] states that a
    newline has no case variants. *)
Class Unicode := {
  unicode_IsPrint : Z -> bool;
  fold_eq : Z -> Z -> bool;
  fold_nl : forall lit, fold_eq lit nl_rune = true -> lit = nl_rune
}.

Definition ascii_lower (r : Z) : Z :=
  if ((65 <=? r) && (r <=? 90))%Z then (r + 32)%Z else r.

(** The ASCII part of the tables, used by the concrete examples. *)
#[export, refine] Instance AsciiUnicode : Unicode := {
  unicode_IsPrint r := false;
  fold_eq a b := Z.eqb (ascii_lower a) (ascii_lower b)
}.
Proof.
  unfold ascii_lower, nl_rune; intros lit; simpl.
  destruct ((65 <=? lit) && (lit <=? 90))%Z eqn:E; rewrite Z.eqb_eq; [lia | done].
Defined.

(** ** strconv.Quote (the verb %q) *)
Definition hex_digit (z : Z) : ascii :=
  if (z <? 10)%Z then byte_of (z + 48) else byte_of (z - 10 + 97).

(** The [n] low hexadecimal digits of [z]. *)
Fixpoint hex (n : nat) (z : Z) (acc : string) : string :=
  match n with
  | O => acc
  | S n => hex n (Z.shiftr z 4) (String (hex_digit (Z.land z 15)) acc)
  end.

Definition backslash : ascii := byte_of 92.
Definition dquote : ascii := byte_of 34.
Definition esc (s : string) : string := String backslash s.

Definition esc_char (c : Z) : string := esc (String (byte_of c) EmptyString).

Section Quote.
Context `{UC : !Unicode}.

Definition strconv_IsPrint (r : Z) : bool :=
  if (r <? 128)%Z then ((32 <=? r) && (r <=? 126))%Z else unicode_IsPrint r.

(** [appendEscapedRune]; [raw] is the encoding of [r] in the source. *)
Definition escape_rune (r : Z) (raw : string) : string :=
  if ((r =? 34) || (r =? 92))%Z then esc raw
  else if strconv_IsPrint r then raw
  else if (r =? 7)%Z then esc_char 97
  else if (r =? 8)%Z then esc_char 98
  else if (r =? 12)%Z then esc_char 102
  else if (r =? 10)%Z then esc_char 110
  else if (r =? 13)%Z then esc_char 114
  else if (r =? 9)%Z then esc_char 116
  else if (r =? 11)%Z then esc_char 118
  else if ((r <? 32) || (r =? 127))%Z then esc (String "x" (hex 2 r ""))
  else if (r <? 65536)%Z then esc (String "u" (hex 4 r ""))
  else esc (String "U" (hex 8 r "")).

Fixpoint quote_from (skip : nat) (s : string) : string :=
  match s with
  | EmptyString => ""
  | String b t =>
    match skip with
    | S k => quote_from k t
    | O =>
      let '(r, w) := DecodeRuneInString s in
      (if (w =? 1) && (r =? RuneError)%Z
       then esc (String "x" (hex 2 (byte_val b) ""))
       else escape_rune r (stake w s)) +:+ quote_from (pred w) t
    end
  end.

Definition strconv_Quote (s : string) : string :=
  String dquote (quote_from 0 s +:+ String dquote EmptyString).
End Quote.

Example Quote_ex :
  strconv_Quote (String "a" (String dquote (String (byte_of 10) (String (byte_of 1) ""))))
  = String dquote (String "a" (esc (String dquote (esc (String "n" (esc "x01" +:+ String dquote "")))))).
Proof. vm_compute. reflexivity. Qed.

(** ** fmt.Sprintf without arguments

    What the formatter makes of a format string when no argument follows it:
    text is copied, a double percent sign is one, and every other directive
    reports what is missing.  The remaining format is a suffix of the string. *)
Definition byte_is (z : Z) (c : ascii) : bool := Z.eqb (byte_val c) z.

Fixpoint drop_while (f : ascii -> bool) (s : string) : string :=
  match s with
  | String c t => if f c then drop_while f t else s
  | EmptyString => s
  end.

Fixpoint take_while (f : ascii -> bool) (s : string) : string :=
  match s with
  | String c t => if f c then String c (take_while f t) else ""
  | EmptyString => ""
  end.

Definition is_flag (c : ascii) : bool :=
  byte_is 35 c || byte_is 48 c || byte_is 43 c || byte_is 45 c || byte_is 32 c.
Definition is_decimal (c : ascii) : bool := ((48 <=? byte_val c) && (byte_val c <=? 57))%Z.

(** [parsenum]: is there a number, and what follows it; a number that passes
    a million stops the parse at the end. *)
Fixpoint parsenum (num : Z) (isnum : bool) (s : string) : bool * string :=
  match s with
  | String c t =>
    if is_decimal c then
      if (1000000 <? num)%Z then (false, "")
      else parsenum (num * 10 + (byte_val c - 48)) true t
    else (isnum, s)
  | EmptyString => (isnum, s)
  end.

(** [argNumber]: what follows an explicit argument index, whether there was one
    (it is then out of range, since there are no arguments), and whether it was
    well formed. *)
Definition argNumber (s : string) : string * bool * bool :=
  match s with
  | String c t =>
    if byte_is 91 c then
      let inside := take_while (fun c => negb (byte_is 93 c)) t in
      let rest := sdrop (String.length inside) t in
      if (String.length s <? 3) then (t, true, false)
      else match rest with
           | EmptyString => (t, true, false)
           | String _ after =>
             (after, true, let '(ok, r) := parsenum 0 false inside in ok && String.eqb r "")
           end
    else (s, false, false)
  | EmptyString => (s, false, false)
  end.

Definition starts_with (z : Z) (s : string) : bool :=
  match s with String c _ => byte_is z c | EmptyString => false end.

(** One directive, after its percent sign: the text printed, and the rest;
    no rest when the format ends before the verb. *)
Definition directive (s : string) : string * option string :=
  let s := drop_while is_flag s in
  let '(s, bad1, after) := argNumber s in
  let '(s, out1, bad2, after) :=
    if starts_with 42 s then (sdrop 1 s, "%!(BADWIDTH)", false, false)
    else let '(present, s) := parsenum 0 false s in (s, "", after && present, after) in
  let '(s, out2, bad3, after) :=
    if starts_with 46 s then
      let '(s, b, after') := argNumber (sdrop 1 s) in
      let bad := after || b in
      if starts_with 42 s then (sdrop 1 s, "%!(BADPREC)", bad, false)
      else (snd (parsenum 0 false s), "", bad, after')
    else (s, "", false, after) in
  let '(s, bad4) := if after then (s, false) else let '(s, b, _) := argNumber s in (s, b) in
  let out := out1 +:+ out2 in
  match s with
  | EmptyString => (out +:+ "%!(NOVERB)", None)
  | _ =>
    let '(r, size) := DecodeRuneInString s in
    let verb := if Z.eqb r RuneError then
                  String (byte_of 239) (String (byte_of 191) (String (byte_of 189) ""))
                else stake size s in
    let text := if Z.eqb r 37 then "%"
                else if bad1 || bad2 || bad3 || bad4 then "%!" +:+ verb +:+ "(BADINDEX)"
                else "%!" +:+ verb +:+ "(MISSING)" in
    (out +:+ text, Some (sdrop size s))
  end.

Fixpoint Sprintf_fuel (fuel : nat) (s : string) : string :=
  match fuel with
  | O => ""
  | S n =>
    match s with
    | EmptyString => ""
    | String c t =>
      if byte_is 37 c then
        match directive t with
        | (out, Some rest) => out +:+ Sprintf_fuel n rest
        | (out, None) => out
        end
      else String c (Sprintf_fuel n t)
    end
  end.

(** Each round consumes at least one byte. *)
Definition fmt_Sprintf (format : string) : string :=
  Sprintf_fuel (S (String.length format)) format.

Fixpoint no_percent (s : string) : bool :=
  match s with
  | String c t => negb (byte_is 37 c) && no_percent t
  | EmptyString => true
  end.

Lemma fmt_Sprintf_plain s : no_percent s = true -> fmt_Sprintf s = s.
Proof.
  unfold fmt_Sprintf. induction s as [|c s IH]; [done|]. cbn [no_percent].
  intros [Hc Hs]%andb_true_iff. apply negb_true_iff in Hc.
  cbn [String.length Sprintf_fuel]. rewrite Hc. f_equal. by apply IH.
Qed.

Example Sprintf_tests :
  fmt_Sprintf "100% of" = "100%!o(MISSING)f" /\
  fmt_Sprintf "50%%" = "50%" /\
  fmt_Sprintf "5%" = "5%!(NOVERB)" /\
  fmt_Sprintf "a%5.2fb" = "a%!f(MISSING)b" /\
  fmt_Sprintf "%[1]d%*d" = "%!d(BADINDEX)%!(BADWIDTH)%!d(MISSING)".
Proof. vm_compute. repeat split. Qed.

(** ** strings.TrimSpace *)
Definition unicode_IsSpace (r : Z) : bool :=
  ((9 <=? r) && (r <=? 13) || (r =? 32) || (r =? 133) || (r =? 160) || (r =? 5760) ||
   (8192 <=? r) && (r <=? 8202) || (r =? 8232) || (r =? 8233) || (r =? 8239) ||
   (r =? 8287) || (r =? 12288))%Z.

(** The bytes taken by the longest prefix of white space cells. *)
Fixpoint space_prefix (cs : list cell) : nat :=
  match cs with
  | c :: cs => if unicode_IsSpace c.1 then c.2 + space_prefix cs else 0
  | [] => 0
  end.

Definition strings_TrimSpace (s : string) : string :=
  let t := sdrop (space_prefix (decode s)) s in
  stake (String.length t - space_prefix (reverse (decode t))) t.

Lemma strings_TrimSpace_length s : String.length (strings_TrimSpace s) <= String.length s.
Proof. unfold strings_TrimSpace. rewrite stake_length, sdrop_length. lia. Qed.
