(* ===== verification/Regexp.v ===== *)
(** Regular expressions: the syntax tree of Go's [regexp/syntax], a
    declarative matching relation [Rel], an executable matcher [ends], and
    the searches [MatchString] and [FindStringIndex] that the log buffer
    calls.  The parser [syntax.Parse] is a parameter of the files that need it. *)

From S2P Require Import Prelude GoStrings.

(** ** Syntax trees ([syntax.Regexp]) *)
Inductive RegexpOp : Type :=
| OpNoMatch | OpEmptyMatch | OpLiteral | OpCharClass | OpAnyCharNotNL
| OpAnyChar | OpBeginLine | OpEndLine | OpBeginText | OpEndText
| OpWordBoundary | OpNoWordBoundary | OpCapture | OpStar | OpPlus
| OpQuest | OpRepeat | OpConcat | OpAlternate.

#[export] Instance RegexpOp_eq_dec : EqDecision RegexpOp.
Proof. solve_decision. Defined.

#[warnings="-register-all"] Inductive Regexp : Type :=
  MkRegexp (op : RegexpOp) (flags : Z) (sub : list Regexp) (rune : list Z)
           (min max cap : Z) (name : string).

Definition Op (re : Regexp) : RegexpOp := let '(MkRegexp o _ _ _ _ _ _ _) := re in o.
Definition Flags (re : Regexp) : Z := let '(MkRegexp _ f _ _ _ _ _ _) := re in f.
Definition Sub (re : Regexp) : list Regexp := let '(MkRegexp _ _ s _ _ _ _ _) := re in s.
Definition Rune (re : Regexp) : list Z := let '(MkRegexp _ _ _ r _ _ _ _) := re in r.

(** [syntax.FoldCase], [syntax.NonGreedy], [syntax.WasDollar] *)
Definition FoldCase : Z := 1.
Definition NonGreedy : Z := 32.
Definition WasDollar : Z := 256.

Definition has_flag (flags f : Z) : bool := negb (Z.eqb (Z.land flags f) 0).

(** Induction over trees, with the hypothesis for every subtree. *)
Fixpoint Regexp_nested_ind (P : Regexp -> Prop)
    (H : forall op fl sub ru mn mx cap nm,
       Forall P sub -> P (MkRegexp op fl sub ru mn mx cap nm))
    (re : Regexp) : P re :=
  match re with
  | MkRegexp op fl sub ru mn mx cap nm =>
    H op fl sub ru mn mx cap nm
      ((fix go (l : list Regexp) : Forall P l :=
          match l with
          | [] => Forall_nil_2 P
          | r :: l => Forall_cons_2 P r l (Regexp_nested_ind P H r) (go l)
          end) sub)
  end.

(** Method [Equal] of [syntax.Regexp]. *)
Fixpoint Regexp_Equal (x y : Regexp) {struct x} : bool :=
  let '(MkRegexp xo xf xs xr xmn xmx xc xn) := x in
  let '(MkRegexp yo yf ys yr ymn ymx yc yn) := y in
  let subs_equal :=
    (fix go (l1 l2 : list Regexp) : bool :=
       match l1, l2 with
       | [], [] => true
       | a :: l1, b :: l2 => Regexp_Equal a b && go l1 l2
       | _, _ => false
       end) xs ys in
  if decide (xo = yo) then
    match xo with
    | OpEndText => Bool.eqb (has_flag xf WasDollar) (has_flag yf WasDollar)
    | OpLiteral | OpCharClass => bool_decide (xr = yr)
    | OpAlternate | OpConcat => subs_equal
    | OpStar | OpPlus | OpQuest =>
      Bool.eqb (has_flag xf NonGreedy) (has_flag yf NonGreedy) && subs_equal
    | OpRepeat =>
      Bool.eqb (has_flag xf NonGreedy) (has_flag yf NonGreedy)
      && Z.eqb xmn ymn && Z.eqb xmx ymx && subs_equal
    | OpCapture => Z.eqb xc yc && String.eqb xn yn && subs_equal
    | _ => true
    end
  else false.

(** ** Positions

    A position in a decoded text: the rune before it (none at the beginning
    of the text) and the cells that follow. *)
Abbreviation pos := (option Z * list cell)%type.

Definition is_word (r : option Z) : bool :=
  match r with
  | None => false
  | Some r => ((48 <=? r) && (r <=? 57) || (65 <=? r) && (r <=? 90)
               || (97 <=? r) && (r <=? 122) || (r =? 95))%Z
  end.

Definition next_rune (p : pos) : option Z := fst <$> head p.2.

Definition word_boundary (p : pos) : bool :=
  xorb (is_word p.1) (is_word (next_rune p)).

Definition at_line_start (p : pos) : bool :=
  match p.1 with None => true | Some r => Z.eqb r nl_rune end.
Definition at_line_end (p : pos) : bool :=
  match next_rune p with None => true | Some r => Z.eqb r nl_rune end.
Definition at_text_start (p : pos) : bool :=
  match p.1 with None => true | Some _ => false end.
Definition at_text_end (p : pos) : bool :=
  match p.2 with [] => true | _ => false end.

(** [Rune] holds a character class as inclusive [lo, hi] pairs. *)
Fixpoint in_class (ranges : list Z) (r : Z) : bool :=
  match ranges with
  | lo :: hi :: rest => ((lo <=? r) && (r <=? hi))%Z || in_class rest r
  | _ => false
  end.

(** ** Executable matching *)
Section Matching.
Context `{UC : !Unicode}.

Definition lit_eq (fl : Z) (lit r : Z) : bool :=
  if has_flag fl FoldCase then fold_eq lit r else Z.eqb lit r.

(** One rune that satisfies [ok]. *)
Definition one (ok : Z -> bool) (p : pos) : list pos :=
  match p.2 with
  | c :: rest => if ok c.1 then [(Some c.1, rest)] else []
  | [] => []
  end.

(** A zero-width assertion. *)
Definition test (ok : pos -> bool) (p : pos) : list pos :=
  if ok p then [p] else [].

Fixpoint concat_ends (fs : list (pos -> list pos)) (p : pos) : list pos :=
  match fs with
  | [] => [p]
  | f :: fs => f p ≫= concat_ends fs
  end.

Definition alt_ends (fs : list (pos -> list pos)) (p : pos) : list pos :=
  fs ≫= fun f => f p.

(** Iteration; an iteration that consumes nothing is not repeated. *)
Fixpoint star_ends (fuel : nat) (f : pos -> list pos) (p : pos) : list pos :=
  p :: match fuel with
       | O => []
       | S n => f p ≫= fun q =>
           if length q.2 <? length p.2 then star_ends n f q else []
       end.

Definition star (f : pos -> list pos) (p : pos) : list pos :=
  star_ends (length p.2) f p.

Definition opt_ends (f : pos -> list pos) (p : pos) : list pos := p :: f p.

Definition repeat_ends (mn mx : Z) (f : pos -> list pos) : pos -> list pos :=
  if (mx <? 0)%Z
  then concat_ends (replicate (Z.to_nat mn) f ++ [star f])
  else concat_ends (replicate (Z.to_nat mn) f
                    ++ replicate (Z.to_nat (mx - mn)) (opt_ends f)).

Definition first_sub (fs : list (pos -> list pos)) (p : pos) : list pos :=
  match fs with f :: _ => f p | [] => [] end.

(** The positions where a match of [re] that starts at [p] can end. *)
Fixpoint ends (re : Regexp) : pos -> list pos :=
  let '(MkRegexp op fl sub ru mn mx _ _) := re in
  let fs := map ends sub in
  match op with
  | OpNoMatch => fun _ => []
  | OpEmptyMatch => fun p => [p]
  | OpLiteral => concat_ends (map (fun lit => one (lit_eq fl lit)) ru)
  | OpCharClass => one (in_class ru)
  | OpAnyCharNotNL => one (fun r => negb (Z.eqb r nl_rune))
  | OpAnyChar => one (fun _ => true)
  | OpBeginLine => test at_line_start
  | OpEndLine => test at_line_end
  | OpBeginText => test at_text_start
  | OpEndText => test at_text_end
  | OpWordBoundary => test word_boundary
  | OpNoWordBoundary => test (fun p => negb (word_boundary p))
  | OpCapture => first_sub fs
  | OpStar => star (first_sub fs)
  | OpPlus => concat_ends [first_sub fs; star (first_sub fs)]
  | OpQuest => opt_ends (first_sub fs)
  | OpRepeat => repeat_ends mn mx (first_sub fs)
  | OpConcat => concat_ends fs
  | OpAlternate => alt_ends fs
  end.

(** The start positions of a text, in order. *)
Fixpoint starts (prev : option Z) (text : list cell) : list pos :=
  (prev, text) ::
  match text with
  | [] => []
  | c :: rest => starts (Some c.1) rest
  end.

Definition matches_at (re : Regexp) (p : pos) : bool :=
  negb (bool_decide (ends re p = [])).

(** [regexp.FindStringIndex]: the byte offset of the leftmost match.  (The
    code never uses the end offset.) *)
Definition FindStringIndex (re : Regexp) (s : string) : option nat :=
  (fun p => String.length s - cells_len p.2) <$>
    List.find (matches_at re) (starts None (decode s)).

(** [regexp.MatchString] *)
Definition MatchString (re : Regexp) (s : string) : bool :=
  match FindStringIndex re s with Some _ => true | None => false end.
End Matching.

(** ** Declarative matching

    Every tree denotes a relation between the position where a match starts
    and the position where it ends: concatenation is composition, alternation
    is union, and star is reflexive-transitive closure. *)
Abbreviation prel := (pos -> pos -> Prop).

Section Relation.
Context `{UC : !Unicode}.

Definition one_rel (ok : Z -> bool) : prel := fun p q =>
  exists c, p.2 = c :: q.2 /\ q.1 = Some c.1 /\ ok c.1 = true.

Definition test_rel (ok : pos -> bool) : prel := fun p q =>
  p = q /\ ok p = true.

Fixpoint concat_rel (rs : list (prel)) : prel :=
  match rs with
  | [] => eq
  | r :: rs => fun p q => exists m, r p m /\ concat_rel rs m q
  end.

Definition alt_rel (rs : list (prel)) : prel := fun p q =>
  exists r, r ∈ rs /\ r p q.

Definition opt_rel (r : prel) : prel := fun p q => p = q \/ r p q.

Definition first_rel (rs : list (prel)) : prel :=
  match rs with r :: _ => r | [] => fun _ _ => False end.

Definition repeat_rel (mn mx : Z) (r : prel) : prel :=
  if (mx <? 0)%Z
  then concat_rel (replicate (Z.to_nat mn) r ++ [rtc r])
  else concat_rel (replicate (Z.to_nat mn) r
                   ++ replicate (Z.to_nat (mx - mn)) (opt_rel r)).

Fixpoint Rel (re : Regexp) : prel :=
  let '(MkRegexp op fl sub ru mn mx _ _) := re in
  let rs := map Rel sub in
  match op with
  | OpNoMatch => fun _ _ => False
  | OpEmptyMatch => eq
  | OpLiteral => concat_rel (map (fun lit => one_rel (lit_eq fl lit)) ru)
  | OpCharClass => one_rel (in_class ru)
  | OpAnyCharNotNL => one_rel (fun r => negb (Z.eqb r nl_rune))
  | OpAnyChar => one_rel (fun _ => true)
  | OpBeginLine => test_rel at_line_start
  | OpEndLine => test_rel at_line_end
  | OpBeginText => test_rel at_text_start
  | OpEndText => test_rel at_text_end
  | OpWordBoundary => test_rel word_boundary
  | OpNoWordBoundary => test_rel (fun p => negb (word_boundary p))
  | OpCapture => first_rel rs
  | OpStar => rtc (first_rel rs)
  | OpPlus => concat_rel [first_rel rs; rtc (first_rel rs)]
  | OpQuest => opt_rel (first_rel rs)
  | OpRepeat => repeat_rel mn mx (first_rel rs)
  | OpConcat => concat_rel rs
  | OpAlternate => alt_rel rs
  end.

(** A relation on positions advances through the text. *)
Definition prev_after (prev : option Z) (w : list cell) : option Z :=
  match last w with Some c => Some c.1 | None => prev end.

Definition adv (w : list cell) (p q : pos) : Prop :=
  p.2 = w ++ q.2 /\ q.1 = prev_after p.1 w.

(** What [K] holds of single runes and assertions holds of every tree, when
    [K] is a preorder and the runes a tree can consume satisfy [ok]. *)
Fixpoint rune_ok (ok : Z -> Prop) (re : Regexp) : Prop :=
  let '(MkRegexp op fl sub ru _ _ _ _) := re in
  match op with
  | OpLiteral => forall lit r, lit ∈ ru -> lit_eq fl lit r = true -> ok r
  | OpCharClass => forall r, in_class ru r = true -> ok r
  | OpAnyCharNotNL => forall r, r ≠ nl_rune -> ok r
  | OpAnyChar => forall r, ok r
  | _ => foldr and True (map (rune_ok ok) sub)
  end.

Lemma adv_nil p : adv [] p p.
Proof. by destruct p. Qed.

Lemma prev_after_app pr w1 w2 :
  prev_after pr (w1 ++ w2) = prev_after (prev_after pr w1) w2.
Proof.
  unfold prev_after. rewrite last_app. by destruct (last w2).
Qed.

Lemma adv_app w1 w2 p m q : adv w1 p m -> adv w2 m q -> adv (w1 ++ w2) p q.
Proof.
  intros [H1 H2] [H3 H4]. split.
  - by rewrite H1, H3, app_assoc.
  - by rewrite H4, H2, prev_after_app.
Qed.

Lemma adv_nil_inv p q : adv [] p q -> p = q.
Proof. destruct p, q; unfold adv, prev_after; simpl; intros [-> ->]; done. Qed.

(** [K ok]: some cells whose runes satisfy [ok] are consumed. *)
Definition K (ok : Z -> Prop) : prel := fun p q =>
  exists w, adv w p q /\ Forall (fun c => ok c.1) w.

#[local] Instance K_preorder ok : PreOrder (K ok).
Proof.
  split.
  - intros p. exists []. split; [apply adv_nil | constructor].
  - intros p m q (w1 & H1 & F1) (w2 & H2 & F2).
    exists (w1 ++ w2). split; [by eapply adv_app | by apply Forall_app].
Qed.

Lemma K_one ok t p q :
  (forall r, t r = true -> ok r) -> one_rel t p q -> K ok p q.
Proof.
  intros Ht (c & Hc & Hq & Hok). exists [c]. split; [done|].
  constructor; [by apply Ht | constructor].
Qed.

Lemma K_test ok t p q : test_rel t p q -> K ok p q.
Proof. by intros [-> _]. Qed.

Lemma K_rtc ok r p q : (forall p q, r p q -> K ok p q) -> rtc r p q -> K ok p q.
Proof. intros Hr. induction 1; [done|]. etrans; [by apply Hr | done]. Qed.

Lemma K_concat ok rs p q :
  Forall (fun r : prel => forall p q, r p q -> K ok p q) rs ->
  concat_rel rs p q -> K ok p q.
Proof.
  revert p. induction rs as [|r rs IH]; intros p Hrs; simpl.
  - by intros ->.
  - inversion_clear Hrs as [|? ? Hr Hrs']. intros (m & H1 & H2). etrans; eauto.
Qed.

Lemma K_repeat ok mn mx r p q :
  (forall p q, r p q -> K ok p q) -> repeat_rel mn mx r p q -> K ok p q.
Proof.
  intros Hr. unfold repeat_rel. destruct (mx <? 0)%Z; apply K_concat.
  - apply Forall_app; split; [by apply Forall_replicate|].
    constructor; [intros ??; by apply K_rtc | done].
  - apply Forall_app; split; apply Forall_replicate; [done|].
    by intros ?? [->|?]; [|apply Hr].
Qed.

Lemma K_first ok rs p q :
  Forall (fun r : prel => forall p q, r p q -> K ok p q) rs ->
  first_rel rs p q -> K ok p q.
Proof. destruct 1; simpl; [done | auto]. Qed.

Lemma rune_ok_subs ok sub :
  foldr and True (map (rune_ok ok) sub) <-> Forall (rune_ok ok) sub.
Proof.
  induction sub as [|r sub IH]; simpl; [done|]. by rewrite Forall_cons, IH.
Qed.

(** Every match moves forward through the text. *)
Lemma Rel_advance ok re p q : rune_ok ok re -> Rel re p q -> K ok p q.
Proof.
  revert p q.
  induction re as [op fl sub ru mn mx cap nm IH] using Regexp_nested_ind.
  intros p q Hok HR.
  assert (Hs : Forall (rune_ok ok) sub ->
            Forall (fun r : prel => forall p q, r p q -> K ok p q) (map Rel sub)).
  { intros Hf. rewrite Forall_map. rewrite Forall_forall in IH, Hf |- *.
    intros r Hr p' q' HR'. eapply IH; eauto. }
  destruct op; simpl in Hok, HR; try rewrite rune_ok_subs in Hok;
    try specialize (Hs Hok).
  - done.
  - by rewrite HR.
  - eapply K_concat; [|exact HR]. rewrite Forall_map, Forall_forall.
    intros lit Hl p' q'. apply K_one. intros r. by apply Hok.
  - eapply K_one; eauto.
  - eapply K_one; [|exact HR]. intros r Hr. apply Hok.
    by apply negb_true_iff, Z.eqb_neq in Hr.
  - eapply K_one; eauto.
  - by eapply K_test.
  - by eapply K_test.
  - by eapply K_test.
  - by eapply K_test.
  - by eapply K_test.
  - by eapply K_test.
  - by eapply K_first.
  - eapply K_rtc; [|exact HR]. intros ??. by apply K_first.
  - eapply (K_concat _ [_; _]); [|exact HR]. repeat constructor.
    + intros ??. by apply K_first.
    + intros ?? ?. eapply K_rtc; [|done]. intros ??. by apply K_first.
  - destruct HR as [->|HR]; [done | by eapply K_first].
  - eapply K_repeat; [|exact HR]. intros ??. by apply K_first.
  - by eapply K_concat.
  - destruct HR as (r & Hr & HR). rewrite Forall_forall in Hs. by eapply Hs.
Qed.

Lemma rune_ok_any re : rune_ok (fun _ => True) re.
Proof.
  induction re as [op fl sub ru mn mx cap nm IH] using Regexp_nested_ind.
  destruct op; simpl; try done; by apply rune_ok_subs.
Qed.

Lemma Rel_adv re p q : Rel re p q -> exists w, adv w p q.
Proof.
  intros HR. destruct (Rel_advance (fun _ => True) re p q) as (w & Hw & _);
    eauto using rune_ok_any.
Qed.

(** *** The executable matcher computes the relation *)
Definition agrees (f : pos -> list pos) (r : prel) : Prop :=
  forall p q, q ∈ f p <-> r p q.

Lemma agrees_one t : agrees (one t) (one_rel t).
Proof.
  intros [pr [|c rest]] [pr' rest']; unfold one, one_rel; simpl.
  - rewrite elem_of_nil. split; [done | by intros (? & ? & _)].
  - split.
    + case_match; [|by rewrite elem_of_nil].
      rewrite list_elem_of_singleton. intros [= -> ->]. eauto.
    + intros (c' & [= -> ->] & -> & ->). by apply list_elem_of_singleton.
Qed.

Lemma agrees_test t : agrees (test t) (test_rel t).
Proof.
  intros p q. unfold test, test_rel. case_match.
  - rewrite list_elem_of_singleton. naive_solver.
  - rewrite elem_of_nil. naive_solver.
Qed.

Lemma agrees_concat fs rs :
  Forall2 agrees fs rs -> agrees (concat_ends fs) (concat_rel rs).
Proof.
  induction 1 as [|f r fs rs Hf Hfs IH]; intros p q; simpl.
  - rewrite list_elem_of_singleton. naive_solver.
  - rewrite list_elem_of_bind. split.
    + intros (m & H2 & H1). exists m. split; [by apply Hf | by apply IH].
    + intros (m & H1 & H2). exists m. split; [by apply IH | by apply Hf].
Qed.

Lemma agrees_alt fs rs :
  Forall2 agrees fs rs -> agrees (alt_ends fs) (alt_rel rs).
Proof.
  intros HF p q. unfold alt_ends, alt_rel. rewrite list_elem_of_bind. split.
  - intros (f & Hq & Hf). apply list_elem_of_lookup in Hf as [i Hi].
    destruct (Forall2_lookup_l _ _ _ _ _ HF Hi) as (r & Hr & Ha).
    exists r. split; [by eapply list_elem_of_lookup_2 | by apply Ha].
  - intros (r & Hr & Hq). apply list_elem_of_lookup in Hr as [i Hi].
    destruct (Forall2_lookup_r _ _ _ _ _ HF Hi) as (f & Hf & Ha).
    exists f. split; [by apply Ha | by eapply list_elem_of_lookup_2].
Qed.

Lemma agrees_opt f r : agrees f r -> agrees (opt_ends f) (opt_rel r).
Proof.
  intros Ha p q. unfold opt_ends, opt_rel. rewrite elem_of_cons, (Ha p q).
  naive_solver.
Qed.

Lemma agrees_first fs rs :
  Forall2 agrees fs rs -> agrees (first_sub fs) (first_rel rs).
Proof.
  destruct 1; [|done]. intros p q. simpl. by rewrite elem_of_nil.
Qed.

Lemma star_ends_sound n f r p q :
  agrees f r -> q ∈ star_ends n f p -> rtc r p q.
Proof.
  intros Ha. revert p. induction n as [|n IH]; intros p; simpl.
  - rewrite list_elem_of_singleton. by intros ->.
  - rewrite elem_of_cons, list_elem_of_bind.
    intros [->|(m & Hm & Hf)]; [done|].
    destruct (length m.2 <? length p.2); [|by rewrite elem_of_nil in Hm].
    eapply rtc_l; [by apply Ha | by apply IH].
Qed.

Lemma star_ends_complete n f r p q :
  agrees f r -> (forall p q, r p q -> exists w, adv w p q) ->
  length p.2 <= n -> rtc r p q -> q ∈ star_ends n f p.
Proof.
  intros Ha Hadv. revert p.
  induction n as [n IH] using lt_wf_ind. intros p Hn Hr. revert Hn.
  induction Hr as [p | p m q Hpm Hmq IHr]; intros Hn.
  - destruct n; simpl; by apply list_elem_of_here.
  - destruct (Hadv _ _ Hpm) as (w & Hw). destruct w as [|c w].
    + apply adv_nil_inv in Hw as ->. by apply IHr.
    + destruct Hw as [Hw _]. rewrite Hw in Hn. simpl in Hn. rewrite length_app in Hn.
      destruct n as [|n]; [lia|]. simpl. rewrite elem_of_cons, list_elem_of_bind.
      right. exists m. split; [|by apply Ha].
      rewrite Hw; simpl. rewrite length_app, (proj2 (Nat.ltb_lt _ _)) by lia.
      apply IH; [lia | lia | done].
Qed.

Lemma agrees_star f r :
  agrees f r -> (forall p q, r p q -> exists w, adv w p q) -> agrees (star f) (rtc r).
Proof.
  intros Ha Hadv p q. split; [by apply star_ends_sound|].
  intros. eapply star_ends_complete; eauto.
Qed.

Lemma agrees_repeat mn mx f r :
  agrees f r -> (forall p q, r p q -> exists w, adv w p q) ->
  agrees (repeat_ends mn mx f) (repeat_rel mn mx r).
Proof.
  intros Ha Hadv. unfold repeat_ends, repeat_rel.
  destruct (mx <? 0)%Z; apply agrees_concat, Forall2_app.
  - by apply Forall2_replicate.
  - constructor; [by apply agrees_star | constructor].
  - by apply Forall2_replicate.
  - apply Forall2_replicate. by apply agrees_opt.
Qed.

Lemma first_rel_adv sub p q : first_rel (map Rel sub) p q -> exists w, adv w p q.
Proof. destruct sub; simpl; [done | apply Rel_adv]. Qed.

Lemma ends_Rel re : agrees (ends re) (Rel re).
Proof.
  induction re as [op fl sub ru mn mx cap nm IH] using Regexp_nested_ind.
  assert (HF : Forall2 agrees (map ends sub) (map Rel sub)).
  { induction IH; simpl; by constructor. }
  pose proof (first_rel_adv sub) as Hadv.
  destruct op; simpl.
  - intros p q. by rewrite elem_of_nil.
  - intros p q. rewrite list_elem_of_singleton. naive_solver.
  - apply agrees_concat. clear. induction ru; simpl; constructor;
      [apply agrees_one | done].
  - apply agrees_one.
  - apply agrees_one.
  - apply agrees_one.
  - apply agrees_test.
  - apply agrees_test.
  - apply agrees_test.
  - apply agrees_test.
  - apply agrees_test.
  - apply agrees_test.
  - by apply agrees_first.
  - apply agrees_star; [by apply agrees_first | done].
  - apply (agrees_concat [_; _] [_; _]). constructor; [by apply agrees_first|].
    constructor; [|constructor]. apply agrees_star; [by apply agrees_first | done].
  - by apply agrees_opt, agrees_first.
  - apply agrees_repeat; [by apply agrees_first | done].
  - by apply agrees_concat.
  - by apply agrees_alt.
Qed.

Lemma matches_at_Rel re p : matches_at re p = true <-> exists q, Rel re p q.
Proof.
  unfold matches_at. rewrite negb_true_iff, bool_decide_eq_false. split.
  - destruct (ends re p) as [|q l] eqn:E; [done|]. intros _. exists q.
    apply ends_Rel. rewrite E. by apply list_elem_of_here.
  - intros [q Hq] E. apply ends_Rel in Hq. rewrite E in Hq.
    by apply elem_of_nil in Hq.
Qed.

(** *** Searching *)
Lemma starts_elem prev text p :
  p ∈ starts prev text <-> exists w, adv w (prev, text) p.
Proof.
  revert prev. induction text as [|c text IH]; intros prev; simpl.
  - rewrite list_elem_of_singleton. split.
    + intros ->. exists []. apply adv_nil.
    + intros ([|d w] & Ha); [by apply adv_nil_inv in Ha | by destruct Ha].
  - rewrite elem_of_cons, IH. split.
    + intros [->|(w & Ha)]; [exists []; apply adv_nil|].
      exists ([c] ++ w). eapply adv_app; [|done]. by split.
    + intros ([|d w] & Ha); [left; by apply adv_nil_inv in Ha|].
      right. destruct Ha as [H1 H2]. simpl in *. injection H1 as -> ->.
      exists w. split; [done|]. simpl. rewrite H2.
      change (d :: w) with ([d] ++ w). apply prev_after_app.
Qed.

(** A match is found exactly when some start position has one. *)
Lemma MatchString_spec re s :
  MatchString re s = true <->
  exists w p q, adv w (None, decode s) p /\ Rel re p q.
Proof.
  unfold MatchString, FindStringIndex.
  destruct (List.find _ _) as [p|] eqn:E; simpl.
  - apply List.find_some in E as [E1 E2]. apply list_elem_of_In, starts_elem in E1.
    apply matches_at_Rel in E2. split; [|done]. intros _. naive_solver.
  - split; [done|]. intros (w & p & q & Hw & HR).
    apply (List.find_none _ _) with (x := p) in E.
    + assert (matches_at re p = true) by (apply matches_at_Rel; eauto). congruence.
    + apply list_elem_of_In, starts_elem. eauto.
Qed.

Lemma FindStringIndex_Some re s i :
  FindStringIndex re s = Some i ->
  exists w p q, adv w (None, decode s) p /\ Rel re p q /\ i = cells_len w.
Proof.
  unfold FindStringIndex. intros Hi.
  destruct (List.find _ _) as [p|] eqn:E; simpl in Hi; [|done]. injection Hi as <-.
  apply List.find_some in E as [E1 E2]. apply list_elem_of_In, starts_elem in E1.
  apply matches_at_Rel in E2 as [q HR]. destruct E1 as [w Hw].
  exists w, p, q. split_and!; [done..|]. destruct Hw as [Hw _]. simpl in Hw.
  rewrite <- (decode_len s), Hw, cells_len_app. lia.
Qed.

Lemma MatchString_FindStringIndex re s :
  MatchString re s = true <-> is_Some (FindStringIndex re s).
Proof.
  unfold MatchString. destruct (FindStringIndex re s).
  - split; [intros _; eauto | done].
  - split; [done | by intros [? ?]].
Qed.
End Relation.
