(* ===== verification/GoTime.v ===== *)
(** Package [time] as node-problem-detector uses it: instants, durations with
    their saturating subtraction, [ParseDuration] and [Duration.String], and
    IEEE 754 binary64 arithmetic (through [SpecFloat], which computes). *)

From Stdlib Require Import SpecFloat.
From S2P Require Import Prelude GoStrings.

(** ** float64 *)
Abbreviation float64 := spec_float.
Definition f64_mul : float64 -> float64 -> float64 := SFmul 53 1024.
Definition f64_div : float64 -> float64 -> float64 := SFdiv 53 1024.
Definition f64_sub : float64 -> float64 -> float64 := SFsub 53 1024.
Definition f64_add : float64 -> float64 -> float64 := SFadd 53 1024.

(** [float64(z)] for an integer [z], rounding to nearest even. *)
Definition f64_of_Z (z : Z) : float64 := binary_normalize 53 1024 z 0 false.

(** [uint64(f)] for [f] in range: truncation toward zero. *)
Definition Z_of_f64 (f : float64) : Z :=
  match f with
  | S754_finite s m e =>
    let v := if (0 <=? e)%Z then Z.shiftl (Z.pos m) e else Z.shiftr (Z.pos m) (- e) in
    if s then Z.opp v else v
  | _ => 0%Z
  end.

(** ** Instants and durations

    [time.Time] is the number of nanoseconds since the zero time (January 1,
    year 1, UTC); a [time.Duration] is a number of nanoseconds in int64. *)
Definition Time := Z.
Definition Duration := Z.
Bind Scope Z_scope with Time Duration.
#[export] Instance Time_eq_dec : EqDecision Time := Z.eq_dec.
#[export] Instance Duration_eq_dec : EqDecision Duration := Z.eq_dec.

Definition Time_zero : Time := 0%Z.

Definition Nanosecond : Duration := 1%Z.
Definition Microsecond : Duration := 1000%Z.
Definition Millisecond : Duration := 1000000%Z.
Definition Second : Duration := 1000000000%Z.
Definition Minute : Duration := 60000000000%Z.
Definition Hour : Duration := 3600000000000%Z.

Definition Time_Add (t : Time) (d : Duration) : Time := (t + d)%Z.
Definition Time_Before (t u : Time) : bool := (t <? u)%Z.

(** [t.Sub(u)] saturates at the ends of the Duration range. *)
Definition Time_Sub (t u : Time) : Duration :=
  Z.max int64_min (Z.min int64_max (t - u)).

(** The Unix epoch, [t.UnixNano()] and [time.Unix(0, ns)]. *)
Definition unixEpoch : Time := (62135596800 * 1000000000)%Z.
Definition Time_UnixNano (t : Time) : Z := int64 (t - unixEpoch).
Definition time_Unix_ns (ns : Z) : Time := (unixEpoch + ns)%Z.

Lemma Time_Sub_ge t u d :
  in_int64 d -> (d <= Time_Sub t u)%Z <-> (u + d <= t)%Z \/ d = int64_min.
Proof. unfold in_int64, Time_Sub. lia. Qed.

(** ** ParseDuration *)
Definition is_digit (c : ascii) : bool :=
  ((48 <=? byte_val c) && (byte_val c <=? 57))%Z.
Definition digit_val (c : ascii) : Z := (byte_val c - 48)%Z.
Definition is_dot (c : ascii) : bool := Z.eqb (byte_val c) 46.

(** [leadingInt]: consumes the leading digits; [None] on overflow. *)
Fixpoint leadingInt (x : Z) (s : string) : option (Z * string) :=
  match s with
  | String c t =>
    if is_digit c then
      if (2 ^ 63 / 10 <? x)%Z then None
      else
        let x := (x * 10 + digit_val c)%Z in
        if (2 ^ 63 <? x)%Z then None else leadingInt x t
    else Some (x, s)
  | EmptyString => Some (x, s)
  end.

(** [leadingFraction]: consumes the leading digits; ignores the excess. *)
Fixpoint leadingFraction (x : Z) (scale : float64) (overflow : bool) (s : string)
    : Z * float64 * string :=
  match s with
  | String c t =>
    if is_digit c then
      if overflow then leadingFraction x scale true t
      else if ((2 ^ 63 - 1) / 10 <? x)%Z then leadingFraction x scale true t
      else
        let y := (x * 10 + digit_val c)%Z in
        if (2 ^ 63 <? y)%Z then leadingFraction x scale true t
        else leadingFraction y (f64_mul scale (f64_of_Z 10)) false t
    else (x, scale, s)
  | EmptyString => (x, scale, s)
  end.

(** The unit: everything up to the next digit or dot. *)
Fixpoint takeUnit (s : string) : string * string :=
  match s with
  | String c t =>
    if is_dot c || is_digit c then ("", s)
    else let '(u, r) := takeUnit t in (String c u, r)
  | EmptyString => ("", "")
  end.

(** U+00B5 and U+03BC (micro) in UTF-8, followed by "s". *)
Definition micro1_s : string := String (byte_of 194) (String (byte_of 181) "s").
Definition micro2_s : string := String (byte_of 206) (String (byte_of 188) "s").

Definition unitMap (u : string) : option Z :=
  if String.eqb u "ns" then Some Nanosecond
  else if String.eqb u "us" then Some Microsecond
  else if String.eqb u micro1_s then Some Microsecond
  else if String.eqb u micro2_s then Some Microsecond
  else if String.eqb u "ms" then Some Millisecond
  else if String.eqb u "s" then Some Second
  else if String.eqb u "m" then Some Minute
  else if String.eqb u "h" then Some Hour
  else None.

(** The digits of one group, before the unit:
    [(v, f, scale, rest, some digit consumed)]. *)
Definition parseNumber (s : string) : option (Z * Z * float64 * string * bool) :=
  match leadingInt 0 s with
  | None => None
  | Some (v, s1) =>
    let pre := negb (String.length s1 =? String.length s) in
    match s1 with
    | String c s2 =>
      if is_dot c then
        let '(f, scale, s3) := leadingFraction 0 (f64_of_Z 1) false s2 in
        Some (v, f, scale, s3, pre || negb (String.length s3 =? String.length s2))
      else Some (v, 0%Z, f64_of_Z 1, s1, pre)
    | EmptyString => Some (v, 0%Z, f64_of_Z 1, s1, pre)
    end
  end.

(** One iteration of the loop: the value of a group and the rest. *)
Definition parseGroup (s : string) : result (Z * string) :=
  match parseNumber s with
  | None => Err "time: invalid duration"
  | Some (v, f, scale, s', consumed) =>
    if negb consumed then Err "time: invalid duration" else
    let '(u, rest) := takeUnit s' in
    if String.eqb u "" then Err "time: missing unit in duration" else
    match unitMap u with
    | None => Err "time: unknown unit in duration"
    | Some unit =>
      if (2 ^ 63 / unit <? v)%Z then Err "time: invalid duration" else
      let v := (v * unit)%Z in
      let v := if (0 <? f)%Z
               then (v + Z_of_f64 (f64_mul (f64_of_Z f) (f64_div (f64_of_Z unit) scale)))%Z
               else v in
      if (2 ^ 63 <? v)%Z then Err "time: invalid duration" else Ok (v, rest)
    end
  end.

(** The loop over groups.  Every group consumes at least its unit, so the
    length of the string is enough fuel. *)
Fixpoint parseGroups (fuel : nat) (d : Z) (s : string) : result Z :=
  match s with
  | EmptyString => Ok d
  | String c _ =>
    if negb (is_dot c || is_digit c) then Err "time: invalid duration" else
    match fuel with
    | O => Err "time: invalid duration"
    | S n =>
      match parseGroup s with
      | Err e => Err e
      | Ok (v, rest) =>
        let d := (d + v)%Z in
        if (2 ^ 63 <? d)%Z then Err "time: invalid duration" else parseGroups n d rest
      end
    end
  end.

Definition ParseDuration (s : string) : result Duration :=
  let '(neg, s) :=
    match s with
    | String c t =>
      if Z.eqb (byte_val c) 45 then (true, t)
      else if Z.eqb (byte_val c) 43 then (false, t) else (false, s)
    | EmptyString => (false, s)
    end in
  if String.eqb s "0" then Ok 0%Z
  else if String.eqb s "" then Err "time: invalid duration"
  else
    match parseGroups (String.length s) 0 s with
    | Err e => Err e
    | Ok d =>
      if neg then Ok (- d)%Z
      else if (2 ^ 63 - 1 <? d)%Z then Err "time: invalid duration" else Ok d
    end.

Example ParseDuration_ex1 : ParseDuration "1h15m30.918273645s" = Ok 4530918273645%Z.
Proof. vm_compute. reflexivity. Qed.
Example ParseDuration_ex2 : ParseDuration "-1.5h" = Ok (-5400000000000)%Z.
Proof. vm_compute. reflexivity. Qed.
Example ParseDuration_ex3 : ParseDuration "3" = Err "time: missing unit in duration".
Proof. vm_compute. reflexivity. Qed.
Example ParseDuration_ex4 : ParseDuration "9223372036854775807ns" = Ok int64_max.
Proof. vm_compute. reflexivity. Qed.
Example ParseDuration_ex5 : ParseDuration "9223372036854775808ns" = Err "time: invalid duration".
Proof. vm_compute. reflexivity. Qed.

(** ** Duration.String *)
Definition digit_char (d : Z) : ascii := byte_of (d + 48).

(** [fmtInt]: decimal digits, least significant first; 20 digits hold a
    uint64. *)
Fixpoint fmtInt_fuel (n : nat) (v : Z) (acc : string) : string :=
  match n with
  | O => acc
  | S n =>
    let acc := String (digit_char (v mod 10)) acc in
    if (v / 10 =? 0)%Z then acc else fmtInt_fuel n (v / 10)%Z acc
  end.
Definition fmtInt (v : Z) : string := fmtInt_fuel 20 v "".

(** [fmtFrac]: the fraction v/10**prec without trailing zeros, and v/10**prec. *)
Fixpoint fmtFrac (prec : nat) (v : Z) (print : bool) (acc : string) : string * Z :=
  match prec with
  | O => (if print then String "." acc else acc, v)
  | S n =>
    let digit := (v mod 10)%Z in
    let print := print || negb (digit =? 0)%Z in
    fmtFrac n (v / 10)%Z print (if print then String (digit_char digit) acc else acc)
  end.

Definition Duration_String (d : Duration) : string :=
  let u := Z.abs d in
  let body :=
    if (u <? Second)%Z then
      if (u =? 0)%Z then "0s"
      else
        let '(prec, unit) :=
          if (u <? Microsecond)%Z then (0, "ns")
          else if (u <? Millisecond)%Z then (3, micro1_s) else (6, "ms") in
        let '(frac, u) := fmtFrac prec u false "" in
        fmtInt u +:+ (frac +:+ unit)
    else
      let '(frac, u) := fmtFrac 9 u false "" in
      let secs := fmtInt (u mod 60) +:+ (frac +:+ "s") in
      let u := (u / 60)%Z in
      if (u =? 0)%Z then secs
      else
        let mins := fmtInt (u mod 60) +:+ ("m" +:+ secs) in
        let u := (u / 60)%Z in
        if (u =? 0)%Z then mins else fmtInt u +:+ ("h" +:+ mins)
  in if (d <? 0)%Z then "-" +:+ body else body.

Example Duration_String_ex :
  (Duration_String (90 * Minute + 1500 * Millisecond)%Z, Duration_String (5 * Minute)%Z)
  = ("1h30m1.5s", "5m0s").
Proof. vm_compute. reflexivity. Qed.
