(* ===== verification/GoConv.v ===== *)
(** Conversions of the Go standard library between strings, lists of strings and
    integers: [strings.Split], [strings.SplitN], [strconv.Atoi] and the decimal
    form of an int, with their round trips. *)

From S2P Require Import Prelude GoStrings GoTime.

(** [strings.Split] at a one-byte separator. *)
Fixpoint split_byte (z : Z) (s : string) : list string :=
  match s with
  | EmptyString => [""]
  | String c t =>
    if byte_is z c then "" :: split_byte z t
    else match split_byte z t with
         | [] => [String c ""]
         | x :: xs => String c x :: xs
         end
  end.

(** [strings.SplitN(s, sep, 2)] at a one-byte separator. *)
Fixpoint cut_byte (z : Z) (s : string) : string * option string :=
  match s with
  | EmptyString => ("", None)
  | String c t =>
    if byte_is z c then ("", Some t)
    else let '(a, b) := cut_byte z t in (String c a, b)
  end.

Fixpoint parse_digits (x : Z) (s : string) : option Z :=
  match s with
  | EmptyString => Some x
  | String c t => if is_decimal c then parse_digits (x * 10 + (byte_val c - 48)) t else None
  end.

(** [strconv.Atoi]: an optional sign, digits, and a value that fits. *)
Definition strconv_Atoi (s : string) : result Z :=
  let '(neg, digits) :=
    match s with
    | String c t => if byte_is 45 c then (true, t) else if byte_is 43 c then (false, t) else (false, s)
    | EmptyString => (false, s)
    end in
  match digits with
  | EmptyString => Err "strconv.Atoi: invalid syntax"
  | _ =>
    match parse_digits 0 digits with
    | None => Err "strconv.Atoi: invalid syntax"
    | Some x =>
      let v := if neg : bool then (- x)%Z else x in
      if ((int64_min <=? v) && (v <=? int64_max))%Z then Ok v
      else Err "strconv.Atoi: value out of range"
    end
  end.

(** The decimal form of an int. *)
Definition format_int (z : Z) : string := if (z <? 0)%Z then "-" +:+ fmtInt (- z) else fmtInt z.

(** [net.JoinHostPort] *)
Definition JoinHostPort (host port : string) : string :=
  if strings_Contains host ":" then "[" +:+ host +:+ "]:" +:+ port else host +:+ ":" +:+ port.

(** ** Lemmas *)
Fixpoint all_chars (f : ascii -> bool) (s : string) : bool :=
  match s with
  | EmptyString => true
  | String c t => f c && all_chars f t
  end.

(** No byte [z] in the string. *)
Definition free_of (z : Z) (s : string) : bool := all_chars (fun c => negb (byte_is z c)) s.

Lemma all_chars_app f s t : all_chars f (s +:+ t) = all_chars f s && all_chars f t.
Proof. induction s as [|c s IH]; simpl; [done|]. by rewrite IH, andb_assoc. Qed.

Lemma all_chars_impl (f g : ascii -> bool) s :
  (forall c, f c = true -> g c = true) -> all_chars f s = true -> all_chars g s = true.
Proof.
  intros Hfg. induction s as [|c s IH]; simpl; [done|].
  intros [Hc Hs]%andb_true_iff. by rewrite (Hfg c Hc), IH.
Qed.

Lemma split_byte_free z s : free_of z s = true -> split_byte z s = [s].
Proof.
  unfold free_of. induction s as [|c s IH]; simpl; [done|].
  intros [Hc Hs]%andb_true_iff. apply negb_true_iff in Hc. by rewrite Hc, (IH Hs).
Qed.

Lemma split_byte_app z s c t :
  free_of z s = true -> byte_is z c = true ->
  split_byte z (s +:+ String c t) = s :: split_byte z t.
Proof.
  unfold free_of. intros Hs Hz. induction s as [|d s IH]; simpl.
  - by rewrite Hz.
  - simpl in Hs. apply andb_true_iff in Hs as [Hd Hs]. apply negb_true_iff in Hd.
    by rewrite Hd, (IH Hs).
Qed.

(** [strings.Split] undoes [strings.Join]. *)
Lemma split_byte_Join z c es :
  byte_is z c = true -> es <> [] -> Forall (fun e => free_of z e = true) es ->
  split_byte z (strings_Join es (String c "")) = es.
Proof.
  intros Hz. induction es as [|e es IH]; [done|]. intros _ [He Hes]%Forall_cons.
  destruct es as [|e' es].
  - simpl. by apply split_byte_free.
  - rewrite strings_Join_cons by done.
    change (String c "" +:+ ?x) with (String c x).
    rewrite split_byte_app by done. by rewrite IH.
Qed.

Lemma split_byte_cons z s : exists x xs, split_byte z s = x :: xs.
Proof.
  destruct s as [|c s]; simpl; [eauto|]. destruct (byte_is z c); [eauto|].
  destruct (split_byte z s); eauto.
Qed.

(** Text appended behind the last separator extends the last part. *)
Lemma split_byte_snoc z text ls b s :
  split_byte z text = ls ++ [b] -> free_of z s = true -> split_byte z (text +:+ s) = ls ++ [b +:+ s].
Proof.
  intros H Hs. revert ls b H. induction text as [|c text IH]; intros ls b H; simpl in *.
  - destruct ls as [|l [|? ?]]; simplify_eq/=. by apply split_byte_free.
  - destruct (split_byte_cons z text) as (x & xs & E). rewrite E in *.
    destruct (byte_is z c); destruct ls as [|l ls]; simplify_eq/=.
    + by erewrite IH by done.
    + by rewrite (IH [] _ eq_refl).
    + by rewrite (IH (x :: ls) _ eq_refl).
Qed.

(** A separator at the end starts a new, empty part. *)
Lemma split_byte_snoc_sep z c text ls b :
  split_byte z text = ls ++ [b] -> byte_is z c = true ->
  split_byte z (text +:+ String c "") = ls ++ [b; ""].
Proof.
  intros H Hc. revert ls b H. induction text as [|d text IH]; intros ls b H; simpl in *.
  - destruct ls as [|l [|? ?]]; simplify_eq/=. by rewrite Hc.
  - destruct (split_byte_cons z text) as (x & xs & E). rewrite E in *.
    destruct (byte_is z d); destruct ls as [|l ls]; simplify_eq/=.
    + by erewrite IH by done.
    + by rewrite (IH [] _ eq_refl).
    + by rewrite (IH (x :: ls) _ eq_refl).
Qed.

Lemma cut_byte_app z s c t :
  free_of z s = true -> byte_is z c = true -> cut_byte z (s +:+ String c t) = (s, Some t).
Proof.
  unfold free_of. intros Hs Hz. induction s as [|d s IH]; simpl.
  - by rewrite Hz.
  - simpl in Hs. apply andb_true_iff in Hs as [Hd Hs]. apply negb_true_iff in Hd.
    by rewrite Hd, (IH Hs).
Qed.

(** *** Decimal digits *)
Lemma byte_val_of z : (0 <= z < 256)%Z -> byte_val (byte_of z) = z.
Proof.
  intros Hz. unfold byte_val, byte_of. rewrite N_ascii_embedding by lia. lia.
Qed.

Lemma digit_byte d : (0 <= d < 10)%Z -> byte_val (digit_char d) = (d + 48)%Z.
Proof. intros Hd. apply byte_val_of. lia. Qed.

Lemma digit_decimal d : (0 <= d < 10)%Z -> is_decimal (digit_char d) = true.
Proof. intros Hd. unfold is_decimal. rewrite digit_byte by done. lia. Qed.

Lemma fmtInt_fuel_digits n v acc :
  all_chars is_decimal acc = true -> all_chars is_decimal (fmtInt_fuel n v acc) = true.
Proof.
  revert v acc. induction n as [|n IH]; intros v acc Ha; cbn [fmtInt_fuel]; [done|].
  assert (Hd : all_chars is_decimal (String (digit_char (v mod 10)) acc) = true).
  { simpl. by rewrite Ha, digit_decimal by (apply Z.mod_pos_bound; lia). }
  case_match; [done|]. by apply IH.
Qed.

Lemma parse_fmtInt_fuel n v :
  n <> 0 -> (0 <= v < 10 ^ Z.of_nat n)%Z ->
  exists k, forall x acc, parse_digits x (fmtInt_fuel n v acc) = parse_digits (x * k + v) acc.
Proof.
  revert v. induction n as [|n IH]; intros v Hn Hv; [done|].
  assert (Hm : (0 <= v mod 10 < 10)%Z) by (apply Z.mod_pos_bound; lia).
  pose proof (Z.div_mod v 10 ltac:(lia)) as Hdm.
  cbn [fmtInt_fuel]. destruct (Z.eqb_spec (v / 10) 0) as [Hq|Hq].
  - exists 10%Z. intros x acc. cbn [parse_digits]. rewrite digit_decimal, digit_byte by done.
    f_equal. lia.
  - rewrite Nat2Z.inj_succ, Z.pow_succ_r in Hv by lia.
    assert (Hlt : (0 <= v / 10 < 10 ^ Z.of_nat n)%Z) by (Z.to_euclidean_division_equations; lia).
    destruct n as [|n]; [simpl in Hlt; lia|].
    destruct (IH (v / 10)%Z ltac:(done) Hlt) as [k Hk]. exists (k * 10)%Z. intros x acc.
    rewrite Hk. cbn [parse_digits]. rewrite digit_decimal, digit_byte by done. f_equal. lia.
Qed.

Lemma parse_fmtInt v : (0 <= v < 10 ^ 20)%Z -> parse_digits 0 (fmtInt v) = Some v.
Proof.
  intros Hv. destruct (parse_fmtInt_fuel 20 v ltac:(done) Hv) as [k Hk].
  unfold fmtInt. by rewrite Hk.
Qed.

Lemma fmtInt_head v : exists c t, fmtInt v = String c t /\ is_decimal c = true.
Proof.
  assert (H : forall n v acc, n <> 0 -> exists c t, fmtInt_fuel n v acc = String c t).
  { induction n as [|n IH]; intros w acc Hn; [done|]. cbn [fmtInt_fuel].
    case_match; [eauto|]. destruct n as [|n]; [eauto|]. by apply IH. }
  destruct (H 20 v "" ltac:(done)) as (c & t & E). exists c, t. split; [done|].
  pose proof (fmtInt_fuel_digits 20 v "" eq_refl) as Hd. rewrite E in Hd. simpl in Hd.
  by apply andb_true_iff in Hd as [? _].
Qed.

Lemma Atoi_range v e :
  in_int64 v -> (if ((int64_min <=? v) && (v <=? int64_max))%Z then Ok v else Err e) = Ok v.
Proof.
  unfold in_int64. intros Hv. by rewrite (proj2 (Z.leb_le _ _)), (proj2 (Z.leb_le _ _)) by lia.
Qed.

Lemma Atoi_neg s v :
  s <> "" -> parse_digits 0 s = Some v -> in_int64 (- v) -> strconv_Atoi (String "-" s) = Ok (- v)%Z.
Proof.
  intros Hs Hp Hv. destruct s as [|c t]; [done|].
  trans (match parse_digits 0 (String c t) with
         | None => Err "strconv.Atoi: invalid syntax"
         | Some x => if ((int64_min <=? - x) && (- x <=? int64_max))%Z then Ok (- x)%Z
                     else Err "strconv.Atoi: value out of range"
         end); [reflexivity|].
  rewrite Hp. by apply Atoi_range.
Qed.

(** [strconv.Atoi] reads what is printed for an int. *)
Lemma Atoi_format_int z : in_int64 z -> strconv_Atoi (format_int z) = Ok z.
Proof.
  intros Hz. pose proof Hz as Hb. unfold in_int64, int64_min, int64_max in Hb.
  unfold format_int. destruct (Z.ltb_spec z 0) as [Hn|Hn].
  - destruct (fmtInt_head (- z)) as (c & t & E & Hc). pose proof (parse_fmtInt (- z) ltac:(lia)) as Hp.
    rewrite E in *. rewrite <- (Z.opp_involutive z).
    apply Atoi_neg; [done.. |]. by rewrite Z.opp_involutive.
  - destruct (fmtInt_head z) as (c & t & E & Hc). pose proof (parse_fmtInt z ltac:(lia)) as Hp.
    rewrite E in Hp. rewrite E. unfold is_decimal in Hc. unfold strconv_Atoi, byte_is.
    rewrite (proj2 (Z.eqb_neq (byte_val c) 45)), (proj2 (Z.eqb_neq (byte_val c) 43)) by lia.
    rewrite Hp. by apply Atoi_range.
Qed.

(** The printed form holds a sign and digits only. *)
Lemma format_int_free b z : (b < 45 \/ 45 < b < 48 \/ 57 < b)%Z -> free_of b (format_int z) = true.
Proof.
  intros Hb. unfold free_of, format_int.
  assert (H : forall v, all_chars (fun c => negb (byte_is b c)) (fmtInt v) = true).
  { intros v. apply (all_chars_impl is_decimal); [|by apply fmtInt_fuel_digits].
    unfold is_decimal, byte_is. intros c Hc. apply negb_true_iff, Z.eqb_neq. lia. }
  case_match; [|done]. simpl. rewrite H, andb_true_r. unfold byte_is.
  apply negb_true_iff, Z.eqb_neq. change (byte_val "-") with 45%Z. lia.
Qed.
