(* ===== verification/GoPath.v ===== *)
(** Package [path/filepath] on Unix, as far as the program uses it: [IsAbs],
    [Clean], [Join] and [Dir]. *)

From S2P Require Import Prelude GoStrings GoConv.

Definition slash : string := "/".

Definition filepath_IsAbs (path : string) : bool := strings_HasPrefix path slash.

(** One component of a path that is cleaned; [out] holds the components kept so
    far, the last one first. *)
Definition clean_step (rooted : bool) (out : list string) (c : string) : list string :=
  if String.eqb c "" || String.eqb c "." then out
  else if String.eqb c ".." then
    match out with
    | [] => if rooted then [] else [".."]
    | x :: rest => if String.eqb x ".." then ".." :: out else rest
    end
  else c :: out.

Definition clean_parts (rooted : bool) (parts : list string) : list string :=
  reverse (foldl (clean_step rooted) [] parts).

Definition render (rooted : bool) (parts : list string) : string :=
  let s := strings_Join parts slash in
  if rooted then slash +:+ s else if String.eqb s "" then "." else s.

Definition filepath_Clean (path : string) : string :=
  if String.eqb path "" then "."
  else
    let rooted := filepath_IsAbs path in
    render rooted (clean_parts rooted (split_byte 47 path)).

(** The elements from the first one that is not empty on are joined. *)
Fixpoint filepath_Join (elem : list string) : string :=
  match elem with
  | [] => ""
  | e :: rest =>
    if String.eqb e "" then filepath_Join rest else filepath_Clean (strings_Join elem slash)
  end.

(** All but the part behind the last slash, cleaned. *)
Definition filepath_Dir (path : string) : string :=
  let parts := split_byte 47 path in
  match reverse parts with
  | _ :: ((_ :: _) as init) => filepath_Clean (strings_Join (reverse init) slash +:+ slash)
  | _ => filepath_Clean ""
  end.

Example Clean_tests :
  (filepath_Clean "a//b/./c/..", filepath_Clean "/../a", filepath_Clean "../../x/..", filepath_Clean "/",
   filepath_Dir "/config/system-stats-monitor.json", filepath_Dir "x.json", filepath_Dir "/x",
   filepath_Join [""; "a"; "../b"], filepath_Join ["custom.googleapis.com/npd"; "host/uptime"])
  = ("a/b", "/a", "../..", "/", "/config", ".", "/", "b", "custom.googleapis.com/npd/host/uptime").
Proof. vm_compute. reflexivity. Qed.

(** *** Clean is a normal form *)

(** A component that is kept as it is. *)
Definition plain (c : string) : Prop :=
  c <> "" /\ c <> "." /\ c <> ".." /\ free_of 47 c = true.

(** Ups, then plain components; no ups below the root.  The last component comes
    first. *)
Inductive clean_out (rooted : bool) : list string -> Prop :=
| clean_ups n : (rooted = true -> n = 0) -> clean_out rooted (replicate n "..")
| clean_down c out : plain c -> clean_out rooted out -> clean_out rooted (c :: out).

Lemma clean_step_out rooted out c :
  free_of 47 c = true -> clean_out rooted out -> clean_out rooted (clean_step rooted out c).
Proof.
  intros Hf Ho. unfold clean_step.
  destruct (String.eqb_spec c "") as [->|H1]; simpl; [done|].
  destruct (String.eqb_spec c ".") as [->|H2]; simpl; [done|].
  destruct (String.eqb_spec c "..") as [->|H3]; [|by constructor].
  destruct Ho as [n Hn|x out Hx Ho].
  - destruct n as [|n]; simpl.
    + destruct rooted; [by apply (clean_ups true 0)|]. by apply (clean_ups false 1).
    + change (".." :: ".." :: replicate n "..") with (replicate (S (S n)) "..").
      constructor. intros ->. specialize (Hn eq_refl). lia.
  - destruct Hx as (_ & _ & Hx & _). by rewrite (proj2 (String.eqb_neq _ _)).
Qed.

Lemma split_byte_parts z s : Forall (fun c => free_of z c = true) (split_byte z s).
Proof.
  unfold free_of. induction s as [|c s IH]; simpl; [by constructor|].
  destruct (byte_is z c) eqn:E; [by constructor|].
  destruct (split_byte z s) as [|x xs]; simpl.
  - constructor; [|done]. simpl. by rewrite E.
  - apply Forall_cons in IH as [Hx Hxs]. constructor; [|done]. simpl. by rewrite E, Hx.
Qed.

Lemma clean_parts_out rooted parts :
  Forall (fun c => free_of 47 c = true) parts ->
  clean_out rooted (reverse (clean_parts rooted parts)).
Proof.
  unfold clean_parts. rewrite reverse_involutive.
  assert (H0 : clean_out rooted []) by (by apply (clean_ups rooted 0)).
  revert H0. generalize (@nil string). induction parts as [|c parts IH]; intros out Ho Hp; simpl; [done|].
  apply Forall_cons in Hp as [Hc Hp]. apply IH; [by apply clean_step_out | done].
Qed.

(** Cleaning what is clean changes nothing. *)
Lemma clean_step_same rooted out c :
  clean_out rooted (c :: out) -> clean_step rooted out c = c :: out.
Proof.
  intros H. unfold clean_step. inversion H as [n Hn E|c' out' Hc Ho]; subst.
  - destruct n as [|n]; [done|]. simpl in E. injection E as <- <-. simpl.
    destruct rooted; [by specialize (Hn eq_refl)|]. by destruct n.
  - destruct Hc as (H1 & H2 & H3 & _).
    by rewrite !(proj2 (String.eqb_neq _ _)) by done.
Qed.

Lemma clean_out_tail rooted c out : clean_out rooted (c :: out) -> clean_out rooted out.
Proof.
  intros H. inversion H as [n Hn E|]; subst; [|done].
  destruct n as [|n]; [done|]. injection E as _ <-. constructor. intros Hr. specialize (Hn Hr). lia.
Qed.

Lemma clean_parts_same rooted parts :
  clean_out rooted (reverse parts) -> clean_parts rooted parts = parts.
Proof.
  intros H. unfold clean_parts. rewrite <- (reverse_involutive parts) at 2. f_equal.
  induction parts as [|c parts IH] using rev_ind; [done|].
  rewrite foldl_app, reverse_snoc in *. simpl. rewrite IH by (by eapply clean_out_tail).
  by apply clean_step_same.
Qed.

Lemma clean_out_parts rooted out :
  clean_out rooted out -> Forall (fun c => c <> "" /\ free_of 47 c = true) out.
Proof.
  induction 1 as [n Hn|c out (H1 & _ & _ & H4) Ho IH]; [|by constructor].
  by apply Forall_replicate.
Qed.

Lemma Join_nonempty c parts : c <> "" -> strings_Join (c :: parts) slash <> "".
Proof. intros Hc. simpl. destruct parts; [done|]. by destruct c. Qed.

Lemma render_split rooted parts :
  parts <> [] -> Forall (fun c => c <> "" /\ free_of 47 c = true) parts ->
  let s := render rooted parts in
  s <> "" /\ filepath_IsAbs s = rooted /\
  split_byte 47 s = (if rooted then [""] else []) ++ parts.
Proof.
  intros Hne HF. destruct parts as [|c parts]; [done|].
  pose proof HF as [[Hc Hc'] _]%Forall_cons.
  pose proof (Join_nonempty c parts Hc) as Hj.
  assert (Hs : split_byte 47 (strings_Join (c :: parts) slash) = c :: parts).
  { apply split_byte_Join; [done | done |]. eapply Forall_impl; [exact HF|]. by intros x [_ ?]. }
  unfold render. destruct rooted.
  - split; [done|]. split; [done|].
    trans ("" :: split_byte 47 (strings_Join (c :: parts) slash)); [done|]. by rewrite Hs.
  - rewrite (proj2 (String.eqb_neq _ _)) by done. split; [done|]. split; [|done].
    unfold filepath_IsAbs. apply not_true_iff_false. intros [t Ht]%strings_HasPrefix_spec.
    destruct c as [|a c]; [done|]. unfold free_of in Hc'. simpl in Hc'.
    simpl in Ht. destruct parts; injection Ht as ->; done.
Qed.

Lemma filepath_Clean_idempotent path : filepath_Clean (filepath_Clean path) = filepath_Clean path.
Proof.
  unfold filepath_Clean at 2 3. destruct (String.eqb path ""); [done|].
  set (rooted := filepath_IsAbs path).
  pose proof (clean_parts_out rooted _ (split_byte_parts 47 path)) as Ho.
  set (parts := clean_parts rooted (split_byte 47 path)) in *.
  destruct (decide (parts = [])) as [->|Hne]; [by destruct rooted|].
  assert (HF : Forall (fun c => c <> "" /\ free_of 47 c = true) parts).
  { apply clean_out_parts in Ho. rewrite Forall_reverse in Ho. done. }
  destruct (render_split rooted parts Hne HF) as (H1 & H2 & H3).
  unfold filepath_Clean. rewrite (proj2 (String.eqb_neq _ _)) by done. rewrite H2, H3. f_equal.
  destruct rooted; simpl; [|by apply clean_parts_same].
  transitivity (clean_parts true parts); [done|]. by apply clean_parts_same.
Qed.

(** *** Absolute paths stay absolute *)
Lemma Clean_IsAbs path : filepath_IsAbs path = true -> filepath_IsAbs (filepath_Clean path) = true.
Proof.
  intros H. unfold filepath_Clean. destruct (String.eqb_spec path "") as [->|]; [done|]. by rewrite H.
Qed.

Lemma IsAbs_app p q : filepath_IsAbs p = true -> filepath_IsAbs (p +:+ q) = true.
Proof.
  unfold filepath_IsAbs. intros [t ->]%strings_HasPrefix_spec. apply strings_HasPrefix_spec.
  exists (t +:+ q). by rewrite append_assoc.
Qed.

Lemma Join_IsAbs d p : filepath_IsAbs d = true -> filepath_IsAbs (filepath_Join [d; p]) = true.
Proof.
  intros H. cbn [filepath_Join]. destruct (String.eqb_spec d "") as [->|]; [done|].
  apply Clean_IsAbs. rewrite strings_Join_cons by done. by apply IsAbs_app.
Qed.

Lemma Dir_IsAbs path : filepath_IsAbs path = true -> filepath_IsAbs (filepath_Dir path) = true.
Proof.
  intros H. pose proof H as [t Ht]%strings_HasPrefix_spec. subst path. unfold filepath_Dir.
  change (split_byte 47 (slash +:+ t)) with ("" :: split_byte 47 t).
  destruct (split_byte_cons 47 t) as (x & xs & E). rewrite E.
  destruct (exists_last (l := x :: xs) ltac:(done)) as (ys & y & Ey). rewrite Ey.
  replace (reverse ("" :: ys ++ [y])) with (y :: reverse ys ++ [""])
    by (by rewrite reverse_cons, reverse_snoc).
  assert (Hr : exists a l, reverse ys ++ [""] = a :: l) by (destruct (reverse ys); simpl; eauto).
  destruct Hr as (a & l & Ea). rewrite Ea. rewrite <- Ea, reverse_app, reverse_involutive.
  apply Clean_IsAbs. change (reverse [""] ++ ys) with ("" :: ys). destruct ys as [|z ys]; [done|].
  by rewrite strings_Join_cons by done.
Qed.

(** *** A file in its directory *)
Lemma split_byte_sep z s c t :
  byte_is z c = true -> split_byte z (s +:+ String c t) = split_byte z s ++ split_byte z t.
Proof.
  intros Hc. induction s as [|d s IH]; simpl; [by rewrite Hc|]. destruct (byte_is z d); [by rewrite IH|].
  rewrite IH. destruct (split_byte_cons z s) as (x & xs & ->). done.
Qed.

Lemma byte_is_slash c : byte_is 47 c = true -> c = "/"%char.
Proof.
  unfold byte_is, byte_val. intros H%Z.eqb_eq. rewrite <- (ascii_N_embedding c).
  replace (N_of_ascii c) with 47%N by lia. done.
Qed.

Lemma Join_split_byte s : strings_Join (split_byte 47 s) slash = s.
Proof.
  induction s as [|c s IH]; [done|]. simpl. destruct (split_byte_cons 47 s) as (x & xs & E). rewrite E in *.
  destruct (byte_is 47 c) eqn:Ec.
  - rewrite strings_Join_cons by done. rewrite IH. by apply byte_is_slash in Ec as ->.
  - rewrite <- IH. by destruct xs.
Qed.

Lemma Clean_split path :
  path <> "" -> filepath_Clean path =
  render (filepath_IsAbs path) (clean_parts (filepath_IsAbs path) (split_byte 47 path)).
Proof. intros H. unfold filepath_Clean. by rewrite (proj2 (String.eqb_neq _ _)). Qed.

(** The components of a path that do not count. *)
Lemma clean_parts_snoc rooted parts b :
  clean_parts rooted (parts ++ [b]) = reverse (clean_step rooted (reverse (clean_parts rooted parts)) b).
Proof. unfold clean_parts. rewrite foldl_app, reverse_involutive. done. Qed.

Lemma IsAbs_sep s t : s <> "" -> filepath_IsAbs (s +:+ t) = filepath_IsAbs s.
Proof. intros Hs. destruct s as [|a s]; [done|]. done. Qed.

Lemma Join_snoc_slash init : init <> [] -> split_byte 47 (strings_Join init slash +:+ slash) =
  split_byte 47 (strings_Join init slash) ++ [""].
Proof. intros _. unfold slash at 2. by rewrite split_byte_sep. Qed.

(** The cleaned parts of a directory, and one more component. *)
Lemma Clean_render rooted init b :
  Forall (fun c => free_of 47 c = true) init ->
  free_of 47 b = true ->
  let P := clean_parts rooted init in
  filepath_Clean (render rooted P +:+ slash +:+ b) = render rooted (clean_parts rooted (init ++ [b])).
Proof.
  intros Hinit Hb P. pose proof (clean_parts_out rooted init Hinit) as Ho. fold P in Ho.
  rewrite clean_parts_snoc. fold P.
  assert (Hsplit : exists skip, split_byte 47 (render rooted P +:+ slash +:+ b) = skip ++ P ++ [b] /\
            render rooted P <> "" /\ filepath_IsAbs (render rooted P) = rooted /\
            forall out, foldl (clean_step rooted) out skip = out).
  { destruct (decide (P = [])) as [->|HP].
    - destruct rooted.
      + exists ["" ; ""]. split_and!; [|done..]. change (split_byte 47 (render true [] +:+ slash +:+ b))
          with ("" :: "" :: split_byte 47 b). by rewrite split_byte_free.
      + exists ["."]. split_and!; [|done..]. change (split_byte 47 (render false [] +:+ slash +:+ b))
          with ("." :: split_byte 47 b). by rewrite split_byte_free.
    - assert (HF : Forall (fun c => c <> "" /\ free_of 47 c = true) P).
      { apply clean_out_parts in Ho. rewrite Forall_reverse in Ho. done. }
      destruct (render_split rooted P HP HF) as (H1 & H2 & H3).
      exists (if rooted then [""] else []). split_and!; [|done|done|by destruct rooted].
      change (slash +:+ b) with (String "/" b). rewrite split_byte_sep by done.
      by rewrite H3, (split_byte_free 47 b), <- app_assoc. }
  destruct Hsplit as (skip & Hs & Hne & Habs & Hskip).
  rewrite Clean_split by (by destruct (render rooted P)).
  rewrite IsAbs_sep, Habs, Hs by done. f_equal. unfold clean_parts at 1.
  rewrite !foldl_app, Hskip. simpl. f_equal. f_equal.
  apply clean_parts_same in Ho as Hsame. unfold clean_parts in Hsame.
  apply (f_equal reverse) in Hsame. by rewrite reverse_involutive in Hsame.
Qed.

(** The name of a file in its directory is the file, cleaned. *)
Lemma Clean_Dir_base f init b :
  split_byte 47 f = init ++ [b] -> filepath_Clean (filepath_Dir f +:+ slash +:+ b) = filepath_Clean f.
Proof.
  intros Hs. pose proof (split_byte_parts 47 f) as HF. rewrite Hs in HF.
  apply Forall_app in HF as [Hinit [Hb _]%Forall_cons].
  assert (Hf : f = strings_Join (init ++ [b]) slash) by (rewrite <- Hs; symmetry; apply Join_split_byte).
  destruct (decide (init = [])) as [->|Hne].
  - simpl in Hf. subst f. unfold filepath_Dir. rewrite split_byte_free by done.
    change (match reverse [b] with [] => _ | _ => _ end) with (filepath_Clean "").
    destruct (decide (b = "")) as [->|Hb']; [done|].
    rewrite (Clean_split (_ +:+ _)), (Clean_split b) by done.
    change (filepath_IsAbs (filepath_Clean "" +:+ slash +:+ b)) with false.
    assert (Habs : filepath_IsAbs b = false).
    { apply not_true_iff_false. intros [t ->]%strings_HasPrefix_spec. done. }
    change (split_byte 47 (filepath_Clean "" +:+ slash +:+ b)) with ("." :: split_byte 47 b).
    by rewrite Habs, (split_byte_free 47 b).
  - unfold filepath_Dir. rewrite Hs, reverse_snoc.
    assert (Hr : exists x xs, reverse init = x :: xs).
    { destruct (reverse init) as [|x xs] eqn:E; [|eauto]. apply (f_equal reverse) in E.
      by rewrite reverse_involutive in E. }
    destruct Hr as (x & xs & Er). rewrite Er, <- Er, reverse_involutive.
    assert (Hjs : split_byte 47 (strings_Join init slash) = init) by (by apply split_byte_Join).
    set (d := strings_Join init slash +:+ slash).
    assert (Hd : d <> "") by (unfold d; by destruct (strings_Join init slash)).
    assert (Habs : filepath_IsAbs d = filepath_IsAbs f).
    { rewrite Hf, strings_Join_snoc by done. unfold d. change (slash +:+ b) with (String "/" b).
      destruct (strings_Join init slash); done. }
    assert (Hsd : split_byte 47 d = init ++ [""]) by (unfold d; by rewrite Join_snoc_slash, Hjs).
    rewrite (Clean_split d), Hsd, clean_parts_snoc by done.
    change (clean_step ?r ?o "") with o. rewrite reverse_involutive, Clean_render by done.
    rewrite Habs. rewrite (Clean_split f); [by rewrite Hs|].
    intros ->. rewrite Hf in Habs. by destruct init as [|? [|]].
Qed.
