(* ===== verification/Types.v ===== *)
(** The problem types that flow between the components ([pkg/types]), the log
    types ([pkg/systemlogmonitor/types]), and the helpers of [pkg/util] that
    build and convert them.

    A [Status] does not hold its conditions: its [Conditions] field is a Go
    slice that aliases the slice of the monitor that built it.  The store maps
    the reference of each such slice to its current contents. *)

From S2P Require Import Prelude GoStrings GoTime.

(** ** pkg/types *)

(* @ pkg/types/types.go:33-41 Severity *)
Definition Severity : Type := string.
Definition Info : Severity := "info".
Definition Warn : Severity := "warn".

(* @ pkg/types/types.go:43-53 ConditionStatus *)
Definition ConditionStatus : Type := string.
Definition CTrue : ConditionStatus := "True".
Definition CFalse : ConditionStatus := "False".
Definition CUnknown : ConditionStatus := "Unknown".

(* @ pkg/types/types.go:55-68 Condition *)
Record Condition : Type := mkCondition {
  cType : string;
  cStatus : ConditionStatus;
  cTransition : Time;
  cReason : string;
  cMessage : string
}.

(* @ pkg/types/types.go:70-80 Event *)
Record Event : Type := mkEvent {
  eSeverity : Severity;
  eTimestamp : Time;
  eReason : string;
  eMessage : string
}.

(** A reference to a slice of conditions, and the store of those slices. *)
Abbreviation slice_ref := nat (only parsing).
Abbreviation store := (gmap slice_ref (list Condition)) (only parsing).

(* @ pkg/types/types.go:82-92 Status *)
Record Status : Type := mkStatus {
  sSource : string;
  sEvents : list Event;
  sConditions : slice_ref
}.

(* @ pkg/types/types.go:94-102 Type *)
Definition ProblemType : Type := string.
Definition Temp : ProblemType := "temporary".
Definition Perm : ProblemType := "permanent".

#[export] Instance Condition_eq_dec : EqDecision Condition.
Proof. solve_decision. Defined.
#[export] Instance Event_eq_dec : EqDecision Event.
Proof. solve_decision. Defined.
#[export] Instance Status_eq_dec : EqDecision Status.
Proof. solve_decision. Defined.

(** The zero value of a [Condition], which a missing map key reads as. *)
Definition Condition_zero : Condition := mkCondition "" "" Time_zero "" "".

(** What a reader sees in the [Conditions] of a status. *)
Definition read_conditions (st : store) (s : Status) : list Condition :=
  default [] (st !! sConditions s).

(** ** pkg/systemlogmonitor/types *)

(* @ pkg/systemlogmonitor/types/types.go:25-30 Log *)
Record Log : Type := mkLog {
  lTimestamp : Time;
  lMessage : string
}.

(* @ pkg/systemlogmonitor/types/types.go:32-50 Rule *)
Record Rule : Type := mkRule {
  rType : ProblemType;
  rCondition : string;
  rReason : string;
  rPattern : string;
  rPatternGeneratedMessageSuffix : string
}.

#[export] Instance Log_eq_dec : EqDecision Log.
Proof. solve_decision. Defined.

(** ** pkg/util: events for condition changes *)
Section Helpers.
Context `{UC : !Unicode}.

(* @ pkg/util/helpers.go:25-37 GenerateConditionChangeEvent *)
Definition GenerateConditionChangeEvent (t : string) (status : ConditionStatus)
    (reason message : string) (timestamp : Time) : Event :=
  let severity := if String.eqb status CTrue then Warn else Info in
  {| eSeverity := severity;
     eTimestamp := timestamp;
     eReason := reason;
     eMessage := "Node condition " +:+ t +:+ " is now: " +:+ status +:+ ", reason: "
                 +:+ reason +:+ ", message: " +:+ strconv_Quote message |}.
End Helpers.

(** ** pkg/util: conversion to API objects ([k8s.io/api/core/v1]) *)

(** The fields of [v1.NodeCondition]. *)
Record NodeCondition : Type := mkNodeCondition {
  ncType : string;
  ncStatus : string;
  ncLastHeartbeatTime : Time;
  ncLastTransitionTime : Time;
  ncReason : string;
  ncMessage : string
}.

#[export] Instance NodeCondition_eq_dec : EqDecision NodeCondition.
Proof. solve_decision. Defined.

Definition v1_ConditionTrue : string := "True".
Definition v1_ConditionFalse : string := "False".
Definition v1_ConditionUnknown : string := "Unknown".
Definition v1_EventTypeNormal : string := "Normal".
Definition v1_EventTypeWarning : string := "Warning".

(* @ pkg/util/convert.go:39-51 ConvertToAPIConditionStatus *)
Definition ConvertToAPIConditionStatus (status : ConditionStatus) : outcome string :=
  if String.eqb status CTrue then Ret v1_ConditionTrue
  else if String.eqb status CFalse then Ret v1_ConditionFalse
  else if String.eqb status CUnknown then Ret v1_ConditionUnknown
  else Panic "unknown condition status".

(* @ pkg/util/convert.go:53-64 ConvertToAPIEventType *)
Definition ConvertToAPIEventType (severity : Severity) : string :=
  if String.eqb severity Info then v1_EventTypeNormal
  else if String.eqb severity Warn then v1_EventTypeWarning
  else v1_EventTypeNormal.

(* @ pkg/util/convert.go:66-69 ConvertToAPITimestamp *)
Definition ConvertToAPITimestamp (timestamp : Time) : Time := timestamp.

(* @ pkg/util/convert.go:28-37 ConvertToAPICondition *)
Definition ConvertToAPICondition (c : Condition) : outcome NodeCondition :=
  status ← ConvertToAPIConditionStatus (cStatus c);
  Ret {| ncType := cType c;
         ncStatus := status;
         ncLastHeartbeatTime := Time_zero;
         ncLastTransitionTime := ConvertToAPITimestamp (cTransition c);
         ncReason := cReason c;
         ncMessage := cMessage c |}.

(** The statuses the monitors produce. *)
Definition valid_status (s : ConditionStatus) : Prop :=
  s = CTrue \/ s = CFalse \/ s = CUnknown.

Lemma ConvertToAPIConditionStatus_valid s :
  valid_status s -> ConvertToAPIConditionStatus s = Ret s.
Proof. by intros [->|[->| ->]]. Qed.
