(* ===== verification/LogBuffer.v ===== *)
(** The log buffer of the system log monitor
    ([pkg/systemlogmonitor/log_buffer.go]): a ring of the last log lines, and
    the matching of compiled patterns against them.

    The abstract contract is a queue: [Repr b n hist] says that [b] is what a
    buffer of [n] lines looks like after the logs [hist] were pushed.  Under
    it, [String] is the join of the last [n] messages and [Match] returns the
    shortest run of latest lines that covers the leftmost match.  The shortcut
    that matches the last line only is shown to agree with the full search. *)

From S2P Require Import Prelude GoStrings Regexp GoTime Types.

(* @ pkg/systemlogmonitor/log_buffer.go:36-43 Pattern *)
Record Pattern : Type := mkPattern {
  pRegexp : Regexp;
  lastLineOnly : bool
}.

(* @ pkg/systemlogmonitor/log_buffer.go:45-56 logBuffer *)
Record logBuffer : Type := mkLogBuffer {
  buffer : list (option Log);
  msg : list string;
  max : Z;
  current : Z;
  joined : string;
  joinedOK : bool
}.

(* @ pkg/systemlogmonitor/log_buffer.go:58-68 NewLogBuffer *)
Definition NewLogBuffer (maxLines : Z) : outcome logBuffer :=
  bs ← make_slice maxLines None;
  ms ← make_slice maxLines "";
  Ret {| buffer := bs; msg := ms; max := maxLines; current := 0;
         joined := ""; joinedOK := false |}.

(** The check of one node of the tree. *)
Definition lastLineOnly_node (re : Regexp) : bool :=
  match Op re with
  | OpAnyChar => false
  | OpBeginText | OpBeginLine | OpEndLine => false
  | OpLiteral => negb (bool_decide (nl_rune ∈ Rune re))
  | OpCharClass => negb (in_class (Rune re) nl_rune)
  | _ => true
  end.

(* @ pkg/systemlogmonitor/log_buffer.go:97-124 isLastLineOnly *)
Fixpoint isLastLineOnly (re : Regexp) : bool :=
  lastLineOnly_node re &&
  let '(MkRegexp _ _ sub _ _ _ _ _) := re in forallb isLastLineOnly sub.

Definition end_anchor : string := String backslash "z".

Section Compile.
(** [syntax.Parse(expr, syntax.Perl)], which is also how [regexp.Compile]
    accepts or refuses an expression. *)
Variable parse : string -> result Regexp.

(* @ pkg/systemlogmonitor/log_buffer.go:70-95 CompilePattern *)
Definition CompilePattern (expr : string) : result Pattern :=
  match parse expr with
  | Err e => Err e
  | Ok _ =>
    let anchored := expr +:+ end_anchor in
    match parse anchored with
    | Err e => Err e
    | Ok reg =>
      match parse anchored with
      | Err _ => Ok {| pRegexp := reg; lastLineOnly := false |}
      | Ok tree =>
        match parse ("(?:" +:+ expr +:+ ")" +:+ end_anchor) with
        | Err _ => Ok {| pRegexp := reg; lastLineOnly := false |}
        | Ok grouped =>
          Ok {| pRegexp := reg;
                lastLineOnly := Regexp_Equal tree grouped && isLastLineOnly tree |}
        end
      end
    end
  end.
End Compile.

(* @ pkg/systemlogmonitor/log_buffer.go:126-132 Push *)
Definition Push (b : logBuffer) (log : Log) : outcome logBuffer :=
  i ← go_rem (current b) (max b);
  bs ← slice_set (buffer b) i (Some log);
  ms ← slice_set (msg b) i (lMessage log);
  Ret {| buffer := bs; msg := ms; max := max b;
         current := int64 (current b + 1); joined := ""; joinedOK := false |}.

(* @ pkg/systemlogmonitor/log_buffer.go:189-192 concatLogs *)
Definition concatLogs (logs : list string) : string := strings_Join logs newline.

(* @ pkg/systemlogmonitor/log_buffer.go:171-182 String *)
Definition bufferString (b : logBuffer) : outcome (logBuffer * string) :=
  if joinedOK b then Ret (b, joined b)
  else
    head ← go_rem (current b) (max b);
    let lines := drop (Z.to_nat head) (msg b) ++ take (Z.to_nat head) (msg b) in
    let j := concatLogs lines in
    Ret ({| buffer := buffer b; msg := msg b; max := max b; current := current b;
            joined := j; joinedOK := true |}, j).

(* @ pkg/systemlogmonitor/log_buffer.go:184-187 tail *)
Definition tail (b : logBuffer) : Z := int64 (int64 (current b + max b) - 1).

(** The loop of [Match]: from index [i] down to [current], at most [fuel]
    lines, until the lines taken are longer than [s] bytes. *)
Fixpoint match_loop (fuel : nat) (b : logBuffer) (i s total : Z) (matched : list Log)
    : outcome (list Log) :=
  match fuel with
  | O => Ret matched
  | S n =>
    if (i <? current b)%Z then Ret matched
    else
      k ← go_rem i (max b);
      slot ← slice_get (buffer b) k;
      match slot with
      | None => Ret matched
      | Some log =>
        m ← slice_get (msg b) k;
        let matched := matched ++ [log] in
        let total := (total + (Z.of_nat (String.length m) + 1))%Z in
        if (s <? total)%Z then Ret matched
        else match_loop n b (i - 1) s total matched
      end
  end.

Section Match.
Context `{UC : !Unicode}.

(* @ pkg/systemlogmonitor/log_buffer.go:159-169 matchLastLine *)
Definition matchLastLine (b : logBuffer) (reg : Regexp) : outcome (list Log) :=
  if (current b =? 0)%Z then Ret []
  else
    last ← go_rem (current b - 1) (max b);
    m ← slice_get (msg b) last;
    if negb (MatchString reg m) then Ret []
    else
      slot ← slice_get (buffer b) last;
      log ← deref slot;
      Ret [log].

(* @ pkg/systemlogmonitor/log_buffer.go:134-157 Match *)
Definition Match (b : logBuffer) (p : Pattern) : outcome (logBuffer * list Log) :=
  if lastLineOnly p then
    r ← matchLastLine b (pRegexp p);
    Ret (b, r)
  else
    bl ← bufferString b;
    let '(b, log) := bl : logBuffer * string in
    match FindStringIndex (pRegexp p) log with
    | None => Ret (b, [])
    | Some loc0 =>
      let s := (Z.of_nat (String.length log) - Z.of_nat loc0 - 1)%Z in
      matched ← match_loop (Z.to_nat (max b)) b (tail b) s 0 [];
      Ret (b, reverse matched)
    end.
End Match.

(** ** The abstract queue *)

(** A ring of [n] slots seen from the oldest one: empty slots, then the last
    [n] elements pushed. *)
Definition ring {A B} (n : nat) (pad : B) (f : A -> B) (hist : list A) : list B :=
  replicate (n - length hist) pad ++ (f <$> lastn n hist).

Record Repr (b : logBuffer) (n : nat) (hist : list Log) : Prop := {
  repr_pos : 0 < n;
  repr_max : max b = Z.of_nat n;
  repr_current : current b = Z.of_nat (length hist);
  repr_bound : (Z.of_nat (length hist) + Z.of_nat n <= int64_max)%Z;
  repr_buffer_len : length (buffer b) = n;
  repr_buffer : rotate (length hist) (buffer b) = ring n None Some hist;
  repr_msg_len : length (msg b) = n;
  repr_msg : rotate (length hist) (msg b) = ring n "" lMessage hist;
  repr_joined : joinedOK b = true -> joined b = concatLogs (ring n "" lMessage hist)
}.

Lemma ring_length {A B} n pad (f : A -> B) hist : length (ring n pad f hist) = n.
Proof. unfold ring. rewrite length_app, length_replicate, length_fmap, lastn_length. lia. Qed.

Lemma ring_push {A B} n pad (f : A -> B) hist x :
  0 < n -> drop 1 (ring n pad f hist) ++ [f x] = ring n pad f (hist ++ [x]).
Proof.
  intros Hn. unfold ring. rewrite lastn_snoc, length_app, fmap_app by done. simpl.
  destruct (decide (length hist < n)) as [Hlt|Hge].
  - replace (n - length hist) with (S (n - (length hist + 1))) by lia. simpl.
    rewrite drop_0, <- app_assoc. do 2 f_equal.
    unfold lastn. by rewrite !(proj2 (Nat.sub_0_le _ _)) by lia.
  - rewrite !(proj2 (Nat.sub_0_le n _)) by lia. simpl. f_equal.
    destruct n as [|n]; [lia|]. rewrite (lastn_S_drop (S n - 1)) by lia.
    replace (S (S n - 1)) with (S n) by lia. by rewrite fmap_drop.
Qed.

Lemma NewLogBuffer_Repr (n : nat) :
  0 < n -> (Z.of_nat n <= int64_max)%Z ->
  exists b, NewLogBuffer (Z.of_nat n) = Ret b /\ Repr b n [].
Proof.
  intros Hn Hmax. unfold NewLogBuffer, make_slice.
  rewrite (proj2 (Z.ltb_ge _ _)) by lia. rewrite Nat2Z.id. simpl.
  eexists. split; [done|].
  assert (Hrot : forall B (pad : B) (f : Log -> B),
            rotate 0 (replicate n pad) = ring n pad f []).
  { intros B pad f. unfold rotate, ring, lastn. simpl.
    rewrite Nat.Div0.mod_0_l, drop_0, take_0, Nat.sub_0_r. done. }
  constructor; simpl; auto using length_replicate. done.
Qed.

Lemma Push_Repr b n hist log :
  Repr b n hist -> (Z.of_nat (length hist) + 1 + Z.of_nat n <= int64_max)%Z ->
  exists b', Push b log = Ret b' /\ Repr b' n (hist ++ [log]).
Proof.
  intros [Hn Hm Hc _ Hbl Hb Hml Hms Hj] Hbound. unfold Push.
  rewrite Hc, Hm, go_rem_nat by lia. simpl.
  pose proof (Nat.mod_upper_bound (length hist) n ltac:(lia)) as Hh.
  rewrite !slice_set_insert by lia. simpl. eexists. split; [done|].
  assert (Hcur : int64 (Z.of_nat (length hist) + 1) = Z.of_nat (length (hist ++ [log]))).
  { rewrite int64_id; [rewrite length_app; simpl; lia|].
    unfold in_int64, int64_min. lia. }
  constructor; simpl; [done | done | done | | by rewrite length_insert | |
                       by rewrite length_insert | | done].
  - rewrite length_app. simpl. lia.
  - rewrite length_app, Nat.add_1_r. rewrite <- Hbl at 1.
    rewrite rotate_push by (intros E; rewrite E in Hbl; simpl in Hbl; lia).
    by rewrite Hb, ring_push.
  - rewrite length_app, Nat.add_1_r. rewrite <- Hml at 1.
    rewrite rotate_push by (intros E; rewrite E in Hml; simpl in Hml; lia).
    by rewrite Hms, ring_push.
Qed.

Lemma bufferString_Repr b n hist :
  Repr b n hist ->
  exists b', bufferString b = Ret (b', concatLogs (ring n "" lMessage hist))
             /\ Repr b' n hist.
Proof.
  intros HR. pose proof HR as [Hn Hm Hc Hbd Hbl Hb Hml Hms Hj]. unfold bufferString.
  destruct (joinedOK b) eqn:E; [exists b; by rewrite Hj|].
  rewrite Hc, Hm, go_rem_nat by lia. simpl. rewrite Nat2Z.id.
  unfold rotate in Hms. rewrite Hml in Hms. rewrite Hms.
  eexists. split; [done|]. constructor; simpl; auto.
  unfold rotate. by rewrite Hml.
Qed.

(** ** The loop of Match *)

(** Lines taken from the latest one until they are longer than [s] bytes. *)
Fixpoint cover (s total : Z) (latest_first : list Log) : list Log :=
  match latest_first with
  | [] => []
  | l :: ls =>
    let total := (total + (Z.of_nat (String.length (lMessage l)) + 1))%Z in
    l :: if (s <? total)%Z then [] else cover s total ls
  end.

(** Entry [j] of the ring, seen from the oldest slot. *)
Lemma rotate_lookup {A} (l : list A) k j :
  l ≠ [] -> j < length l -> rotate k l !! j = l !! ((k + j) mod length l).
Proof.
  intros Hl Hj. assert (Hn : length l ≠ 0) by (by destruct l).
  pose proof (Nat.mod_upper_bound k (length l) Hn) as Hh.
  assert (E : (k + j) mod length l = (k mod length l + j) mod length l)
    by (by rewrite Nat.Div0.add_mod_idemp_l).
  unfold rotate. rewrite E. clear E.
  generalize dependent (k mod length l); intros h Hh.
  destruct (decide (h + j < length l)) as [H|H].
  - rewrite lookup_app_l by (rewrite length_drop; lia).
    rewrite lookup_drop. by rewrite Nat.mod_small by lia.
  - rewrite lookup_app_r by (rewrite length_drop; lia). rewrite length_drop.
    rewrite lookup_take_lt by lia. f_equal.
    symmetry. rewrite <- (Nat.mod_small (j - (length l - h)) (length l)) by lia.
    replace (h + j) with ((j - (length l - h)) + 1 * length l) by lia.
    by rewrite Nat.Div0.mod_add.
Qed.

Lemma ring_lookup_pad {A B} n pad (f : A -> B) hist j :
  j < n - length hist -> ring n pad f hist !! j = Some pad.
Proof.
  intros Hj. unfold ring. rewrite lookup_app_l by (rewrite length_replicate; lia).
  by apply lookup_replicate.
Qed.

Lemma ring_lookup {A B} n pad (f : A -> B) hist j :
  n - length hist <= j -> ring n pad f hist !! j = f <$> lastn n hist !! (j - (n - length hist)).
Proof.
  intros Hj. unfold ring. rewrite lookup_app_r by (rewrite length_replicate; lia).
  by rewrite length_replicate, list_lookup_fmap.
Qed.

(** Reading ring slot [i mod max] from a represented buffer. *)
Lemma Repr_slot b n hist j :
  Repr b n hist -> j < n ->
  buffer b !! ((length hist + j) mod n) = ring n None Some hist !! j /\
  msg b !! ((length hist + j) mod n) = ring n "" lMessage hist !! j.
Proof.
  intros [Hn Hm Hc Hbd Hbl Hb Hml Hms Hj] Hjn.
  rewrite <- Hb, <- Hms.
  split.
  - rewrite rotate_lookup, Hbl; [done | intros E; rewrite E in Hbl; simpl in Hbl; lia | lia].
  - rewrite rotate_lookup, Hml; [done | intros E; rewrite E in Hml; simpl in Hml; lia | lia].
Qed.

Lemma match_loop_Repr b n hist s j total acc :
  Repr b n hist -> j <= n ->
  match_loop j b (Z.of_nat (length hist) + Z.of_nat j - 1) s total acc =
  Ret (acc ++ cover s total (reverse (take (j - (n - length hist)) (lastn n hist)))).
Proof.
  intros HR. revert total acc. induction j as [|j IH]; intros total acc Hj.
  { simpl. by rewrite app_nil_r. }
  cbn [match_loop]. pose proof HR as [Hn Hm Hc _ _ _ _ _ _].
  rewrite Hc, Hm, (proj2 (Z.ltb_ge _ _)) by lia.
  replace (Z.of_nat (length hist) + Z.of_nat (S j) - 1)%Z
    with (Z.of_nat (length hist + j)) by lia.
  rewrite go_rem_nat by lia. simpl.
  destruct (Repr_slot b n hist j HR ltac:(lia)) as [Hb Hms].
  destruct (decide (j < n - length hist)) as [Hp|Hp].
  - rewrite ring_lookup_pad in Hb by done.
    rewrite (slice_get_lookup _ _ _ Hb). simpl.
    replace (S j - (n - length hist)) with 0 by lia. by rewrite take_0, app_nil_r.
  - destruct (lookup_lt_is_Some_2 (lastn n hist) (j - (n - length hist))) as [l Hl].
    { rewrite lastn_length. lia. }
    rewrite ring_lookup, Hl in Hb by lia. rewrite ring_lookup, Hl in Hms by lia.
    simpl in Hb, Hms.
    rewrite (slice_get_lookup _ _ _ Hb). simpl.
    rewrite (slice_get_lookup _ _ _ Hms). simpl.
    replace (S j - (n - length hist)) with (S (j - (n - length hist))) by lia.
    rewrite (take_S_r _ _ _ Hl), reverse_snoc. simpl.
    case_match; [done|].
    replace (Z.of_nat (length hist + j) - 1)%Z
      with (Z.of_nat (length hist) + Z.of_nat j - 1)%Z by lia.
    rewrite IH by lia. by rewrite <- app_assoc.
Qed.

Lemma tail_Repr b n hist :
  Repr b n hist -> tail b = (Z.of_nat (length hist) + Z.of_nat n - 1)%Z.
Proof.
  intros [Hn Hm Hc Hbd _ _ _ _ _]. unfold tail. rewrite Hc, Hm.
  rewrite (int64_id (_ + _)%Z) by (unfold in_int64, int64_min; lia).
  rewrite int64_id; [done|]. unfold in_int64, int64_min. lia.
Qed.

(** ** What Match returns *)
Section MatchSpec.
Context `{UC : !Unicode}.

(** The text a pattern is matched against, and the specification of [Match]. *)
Definition window_text (n : nat) (hist : list Log) : string :=
  concatLogs (ring n "" lMessage hist).

Definition match_spec (re : Regexp) (n : nat) (hist : list Log) : list Log :=
  match FindStringIndex re (window_text n hist) with
  | None => []
  | Some loc0 =>
    reverse (cover (Z.of_nat (String.length (window_text n hist)) - Z.of_nat loc0 - 1) 0
               (reverse (lastn n hist)))
  end.

Lemma Match_full_Repr b n hist p :
  Repr b n hist -> lastLineOnly p = false ->
  exists b', Match b p = Ret (b', match_spec (pRegexp p) n hist) /\ Repr b' n hist.
Proof.
  intros HR Hp. unfold Match, match_spec. rewrite Hp.
  destruct (bufferString_Repr b n hist HR) as (b' & Hs & HR'). rewrite Hs. simpl.
  fold (window_text n hist). exists b'. split; [|done].
  destruct (FindStringIndex _ _) as [loc0|]; [|done].
  pose proof (repr_max _ _ _ HR') as Hmax. rewrite Hmax, Nat2Z.id.
  rewrite (tail_Repr b' n hist HR').
  rewrite (match_loop_Repr b' n hist) by (done || lia). simpl.
  rewrite take_ge by (rewrite lastn_length; lia). done.
Qed.
End MatchSpec.

(** ** The last-line shortcut *)
Section LastLine.
Context `{UC : !Unicode}.

Lemma isLastLineOnly_inv op fl sub ru mn mx cap nm :
  isLastLineOnly (MkRegexp op fl sub ru mn mx cap nm) = true ->
  lastLineOnly_node (MkRegexp op fl sub ru mn mx cap nm) = true /\
  Forall (fun r => isLastLineOnly r = true) sub.
Proof.
  cbn [isLastLineOnly]. rewrite andb_true_iff. intros [H1 H2]. split; [done|].
  apply Forall_forall. intros r Hr.
  rewrite forallb_forall in H2. by apply H2, list_elem_of_In.
Qed.

(** A pattern that passes the check consumes no newline. *)
Lemma isLastLineOnly_rune_ok re :
  isLastLineOnly re = true -> rune_ok (fun r => r ≠ nl_rune) re.
Proof.
  induction re as [op fl sub ru mn mx cap nm IH] using Regexp_nested_ind.
  intros H. apply isLastLineOnly_inv in H as [Hn Hs].
  assert (Hsub : foldr and True (map (rune_ok (fun r => r ≠ nl_rune)) sub)).
  { apply rune_ok_subs. rewrite Forall_forall in *. auto. }
  destruct op; simpl in *; try done.
  - intros lit r Hlit Heq ->. apply negb_true_iff, bool_decide_eq_false in Hn.
    apply Hn. unfold lit_eq in Heq. destruct (has_flag fl FoldCase).
    + by apply fold_nl in Heq as ->.
    + by apply Z.eqb_eq in Heq as ->.
  - intros r Hr ->. unfold lastLineOnly_node in Hn; simpl in Hn. by rewrite Hr in Hn.
Qed.

(** Two contexts a pattern without start anchors cannot tell apart: the
    beginning of the text and the position after a newline. *)
Definition line_start (pr : option Z) : Prop := pr = None \/ pr = Some nl_rune.

Definition same_ctx (p p' : pos) : Prop :=
  p.2 = p'.2 /\ (p.1 = p'.1 \/ line_start p.1 /\ line_start p'.1).

Definition sim (r : prel) : Prop := forall p q p',
  same_ctx p p' -> r p q -> exists q', same_ctx q q' /\ r p' q'.

Lemma sim_one t : sim (one_rel t).
Proof.
  intros p q p' [H1 H2] (c & Hc & Hq & Ht).
  exists (Some c.1, q.2). split; [split; [done | by left]|].
  exists c. by rewrite <- H1.
Qed.

Lemma sim_test t :
  (forall p p', same_ctx p p' -> t p = t p') -> sim (test_rel t).
Proof. intros Ht p q p' Hs [-> H]. exists p'. split; [done|]. split; [done|].
  by rewrite <- (Ht q p').
Qed.

Lemma sim_eq : sim eq.
Proof. intros p q p' Hs ->. eauto. Qed.

Lemma sim_concat rs : Forall sim rs -> sim (concat_rel rs).
Proof.
  induction 1 as [|r rs Hr Hrs IH]; [apply sim_eq|].
  intros p q p' Hs (m & H1 & H2).
  destruct (Hr _ _ _ Hs H1) as (m' & Hm & H1').
  destruct (IH _ _ _ Hm H2) as (q' & Hq & H2').
  exists q'. split; [done|]. by exists m'.
Qed.

Lemma sim_rtc r : sim r -> sim (rtc r).
Proof.
  intros Hr p q p' Hs H. revert p' Hs.
  induction H as [p | p m q H1 H2 IH]; intros p' Hs; [exists p'; done|].
  destruct (Hr _ _ _ Hs H1) as (m' & Hm & H1').
  destruct (IH _ Hm) as (q' & Hq & H2'). exists q'. split; [done|]. by eapply rtc_l.
Qed.

Lemma sim_opt r : sim r -> sim (opt_rel r).
Proof.
  intros Hr p q p' Hs [->|H]; [exists p'; split; [done | by left]|].
  destruct (Hr _ _ _ Hs H) as (q' & Hq & H'). exists q'. split; [done | by right].
Qed.

Lemma sim_first rs : Forall sim rs -> sim (first_rel rs).
Proof. destruct 1; [by intros ?|done]. Qed.

Lemma sim_repeat mn mx r : sim r -> sim (repeat_rel mn mx r).
Proof.
  intros Hr. unfold repeat_rel. destruct (mx <? 0)%Z; apply sim_concat, Forall_app; split.
  - by apply Forall_replicate.
  - constructor; [by apply sim_rtc | done].
  - by apply Forall_replicate.
  - by apply Forall_replicate, sim_opt.
Qed.

Lemma is_word_line_start pr : line_start pr -> is_word pr = false.
Proof. by intros [-> | ->]. Qed.

Lemma same_ctx_word p p' : same_ctx p p' -> word_boundary p = word_boundary p'.
Proof.
  intros [H1 H2]. unfold word_boundary, next_rune. rewrite H1. f_equal.
  destruct H2 as [->|[Ha Hb]]; [done|]. by rewrite !is_word_line_start.
Qed.

Lemma Rel_sim re : isLastLineOnly re = true -> sim (Rel re).
Proof.
  induction re as [op fl sub ru mn mx cap nm IH] using Regexp_nested_ind.
  intros H. apply isLastLineOnly_inv in H as [Hn Hs].
  assert (HF : Forall sim (map Rel sub)).
  { rewrite Forall_map. rewrite Forall_forall in *. auto. }
  destruct op; unfold lastLineOnly_node in Hn; simpl in *; try done.
  - by intros ? ? ? ? [].
  - apply sim_eq.
  - apply sim_concat. rewrite Forall_map, Forall_forall. intros; apply sim_one.
  - apply sim_one.
  - apply sim_one.
  - apply sim_test. intros p p' [H1 _]. unfold at_text_end. by rewrite H1.
  - apply sim_test. apply same_ctx_word.
  - apply sim_test. intros p p' Hp. by rewrite (same_ctx_word p p' Hp).
  - by apply sim_first.
  - by apply sim_rtc, sim_first.
  - apply (sim_concat [_; _]). constructor; [by apply sim_first|].
    constructor; [by apply sim_rtc, sim_first | done].
  - by apply sim_opt, sim_first.
  - by apply sim_repeat, sim_first.
  - by apply sim_concat.
  - intros p q p' Hp (r & Hr & HR). rewrite Forall_forall in HF.
    destruct (HF r Hr p q p' Hp HR) as (q' & Hq & H'). exists q'. split; [done|].
    by exists r.
Qed.

(** *** Trees that end in the end-of-text anchor *)
Definition end_anchored (re : Regexp) : Prop :=
  Op re = OpConcat /\ exists init e, Sub re = init ++ [e] /\ Op e = OpEndText.

Lemma Regexp_Equal_Op x y : Regexp_Equal x y = true -> Op x = Op y.
Proof. destruct x, y; simpl. by case_decide. Qed.

Lemma end_anchored_Equal x y :
  Regexp_Equal x y = true -> end_anchored y -> end_anchored x.
Proof.
  intros HE [Hop (init & e & Hsub & He)].
  pose proof (Regexp_Equal_Op x y HE) as Hop'.
  destruct x as [xo xf xs xr xmn xmx xc xn], y as [yo yf ys yr ymn ymx yc yn].
  simpl in *. subst. case_decide; [|done]. split; [done|]. simpl.
  revert init e HE He. induction xs as [|a xs IH]; intros [|i init] e HE He; simpl in HE.
  - done.
  - done.
  - apply andb_true_iff in HE as [HE1 HE2]. destruct xs; [|done].
    exists [], a. split; [done|]. by rewrite (Regexp_Equal_Op a e).
  - apply andb_true_iff in HE as [HE1 HE2].
    destruct (IH init e) as (init' & e' & -> & He'); [done | done |].
    by exists (a :: init'), e'.
Qed.

Lemma concat_rel_snoc rs r p q :
  concat_rel (rs ++ [r]) p q -> exists m, r m q.
Proof.
  revert p. induction rs as [|r' rs IH]; intros p; simpl.
  - intros (m & H & ->). eauto.
  - intros (m & _ & H). eauto.
Qed.

Lemma end_anchored_Rel re p q : end_anchored re -> Rel re p q -> q.2 = [].
Proof.
  destruct re as [op fl sub ru mn mx cap nm].
  intros [Hop (init & e & Hsub & He)]; simpl in *; subst.
  rewrite map_app. intros H. apply concat_rel_snoc in H as (m & H). simpl in H.
  destruct e as [eo ? ? ? ? ? ? ?]; simpl in He; subst. simpl in H.
  destruct H as [-> H]. unfold at_text_end in H. by destruct (q.2).
Qed.

(** A match that consumes no newline and runs to the end of the text starts
    in the last line. *)
Lemma suffix_no_newline (a b w1 w2 : list cell) :
  a ++ (nl_rune, 1) :: b = w1 ++ w2 -> Forall (fun c => c.1 ≠ nl_rune) w2 ->
  exists w3, w1 = a ++ (nl_rune, 1) :: w3 /\ b = w3 ++ w2.
Proof.
  revert w1. induction a as [|c a IH]; intros w1 Heq Hw; simpl in Heq.
  - destruct w1 as [|d w1]; simpl in Heq.
    + subst. inversion_clear Hw as [|? ? Hc]. done.
    + injection Heq as <- ->. by exists w1.
  - destruct w1 as [|d w1]; simpl in Heq.
    + subst. inversion_clear Hw as [|? ? _ Hw']. apply Forall_app in Hw' as [_ Hw'].
      inversion_clear Hw' as [|? ? Hc]. done.
    + injection Heq as <- Heq. destruct (IH w1 Heq Hw) as (w3 & -> & ->). by exists w3.
Qed.

Lemma prev_after_last_line a w :
  prev_after None (a ++ (nl_rune, 1) :: w) = prev_after None w \/
  line_start (prev_after None (a ++ (nl_rune, 1) :: w)) /\ line_start (prev_after None w).
Proof.
  rewrite prev_after_app. change ((nl_rune, 1) :: w) with ([(nl_rune, 1)] ++ w).
  rewrite prev_after_app. unfold prev_after.
  destruct (last w) as [c|]; simpl; [by left | right; split; [by right | by left]].
Qed.

(** Matches of an anchored last-line pattern in [a "\n" m] are those in [m]. *)
Lemma last_line_match re a m w p q :
  isLastLineOnly re = true -> end_anchored re ->
  adv w (None, decode (a +:+ (newline +:+ m))) p -> Rel re p q ->
  exists w3 p' q', w = decode a ++ (nl_rune, 1) :: w3 /\
    adv w3 (None, decode m) p' /\ Rel re p' q'.
Proof.
  intros HL HA [Hw Hp] HR. cbn [fst snd] in Hw, Hp.
  pose proof (Rel_advance _ re p q (isLastLineOnly_rune_ok re HL) HR) as (w2 & [Hw2 _] & Hok).
  rewrite (end_anchored_Rel re p q HA HR), app_nil_r in Hw2.
  rewrite decode_newline, Hw2 in Hw.
  destruct (suffix_no_newline _ _ _ _ Hw Hok) as (w3 & -> & Hm).
  destruct (Rel_sim re HL p q (prev_after None w3, w2)) as (q' & _ & HR').
  - split; [done|]. simpl. rewrite Hp. apply prev_after_last_line.
  - done.
  - exists w3, (prev_after None w3, w2), q'. done.
Qed.

Lemma last_line_match_conv re a m w p q :
  isLastLineOnly re = true ->
  adv w (None, decode m) p -> Rel re p q ->
  exists w' p' q', adv w' (None, decode (a +:+ (newline +:+ m))) p' /\ Rel re p' q'.
Proof.
  intros HL [Hw Hp] HR. cbn [fst snd] in Hw, Hp.
  set (w' := decode a ++ (nl_rune, 1) :: w).
  destruct (Rel_sim re HL p q (prev_after None w', p.2)) as (q' & _ & HR').
  - split; [done|]. simpl. rewrite Hp.
    destruct (prev_after_last_line (decode a) w) as [E|[E1 E2]]; [left; done | right; done].
  - done.
  - exists w', (prev_after None w', p.2), q'. split; [|done]. split; [|done].
    cbn [fst snd]. rewrite decode_newline, Hw. unfold w'. by rewrite <- app_assoc.
Qed.

(** The text of a non-empty window ends with the last message. *)
Lemma window_text_snoc n h l :
  0 < n ->
  window_text n (h ++ [l]) = lMessage l \/
  exists a, window_text n (h ++ [l]) = a +:+ (newline +:+ lMessage l).
Proof.
  intros Hn. unfold window_text, concatLogs. rewrite <- ring_push by done.
  destruct (drop 1 (ring n "" lMessage h)) as [|x rest]; [by left|]. right.
  rewrite strings_Join_snoc by done. eauto.
Qed.

(** The full search and the last-line search agree on the verdict, and a match
    found by the full search starts in the last line. *)
Lemma last_line_verdict re n h l :
  0 < n -> isLastLineOnly re = true -> end_anchored re ->
  match FindStringIndex re (window_text n (h ++ [l])) with
  | None => MatchString re (lMessage l) = false
  | Some i => MatchString re (lMessage l) = true /\
      String.length (window_text n (h ++ [l])) <= i + String.length (lMessage l)
  end.
Proof.
  intros Hn HL HA. destruct (window_text_snoc n h l Hn) as [-> | [a ->]].
  - unfold MatchString. destruct (FindStringIndex re (lMessage l)) as [i|]; [|done].
    split; [done | lia].
  - destruct (FindStringIndex _ _) as [i|] eqn:E.
    + apply FindStringIndex_Some in E as (w & p & q & Hw & HR & ->).
      destruct (last_line_match re a (lMessage l) w p q HL HA Hw HR)
        as (w3 & p' & q' & -> & Hw3 & HR').
      split; [by apply MatchString_spec; eauto|].
      rewrite !append_length, cells_len_app, decode_len. simpl. lia.
    + destruct (MatchString re (lMessage l)) eqn:Em; [|done].
      apply MatchString_spec in Em as (w & p & q & Hw & HR).
      destruct (last_line_match_conv re a (lMessage l) w p q HL Hw HR)
        as (w' & p' & q' & Hw' & HR').
      assert (Hm : MatchString re (a +:+ (newline +:+ lMessage l)) = true)
        by (apply MatchString_spec; eauto).
      apply MatchString_FindStringIndex in Hm. rewrite E in Hm. by destruct Hm.
Qed.

(** What the shortcut returns on a represented buffer. *)
Lemma matchLastLine_Repr b n hist re :
  Repr b n hist ->
  matchLastLine b re =
  Ret match last hist with
      | None => []
      | Some l => if MatchString re (lMessage l) then [l] else []
      end.
Proof.
  intros HR. pose proof HR as [Hn Hm Hc _ _ _ _ _ _]. unfold matchLastLine.
  rewrite Hc, Hm. destruct hist as [|l h _] using rev_ind; [done|].
  rewrite last_snoc. rewrite (proj2 (Z.eqb_neq _ _)) by (rewrite length_app; simpl; lia).
  replace (Z.of_nat (length (h ++ [l])) - 1)%Z with (Z.of_nat (length h))
    by (rewrite length_app; simpl; lia).
  rewrite go_rem_nat by lia. simpl.
  destruct (Repr_slot b n (h ++ [l]) (n - 1) HR ltac:(lia)) as [Hb Hms].
  assert (Hidx : (length (h ++ [l]) + (n - 1)) mod n = length h mod n).
  { rewrite length_app. simpl. replace (length h + 1 + (n - 1)) with (length h + 1 * n) by lia.
    apply Nat.Div0.mod_add. }
  rewrite Hidx in Hb, Hms.
  rewrite <- ring_push in Hb by done. rewrite <- ring_push in Hms by done.
  assert (Hlast : forall B (pad : B) f,
            (drop 1 (ring n pad f h) ++ [f l]) !! (n - 1) = Some (f l)).
  { intros B pad f. rewrite lookup_app_r; rewrite length_drop, ring_length; [|lia].
    by rewrite Nat.sub_diag. }
  rewrite Hlast in Hb. rewrite Hlast in Hms.
  rewrite (slice_get_lookup _ _ _ Hms). simpl.
  destruct (MatchString re (lMessage l)); simpl; [|done].
  by rewrite (slice_get_lookup _ _ _ Hb).
Qed.

(** The shortcut returns what the full search specifies. *)
Lemma shortcut_match_spec re n hist :
  0 < n -> isLastLineOnly re = true -> end_anchored re ->
  match_spec re n hist =
  match last hist with
  | None => []
  | Some l => if MatchString re (lMessage l) then [l] else []
  end.
Proof.
  intros Hn HL HA. unfold match_spec.
  destruct hist as [|l h _] using rev_ind.
  - unfold lastn. rewrite drop_nil. by case_match.
  - rewrite last_snoc, lastn_snoc by done.
    pose proof (last_line_verdict re n h l Hn HL HA) as Hv.
    destruct (FindStringIndex _ _) as [i|]; [|by rewrite Hv].
    destruct Hv as [-> Hi]. rewrite reverse_snoc. cbn [cover].
    rewrite (proj2 (Z.ltb_lt _ _)) by lia. done.
Qed.
End LastLine.

(** ** The buffer as its clients see it *)

(** Pushing a sequence of logs. *)
Fixpoint push_all (b : logBuffer) (logs : list Log) : outcome logBuffer :=
  match logs with
  | [] => Ret b
  | l :: ls => b' ← Push b l; push_all b' ls
  end.

Lemma push_all_Repr b n hist logs :
  Repr b n hist ->
  (Z.of_nat (length hist) + Z.of_nat (length logs) + Z.of_nat n <= int64_max)%Z ->
  exists b', push_all b logs = Ret b' /\ Repr b' n (hist ++ logs).
Proof.
  revert b hist. induction logs as [|l logs IH]; intros b hist HR Hb; simpl in *.
  { exists b. by rewrite app_nil_r. }
  destruct (Push_Repr b n hist l HR ltac:(lia)) as (b' & -> & HR'). simpl.
  destruct (IH b' (hist ++ [l]) HR') as (b'' & -> & HR'').
  { rewrite length_app. simpl. lia. }
  exists b''. by rewrite <- app_assoc in HR''.
Qed.

(** C22.  The log buffer refines the queue of the last [n] messages: after any
    sequence of pushes into a fresh buffer of [n > 0] lines nothing has
    panicked, and [String] is the newline-separated join of one empty line per
    slot never written, followed by the last [n] messages, oldest first.  The
    joined text that [String] caches is never stale. *)
Theorem log_buffer_window (n : nat) (logs : list Log) :
  0 < n -> (Z.of_nat (length logs) + Z.of_nat n <= int64_max)%Z ->
  exists b0 b b',
    NewLogBuffer (Z.of_nat n) = Ret b0 /\
    push_all b0 logs = Ret b /\
    bufferString b =
      Ret (b', strings_Join (replicate (n - length logs) "" ++
                             (lMessage <$> lastn n logs)) newline) /\
    (forall l b1 b2, Push b' l = Ret b1 -> Push b l = Ret b2 -> b1 = b2).
Proof.
  intros Hn Hb. destruct (NewLogBuffer_Repr n Hn ltac:(lia)) as (b0 & H0 & HR0).
  destruct (push_all_Repr b0 n [] logs HR0 ltac:(simpl; lia)) as (b & Hp & HR).
  destruct (bufferString_Repr b n logs HR) as (b' & Hs & HR').
  exists b0, b, b'. split_and!; [done | done | exact Hs |].
  intros l b1 b2. unfold bufferString in Hs. destruct (joinedOK b).
  { injection Hs as <- _. congruence. }
  destruct (go_rem (current b) (max b)); [|done]. injection Hs as <- _. unfold Push; simpl. congruence.
Qed.

Lemma log_buffer_window_witness :
  0 < 2 /\
  exists b0 b b',
    NewLogBuffer (Z.of_nat 2) = Ret b0 /\
    push_all b0 [mkLog 0%Z "a"; mkLog 1%Z "b"; mkLog 2%Z "c"] = Ret b /\
    bufferString b = Ret (b', "b" +:+ newline +:+ "c") /\
    (forall l b1 b2, Push b' l = Ret b1 -> Push b l = Ret b2 -> b1 = b2).
Proof.
  split; [lia|]. apply (log_buffer_window 2 [mkLog 0%Z "a"; mkLog 1%Z "b"; mkLog 2%Z "c"]).
  - lia.
  - vm_compute. discriminate.
Defined.

(** ** The lines a match returns *)
Section Matched.
Context `{UC : !Unicode}.

(** The bytes a run of lines takes in the joined text, each with its newline. *)
Definition text_bytes (logs : list Log) : Z :=
  foldr (fun l z => Z.of_nat (String.length (lMessage l)) + 1 + z)%Z 0%Z logs.

Lemma text_bytes_app l1 l2 : text_bytes (l1 ++ l2) = (text_bytes l1 + text_bytes l2)%Z.
Proof. induction l1; simpl; lia. Qed.

Lemma cover_split s total ls :
  exists k, cover s total ls = take k ls /\
    (ls ≠ [] -> 0 < k) /\
    ((s < total + text_bytes (take k ls))%Z \/ length ls <= k) /\
    (forall j, 0 < j < k -> (total + text_bytes (take j ls) <= s)%Z).
Proof.
  revert total. induction ls as [|l ls IH]; intros total.
  { exists 0. split_and!; [done | done | by right; simpl; lia | lia]. }
  cbn [cover]. destruct (s <? _)%Z eqn:E.
  - apply Z.ltb_lt in E. exists 1. simpl. rewrite take_0. simpl.
    split_and!; [done | lia | left; lia | lia].
  - apply Z.ltb_ge in E. destruct (IH (total + (Z.of_nat (String.length (lMessage l)) + 1))%Z)
      as (k & -> & Hk & Hend & Hmin).
    exists (S k). cbn [take text_bytes foldr length].
    fold (text_bytes (take k ls)). split_and!; [done | lia | lia |].
    intros [|[|j]] Hj; [lia | simpl; lia |]. specialize (Hmin (S j) ltac:(lia)).
    cbn [take text_bytes foldr]. fold (text_bytes (take (S j) ls)). lia.
Qed.

Lemma text_bytes_reverse l : text_bytes (reverse l) = text_bytes l.
Proof.
  induction l as [|x l IH]; [done|].
  rewrite reverse_cons, text_bytes_app, IH. simpl. lia.
Qed.

Lemma cover_reverse s l :
  exists skipped, l = skipped ++ reverse (cover s 0 (reverse l)) /\
    (l ≠ [] -> reverse (cover s 0 (reverse l)) ≠ []) /\
    (s < text_bytes (reverse (cover s 0 (reverse l))) \/ skipped = [])%Z /\
    (forall l1 l2, reverse (cover s 0 (reverse l)) = l1 ++ l2 ->
       l1 ≠ [] -> l2 ≠ [] -> text_bytes l2 <= s)%Z.
Proof.
  destruct (cover_split s 0 (reverse l)) as (k & -> & Hk & Hend & Hmin).
  exists (reverse (drop k (reverse l))).
  rewrite <- reverse_app, take_drop, reverse_involutive. split_and!; [done | | |].
  - intros Hl E. destruct l as [|x l _] using rev_ind; [done|].
    apply (f_equal reverse) in E. rewrite reverse_involutive in E.
    rewrite reverse_snoc in E, Hk. specialize (Hk ltac:(done)).
    destruct k; [lia | done].
  - rewrite text_bytes_reverse. destruct Hend as [H|H]; [by left; lia|].
    right. by rewrite drop_ge by lia.
  - intros l1 l2 E H1 H2. apply (f_equal reverse) in E.
    rewrite reverse_involutive, reverse_app in E.
    assert (Hlen : length (reverse l2) < k).
    { apply (f_equal length) in E. rewrite length_take, length_app, !length_reverse in E.
      destruct l1; [done|]. rewrite length_reverse. simpl in E. lia. }
    assert (Ht : take (length (reverse l2)) (reverse l) = reverse l2).
    { transitivity (take (length (reverse l2)) (take k (reverse l))).
      - rewrite take_take. f_equal. lia.
      - by rewrite E, take_app_length. }
    specialize (Hmin (length (reverse l2))). rewrite Ht, text_bytes_reverse in Hmin.
    apply Hmin. split; [|done]. rewrite length_reverse. destruct l2; [done | simpl; lia].
Qed.

(** A rule that is searched in the whole window returns no line when the
    window has no match.  Otherwise it returns the shortest run of latest lines
    that reaches back to the line the leftmost match begins in: the lines
    skipped and the lines returned make up the window, at least one line is
    returned once a line was pushed, the run reaches the match (or is the whole
    window), and no shorter run does. *)
Theorem Match_returns_matched_lines b n hist p :
  Repr b n hist -> lastLineOnly p = false ->
  exists b' logs, Match b p = Ret (b', logs) /\ Repr b' n hist /\
    match FindStringIndex (pRegexp p) (window_text n hist) with
    | None => logs = []
    | Some i =>
      let s := (Z.of_nat (String.length (window_text n hist)) - Z.of_nat i - 1)%Z in
      exists skipped, lastn n hist = skipped ++ logs /\
        (hist ≠ [] -> logs ≠ []) /\
        (s < text_bytes logs \/ skipped = [])%Z /\
        (forall l1 l2, logs = l1 ++ l2 -> l1 ≠ [] -> l2 ≠ [] -> text_bytes l2 <= s)%Z
    end.
Proof.
  intros HR Hp. destruct (Match_full_Repr b n hist p HR Hp) as (b' & HM & HR').
  exists b', (match_spec (pRegexp p) n hist). split_and!; [done | done |].
  unfold match_spec. destruct (FindStringIndex _ _) as [i|]; [|done].
  destruct (cover_reverse (Z.of_nat (String.length (window_text n hist)) - Z.of_nat i - 1)
              (lastn n hist)) as (skipped & H1 & H2 & H3 & H4).
  exists skipped. split_and!; [done | | done | done].
  intros Hh. apply H2. intros E. apply (f_equal length) in E.
  rewrite lastn_length in E. destruct hist; [done|]. pose proof (repr_pos _ _ _ HR).
  simpl in E. lia.
Qed.

(** *** The compiled pattern *)
Section Compiled.
Variable parse : string -> result Regexp.

(** Documented syntax of package [regexp/syntax]: a group around an expression
    that parses alone, followed by the end-of-text escape, is a concatenation
    whose last factor is the end-of-text anchor. *)
Hypothesis parse_grouped : forall e t,
  is_ok (parse e) = true ->
  parse ("(?:" +:+ e +:+ ")" +:+ end_anchor) = Ok t -> end_anchored t.

Lemma CompilePattern_lastLine expr p :
  CompilePattern parse expr = Ok p -> lastLineOnly p = true ->
  isLastLineOnly (pRegexp p) = true /\ end_anchored (pRegexp p).
Proof.
  unfold CompilePattern. intros H Hl.
  destruct (parse expr) as [t0|] eqn:E0; [|done].
  destruct (parse (expr +:+ end_anchor)) as [reg|]; [|done].
  destruct (parse ("(?:" +:+ expr +:+ ")" +:+ end_anchor)) as [g|] eqn:Eg;
    simplify_eq/=.
  apply andb_true_iff in Hl as [HE HL]. split; [done|].
  eapply end_anchored_Equal; [done|]. apply (parse_grouped expr); by rewrite ?E0.
Qed.

(** C7.  The last-line shortcut is equivalent to the full search.  Whatever
    pattern [CompilePattern] returns, whatever logs were pushed: [Match] with
    the pattern as compiled returns the same lines as [Match] with the shortcut
    switched off, and neither panics. *)
Theorem last_line_shortcut_equiv expr p b n hist :
  CompilePattern parse expr = Ok p -> Repr b n hist ->
  exists b1 b2 logs,
    Match b p = Ret (b1, logs) /\ Repr b1 n hist /\
    Match b (mkPattern (pRegexp p) false) = Ret (b2, logs) /\ Repr b2 n hist.
Proof.
  intros HC HR.
  destruct (Match_full_Repr b n hist (mkPattern (pRegexp p) false) HR eq_refl)
    as (b2 & H2 & HR2). simpl in H2.
  destruct (lastLineOnly p) eqn:E.
  - destruct (CompilePattern_lastLine expr p HC E) as [HL HA].
    exists b, b2, (match_spec (pRegexp p) n hist). split_and!; [|done..].
    unfold Match. rewrite E, (matchLastLine_Repr b n hist _ HR). simpl.
    by rewrite (shortcut_match_spec _ n hist (repr_pos _ _ _ HR) HL HA).
  - exists b2, b2, (match_spec (pRegexp p) n hist).
    destruct p as [re lo]; simpl in *; subst. done.
Qed.
End Compiled.
End Matched.

(** A concrete parser for the witness: it knows the literal [oom] and its two
    anchored forms. *)
Definition oom_tree : Regexp :=
  MkRegexp OpLiteral 0 [] [111; 111; 109]%Z 0 0 0 "".
Definition oom_anchored : Regexp :=
  MkRegexp OpConcat 0 [oom_tree; MkRegexp OpEndText 0 [] [] 0 0 0 ""] [] 0 0 0 "".
Definition oom_parse (e : string) : result Regexp :=
  if String.eqb e "oom" then Ok oom_tree
  else if String.eqb e ("oom" +:+ end_anchor) then Ok oom_anchored
  else if String.eqb e ("(?:oom)" +:+ end_anchor) then Ok oom_anchored
  else Err "unknown expression".

Lemma oom_parse_grouped e t :
  is_ok (oom_parse e) = true ->
  oom_parse ("(?:" +:+ e +:+ ")" +:+ end_anchor) = Ok t -> end_anchored t.
Proof.
  intros _. unfold oom_parse. simpl.
  destruct (String.eqb _ _) eqn:E; [|done]. intros [= <-].
  split; [done|]. by exists [oom_tree], (MkRegexp OpEndText 0 [] [] 0 0 0 "").
Qed.

Definition oom_buffer : logBuffer :=
  {| buffer := [Some (mkLog 2%Z "xoom"); Some (mkLog 1%Z "boom")]; msg := ["xoom"; "boom"];
     max := 2; current := 3; joined := ""; joinedOK := false |}.
Definition oom_hist : list Log := [mkLog 0%Z "a"; mkLog 1%Z "boom"; mkLog 2%Z "xoom"].

Lemma oom_buffer_Repr : Repr oom_buffer 2 oom_hist.
Proof. constructor; try done; simpl; lia || (vm_compute; done). Qed.

Lemma Match_returns_matched_lines_witness :
  exists b' logs,
    Match oom_buffer (mkPattern oom_tree false) = Ret (b', logs) /\
    Repr b' 2 oom_hist /\ logs = [mkLog 1%Z "boom"; mkLog 2%Z "xoom"].
Proof.
  destruct (Match_returns_matched_lines oom_buffer 2 oom_hist (mkPattern oom_tree false)
              oom_buffer_Repr eq_refl) as (b' & logs & HM & HR & _).
  exists b', logs. split; [exact HM|]. split; [exact HR|].
  vm_compute in HM. congruence.
Defined.

Lemma last_line_shortcut_equiv_witness :
  CompilePattern oom_parse "oom" = Ok (mkPattern oom_anchored true) /\
  exists b1 b2 logs,
    Match oom_buffer (mkPattern oom_anchored true) = Ret (b1, logs) /\ Repr b1 2 oom_hist /\
    Match oom_buffer (mkPattern oom_anchored false) = Ret (b2, logs) /\ Repr b2 2 oom_hist.
Proof.
  split; [vm_compute; reflexivity|].
  apply (last_line_shortcut_equiv oom_parse oom_parse_grouped "oom"
           (mkPattern oom_anchored true) oom_buffer 2 oom_hist).
  - vm_compute; reflexivity.
  - exact oom_buffer_Repr.
Defined.
