(* ===== verification/Options.v ===== *)
(** The command line options ([cmd/options/options.go]) and the registries of
    problem daemons and exporters ([pkg/problemdaemon], [pkg/exporters]).

    A Go map is a [gmap]; the order in which [range] visits it is an argument
    of the definitions that iterate, and the theorems hold for every order. *)

From S2P Require Import Prelude GoStrings GoTime.

(** [order] visits every key of [m] exactly once. *)
Definition visits {A} (m : gmap string A) (order : list string) : Prop :=
  order ≡ₚ (map_to_list m).*1.

Lemma visits_elem {A} (m : gmap string A) order k :
  visits m order -> k ∈ order <-> is_Some (m !! k).
Proof.
  unfold visits. intros ->. rewrite list_elem_of_fmap. split.
  - intros ([k' a] & -> & H%elem_of_map_to_list). eauto.
  - intros [a H]. exists (k, a). by rewrite elem_of_map_to_list.
Qed.

Lemma visits_NoDup {A} (m : gmap string A) order : visits m order -> NoDup order.
Proof. unfold visits. intros ->. apply NoDup_fst_map_to_list. Qed.

Lemma visits_dom {A B} (m : gmap string A) (m' : gmap string B) order :
  dom m' = dom m -> visits m order -> visits m' order.
Proof.
  unfold visits. intros Hd ->. apply NoDup_Permutation; [apply NoDup_fst_map_to_list..|].
  intros k.
  assert (Hk : forall C (n : gmap string C), k ∈ (map_to_list n).*1 <-> k ∈ dom n).
  { intros C n. rewrite elem_of_dom, list_elem_of_fmap. split.
    - intros ([k' a] & -> & H%elem_of_map_to_list). eauto.
    - intros [a H]. exists (k, a). by rewrite elem_of_map_to_list. }
  by rewrite !Hk, Hd.
Qed.

#[export] Instance visits_dec {A} (m : gmap string A) order : Decision (visits m order).
Proof. unfold visits. apply _. Defined.

(** ** The registry of problem daemons *)
Section ProblemDaemons.
Context {Monitor : Type}.

(* @ pkg/types/types.go:129-135 ProblemDaemonHandler *)
Record ProblemDaemonHandler : Type := mkDaemonHandler {
  CreateProblemDaemonOrDie : string -> outcome Monitor;
  CmdOptionDescription : string
}.

(* @ pkg/problemdaemon/problem_daemon.go:27-32 Register *)
Definition RegisterProblemDaemon (t : string) (handler : ProblemDaemonHandler)
    (handlers : gmap string ProblemDaemonHandler) : gmap string ProblemDaemonHandler :=
  <[t := handler]> handlers.

(* @ pkg/problemdaemon/problem_daemon.go:34-41 GetProblemDaemonNames *)
Definition GetProblemDaemonNames (order : list string) : list string := order.

(* @ pkg/problemdaemon/problem_daemon.go:43-50 GetProblemDaemonHandlerOrDie *)
Definition GetProblemDaemonHandlerOrDie (handlers : gmap string ProblemDaemonHandler)
    (t : string) : outcome ProblemDaemonHandler :=
  match handlers !! t with
  | None => Panic "Problem daemon handler does not exist"
  | Some handler => Ret handler
  end.

(** The inner loop: the configurations of one type. *)
(* @ pkg/problemdaemon/problem_daemon.go:55-62 NewProblemDaemons *)
Fixpoint addConfigs (handler : option ProblemDaemonHandler) (configs : list string)
    (daemons : gmap string Monitor) : outcome (gmap string Monitor) :=
  match configs with
  | [] => Ret daemons
  | config :: configs =>
    match daemons !! config with
    | Some _ => addConfigs handler configs daemons
    | None =>
      match handler with
      | None => Panic "nil dereference"
      | Some h =>
        d ← CreateProblemDaemonOrDie h config;
        addConfigs handler configs (<[config := d]> daemons)
      end
    end
  end.

Fixpoint addTypes (handlers : gmap string ProblemDaemonHandler)
    (paths : gmap string (list string)) (order : list string)
    (daemons : gmap string Monitor) : outcome (gmap string Monitor) :=
  match order with
  | [] => Ret daemons
  | t :: order =>
    daemons ← addConfigs (handlers !! t) (default [] (paths !! t)) daemons;
    addTypes handlers paths order daemons
  end.

(* @ pkg/problemdaemon/problem_daemon.go:52-71 NewProblemDaemons *)
Definition NewProblemDaemons (handlers : gmap string ProblemDaemonHandler)
    (paths : gmap string (list string)) (order : list string) : outcome (list Monitor) :=
  daemons ← addTypes handlers paths order ∅;
  Ret (map_to_list daemons).*2.

(** A map of daemons built from the configurations of the types in [ts]. *)
Definition built_from (handlers : gmap string ProblemDaemonHandler)
    (paths : gmap string (list string)) (ts : list string)
    (daemons : gmap string Monitor) : Prop :=
  (forall c, is_Some (daemons !! c) <-> exists t, t ∈ ts /\ c ∈ default [] (paths !! t)) /\
  (forall c d, daemons !! c = Some d -> exists t h, t ∈ ts /\ c ∈ default [] (paths !! t) /\
     handlers !! t = Some h /\ CreateProblemDaemonOrDie h c = Ret d).

Lemma addConfigs_spec handler configs daemons daemons' :
  addConfigs handler configs daemons = Ret daemons' ->
  daemons ⊆ daemons' /\
  (forall c, is_Some (daemons' !! c) <-> is_Some (daemons !! c) \/ c ∈ configs) /\
  (forall c d, daemons' !! c = Some d -> daemons !! c = Some d \/
     c ∈ configs /\ exists h, handler = Some h /\ CreateProblemDaemonOrDie h c = Ret d).
Proof.
  revert daemons. induction configs as [|x configs IH]; intros daemons H; simpl in H.
  { simplify_eq. split_and!; [done | set_solver | by left]. }
  destruct (daemons !! x) as [d0|] eqn:E.
  - destruct (IH _ H) as (Hsub & Hdom & Hval). split_and!; [done | |].
    + intros c. rewrite Hdom, elem_of_cons. split; [by intuition|].
      intros [Hc|[->|Hc]]; [by left | left; by rewrite E | by right].
    + intros c d Hc. destruct (Hval c d Hc) as [?|(? & ?)]; [by left|].
      right. split; [by right | done].
  - destruct handler as [h|]; [|done]. destruct (CreateProblemDaemonOrDie h x) as [d0|] eqn:Ec;
      simpl in H; [|done].
    destruct (IH _ H) as (Hsub & Hdom & Hval). split_and!.
    + etrans; [by apply insert_subseteq | done].
    + intros c. rewrite Hdom, lookup_insert_is_Some', elem_of_cons. intuition (subst; eauto).
    + intros c d Hc. destruct (Hval c d Hc) as [Hi|(? & ?)].
      * apply lookup_insert_Some in Hi as [[-> ->]|[? ?]]; [|by left].
        right. split; [by left | eauto].
      * right. split; [by right | done].
Qed.

Lemma addTypes_built handlers paths order ts daemons daemons' :
  built_from handlers paths ts daemons ->
  addTypes handlers paths order daemons = Ret daemons' ->
  built_from handlers paths (ts ++ order) daemons'.
Proof.
  revert ts daemons. induction order as [|t order IH]; intros ts daemons HB H; simpl in H.
  { simplify_eq. by rewrite app_nil_r. }
  destruct (addConfigs _ _ _) as [daemons1|] eqn:E; simpl in H; [|done].
  rewrite cons_middle, app_assoc. eapply IH; [|done].
  destruct (addConfigs_spec _ _ _ _ E) as (_ & Hdom & Hval).
  destruct HB as [HB1 HB2]. split.
  - intros c. rewrite Hdom, HB1. split.
    + intros [(t' & ? & ?)|Hc]; [exists t'|exists t]; rewrite elem_of_app;
        [by split; [left|] | split; [right; by left | done]].
    + intros (t' & [Ht| ->%list_elem_of_singleton]%elem_of_app & Hc); [left|right; done].
      eauto.
  - intros c d Hc. destruct (Hval c d Hc) as [H1|(H1 & h & Hh & Hd)].
    + destruct (HB2 c d H1) as (t' & h & ? & ?). exists t', h. rewrite elem_of_app. tauto.
    + exists t, h. rewrite elem_of_app. split_and!; [right; by left | done..].
Qed.

Lemma NewProblemDaemons_map handlers paths order ms :
  visits paths order ->
  NewProblemDaemons handlers paths order = Ret ms ->
  exists daemons : gmap string Monitor,
    ms = (map_to_list daemons).*2 /\
    (forall c, is_Some (daemons !! c) <->
       exists t cs, paths !! t = Some cs /\ c ∈ cs) /\
    (forall c d, daemons !! c = Some d -> exists t cs h, paths !! t = Some cs /\ c ∈ cs /\
       GetProblemDaemonHandlerOrDie handlers t = Ret h /\ CreateProblemDaemonOrDie h c = Ret d).
Proof.
  intros Hv H. unfold NewProblemDaemons in H.
  destruct (addTypes _ _ _ _) as [daemons|] eqn:E; simpl in H; [|done]. simplify_eq.
  assert (HB : built_from handlers paths [] ∅).
  { split; [intros c; rewrite lookup_empty; split; [by intros [] | by intros (t & ?%elem_of_nil & _)]
           | by intros c d; rewrite lookup_empty]. }
  destruct (addTypes_built _ _ _ _ _ _ HB E) as [H1 H2]. simpl in H1, H2.
  exists daemons. split_and!; [done | |].
  - intros c. rewrite H1. split.
    + intros (t & Ht & Hc). apply (visits_elem paths) in Ht as [cs Hcs]; [|done].
      rewrite Hcs in Hc. eauto.
    + intros (t & cs & Hcs & Hc). exists t. rewrite Hcs. split; [|done].
      apply (visits_elem paths); eauto.
  - intros c d Hc. destruct (H2 c d Hc) as (t & h & Ht & Hcc & Hh & Hd).
    apply (visits_elem paths) in Ht as [cs Hcs]; [|done]. rewrite Hcs in Hcc.
    exists t, cs, h. unfold GetProblemDaemonHandlerOrDie. by rewrite Hh.
Qed.
(** [NewProblemDaemons], whatever order the map of configuration paths is
    visited in: when no constructor dies, the daemons are the values of a map
    that has exactly one entry per distinct configuration path, and the entry
    of a path was created by the registered handler of a type that lists the
    path. *)
Theorem NewProblemDaemons_one_per_config handlers paths order ms :
  visits paths order ->
  NewProblemDaemons handlers paths order = Ret ms ->
  exists daemons : gmap string Monitor,
    ms = (map_to_list daemons).*2 /\
    (forall c, is_Some (daemons !! c) <->
       exists t cs, paths !! t = Some cs /\ c ∈ cs) /\
    (forall c d, daemons !! c = Some d -> exists t cs h, paths !! t = Some cs /\ c ∈ cs /\
       GetProblemDaemonHandlerOrDie handlers t = Ret h /\ CreateProblemDaemonOrDie h c = Ret d).
Proof. apply NewProblemDaemons_map. Qed.
End ProblemDaemons.

(** ** The registry of exporters *)
Section Exporters.
Context {Exporter CommandLineOptions : Type}.

(* @ pkg/types/types.go:140-146 ExporterHandler *)
Record ExporterHandler : Type := mkExporterHandler {
  CreateExporterOrDie : CommandLineOptions -> outcome (option Exporter);
  ehOptions : CommandLineOptions
}.

(* @ pkg/exporters/register.go:25-30 Register *)
Definition RegisterExporter (t : string) (handler : ExporterHandler)
    (handlers : gmap string ExporterHandler) : gmap string ExporterHandler :=
  <[t := handler]> handlers.

(* @ pkg/exporters/register.go:32-39 GetExporterNames *)
Definition GetExporterNames (order : list string) : list string := order.

(* @ pkg/exporters/register.go:41-48 GetExporterHandlerOrDie *)
Definition GetExporterHandlerOrDie (handlers : gmap string ExporterHandler) (t : string)
    : outcome ExporterHandler :=
  match handlers !! t with
  | None => Panic "Exporter handler does not exist"
  | Some handler => Ret handler
  end.

(* @ pkg/exporters/register.go:50-61 NewExporters *)
Fixpoint NewExporters (handlers : gmap string ExporterHandler) (order : list string)
    : outcome (list Exporter) :=
  match order with
  | [] => Ret []
  | t :: order =>
    match handlers !! t with
    | None => NewExporters handlers order
    | Some handler =>
      exporter ← CreateExporterOrDie handler (ehOptions handler);
      rest ← NewExporters handlers order;
      Ret (match exporter with None => rest | Some e => e :: rest end)
    end
  end.
End Exporters.
Arguments ExporterHandler : clear implicits.

(** ** The options *)

(* @ cmd/options/options.go:33-97 NodeProblemDetectorOptions *)
Record NodeProblemDetectorOptions : Type := mkOptions {
  PrintVersion : bool;
  HostnameOverride : string;
  ServerPort : Z;
  ServerAddress : string;
  QPS : Z;
  Burst : Z;
  EnableK8sExporter : bool;
  EventNamespace : string;
  ApiServerOverride : string;
  APIServerWaitTimeout : Duration;
  APIServerWaitInterval : Duration;
  K8sExporterHeartbeatPeriod : Duration;
  K8sExporterWriteEvents : bool;
  K8sExporterUpdateNodeConditions : bool;
  PrometheusServerPort : Z;
  PrometheusServerAddress : string;
  SystemLogMonitorConfigPaths : list string;
  CustomPluginMonitorConfigPaths : list string;
  MonitorConfigPaths : gmap string (list string);
  NodeName : string
}.

(** The allocated zero value with the given map of paths. *)
Definition zero_options (paths : gmap string (list string)) : NodeProblemDetectorOptions :=
  mkOptions false "" 0%Z "" 0%Z 0%Z false "" "" 0%Z 0%Z 0%Z false false 0%Z "" [] [] paths "".

(* @ cmd/options/options.go:99-106 NewNodeProblemDetectorOptions *)
Definition NewNodeProblemDetectorOptions (names : list string) : NodeProblemDetectorOptions :=
  zero_options (foldl (fun paths name => <[name := []]> paths) ∅ names).

Definition with_node_name (o : NodeProblemDetectorOptions) (name : string) :=
  mkOptions (PrintVersion o) (HostnameOverride o) (ServerPort o) (ServerAddress o) (QPS o)
    (Burst o) (EnableK8sExporter o) (EventNamespace o) (ApiServerOverride o)
    (APIServerWaitTimeout o) (APIServerWaitInterval o) (K8sExporterHeartbeatPeriod o)
    (K8sExporterWriteEvents o) (K8sExporterUpdateNodeConditions o) (PrometheusServerPort o)
    (PrometheusServerAddress o) (SystemLogMonitorConfigPaths o)
    (CustomPluginMonitorConfigPaths o) (MonitorConfigPaths o) name.

Definition with_paths (o : NodeProblemDetectorOptions) (syslog custom : list string)
    (paths : gmap string (list string)) :=
  mkOptions (PrintVersion o) (HostnameOverride o) (ServerPort o) (ServerAddress o) (QPS o)
    (Burst o) (EnableK8sExporter o) (EventNamespace o) (ApiServerOverride o)
    (APIServerWaitTimeout o) (APIServerWaitInterval o) (K8sExporterHeartbeatPeriod o)
    (K8sExporterWriteEvents o) (K8sExporterUpdateNodeConditions o) (PrometheusServerPort o)
    (PrometheusServerAddress o) syslog custom paths (NodeName o).

(** *** Flags

    [pflag] stores the default of a flag in its variable when the flag is
    defined, and panics when a name is defined twice.  [AddFlags] is modelled
    by the names it defines, in order, and the variables it sets. *)
Definition base_flags : list string :=
  ["system-log-monitors"; "custom-plugin-monitors"; "enable-k8s-exporter";
   "event-namespace"; "apiserver-override"; "apiserver-wait-timeout";
   "apiserver-wait-interval"; "k8s-exporter-heartbeat-period";
   "k8s-exporter-write-events"; "k8s-exporter-update-node-conditions"; "version";
   "hostname-override"; "port"; "address"; "prometheus-port"; "prometheus-address";
   "kube-api-qps"; "kube-api-burst"].

(** Defining the flags [names] in the flag set [fs]. *)
Fixpoint define_flags (fs names : list string) : outcome (list string) :=
  match names with
  | [] => Ret fs
  | n :: names =>
    if bool_decide (n ∈ fs) then Panic "flag redefined" else define_flags (fs ++ [n]) names
  end.

(* @ cmd/options/options.go:108-157 AddFlags *)
Definition AddFlags (o : NodeProblemDetectorOptions) (fs : list string)
    (exporter_flags : list string) (daemon_names : list string)
    : outcome (list string * NodeProblemDetectorOptions) :=
  fs ← define_flags fs base_flags;
  fs ← define_flags fs exporter_flags;
  fs ← define_flags fs (map (fun n => "config." +:+ n) daemon_names);
  Ret (fs,
    {| PrintVersion := false; HostnameOverride := "";
       ServerPort := 20256%Z; ServerAddress := "127.0.0.1"; QPS := 500%Z; Burst := 500%Z;
       EnableK8sExporter := true; EventNamespace := ""; ApiServerOverride := "";
       APIServerWaitTimeout := (5 * Minute)%Z; APIServerWaitInterval := (5 * Second)%Z;
       K8sExporterHeartbeatPeriod := (5 * Minute)%Z; K8sExporterWriteEvents := true;
       K8sExporterUpdateNodeConditions := true;
       PrometheusServerPort := 20257%Z; PrometheusServerAddress := "127.0.0.1";
       SystemLogMonitorConfigPaths := []; CustomPluginMonitorConfigPaths := [];
       MonitorConfigPaths :=
         foldl (fun paths n => <[n := []]> paths) (MonitorConfigPaths o) daemon_names;
       NodeName := NodeName o |}).

Section Environment.
(** [url.Parse] accepts the string; [os.Getenv]; [os.Hostname]. *)
Variable url_Parse_ok : string -> bool.
Variable os_Getenv : string -> string.
Variable os_Hostname : result string.

(* @ cmd/options/options.go:159-180 ValidOrDie *)
Definition ValidOrDie (o : NodeProblemDetectorOptions) (order : list string) : outcome unit :=
  if EnableK8sExporter o && negb (url_Parse_ok (ApiServerOverride o))
  then Panic "apiserver-override is not a valid HTTP URI"
  else if negb (length (SystemLogMonitorConfigPaths o) =? 0)
  then Panic "SystemLogMonitorConfigPaths is deprecated"
  else if negb (length (CustomPluginMonitorConfigPaths o) =? 0)
  then Panic "CustomPluginMonitorConfigPaths is deprecated"
  else
    let configCount :=
      foldl (fun n t => n + length (default [] (MonitorConfigPaths o !! t))) 0 order in
    if configCount =? 0 then Panic "No configuration option for any problem daemon is specified."
    else Ret tt.

(* @ cmd/options/options.go:188-188 customPluginMonitorName *)
Definition customPluginMonitorName : string := "custom-plugin-monitor".
(* @ cmd/options/options.go:189-189 systemLogMonitorName *)
Definition systemLogMonitorName : string := "system-log-monitor".

(* @ cmd/options/options.go:192-227 SetConfigFromDeprecatedOptionsOrDie *)
Definition SetConfigFromDeprecatedOptionsOrDie (o : NodeProblemDetectorOptions)
    : outcome NodeProblemDetectorOptions :=
  o ← (if negb (length (SystemLogMonitorConfigPaths o) =? 0) then
         match MonitorConfigPaths o !! systemLogMonitorName with
         | None => Panic "System log monitor is not supported"
         | Some paths =>
           if negb (length paths =? 0)
           then Panic "--system-log-monitors and --config.system-log-monitor are both set"
           else Ret (with_paths o [] (CustomPluginMonitorConfigPaths o)
                       (<[systemLogMonitorName := paths ++ SystemLogMonitorConfigPaths o]>
                          (MonitorConfigPaths o)))
         end
       else Ret o);
  if negb (length (CustomPluginMonitorConfigPaths o) =? 0) then
    match MonitorConfigPaths o !! customPluginMonitorName with
    | None => Panic "Custom plugin monitor is not supported"
    | Some paths =>
      if negb (length paths =? 0)
      then Panic "--custom-plugin-monitors and --config.custom-plugin-monitor are both set"
      else Ret (with_paths o (SystemLogMonitorConfigPaths o) []
                  (<[customPluginMonitorName := paths ++ CustomPluginMonitorConfigPaths o]>
                     (MonitorConfigPaths o)))
    end
  else Ret o.

(* @ cmd/options/options.go:229-257 SetNodeNameOrDie *)
Definition SetNodeNameOrDie (o : NodeProblemDetectorOptions)
    : outcome NodeProblemDetectorOptions :=
  if negb (String.eqb (HostnameOverride o) "") then Ret (with_node_name o (HostnameOverride o))
  else
    let o := with_node_name o (os_Getenv "NODE_NAME") in
    if negb (String.eqb (NodeName o) "") then Ret o
    else
      match os_Hostname with
      | Err _ => Panic "Failed to get host name"
      | Ok nodeName => Ret (with_node_name o nodeName)
      end.

(** The paths a deprecated option may still contribute to a daemon type. *)
Definition merged_paths (o : NodeProblemDetectorOptions) (t : string) : list string :=
  default [] (MonitorConfigPaths o !! t) ++
  (if String.eqb t systemLogMonitorName then SystemLogMonitorConfigPaths o
   else if String.eqb t customPluginMonitorName then CustomPluginMonitorConfigPaths o
   else []).
End Environment.

(** ** What the option checks establish *)
Section OptionFacts.
Variable url_Parse_ok : string -> bool.

(** A deprecated option may be used when its daemon type is registered and has
    no configuration of its own. *)
Definition deprecated_ok (o : NodeProblemDetectorOptions) : Prop :=
  (SystemLogMonitorConfigPaths o ≠ [] ->
     MonitorConfigPaths o !! systemLogMonitorName = Some []) /\
  (CustomPluginMonitorConfigPaths o ≠ [] ->
     MonitorConfigPaths o !! customPluginMonitorName = Some []).

Lemma count_paths_zero (m : gmap string (list string)) order n :
  foldl (fun n t => n + length (default [] (m !! t))) n order = 0 <->
  n = 0 /\ forall t, t ∈ order -> default [] (m !! t) = [].
Proof.
  revert n. induction order as [|t order IH]; intros n; simpl.
  { split; [intros ->; split; [done | by intros t ?%elem_of_nil] | by intros [-> _]]. }
  rewrite IH. split.
  - intros [H1 H2]. split; [lia|]. intros t' [->|Ht']%elem_of_cons; [|by apply H2].
    apply length_zero_iff_nil. lia.
  - intros [-> H]. rewrite (H t) by (by left). split; [done|].
    intros t' Ht'. apply H. by right.
Qed.

Lemma ValidOrDie_Ret o order :
  ValidOrDie url_Parse_ok o order = Ret tt <->
  (EnableK8sExporter o = true -> url_Parse_ok (ApiServerOverride o) = true) /\
  SystemLogMonitorConfigPaths o = [] /\ CustomPluginMonitorConfigPaths o = [] /\
  exists t, t ∈ order /\ default [] (MonitorConfigPaths o !! t) ≠ [].
Proof.
  unfold ValidOrDie.
  destruct (EnableK8sExporter o), (url_Parse_ok (ApiServerOverride o)); simpl;
    try (split; [done | intros [H _]; by specialize (H eq_refl)]).
  all: destruct (SystemLogMonitorConfigPaths o); simpl; [|split; [done | by intros (_ & ? & _)]].
  all: destruct (CustomPluginMonitorConfigPaths o); simpl;
    [|split; [done | by intros (_ & _ & ? & _)]].
  all: destruct (Nat.eqb_spec (foldl (fun n t => n + length (default [] (MonitorConfigPaths o !! t)))
                  0 order) 0) as [E|E].
  all: rewrite count_paths_zero in E.
  all: try (split; [done | intros (_ & _ & _ & t & Ht & Hne); by destruct Hne; apply E]).
  all: split; [intros _; split_and!; [done..|] | done].
  all: destruct (decide (Exists (fun t => default [] (MonitorConfigPaths o !! t) ≠ []) order))
    as [Hx|Hx]; [by apply Exists_exists in Hx as (t & ? & ?); exists t|].
  all: destruct E; split; [done|]; intros t Ht.
  all: destruct (decide (default [] (MonitorConfigPaths o !! t) = [])) as [?|Hn]; [done|].
  all: destruct Hx; apply Exists_exists; eauto.
Qed.

(** One half of the merge, for the type [name] and its deprecated list [dep]. *)
Lemma merge_lookup (m : gmap string (list string)) name dep t :
  m !! name = Some [] ->
  default [] (<[name := [] ++ dep]> m !! t) =
  default [] (m !! t) ++ (if String.eqb t name then dep else []).
Proof.
  intros Hm. destruct (String.eqb_spec t name) as [->|Hne].
  - by rewrite lookup_insert_eq, Hm.
  - by rewrite lookup_insert_ne, app_nil_r.
Qed.

Lemma SetConfig_Ret o o' :
  SetConfigFromDeprecatedOptionsOrDie o = Ret o' ->
  deprecated_ok o /\
  SystemLogMonitorConfigPaths o' = [] /\ CustomPluginMonitorConfigPaths o' = [] /\
  EnableK8sExporter o' = EnableK8sExporter o /\ ApiServerOverride o' = ApiServerOverride o /\
  dom (MonitorConfigPaths o') = dom (MonitorConfigPaths o) /\
  forall t, default [] (MonitorConfigPaths o' !! t) = merged_paths o t.
Proof.
  unfold SetConfigFromDeprecatedOptionsOrDie, deprecated_ok, merged_paths. intros H.
  destruct (SystemLogMonitorConfigPaths o) as [|sp sl] eqn:Es; simpl in H.
  all: [> | destruct (MonitorConfigPaths o !! systemLogMonitorName) as [[|? ?]|] eqn:Em;
            simpl in H; try done].
  all: destruct (CustomPluginMonitorConfigPaths o) as [|cp cl] eqn:Ec; simpl in H.
  all: try rewrite Ec in H; simpl in H.
  - simplify_eq. split_and!; try done. intros t. repeat case_match; by rewrite app_nil_r.
  - destruct (MonitorConfigPaths o !! customPluginMonitorName) as [[|? ?]|] eqn:Em2;
      simpl in H; try done. simplify_eq. simpl. split_and!; try done.
    + rewrite dom_insert_L. apply elem_of_dom_2 in Em2. set_solver.
    + intros t. rewrite (merge_lookup _ _ (cp :: cl)) by done.
      destruct (String.eqb_spec t systemLogMonitorName) as [->|]; done.
  - simplify_eq. simpl. split_and!; try done.
    + rewrite dom_insert_L. apply elem_of_dom_2 in Em. set_solver.
    + intros t. rewrite (merge_lookup _ _ (sp :: sl)) by done. repeat case_match; done.
  - rewrite lookup_insert_ne in H by done.
    destruct (MonitorConfigPaths o !! customPluginMonitorName) as [[|? ?]|] eqn:Em2;
      simpl in H; try done. simplify_eq. simpl. split_and!; try done.
    + rewrite !dom_insert_L. apply elem_of_dom_2 in Em, Em2. set_solver.
    + intros t. rewrite (merge_lookup _ _ (cp :: cl)) by (by rewrite lookup_insert_ne).
      rewrite (merge_lookup _ _ (sp :: sl)) by done.
      destruct (String.eqb_spec t systemLogMonitorName) as [->|]; [by rewrite app_nil_r|].
      by rewrite app_nil_r.
Qed.

Lemma SetConfig_Panic o c :
  SetConfigFromDeprecatedOptionsOrDie o = Panic c -> ~ deprecated_ok o.
Proof.
  unfold SetConfigFromDeprecatedOptionsOrDie, deprecated_ok. intros H [H1 H2].
  destruct (SystemLogMonitorConfigPaths o) as [|sp sl] eqn:Es; simpl in H.
  - destruct (CustomPluginMonitorConfigPaths o) as [|cp cl]; simpl in H; [done|].
    by rewrite H2 in H.
  - rewrite H1 in H by done. simpl in H.
    destruct (CustomPluginMonitorConfigPaths o) as [|cp cl]; simpl in H; [done|].
    by rewrite lookup_insert_ne, H2 in H.
Qed.

(** C32.  Start-up accepts exactly the option sets it means to.  Running
    [SetConfigFromDeprecatedOptionsOrDie] and then [ValidOrDie], with the map
    of paths visited in any order, survives if and only if: a deprecated path
    list is used only for a registered daemon type without configuration of its
    own, the API server override is a URI when the Kubernetes exporter is on,
    and some daemon type has a configuration.  When it survives, each type is
    configured with its own paths followed by its deprecated ones. *)
Theorem options_accepted o order :
  visits (MonitorConfigPaths o) order ->
  (exists o', SetConfigFromDeprecatedOptionsOrDie o = Ret o' /\
              ValidOrDie url_Parse_ok o' order = Ret tt /\
              forall t, default [] (MonitorConfigPaths o' !! t) = merged_paths o t) <->
  deprecated_ok o /\
  (EnableK8sExporter o = true -> url_Parse_ok (ApiServerOverride o) = true) /\
  exists t, merged_paths o t ≠ [].
Proof.
  intros Hv. split.
  - intros (o' & Hs & (Hu & _ & _ & t & Ht & Hne)%ValidOrDie_Ret & Hm).
    apply SetConfig_Ret in Hs as (Hd & _ & _ & He & Ha & _). rewrite He, Ha in Hu.
    split_and!; [done | done |]. exists t. by rewrite <- Hm.
  - intros (Hd & Hu & t & Ht). destruct (SetConfigFromDeprecatedOptionsOrDie o) as [o'|c] eqn:Hs.
    2:{ by apply SetConfig_Panic in Hs. }
    exists o'. apply SetConfig_Ret in Hs as (_ & Hs1 & Hs2 & He & Ha & Hdom & Hm).
    split_and!; [done | | done]. apply ValidOrDie_Ret. rewrite He, Ha.
    split_and!; [done..|]. exists t. rewrite Hm. split; [|done].
    apply (visits_elem (MonitorConfigPaths o)); [done|].
    rewrite <- elem_of_dom, <- Hdom, elem_of_dom. rewrite <- Hm in Ht.
    destruct (MonitorConfigPaths o' !! t); [eauto | done].
Qed.
End OptionFacts.

(** The witnesses: one system log monitor configured through the deprecated
    option. *)
Definition sample_options : NodeProblemDetectorOptions :=
  with_paths (zero_options ∅) ["/config/kernel-monitor.json"] []
    {[ systemLogMonitorName := [] ]}.

Lemma options_accepted_witness :
  exists o', SetConfigFromDeprecatedOptionsOrDie sample_options = Ret o' /\
             ValidOrDie (fun _ => true) o' [systemLogMonitorName] = Ret tt /\
             forall t, default [] (MonitorConfigPaths o' !! t) = merged_paths sample_options t.
Proof.
  apply (options_accepted (fun _ => true) sample_options [systemLogMonitorName]).
  - unfold visits. reflexivity.
  - split; [|split; [done | by exists systemLogMonitorName]].
    by split.
Defined.

Definition sample_handlers : gmap string (ProblemDaemonHandler (Monitor := string)) :=
  {[ systemLogMonitorName := mkDaemonHandler (fun c => Ret c) "" ]}.
Definition sample_paths : gmap string (list string) :=
  {[ systemLogMonitorName := ["a"; "b"; "a"] ]}.

Lemma NewProblemDaemons_one_per_config_witness :
  exists daemons : gmap string string,
    NewProblemDaemons sample_handlers sample_paths [systemLogMonitorName]
      = Ret (map_to_list daemons).*2 /\
    (forall c, is_Some (daemons !! c) <-> exists t cs, sample_paths !! t = Some cs /\ c ∈ cs).
Proof.
  destruct (NewProblemDaemons_one_per_config sample_handlers sample_paths
    [systemLogMonitorName]
    (map_to_list (<["b" := "b"]> {[ "a" := "a" ]} : gmap string string)).*2)
    as (daemons & Hms & Hdom & _).
  - unfold visits. reflexivity.
  - vm_compute. reflexivity.
  - exists daemons. split; [|exact Hdom]. rewrite <- Hms. vm_compute. reflexivity.
Defined.
