(* ===== verification/ProblemClient.v ===== *)
(** The problem client of the Kubernetes exporter
    ([pkg/exporters/k8sexporter/problemclient]).

    [Client] is the interface the condition manager works against, with the one
    law it relies on.  Both implementations of the repository discharge it: the
    fake client, and the client of the API server, for which the API server's
    patch is a parameter. *)

From S2P Require Import Prelude GoStrings GoTime Types Options.

(** ** The interface *)

(** Node conditions up to the heartbeat time, which every client overwrites as
    it likes. *)
Definition nc_equiv (c d : NodeCondition) : Prop :=
  ncType c = ncType d /\ ncStatus c = ncStatus d /\
  ncLastTransitionTime c = ncLastTransitionTime d /\
  ncReason c = ncReason d /\ ncMessage c = ncMessage d.

#[export] Instance nc_equiv_equivalence : Equivalence nc_equiv.
Proof. split; unfold nc_equiv; repeat intro; intuition congruence. Qed.

#[export] Instance ncType_proper : Proper (nc_equiv ==> eq) ncType.
Proof. by intros c d []. Qed.

Definition option_nc_equiv : option NodeCondition -> option NodeCondition -> Prop :=
  option_Forall2 nc_equiv.

#[export] Instance option_nc_equiv_equivalence : Equivalence option_nc_equiv.
Proof. unfold option_nc_equiv. apply _. Qed.

(** [SetConditions] at a time, with the state of the client and of whatever is
    behind it.  [published] is the condition of a type that readers of the node
    see, and [encode] what they get back of a condition once it was stored (the
    API server keeps times to the second, for one).  The law: after success, the
    conditions set are published, up to heartbeat, and the other types are as
    before, provided the condition types survive the encoding. *)
Definition keeps_types (encode : NodeCondition -> NodeCondition) (cs : list NodeCondition)
    : Prop := forall nc, nc ∈ cs -> ncType (encode nc) = ncType nc.

(* @ pkg/exporters/k8sexporter/problemclient/problem_client.go:43-54 Client *)
Class Client (C : Type) : Type := {
  SetConditions : Time -> list NodeCondition -> C -> C * result unit;
  published : C -> string -> option NodeCondition;
  encode : NodeCondition -> NodeCondition;
  encode_proper : Proper (nc_equiv ==> nc_equiv) encode;
  SetConditions_ok : forall now cs c c',
    SetConditions now cs c = (c', Ok tt) -> NoDup (ncType <$> cs) -> keeps_types encode cs ->
    (forall nc, nc ∈ cs -> option_nc_equiv (published c' (ncType nc)) (Some (encode nc))) /\
    (forall t, t ∉ (ncType <$> cs) -> published c' t = published c t)
}.

(** Conditions inserted by type: the merge both implementations perform. *)
Definition insert_conditions (m : gmap string NodeCondition) (cs : list NodeCondition)
    : gmap string NodeCondition :=
  foldl (fun m c => <[ncType c := c]> m) m cs.

Lemma insert_conditions_notin m cs t :
  t ∉ (ncType <$> cs) -> insert_conditions m cs !! t = m !! t.
Proof.
  revert m. induction cs as [|c cs IH]; intros m Ht; [done|].
  rewrite fmap_cons, not_elem_of_cons in Ht. destruct Ht as [Ht1 Ht2].
  simpl. rewrite IH by done. by rewrite lookup_insert_ne.
Qed.

Lemma insert_conditions_in m cs c :
  NoDup (ncType <$> cs) -> c ∈ cs -> insert_conditions m cs !! ncType c = Some c.
Proof.
  revert m. induction cs as [|d cs IH]; intros m HN Hc; [by apply elem_of_nil in Hc|].
  rewrite fmap_cons, NoDup_cons in HN. destruct HN as [Hd HN]. simpl.
  apply elem_of_cons in Hc as [->|Hc]; [|by apply IH].
  rewrite insert_conditions_notin by done. apply lookup_insert_eq.
Qed.

(** ** The fake client *)

(* @ pkg/exporters/k8sexporter/problemclient/fake_problem_client.go:28-33 FakeProblemClient *)
Record FakeProblemClient : Type := mkFakeClient {
  fpcConditions : gmap string NodeCondition;
  fpcErrors : gmap string string
}.

(* @ pkg/exporters/k8sexporter/problemclient/fake_problem_client.go:35-41 NewFakeProblemClient *)
Definition NewFakeProblemClient : FakeProblemClient := mkFakeClient ∅ ∅.

(* @ pkg/exporters/k8sexporter/problemclient/fake_problem_client.go:43-48 InjectError *)
Definition InjectError (f : FakeProblemClient) (fun_ err : string) : FakeProblemClient :=
  mkFakeClient (fpcConditions f) (<[fun_ := err]> (fpcErrors f)).

(* @ pkg/exporters/k8sexporter/problemclient/fake_problem_client.go:50-61 AssertConditions *)
Definition AssertConditions (f : FakeProblemClient) (expected : list NodeCondition)
    : result unit :=
  if decide (insert_conditions ∅ expected = fpcConditions f) then Ok tt
  else Err "expected %+v, got %+v".

(* @ pkg/exporters/k8sexporter/problemclient/fake_problem_client.go:63-74 SetConditions *)
Definition fake_SetConditions (now : Time) (cs : list NodeCondition) (f : FakeProblemClient)
    : FakeProblemClient * result unit :=
  match fpcErrors f !! "SetConditions" with
  | Some err => (f, Err err)
  | None => (mkFakeClient (insert_conditions (fpcConditions f) cs) (fpcErrors f), Ok tt)
  end.

(* @ pkg/exporters/k8sexporter/problemclient/fake_problem_client.go:76-91 GetConditions *)
Definition fake_GetConditions (types : list string) (f : FakeProblemClient)
    : result (list NodeCondition) :=
  match fpcErrors f !! "GetConditions" with
  | Some err => Err err
  | None => Ok (omap (fun t => fpcConditions f !! t) types)
  end.

#[export, refine] Instance FakeProblemClient_Client : Client FakeProblemClient :=
  {| SetConditions := fake_SetConditions;
     published := fun f t => fpcConditions f !! t;
     encode := fun nc => nc |}.
Proof.
  intros now cs f f'. unfold fake_SetConditions.
  destruct (fpcErrors f !! "SetConditions"); [done|]. intros [= <-] HN _. simpl. split.
  - intros nc Hnc. by rewrite insert_conditions_in.
  - intros t Ht. by apply insert_conditions_notin.
Defined.

(** ** Retries *)

(** [retry.OnError(retry.DefaultRetry, always, fn)]: at most five attempts. *)
Fixpoint OnError {S} (steps : nat) (fn : S -> S * result unit) (s : S) : S * result unit :=
  match steps with
  | O => (s, Err "timed out waiting for the condition")
  | Datatypes.S k =>
    let '(s', r) := fn s in
    match r with
    | Ok _ => (s', Ok tt)
    | Err e => if k =? 0 then (s', Err e) else OnError k fn s'
    end
  end.

Definition DefaultRetry_Steps : nat := 5.

(** ** The client of the API server *)

(** The fields of [v1.ObjectReference] that are set. *)
Record ObjectReference : Type := mkRef {
  orAPIVersion : string;
  orKind : string;
  orName : string;
  orNamespace : string;
  orUID : string
}.

(** A [v1.Node]: what the code reads of it. *)
Record Node : Type := mkNode { nodeUID : string; nodeConditions : list NodeCondition }.

(** A recorder: the source it reports ([v1.EventSource]) and the namespace it
    writes to. *)
Record EventRecorder : Type := mkRecorder {
  erComponent : string; erHost : string; erNamespace : string
}.

(* @ pkg/exporters/k8sexporter/problemclient/problem_client.go:180-187 getEventRecorder *)
Definition getEventRecorder (namespace nodeName source : string) : EventRecorder :=
  mkRecorder source nodeName namespace.

(** An event handed to a recorder: the recorder, the object, type, reason and
    message. *)
Record RecordedEvent : Type := mkRecorded {
  reRecorder : EventRecorder; reObject : ObjectReference; reType : string;
  reReason : string; reMessage : string
}.

Section NodeProblemClient.
(** The API server, as this client sees it. *)
Context {API : Type}.
Variable PatchStatus : API -> string -> string -> API * result Node.
Variable GetNodeAPI : API -> string -> result Node.
(** [json.Marshal] of a list of conditions. *)
Variable json_Marshal : list NodeCondition -> result string.

(* @ pkg/exporters/k8sexporter/problemclient/problem_client.go:56-66 nodeProblemClient *)
Record nodeProblemClient : Type := mkNodeClient {
  npcNodeName : string;
  npcClient : API;
  npcRecorders : gmap string EventRecorder;
  npcNodeRef : ObjectReference;
  npcCachedNodeRef : option ObjectReference;
  npcEventNamespace : string
}.

Definition with_api (c : nodeProblemClient) (a : API) : nodeProblemClient :=
  mkNodeClient (npcNodeName c) a (npcRecorders c) (npcNodeRef c) (npcCachedNodeRef c)
    (npcEventNamespace c).

Definition set_uid (r : ObjectReference) (uid : string) : ObjectReference :=
  mkRef (orAPIVersion r) (orKind r) (orName r) (orNamespace r) uid.

(* @ pkg/exporters/k8sexporter/problemclient/problem_client.go:161-169 cacheNodeRef *)
Definition cacheNodeRef (c : nodeProblemClient) (uid : string) : nodeProblemClient :=
  if String.eqb uid "" || bool_decide (is_Some (npcCachedNodeRef c)) then c
  else mkNodeClient (npcNodeName c) (npcClient c) (npcRecorders c) (npcNodeRef c)
         (Some (set_uid (npcNodeRef c) uid)) (npcEventNamespace c).

(* @ pkg/exporters/k8sexporter/problemclient/problem_client.go:150-159 nodeRefWithUID *)
Definition nodeRefWithUID (c : nodeProblemClient) : ObjectReference :=
  match npcCachedNodeRef c with
  | Some ref => ref
  | None => npcNodeRef c
  end.

(* @ pkg/exporters/k8sexporter/problemclient/problem_client.go:189-196 getNodeRef *)
Definition getNodeRef (namespace nodeName : string) : ObjectReference :=
  mkRef "v1" "Node" nodeName namespace "".

(* @ pkg/exporters/k8sexporter/problemclient/problem_client.go:140-148 GetNode *)
Definition GetNode (c : nodeProblemClient) : nodeProblemClient * result Node :=
  match GetNodeAPI (npcClient c) (npcNodeName c) with
  | Ok node => (cacheNodeRef c (nodeUID node), Ok node)
  | Err e => (c, Err e)
  end.

(* @ pkg/exporters/k8sexporter/problemclient/problem_client.go:91-105 GetConditions *)
Definition npc_GetConditions (c : nodeProblemClient) (conditionTypes : list string)
    : nodeProblemClient * result (list NodeCondition) :=
  let '(c, r) := GetNode c in
  (c, match r with
      | Err e => Err e
      | Ok node =>
        Ok (conditionTypes ≫= fun t =>
              filter (fun nc => ncType nc = t) (nodeConditions node))
      end).

(* @ pkg/exporters/k8sexporter/problemclient/problem_client.go:171-178 generatePatch *)
Definition generatePatch (conditions : list NodeCondition) : result string :=
  raw ← json_Marshal conditions;
  Ok (String.concat "" ["{"; String dquote "status"; String dquote ":{"; String dquote "conditions";
        String dquote ":"; raw; "}}"]).

(** The function that is retried: one patch of the node status. *)
Definition patch_once (patch : string) (c : nodeProblemClient)
    : nodeProblemClient * result unit :=
  let '(a, r) := PatchStatus (npcClient c) (npcNodeName c) patch in
  match r with
  | Ok node => (cacheNodeRef (with_api c a) (nodeUID node), Ok tt)
  | Err e => (with_api c a, Err e)
  end.

Definition set_heartbeat (now : Time) (c : NodeCondition) : NodeCondition :=
  mkNodeCondition (ncType c) (ncStatus c) now (ncLastTransitionTime c)
    (ncReason c) (ncMessage c).

(* @ pkg/exporters/k8sexporter/problemclient/problem_client.go:107-128 SetConditions *)
Definition npc_SetConditions (now : Time) (newConditions : list NodeCondition)
    (c : nodeProblemClient) : nodeProblemClient * result unit :=
  match generatePatch (set_heartbeat now <$> newConditions) with
  | Err e => (c, Err e)
  | Ok patch => OnError DefaultRetry_Steps (patch_once patch) c
  end.

(* @ pkg/exporters/k8sexporter/problemclient/problem_client.go:130-138 Eventf *)
Definition Eventf (c : nodeProblemClient) (eventType source reason messageFmt : string)
    : nodeProblemClient * RecordedEvent :=
  let '(c, recorder) :=
    match npcRecorders c !! source with
    | Some recorder => (c, recorder)
    | None =>
      let recorder := getEventRecorder (npcEventNamespace c) (npcNodeName c) source in
      (mkNodeClient (npcNodeName c) (npcClient c) (<[source := recorder]> (npcRecorders c))
         (npcNodeRef c) (npcCachedNodeRef c) (npcEventNamespace c), recorder)
    end in
  (c, mkRecorded recorder (nodeRefWithUID c) eventType reason (fmt_Sprintf messageFmt)).
End NodeProblemClient.
Arguments nodeProblemClient : clear implicits.

(** ** What the API client guarantees *)
Section NodeProblemClientFacts.
Context {API : Type}.
Variable PatchStatus : API -> string -> string -> API * result Node.
Variable GetNodeAPI : API -> string -> result Node.
Variable json_Marshal : list NodeCondition -> result string.

(** Outcomes of the first [k] attempts of a retried function. *)
Fixpoint all_fail {S} (k : nat) (fn : S -> S * result unit) (s s' : S) : Prop :=
  match k with
  | O => s = s'
  | Datatypes.S k => exists m e, fn s = (m, Err e) /\ all_fail k fn m s'
  end.

Lemma OnError_spec {S} n (fn : S -> S * result unit) s s' r :
  0 < n -> OnError n fn s = (s', r) ->
  match r with
  | Ok _ => exists k m, k < n /\ all_fail k fn s m /\ fn m = (s', Ok tt)
  | Err _ => all_fail n fn s s'
  end.
Proof.
  revert s. induction n as [|n IH]; intros s Hn H; [lia|]. cbn [OnError] in H.
  destruct (fn s) as [m [[]|e]] eqn:E.
  - simplify_eq. exists 0, s. split_and!; [lia | done | done].
  - destruct (Nat.eqb_spec n 0) as [->|Hz].
    + simplify_eq. by exists s', e.
    + specialize (IH m ltac:(lia) H). destruct r as [[]|e'].
      * destruct IH as (k & m' & Hk & Hf & Hok). exists (Datatypes.S k), m'.
        split_and!; [lia | by exists m, e | done].
      * by exists m, e.
Qed.

(** [SetConditions] of the API client sends one and the same patch, at
    most five times: it succeeds with the first patch the API server accepts
    among the first five, and fails only when marshalling fails or five patches
    in a row failed. *)
Theorem SetConditions_retries now cs (c c' : nodeProblemClient API) r :
  npc_SetConditions PatchStatus json_Marshal now cs c = (c', r) ->
  match generatePatch json_Marshal (set_heartbeat now <$> cs) with
  | Err e => c' = c /\ r = Err e
  | Ok patch =>
    match r with
    | Ok _ => exists k m, k < 5 /\ all_fail k (patch_once PatchStatus patch) c m /\
                patch_once PatchStatus patch m = (c', Ok tt)
    | Err _ => all_fail 5 (patch_once PatchStatus patch) c c'
    end
  end.
Proof.
  unfold npc_SetConditions. destruct (generatePatch _ _) as [patch|e]; [|by intros [= <- <-]].
  apply OnError_spec. unfold DefaultRetry_Steps. lia.
Qed.

(** *** The first UID is kept *)
Inductive client_op : Type :=
| OpGetNode
| OpSetConditions (now : Time) (cs : list NodeCondition)
| OpEventf (eventType source reason messageFmt : string).

Definition run_op (op : client_op) (c : nodeProblemClient API) : nodeProblemClient API :=
  match op with
  | OpGetNode => (GetNode GetNodeAPI c).1
  | OpSetConditions now cs => (npc_SetConditions PatchStatus json_Marshal now cs c).1
  | OpEventf ty src reason m => (Eventf c ty src reason m).1
  end.

(** What no operation changes, once a UID is cached. *)
Definition keeps_ref (c c' : nodeProblemClient API) : Prop :=
  npcNodeRef c' = npcNodeRef c /\ npcNodeName c' = npcNodeName c /\
  npcEventNamespace c' = npcEventNamespace c /\
  (is_Some (npcCachedNodeRef c) -> npcCachedNodeRef c' = npcCachedNodeRef c) /\
  (forall r, npcCachedNodeRef c = None -> npcCachedNodeRef c' = Some r ->
     orUID r ≠ "" /\ r = set_uid (npcNodeRef c) (orUID r)).

Lemma keeps_ref_refl c : keeps_ref c c.
Proof. split_and!; try done. intros r H. by rewrite H. Qed.

Lemma keeps_ref_trans c1 c2 c3 : keeps_ref c1 c2 -> keeps_ref c2 c3 -> keeps_ref c1 c3.
Proof.
  intros (A1 & A2 & A3 & A4 & A5) (B1 & B2 & B3 & B4 & B5). split_and!; try congruence.
  - intros H. rewrite B4; [by apply A4|]. by rewrite A4.
  - intros r Hn Hr. destruct (npcCachedNodeRef c2) as [r2|] eqn:E.
    + rewrite B4 in Hr by eauto. simplify_eq. by apply A5.
    + rewrite <- A1. by apply B5.
Qed.

Lemma cacheNodeRef_keeps c uid : keeps_ref c (cacheNodeRef c uid).
Proof.
  unfold cacheNodeRef. destruct (String.eqb_spec uid "") as [->|Hu]; [apply keeps_ref_refl|].
  simpl. case_bool_decide as Hc; [apply keeps_ref_refl|].
  split_and!; simpl; try done. by intros r _ [= <-].
Qed.

Lemma patch_once_keeps patch c : keeps_ref c (patch_once PatchStatus patch c).1.
Proof.
  unfold patch_once. destruct (PatchStatus _ _ _) as [a [node|e]]; simpl.
  - apply (cacheNodeRef_keeps (with_api c a)).
  - exact (keeps_ref_refl c).
Qed.

Lemma OnError_keeps n patch c : keeps_ref c (OnError n (patch_once PatchStatus patch) c).1.
Proof.
  revert c. induction n as [|n IH]; intros c; [apply keeps_ref_refl|]. cbn [OnError].
  pose proof (patch_once_keeps patch c) as Hk.
  destruct (patch_once PatchStatus patch c) as [c1 [[]|e]]; [done|]. simpl in Hk.
  destruct (n =? 0); [done|]. by eapply keeps_ref_trans.
Qed.

Lemma run_op_keeps op c : keeps_ref c (run_op op c).
Proof.
  destruct op as [|now cs|ty src reason m]; simpl.
  - unfold GetNode. destruct (GetNodeAPI _ _); [apply cacheNodeRef_keeps | apply keeps_ref_refl].
  - unfold npc_SetConditions. destruct (generatePatch _ _); [apply OnError_keeps|].
    apply keeps_ref_refl.
  - unfold Eventf. destruct (npcRecorders c !! src); exact (keeps_ref_refl c).
Qed.

(** Once the UID of the node is known, every event of the process refers
    to it: whatever operations run afterwards, and whatever UIDs the API server
    returns, [nodeRefWithUID] does not change.  The first UID that is cached is
    not empty, and the reference differs from the initial one in nothing else. *)
Theorem first_node_uid_kept ops1 ops2 (c : nodeProblemClient API) r :
  npcCachedNodeRef c = None ->
  npcCachedNodeRef (foldl (fun c op => run_op op c) c ops1) = Some r ->
  nodeRefWithUID (foldl (fun c op => run_op op c) c (ops1 ++ ops2)) = r /\
  orUID r ≠ "" /\ r = set_uid (npcNodeRef c) (orUID r).
Proof.
  intros Hn Hr.
  assert (Hf : forall ops c, keeps_ref c (foldl (fun c op => run_op op c) c ops)).
  { induction ops as [|op ops IH]; intros c0; simpl; [apply keeps_ref_refl|].
    eapply keeps_ref_trans; [apply run_op_keeps | apply IH]. }
  destruct (Hf ops1 c) as (_ & _ & _ & _ & H5). split; [|by apply H5].
  rewrite foldl_app. destruct (Hf ops2 (foldl (fun c op => run_op op c) c ops1))
    as (_ & _ & _ & H4 & _).
  unfold nodeRefWithUID. rewrite H4 by eauto. by rewrite Hr.
Qed.

(** *** The API client is a [Client] *)

(** The conditions of a node as its readers see them, and the documented
    behaviour of a status patch with a list of conditions: the list is merged
    by type when the patch is accepted, and conditions of other types are never
    touched. *)
Variable api_published : API -> string -> string -> option NodeCondition.
Variable api_encode : NodeCondition -> NodeCondition.
Hypothesis api_encode_proper : Proper (nc_equiv ==> nc_equiv) api_encode.

Hypothesis PatchStatus_merges : forall a a' n cs patch node nc,
  generatePatch json_Marshal cs = Ok patch -> PatchStatus a n patch = (a', Ok node) ->
  NoDup (ncType <$> cs) -> keeps_types api_encode cs -> nc ∈ cs ->
  option_nc_equiv (api_published a' n (ncType nc)) (Some (api_encode nc)).

Hypothesis PatchStatus_frame : forall a a' n cs patch r t,
  generatePatch json_Marshal cs = Ok patch -> PatchStatus a n patch = (a', r) ->
  keeps_types api_encode cs ->
  t ∉ (ncType <$> cs) -> api_published a' n t = api_published a n t.

Definition npc_published (c : nodeProblemClient API) (t : string) : option NodeCondition :=
  api_published (npcClient c) (npcNodeName c) t.

Lemma cacheNodeRef_published c uid t : npc_published (cacheNodeRef c uid) t = npc_published c t.
Proof. unfold cacheNodeRef. by case_match. Qed.

Lemma patch_once_frame cs patch c t :
  generatePatch json_Marshal cs = Ok patch -> keeps_types api_encode cs ->
  t ∉ (ncType <$> cs) ->
  npc_published (patch_once PatchStatus patch c).1 t = npc_published c t.
Proof.
  intros Hp Hk Ht. unfold patch_once.
  destruct (PatchStatus (npcClient c) (npcNodeName c) patch) as [a r] eqn:E.
  pose proof (PatchStatus_frame _ _ _ _ _ _ t Hp E Hk Ht) as Hf.
  destruct r; simpl; [by rewrite cacheNodeRef_published | done].
Qed.

Lemma all_fail_frame cs patch k c c' t :
  generatePatch json_Marshal cs = Ok patch -> keeps_types api_encode cs ->
  t ∉ (ncType <$> cs) ->
  all_fail k (patch_once PatchStatus patch) c c' ->
  npc_published c' t = npc_published c t.
Proof.
  intros Hp Hk Ht. revert c. induction k as [|k IH]; intros c; simpl; [by intros ->|].
  intros (m & e & Hm & Hf). rewrite (IH m Hf).
  pose proof (patch_once_frame cs patch c t Hp Hk Ht) as H. by rewrite Hm in H.
Qed.

Lemma patch_once_published cs patch c c' nc :
  generatePatch json_Marshal cs = Ok patch -> NoDup (ncType <$> cs) ->
  keeps_types api_encode cs -> nc ∈ cs ->
  patch_once PatchStatus patch c = (c', Ok tt) ->
  option_nc_equiv (npc_published c' (ncType nc)) (Some (api_encode nc)).
Proof.
  intros Hp HN Hk Hnc. unfold patch_once.
  destruct (PatchStatus (npcClient c) (npcNodeName c) patch) as [a [node|e]] eqn:E; [|done].
  intros [= <-]. rewrite cacheNodeRef_published. unfold npc_published. simpl.
  by eapply PatchStatus_merges.
Qed.

Lemma set_heartbeat_equiv now nc : nc_equiv (set_heartbeat now nc) nc.
Proof. by destruct nc. Qed.

Lemma set_heartbeat_types now (cs : list NodeCondition) :
  ncType <$> (set_heartbeat now <$> cs) = ncType <$> cs.
Proof. rewrite <- list_fmap_compose. by apply list_fmap_ext. Qed.

Lemma set_heartbeat_keeps now cs :
  keeps_types api_encode cs -> keeps_types api_encode (set_heartbeat now <$> cs).
Proof.
  intros Hk nc (nc0 & -> & Hin)%list_elem_of_fmap.
  rewrite (set_heartbeat_equiv now nc0). by apply Hk.
Qed.

Lemma npc_SetConditions_ok now cs c c' :
  npc_SetConditions PatchStatus json_Marshal now cs c = (c', Ok tt) ->
  NoDup (ncType <$> cs) -> keeps_types api_encode cs ->
  (forall nc, nc ∈ cs ->
     option_nc_equiv (npc_published c' (ncType nc)) (Some (api_encode nc))) /\
  (forall t, t ∉ (ncType <$> cs) -> npc_published c' t = npc_published c t).
Proof.
  unfold npc_SetConditions.
  destruct (generatePatch json_Marshal _) as [patch|e] eqn:Ep; [|done].
  intros H HN Hk. rewrite <- (set_heartbeat_types now) in HN.
  apply (set_heartbeat_keeps now) in Hk.
  apply OnError_spec in H as (k & m & _ & Hf & Hok); [|unfold DefaultRetry_Steps; lia].
  split.
  - intros nc Hnc. pose proof (patch_once_published _ patch m c' (set_heartbeat now nc) Ep HN Hk
      ltac:(by apply list_elem_of_fmap_2) Hok) as Hpub. simpl in Hpub. etrans; [exact Hpub|].
    constructor. apply api_encode_proper, set_heartbeat_equiv.
  - intros t Ht. rewrite <- (set_heartbeat_types now) in Ht.
    pose proof (patch_once_frame _ patch m t Ep Hk Ht) as H1. rewrite Hok in H1. simpl in H1.
    rewrite H1. by eapply all_fail_frame.
Qed.

Definition nodeProblemClient_Client : Client (nodeProblemClient API) :=
  {| SetConditions := npc_SetConditions PatchStatus json_Marshal;
     published := npc_published;
     encode := api_encode;
     encode_proper := api_encode_proper;
     SetConditions_ok := npc_SetConditions_ok |}.
End NodeProblemClientFacts.

(** A small API server for the witnesses: it refuses its first [n] patches and
    counts the calls. *)
Definition counting_PatchStatus (refuse : nat) (a : nat) (_ _ : string) : nat * result Node :=
  if a <? refuse then (S a, Err "conflict") else (S a, Ok (mkNode "uid-1" [])).
Definition sample_client : nodeProblemClient nat :=
  mkNodeClient "node" 0 ∅ (getNodeRef "default" "node") None "default".
Definition empty_Marshal (_ : list NodeCondition) : result string := Ok "[]".

Lemma SetConditions_retries_witness :
  npc_SetConditions (counting_PatchStatus 2) empty_Marshal 0 [] sample_client
    = (mkNodeClient "node" 3 ∅ (getNodeRef "default" "node")
         (Some (set_uid (getNodeRef "default" "node") "uid-1")) "default", Ok tt) /\
  exists patch k m, k < 5 /\
    all_fail k (patch_once (counting_PatchStatus 2) patch) sample_client m.
Proof.
  split; [vm_compute; reflexivity|].
  pose proof (SetConditions_retries (counting_PatchStatus 2) empty_Marshal 0 [] sample_client
    (mkNodeClient "node" 3 ∅ (getNodeRef "default" "node")
       (Some (set_uid (getNodeRef "default" "node") "uid-1")) "default") (Ok tt)
    ltac:(vm_compute; reflexivity)) as H.
  destruct (generatePatch empty_Marshal (set_heartbeat 0 <$> [])) as [patch|e] eqn:E.
  - destruct H as (k & m & Hk & Hf & _). by exists patch, k, m.
  - by vm_compute in E.
Defined.

Lemma first_node_uid_kept_witness :
  let c := foldl (fun c op => run_op (counting_PatchStatus 2) (fun _ _ => Ok (mkNode "uid-2" []))
                                empty_Marshal op c) sample_client
             ([OpSetConditions 0 []] ++ [OpGetNode; OpEventf "Warning" "kernel-monitor" "OOM" "x"]) in
  orUID (nodeRefWithUID c) = "uid-1".
Proof.
  intros c.
  destruct (first_node_uid_kept (counting_PatchStatus 2) (fun _ _ => Ok (mkNode "uid-2" []))
    empty_Marshal [OpSetConditions 0 []]
    [OpGetNode; OpEventf "Warning" "kernel-monitor" "OOM" "x"] sample_client
    (set_uid (getNodeRef "default" "node") "uid-1")) as (Hr & _).
  - reflexivity.
  - vm_compute. reflexivity.
  - unfold c. rewrite Hr. reflexivity.
Defined.

(** ** Building the client (configs.go and NewClientOrDie) *)

(** The parts of a parsed [url.URL] that are read: [Query] are the values of
    its query string, by key. *)
Record URL : Type := mkURL {
  urlScheme : string; urlHost : string; urlQuery : gmap string (list string)
}.

(** The fields of [rest.Config] that are read or written. *)
Record Config : Type := mkConfig {
  cfgHost : string; cfgGroupVersion : option string; cfgInsecure : bool; cfgCAFile : string;
  cfgBearerToken : string; cfgContentType : string; cfgUserAgent : string;
  cfgQPS : Z; cfgBurst : Z
}.

Definition strconv_ParseBool (s : string) : result bool :=
  if bool_decide (s ∈ ["1"; "t"; "T"; "TRUE"; "true"; "True"]) then Ok true
  else if bool_decide (s ∈ ["0"; "f"; "F"; "FALSE"; "false"; "False"]) then Ok false
  else Err "strconv.ParseBool: invalid syntax".

(** [opts[key][0]] when the key has a value, parsed; else the default. *)
Definition query_bool (opts : gmap string (list string)) (key : string) (dflt : bool)
    : result bool :=
  match opts !! key with
  | Some (v :: _) => strconv_ParseBool v
  | _ => Ok dflt
  end.

(** The server and the insecure flag of the overrides. *)
(* @ pkg/exporters/k8sexporter/problemclient/configs.go:39-58 getConfigOverrides *)
Definition getConfigOverrides (uri : URL) : result (string * bool) :=
  let server := if negb (String.length (urlScheme uri) =? 0) && negb (String.length (urlHost uri) =? 0)
                then urlScheme uri +:+ "://" +:+ urlHost uri else "" in
  insecure ← query_bool (urlQuery uri) "insecure" false;
  Ok (server, insecure).

Definition zero_config : Config := mkConfig "" None false "" "" "" "" 0 0.

Definition set_host (c : Config) (h : string) : Config :=
  mkConfig h (cfgGroupVersion c) (cfgInsecure c) (cfgCAFile c) (cfgBearerToken c)
    (cfgContentType c) (cfgUserAgent c) (cfgQPS c) (cfgBurst c).
Definition set_tls (c : Config) (gv : option string) (insecure : bool) (ca : string) : Config :=
  mkConfig (cfgHost c) gv insecure ca (cfgBearerToken c)
    (cfgContentType c) (cfgUserAgent c) (cfgQPS c) (cfgBurst c).
Definition set_token (c : Config) (t : string) : Config :=
  mkConfig (cfgHost c) (cfgGroupVersion c) (cfgInsecure c) (cfgCAFile c) t
    (cfgContentType c) (cfgUserAgent c) (cfgQPS c) (cfgBurst c).
Definition set_content_type (c : Config) (ct : string) : Config :=
  mkConfig (cfgHost c) (cfgGroupVersion c) (cfgInsecure c) (cfgCAFile c) (cfgBearerToken c)
    ct (cfgUserAgent c) (cfgQPS c) (cfgBurst c).
Definition set_limits (c : Config) (ua : string) (qps burst : Z) : Config :=
  mkConfig (cfgHost c) (cfgGroupVersion c) (cfgInsecure c) (cfgCAFile c) (cfgBearerToken c)
    (cfgContentType c) ua qps burst.

(* @ pkg/exporters/k8sexporter/problemclient/configs.go:30-30 APIVersion *)
Definition APIVersion : string := "v1".
(* @ pkg/exporters/k8sexporter/problemclient/configs.go:35-35 defaultServiceAccountFile *)
Definition defaultServiceAccountFile : string :=
  "/var/run/secrets/kubernetes.io/serviceaccount/token".
Definition protobuf_content_type : string := "application/vnd.kubernetes.protobuf".

Section KubeConfig.
(** client-go's in-cluster configuration, the configuration of a kubeconfig
    file, and [os.ReadFile]. *)
Variable InClusterConfig : result Config.
Variable load_kubeconfig : string -> result Config.
Variable os_ReadFile : string -> result string.

(* @ pkg/exporters/k8sexporter/problemclient/configs.go:60-148 getKubeClientConfig *)
Definition getKubeClientConfig (uri : URL) : result Config :=
  let opts := urlQuery uri in
  overrides ← getConfigOverrides uri;
  let '(server, insecure) := overrides : string * bool in
  inClusterConfig ← query_bool opts "inClusterConfig" true;
  kubeConfig ←
    (if inClusterConfig : bool then
       kubeConfig ← InClusterConfig;
       let kubeConfig := if negb (String.eqb server "") then set_host kubeConfig server
                         else kubeConfig in
       Ok (set_tls kubeConfig (Some APIVersion) insecure
             (if insecure then "" else cfgCAFile kubeConfig))
     else
       let authFile := match opts !! "auth" with Some (f :: _) => f | _ => "" end in
       if negb (String.eqb authFile "") then load_kubeconfig authFile
       else Ok (set_tls (set_host zero_config server) (Some APIVersion) insecure ""));
  if String.length (cfgHost kubeConfig) =? 0
  then Err "invalid kubernetes master url specified"
  else
    useServiceAccount ← query_bool opts "useServiceAccount" false;
    let kubeConfig :=
      if useServiceAccount : bool then
        match os_ReadFile defaultServiceAccountFile with
        | Ok contents => set_token kubeConfig contents
        | Err _ => kubeConfig
        end
      else kubeConfig in
    Ok (set_content_type kubeConfig protobuf_content_type).

(** [url.Parse]; the program's name and version; the clientset. *)
Context {API : Type}.
Variable url_Parse : string -> result URL.
Variable user_agent : string.
Variable NewForConfigOrDie : Config -> outcome API.

(* @ pkg/exporters/k8sexporter/problemclient/problem_client.go:68-89 NewClientOrDie *)
Definition NewClientOrDie (npdo : NodeProblemDetectorOptions) : outcome (nodeProblemClient API) :=
  match url_Parse (ApiServerOverride npdo) with
  | Err _ => Panic "nil dereference"
  | Ok uri =>
    match getKubeClientConfig uri with
    | Err e => Panic e
    | Ok cfg =>
      client ← NewForConfigOrDie (set_limits cfg user_agent (QPS npdo) (Burst npdo));
      Ret (mkNodeClient (NodeName npdo) client ∅ (getNodeRef (EventNamespace npdo) (NodeName npdo))
             None (EventNamespace npdo))
    end
  end.

(** A client configuration that is accepted is usable: its host is not
    empty, it speaks protobuf, and in the cluster an override names the host and
    an insecure connection carries no CA file. *)
Theorem getKubeClientConfig_sound uri cfg :
  getKubeClientConfig uri = Ok cfg ->
  cfgHost cfg ≠ "" /\ cfgContentType cfg = protobuf_content_type /\
  exists server insecure, getConfigOverrides uri = Ok (server, insecure) /\
    (query_bool (urlQuery uri) "inClusterConfig" true = Ok true ->
       (server ≠ "" -> cfgHost cfg = server) /\ cfgInsecure cfg = insecure /\
       (insecure = true -> cfgCAFile cfg = "")).
Proof.
  unfold getKubeClientConfig. intros H.
  destruct (getConfigOverrides uri) as [[server insecure]|] eqn:Eo; [|done]. simpl in H.
  destruct (query_bool (urlQuery uri) "inClusterConfig" true) as [inc|] eqn:Ei; [|done].
  cbn -[query_bool String.eqb] in H.
  match type of H with (mbind _ ?m = _) => destruct m as [kc|] eqn:Ek end; [|done].
  cbn -[query_bool String.eqb] in H.
  destruct (Nat.eqb_spec (String.length (cfgHost kc)) 0) as [|Hh]; [done|].
  destruct (query_bool _ "useServiceAccount" _) as [sa|]; [|done]. simpl in H. simplify_eq.
  assert (Hkeep : forall k, cfgHost kc = cfgHost k -> cfgHost kc ≠ "") by
    (intros _ _ E; by rewrite E in Hh).
  set (kc' := if sa then _ else kc) in *.
  assert (Hkc : cfgHost kc' = cfgHost kc /\ cfgInsecure kc' = cfgInsecure kc /\
                cfgCAFile kc' = cfgCAFile kc).
  { unfold kc'. destruct sa; [|done]. by destruct (os_ReadFile _). }
  destruct Hkc as (E1 & E2 & E3). simpl.
  split_and!; [by rewrite E1; apply (Hkeep kc) | done |].
  exists server, insecure. split; [done|]. intros [= ->]. rewrite E1, E2, E3.
  destruct InClusterConfig as [k|]; [|done]. simpl in Ek.
  destruct (String.eqb_spec server "") as [->|Hs]; simpl in Ek; simplify_eq; simpl;
    by destruct insecure.
Qed.

(** Options that pass [ValidOrDie] never make [NewClientOrDie] use a URI
    that failed to parse: with the exporter enabled, the only ways it dies are
    the documented ones, a configuration error or a clientset that cannot be
    built.  The client it returns refers to the node of the options and has no
    UID cached. *)
Theorem NewClientOrDie_after_ValidOrDie npdo order :
  ValidOrDie (fun s => is_ok (url_Parse s)) npdo order = Ret tt ->
  EnableK8sExporter npdo = true ->
  exists uri, url_Parse (ApiServerOverride npdo) = Ok uri /\
  match NewClientOrDie npdo with
  | Ret c => npcNodeName c = NodeName npdo /\
      nodeRefWithUID c = getNodeRef (EventNamespace npdo) (NodeName npdo) /\
      npcCachedNodeRef c = None
  | Panic e => getKubeClientConfig uri = Err e \/
      exists cfg, getKubeClientConfig uri = Ok cfg /\
        NewForConfigOrDie (set_limits cfg user_agent (QPS npdo) (Burst npdo)) = Panic e
  end.
Proof.
  intros [Hu _]%ValidOrDie_Ret He. specialize (Hu He). unfold NewClientOrDie.
  destruct (url_Parse (ApiServerOverride npdo)) as [uri|] eqn:E; [|done].
  exists uri. split; [done|]. destruct (getKubeClientConfig uri) as [cfg|e]; [|by left].
  destruct (NewForConfigOrDie _) eqn:Ec; simpl; [done|]. right. eauto.
Qed.
End KubeConfig.

Lemma getKubeClientConfig_sound_witness :
  let uri := mkURL "https" "api:6443" {[ "insecure" := ["true"] ]} in
  let in_cluster := Ok (mkConfig "https://10.0.0.1" None false "/ca.crt" "tok" "" "" 0 0) in
  exists cfg, getKubeClientConfig in_cluster (fun _ => Err "none") (fun _ => Err "none") uri = Ok cfg /\
    cfgHost cfg ≠ "".
Proof.
  intros uri ic. eexists. split; [vm_compute; reflexivity|].
  apply (getKubeClientConfig_sound ic (fun _ => Err "none") (fun _ => Err "none") uri).
  vm_compute. reflexivity.
Defined.

Lemma NewClientOrDie_after_ValidOrDie_witness :
  let o := with_paths (zero_options ∅) [] [] {[ systemLogMonitorName := ["a.json"] ]} in
  let o := mkOptions false "" 0 "" 0 0 true "ns" "" 0 0 0 false false 0 "" [] []
             (MonitorConfigPaths o) "node" in
  exists uri : URL, Ok uri = Ok (mkURL "" "" ∅).
Proof.
  intros o1 o.
  destruct (NewClientOrDie_after_ValidOrDie (Err "not in a cluster") (fun _ => Err "none")
    (fun _ => Err "none") (fun s => Ok (mkURL "" "" ∅)) "npd/v0" (fun _ => Ret 0)
    o [systemLogMonitorName]) as (uri & Hu & _).
  - vm_compute. reflexivity.
  - reflexivity.
  - exists uri. by rewrite Hu.
Defined.
