(* ===== verification/ConditionManager.v ===== *)
(** The condition manager of the Kubernetes exporter
    ([pkg/exporters/k8sexporter/condition/manager.go]).

    The manager is shared by the callers of [UpdateCondition] and the sync
    goroutine.  Each critical section is one atomic operation; the steps of the
    two sides interleave in the relation [step].  The abstract contract is the
    newest condition per type ([newest]): the manager holds it in every
    reachable state, and a successful sync publishes it.  The client is any
    instance of [Client]. *)

From S2P Require Import Prelude GoStrings GoTime Types Options ProblemClient.

Definition updatePeriod : Duration := Second.
(* @ pkg/exporters/k8sexporter/condition/manager.go:34-39 resyncPeriod *)
Definition resyncPeriod : Duration := (10 * Second)%Z.

(* @ pkg/exporters/k8sexporter/condition/manager.go:59-78 conditionManager *)
Record conditionManager : Type := mkManager {
  latestTry : Time;
  resyncNeeded : bool;
  updates : gmap string Condition;
  conditions : gmap string Condition;
  heartbeatPeriod : Duration
}.

(* @ pkg/exporters/k8sexporter/condition/manager.go:80-89 NewConditionManager *)
Definition NewConditionManager (heartbeat : Duration) : conditionManager :=
  {| latestTry := Time_zero; resyncNeeded := false; updates := ∅; conditions := ∅;
     heartbeatPeriod := heartbeat |}.

(* @ pkg/exporters/k8sexporter/condition/manager.go:95-101 UpdateCondition *)
Definition UpdateCondition (c : conditionManager) (condition : Condition) : conditionManager :=
  {| latestTry := latestTry c; resyncNeeded := resyncNeeded c;
     updates := <[cType condition := condition]> (updates c);
     conditions := conditions c; heartbeatPeriod := heartbeatPeriod c |}.

(* @ pkg/exporters/k8sexporter/condition/manager.go:103-111 GetConditions *)
Definition GetConditions (c : conditionManager) (order : list string) : list Condition :=
  omap (fun t => conditions c !! t) order.

(** Reading a Go map of conditions: a missing key reads as the zero value. *)
Definition read_map (m : gmap string Condition) (t : string) : Condition :=
  default Condition_zero (m !! t).

(** The loop of [needUpdates]: the keys still to visit, the two maps and the
    flag. *)
Fixpoint needUpdates_loop (order : list string) (ups conds : gmap string Condition) (need : bool)
    : gmap string Condition * gmap string Condition * bool :=
  match order with
  | [] => (ups, conds, need)
  | t :: order =>
    match ups !! t with
    | None => needUpdates_loop order ups conds need
    | Some update =>
      let '(conds, need) :=
        if bool_decide (read_map conds t = update) then (conds, need)
        else (<[t := update]> conds, true) in
      needUpdates_loop order (delete t ups) conds need
    end
  end.

(** [reflect.DeepEqual] on two conditions is equality: it also compares the
    representations of their transition times, but an update that repeats the
    stored condition carries a copy of it. *)
(* @ pkg/exporters/k8sexporter/condition/manager.go:128-141 needUpdates *)
Definition needUpdates (c : conditionManager) (order : list string) : conditionManager * bool :=
  let '(ups, conds, need) := needUpdates_loop order (updates c) (conditions c) false in
  ({| latestTry := latestTry c; resyncNeeded := resyncNeeded c; updates := ups;
      conditions := conds; heartbeatPeriod := heartbeatPeriod c |}, need).

(* @ pkg/exporters/k8sexporter/condition/manager.go:143-147 needResync *)
Definition needResync (c : conditionManager) (now : Time) : bool :=
  (resyncPeriod <=? Time_Sub now (latestTry c))%Z && resyncNeeded c.

(* @ pkg/exporters/k8sexporter/condition/manager.go:149-152 needHeartbeat *)
Definition needHeartbeat (c : conditionManager) (now : Time) : bool :=
  (heartbeatPeriod c <=? Time_Sub now (latestTry c))%Z.

Definition with_try (c : conditionManager) (now : Time) (resync : bool) : conditionManager :=
  {| latestTry := now; resyncNeeded := resync; updates := updates c;
     conditions := conditions c; heartbeatPeriod := heartbeatPeriod c |}.

Section Manager.
Context {C : Type} `{CL : !Client C}.

(** The conversion loop of [sync], in the order the map is visited. *)
Fixpoint convert_all (conds : gmap string Condition) (order : list string)
    : outcome (list NodeCondition) :=
  match order with
  | [] => Ret []
  | t :: order =>
    nc ← ConvertToAPICondition (read_map conds t);
    rest ← convert_all conds order;
    Ret (nc :: rest)
  end.

(* @ pkg/exporters/k8sexporter/condition/manager.go:154-168 sync *)
Definition sync (c : conditionManager) (client : C) (now : Time) (order : list string)
    : outcome (conditionManager * C) :=
  let c := with_try c now false in
  cs ← convert_all (conditions c) order;
  let '(client, r) := SetConditions now cs client in
  match r with
  | Err _ => Ret (with_try c now true, client)
  | Ok _ => Ret (c, client)
  end.

(** ** The two goroutines *)

(** Where the sync goroutine is within one tick of [syncLoop]. *)
Inductive sync_pc : Type :=
| Waiting                          (* in the select *)
| Checked (needUpdate : bool)      (* needUpdates has returned *)
| Syncing.                         (* the disjunction was true *)

Record sys : Type := mkSys { mgr : conditionManager; cli : C; pc : sync_pc }.

(** One atomic action: a caller's update, or a part of the sync goroutine.
    [ATick] is the ticker firing up to the unlock of [needUpdates], [ADecide]
    the other two tests with the times their clock reads give, [ASync] the
    call of [sync]. *)
Inductive action : Type :=
| AUpdate (c : Condition)
| ATick (order : list string)
| ADecide (now1 now2 : Time)
| ASync (now : Time) (order : list string).

(* @ pkg/exporters/k8sexporter/condition/manager.go:113-126 syncLoop *)
Inductive step : sys -> action -> sys -> Prop :=
| step_update m cl p c :
    step (mkSys m cl p) (AUpdate c) (mkSys (UpdateCondition m c) cl p)
| step_tick m cl order m' b :
    visits (updates m) order -> needUpdates m order = (m', b) ->
    step (mkSys m cl Waiting) (ATick order) (mkSys m' cl (Checked b))
| step_decide m cl b now1 now2 :
    step (mkSys m cl (Checked b)) (ADecide now1 now2)
      (mkSys m cl (if b || needResync m now1 || needHeartbeat m now2 then Syncing else Waiting))
| step_sync m cl now order m' cl' :
    visits (conditions m) order -> sync m cl now order = Ret (m', cl') ->
    step (mkSys m cl Syncing) (ASync now order) (mkSys m' cl' Waiting).

Inductive steps : sys -> list action -> sys -> Prop :=
| steps_nil s : steps s [] s
| steps_snoc s tr s' a s'' : steps s tr s' -> step s' a s'' -> steps s (tr ++ [a]) s''.

Definition initial (heartbeat : Duration) (cl : C) : sys :=
  mkSys (NewConditionManager heartbeat) cl Waiting.

(** ** needUpdates *)

(** The entry of a type after the pending updates were applied. *)
Definition applied (ups conds : gmap string Condition) (t : string) : option Condition :=
  match ups !! t with
  | Some u => if bool_decide (read_map conds t = u) then conds !! t else Some u
  | None => conds !! t
  end.

Lemma needUpdates_loop_spec order ups conds need :
  NoDup order -> (forall t, is_Some (ups !! t) -> t ∈ order) ->
  exists conds' need',
    needUpdates_loop order ups conds need = (∅, conds', need') /\
    (forall t, conds' !! t = applied ups conds t) /\
    (need' = true <-> need = true \/
       exists t u, ups !! t = Some u /\ read_map conds t ≠ u).
Proof.
  revert ups conds need. induction order as [|t order IH]; intros ups conds need HN Hin; simpl.
  { assert (ups = ∅) as ->.
    { apply map_empty. intros t. destruct (ups !! t) eqn:E; [|done].
      specialize (Hin t ltac:(rewrite E; eauto)). by apply elem_of_nil in Hin. }
    exists conds, need. split_and!; [done | by intros t; unfold applied; rewrite lookup_empty |].
    split; [by left | intros [?|(t & u & Hu & _)]; [done | by rewrite lookup_empty in Hu]]. }
  apply NoDup_cons in HN as [Ht HN].
  assert (Hin' : forall t', is_Some (delete t ups !! t') -> t' ∈ order).
  { intros t' [u Hu]. apply lookup_delete_Some in Hu as [Hne Hu].
    specialize (Hin t' ltac:(eauto)). by apply elem_of_cons in Hin as [->|?]. }
  destruct (ups !! t) as [u|] eqn:E.
  2:{ apply IH; [done|]. intros t' Ht'. apply Hin'. rewrite lookup_delete_ne; [done|].
      intros <-. rewrite E in Ht'. by destruct Ht'. }
  case_bool_decide as Heq.
  - destruct (IH (delete t ups) conds need HN Hin') as (conds' & need' & -> & Hr & Hn).
    exists conds', need'. split_and!; [done | |].
    + intros t'. rewrite Hr. unfold applied. destruct (decide (t' = t)) as [->|Hne].
      * by rewrite lookup_delete_eq, E, bool_decide_true.
      * by rewrite lookup_delete_ne.
    + rewrite Hn. split; intros [?|(t' & u' & Hu' & Hx)]; try by left.
      * apply lookup_delete_Some in Hu' as [_ ?]. right. eauto.
      * right. exists t', u'. split; [|done]. apply lookup_delete_Some. split; [|done].
        intros <-. simplify_eq.
  - destruct (IH (delete t ups) (<[t := u]> conds) true HN Hin')
      as (conds' & need' & -> & Hr & Hn).
    exists conds', need'. split_and!; [done | |].
    + intros t'. rewrite Hr. unfold applied. destruct (decide (t' = t)) as [->|Hne].
      * by rewrite lookup_delete_eq, E, bool_decide_false, lookup_insert_eq.
      * unfold read_map. by rewrite lookup_delete_ne, lookup_insert_ne.
    + rewrite Hn. split; [|by left]. intros _. right. eauto.
Qed.

(** The order-free form of [needUpdates]. *)
Lemma needUpdates_spec c order c' b :
  visits (updates c) order -> needUpdates c order = (c', b) ->
  updates c' = ∅ /\ latestTry c' = latestTry c /\ resyncNeeded c' = resyncNeeded c /\
  heartbeatPeriod c' = heartbeatPeriod c /\
  (forall t, conditions c' !! t = applied (updates c) (conditions c) t) /\
  (b = true <-> exists t u, updates c !! t = Some u /\ read_map (conditions c) t ≠ u).
Proof.
  intros Hv. unfold needUpdates.
  destruct (needUpdates_loop_spec order (updates c) (conditions c) false)
    as (conds & need & -> & H1 & H2).
  - by eapply visits_NoDup.
  - intros t. by apply visits_elem.
  - intros [= <- <-]. simpl. split_and!; try done. rewrite H2. split; [|by right].
    by intros [?|?].
Qed.

Lemma applied_read ups conds conds' t :
  conds' !! t = applied ups conds t ->
  read_map conds' t = default (read_map conds t) (ups !! t).
Proof.
  intros H. unfold read_map at 1. rewrite H. unfold applied.
  destruct (ups !! t) as [u|]; [|done]. simpl. case_bool_decide as E; [|done].
  exact E.
Qed.

(** Applying the pending updates does not depend on the order in which
    Go's map iteration visits them: any two complete visits leave the same
    manager and report the same answer. *)
Theorem needUpdates_order_irrelevant c order1 order2 :
  visits (updates c) order1 -> visits (updates c) order2 ->
  needUpdates c order1 = needUpdates c order2.
Proof.
  intros H1 H2.
  destruct (needUpdates c order1) as [c1 b1] eqn:E1.
  destruct (needUpdates c order2) as [c2 b2] eqn:E2.
  apply needUpdates_spec in E1 as (A1 & A2 & A3 & A4 & A5 & A6); [|done].
  apply needUpdates_spec in E2 as (B1 & B2 & B3 & B4 & B5 & B6); [|done].
  assert (conditions c1 = conditions c2) by (apply map_eq; intros t; by rewrite A5, B5).
  assert (b1 = b2) as -> by (apply eq_true_iff_eq; by rewrite A6, B6).
  f_equal. destruct c1, c2; simpl in *; congruence.
Qed.

(** ** The newest condition per type *)

(** The specification: the conditions by type, each the last update of its
    type. *)
Definition newest (tr : list action) : gmap string Condition :=
  foldl (fun m a => match a with AUpdate c => <[cType c := c]> m | _ => m end) ∅ tr.

Definition last_try (tr : list action) : Time :=
  foldl (fun t a => match a with ASync now _ => now | _ => t end) Time_zero tr.

Lemma newest_snoc tr a :
  newest (tr ++ [a]) = match a with AUpdate c => <[cType c := c]> (newest tr) | _ => newest tr end.
Proof. unfold newest. by rewrite foldl_app. Qed.

Lemma last_try_snoc tr a :
  last_try (tr ++ [a]) = match a with ASync now _ => now | _ => last_try tr end.
Proof. unfold last_try. by rewrite foldl_app. Qed.

Record Inv (hb : Duration) (tr : list action) (m : conditionManager) : Prop := {
  inv_newest : forall t,
    default (read_map (conditions m) t) (updates m !! t) = read_map (newest tr) t;
  inv_updates : forall t u, updates m !! t = Some u -> newest tr !! t = Some u;
  inv_known : forall t, is_Some (conditions m !! t) -> is_Some (newest tr !! t);
  inv_key : forall t c, conditions m !! t = Some c -> cType c = t;
  inv_newest_key : forall t c, newest tr !! t = Some c -> cType c = t;
  inv_stored : forall t c, conditions m !! t = Some c -> AUpdate c ∈ tr;
  inv_hb : heartbeatPeriod m = hb;
  inv_try : latestTry m = last_try tr
}.

Lemma newest_AUpdate tr t c : newest tr !! t = Some c -> AUpdate c ∈ tr.
Proof.
  induction tr as [|a tr IH] using rev_ind; [done|].
  rewrite newest_snoc, elem_of_app. intros H. destruct a as [c'| | |]; [|by left; apply IH..].
  apply lookup_insert_Some in H as [[_ ->]|[_ H]]; [right; by left | left; by apply IH].
Qed.

Lemma Inv_initial hb : Inv hb [] (NewConditionManager hb).
Proof. constructor; simpl; try done; intros t; rewrite ?lookup_empty; by intros []. Qed.

Lemma Inv_update hb tr m c : Inv hb tr m -> Inv hb (tr ++ [AUpdate c]) (UpdateCondition m c).
Proof.
  intros [H1 H2 H3 H4 H5 H6 H7 H8].
  constructor; rewrite ?newest_snoc, ?last_try_snoc; simpl; try done.
  - intros t. unfold read_map at 2. destruct (decide (t = cType c)) as [->|Hne].
    + by rewrite !lookup_insert_eq.
    + rewrite !lookup_insert_ne by done. apply H1.
  - intros t u. rewrite !lookup_insert_Some. naive_solver.
  - intros t Ht. apply lookup_insert_is_Some'. right. by apply H3.
  - intros t u. rewrite lookup_insert_Some. naive_solver.
  - intros t u Hu. rewrite elem_of_app. left. by eapply H6.
Qed.

Lemma Inv_tick hb tr m order m' b :
  visits (updates m) order -> needUpdates m order = (m', b) ->
  Inv hb tr m -> Inv hb (tr ++ [ATick order]) m'.
Proof.
  intros Hv E [H1 H2 H3 H4 H5 H6 H7 H8].
  apply needUpdates_spec in E as (A1 & A2 & A3 & A4 & A5 & _); [|done].
  assert (Hc : forall t c, conditions m' !! t = Some c ->
            conditions m !! t = Some c \/ updates m !! t = Some c).
  { intros t c. rewrite A5. unfold applied. destruct (updates m !! t); [|by left].
    case_bool_decide; [by left | by right]. }
  constructor; rewrite ?newest_snoc, ?last_try_snoc; try congruence.
  - intros t. rewrite A1, lookup_empty. simpl. rewrite <- H1.
    by apply applied_read.
  - intros t u. by rewrite A1, lookup_empty.
  - intros t [c [Hx|Hx]%Hc]; [by apply H3; eauto | rewrite (H2 _ _ Hx); eauto].
  - intros t c [Hx|Hx]%Hc; [by apply H4 | by eapply H5, H2].
  - done.
  - intros t c Hx. rewrite elem_of_app. left. destruct (Hc _ _ Hx) as [?|?].
    + by eapply H6.
    + by eapply newest_AUpdate, H2.
Qed.

Lemma Inv_with_try hb tr m now order r :
  Inv hb tr m -> Inv hb (tr ++ [ASync now order]) (with_try m now r).
Proof.
  intros [H1 H2 H3 H4 H5 H6 H7 H8].
  constructor; rewrite ?newest_snoc, ?last_try_snoc; simpl; try done.
  intros t c Hc. rewrite elem_of_app. left. by eapply H6.
Qed.

(** What [sync] does to the manager and with the client. *)
Lemma sync_Ret m cl now order m' cl' :
  sync m cl now order = Ret (m', cl') ->
  exists cs r, convert_all (conditions m) order = Ret cs /\
    SetConditions now cs cl = (cl', r) /\
    m' = with_try m now (negb (is_ok r)).
Proof.
  unfold sync. simpl. destruct (convert_all _ _) as [cs|]; [|done]. simpl.
  destruct (SetConditions now cs cl) as [cl1 r] eqn:E. intros H. exists cs, r.
  destruct r; simplify_eq/=; by destruct m.
Qed.

Lemma step_Inv hb tr s a s' : Inv hb tr (mgr s) -> step s a s' -> Inv hb (tr ++ [a]) (mgr s').
Proof.
  intros IH Hst.
  inversion Hst as [m cl' p c|m cl' order m' b Hv Hn|m cl' b n1 n2|m cl' now order m' cl2 Hv Hy];
    subst; simpl in *.
  - by apply Inv_update.
  - by eapply Inv_tick.
  - destruct IH. constructor; rewrite ?newest_snoc, ?last_try_snoc; simpl; try done.
    intros t c Hc. rewrite elem_of_app. left. eauto.
  - apply sync_Ret in Hy as (cs & r & _ & _ & ->). by apply Inv_with_try.
Qed.

Lemma steps_Inv hb cl tr s : steps (initial hb cl) tr s -> Inv hb tr (mgr s).
Proof.
  remember (initial hb cl) as s0 eqn:E0.
  induction 1 as [s|s tr s' a s'' Hs IH Hst]; subst; [apply Inv_initial|].
  by eapply step_Inv; [apply IH|].
Qed.

(** C6.  Newest wins, under every interleaving: in any reachable state, for
    every condition type, the pending update, or else the stored condition, is
    the last condition any caller handed to [UpdateCondition] (the zero value
    when there was none).  No update is lost or reordered. *)
Theorem newest_condition_held hb cl tr s t :
  steps (initial hb cl) tr s ->
  default (read_map (conditions (mgr s)) t) (updates (mgr s) !! t) = read_map (newest tr) t.
Proof. intros H. by apply (inv_newest hb), (steps_Inv hb cl). Qed.

(** ** Publication *)

(** The API form of a condition with a known status. *)
Definition api_condition (c : Condition) : NodeCondition :=
  {| ncType := cType c; ncStatus := cStatus c; ncLastHeartbeatTime := Time_zero;
     ncLastTransitionTime := cTransition c; ncReason := cReason c; ncMessage := cMessage c |}.

Lemma ConvertToAPICondition_Ret c nc :
  ConvertToAPICondition c = Ret nc -> valid_status (cStatus c) /\ nc = api_condition c.
Proof.
  unfold ConvertToAPICondition, ConvertToAPIConditionStatus, valid_status. intros H.
  repeat match type of H with context [String.eqb ?x ?y] =>
    destruct (String.eqb_spec x y) as [E|]; simpl in H end; try done.
  all: injection H as <-; destruct c; simpl in *; subst; auto.
Qed.

Lemma ConvertToAPICondition_valid c :
  valid_status (cStatus c) -> ConvertToAPICondition c = Ret (api_condition c).
Proof.
  intros Hv. unfold ConvertToAPICondition.
  by rewrite (ConvertToAPIConditionStatus_valid _ Hv).
Qed.

Lemma convert_all_Ret conds order cs :
  convert_all conds order = Ret cs -> cs = (fun t => api_condition (read_map conds t)) <$> order.
Proof.
  revert cs. induction order as [|t order IH]; intros cs H; cbn [convert_all] in H.
  { by simplify_eq. }
  destruct (ConvertToAPICondition _) as [nc|] eqn:E; [|done].
  apply ConvertToAPICondition_Ret in E as [_ ->]. simpl in H.
  destruct (convert_all conds order) as [cs'|]; [|done]. simplify_eq/=.
  by rewrite (IH cs' eq_refl).
Qed.

Lemma convert_all_valid conds order :
  (forall t, t ∈ order -> valid_status (cStatus (read_map conds t))) ->
  convert_all conds order = Ret ((fun t => api_condition (read_map conds t)) <$> order).
Proof.
  induction order as [|t order IH]; intros H; [done|]. cbn [convert_all].
  rewrite ConvertToAPICondition_valid by (apply H; by left). simpl.
  rewrite IH; [done|]. intros t' Ht'. apply H. by right.
Qed.

(** The types of the conditions that [sync] sends are the keys it visits. *)
Lemma sync_types hb tr m order :
  Inv hb tr m -> visits (conditions m) order ->
  ncType <$> ((fun t => api_condition (read_map (conditions m) t)) <$> order) = order.
Proof.
  intros HI Hv. rewrite <- list_fmap_compose. rewrite <- (list_fmap_id order) at 2.
  apply list_fmap_ext. intros i t Ht. simpl. unfold read_map.
  destruct (conditions m !! t) as [c|] eqn:E; simpl; [by eapply inv_key|].
  apply list_elem_of_lookup_2, (visits_elem (conditions m)) in Ht as [c Hc]; [|done].
  by rewrite E in Hc.
Qed.

(** What a successful sync publishes, given the invariant. *)
Lemma sync_publishes hb tr s now order s' :
  Inv hb tr (mgr s) -> step s (ASync now order) s' ->
  resyncNeeded (mgr s') = false ->
  (forall c, AUpdate c ∈ tr -> ncType (encode (api_condition c)) = cType c) ->
  (forall t c, newest tr !! t = Some c -> c ≠ Condition_zero -> updates (mgr s) !! t = None ->
     option_nc_equiv (published (cli s') t) (Some (encode (api_condition c)))) /\
  (forall t, newest tr !! t = None -> published (cli s') t = published (cli s) t).
Proof.
  intros HI Hst Hr Henc.
  inversion Hst as [| | |m cl0 n o m' cl' Hv Hy]; subst. simpl in *.
  apply sync_Ret in Hy as (cs & r & Hcs & Hset & ->). simpl in Hr.
  destruct r as [[]|]; [|done]. apply convert_all_Ret in Hcs as ->.
  pose proof (sync_types _ _ _ _ HI Hv) as Hty.
  assert (Hstored : forall t, t ∈ order -> exists c, conditions m !! t = Some c).
  { intros t Ht. by apply (visits_elem (conditions m)) in Ht as [c Hc]; eauto. }
  destruct (SetConditions_ok _ _ _ _ Hset) as [Hin Hout].
  - rewrite Hty. by eapply visits_NoDup.
  - intros nc (t & -> & Ht)%list_elem_of_fmap. destruct (Hstored t Ht) as [c Hc].
    unfold read_map. rewrite Hc. simpl. apply Henc. by eapply inv_stored.
  - split.
    + intros t c Hn Hz Hu. pose proof (inv_newest _ _ _ HI t) as Hnew.
      rewrite Hu in Hnew. simpl in Hnew. unfold read_map in Hnew at 2. rewrite Hn in Hnew.
      simpl in Hnew. assert (Ht : t ∈ order).
      { apply (visits_elem (conditions m)); [done|]. unfold read_map in Hnew.
        destruct (conditions m !! t); [eauto | by simpl in Hnew; subst]. }
      specialize (Hin (api_condition c)). simpl in Hin.
      rewrite (inv_newest_key _ _ _ HI t c Hn) in Hin. apply Hin.
      apply list_elem_of_fmap. exists t. by rewrite Hnew.
    + intros t Hn. apply Hout. rewrite Hty, (visits_elem (conditions m)) by done.
      intros Hc%(inv_known _ _ _ HI). rewrite Hn in Hc. by destruct Hc.
Qed.

(** C9.  A successful sync publishes the newest conditions.  In any reachable
    state, when [sync] runs, under any visiting order, and the client accepts:
    for every type whose last update is not still pending, what readers of the
    node see is that last update (up to heartbeat time and the client's
    encoding); types the detector does not own are left alone. *)
Theorem sync_publishes_newest hb cl tr s now order s' :
  steps (initial hb cl) tr s -> step s (ASync now order) s' ->
  resyncNeeded (mgr s') = false ->
  (forall c, AUpdate c ∈ tr -> ncType (encode (api_condition c)) = cType c) ->
  (forall t c, newest tr !! t = Some c -> c ≠ Condition_zero -> updates (mgr s) !! t = None ->
     option_nc_equiv (published (cli s') t) (Some (encode (api_condition c)))) /\
  (forall t, newest tr !! t = None -> published (cli s') t = published (cli s) t).
Proof. intros Hs. by apply (sync_publishes hb), (steps_Inv _ cl). Qed.

(** [sync] returns, given the invariant and known statuses. *)
Lemma sync_enabled hb tr s now order :
  Inv hb tr (mgr s) -> pc s = Syncing ->
  (forall c, AUpdate c ∈ tr -> valid_status (cStatus c)) ->
  visits (conditions (mgr s)) order ->
  exists s', step s (ASync now order) s'.
Proof.
  intros HI Hpc Hval Hv.
  destruct s as [m cl0 p]; simpl in *; subst.
  assert (Hc : convert_all (conditions m) order =
               Ret ((fun t => api_condition (read_map (conditions m) t)) <$> order)).
  { apply convert_all_valid. intros t Ht. apply (visits_elem (conditions m)) in Ht as [c Hc]; [|done].
    unfold read_map. rewrite Hc. simpl. by eapply Hval, inv_stored. }
  destruct (SetConditions now ((fun t => api_condition (read_map (conditions m) t)) <$> order) cl0)
    as [cl1 r] eqn:Er.
  exists (mkSys (with_try m now (negb (is_ok r))) cl1 Waiting).
  constructor; [done|]. unfold sync. simpl. rewrite Hc. simpl. rewrite Er. by destruct r.
Qed.

(** The sync goroutine cannot be taken down by its data: when every
    condition handed to [UpdateCondition] has a known status, [sync] returns in
    every reachable state that is about to run it, whatever the client answers,
    and whatever the visiting order. *)
Theorem sync_never_panics hb cl tr s now order :
  steps (initial hb cl) tr s -> pc s = Syncing ->
  (forall c, AUpdate c ∈ tr -> valid_status (cStatus c)) ->
  visits (conditions (mgr s)) order ->
  exists s', step s (ASync now order) s'.
Proof. intros Hs. by apply (sync_enabled hb), (steps_Inv _ cl). Qed.

(** ** When the manager talks to the API server *)

Definition no_sync (a : action) : Prop := match a with ASync _ _ => False | _ => True end.
Definition only_update (a : action) : Prop := match a with AUpdate _ => True | _ => False end.

Lemma steps_no_sync s tr s' :
  steps s tr s' -> Forall no_sync tr ->
  latestTry (mgr s') = latestTry (mgr s) /\ resyncNeeded (mgr s') = resyncNeeded (mgr s) /\
  heartbeatPeriod (mgr s') = heartbeatPeriod (mgr s).
Proof.
  induction 1 as [s|s tr s' a s'' Hs IH Hst]; intros HF; [done|].
  apply Forall_app in HF as [HF Ha]. specialize (IH HF).
  inversion Hst as [| m cl order m' b Hv Hn | |]; subst; simpl in *; try done.
  - apply needUpdates_spec in Hn as (_ & -> & -> & -> & _); done.
  - by inversion_clear Ha.
Qed.

(** The trace up to its last tick, and what the callers had handed over by then. *)
Definition upto_tick (tr : list action) : list action :=
  (foldl (fun p a => match a with ATick _ => (p.2 ++ [a], p.2 ++ [a]) | _ => (p.1, p.2 ++ [a]) end) ([], []) tr).1.

Lemma upto_tick_snoc tr a :
  upto_tick (tr ++ [a]) = match a with ATick _ => tr ++ [a] | _ => upto_tick tr end.
Proof.
  assert (H : forall l : list action, (foldl (fun p a => match a with ATick _ => (p.2 ++ [a], p.2 ++ [a])
    | _ => (p.1, p.2 ++ [a]) end) ([], []) l).2 = l).
  { induction l as [|x l IH] using rev_ind; [done|]. rewrite foldl_app. cbn. by destruct x; cbn; rewrite IH. }
  unfold upto_tick. rewrite foldl_app. cbn. by destruct a; cbn; rewrite ?H.
Qed.

(** The stored conditions are the newest ones of the last tick. *)
Lemma stored_since_tick hb cl tr s t :
  steps (initial hb cl) tr s -> read_map (conditions (mgr s)) t = read_map (newest (upto_tick tr)) t.
Proof.
  remember (initial hb cl) as s0 eqn:E0. induction 1 as [s|s tr s' a s'' Hs IH Hst]; subst; [done|].
  rewrite upto_tick_snoc. specialize (IH eq_refl). pose proof (steps_Inv _ _ _ _ Hs) as HI.
  inversion Hst as [| m cl' order m' b Hv Hn | |m cl' now order m' cl2 Hv Hy]; subst; simpl in *; try done.
  - rewrite newest_snoc. apply needUpdates_spec in Hn as (_ & _ & _ & _ & Hc & _); [|done].
    rewrite <- (inv_newest _ _ _ HI). by apply applied_read.
  - apply sync_Ret in Hy as (cs & r & _ & _ & ->). done.
Qed.

(** What [needUpdates] finds: a type whose newest condition is not the one that
    was newest at the previous tick. *)
Lemma tick_sees_change hb cl tr s order m b :
  steps (initial hb cl) tr s -> visits (updates (mgr s)) order -> needUpdates (mgr s) order = (m, b) ->
  b = true <-> exists t, read_map (newest tr) t <> read_map (newest (upto_tick tr)) t.
Proof.
  intros Hs Hv Hn. apply needUpdates_spec in Hn as (_ & _ & _ & _ & _ & ->); [|done].
  pose proof (steps_Inv _ _ _ _ Hs) as HI. split.
  - intros (t & u & Hu & Hne). exists t. rewrite <- (stored_since_tick _ _ _ _ t Hs), <- (inv_newest _ _ _ HI t), Hu.
    cbn. congruence.
  - intros (t & Hne). rewrite <- (stored_since_tick _ _ _ _ t Hs), <- (inv_newest _ _ _ HI t) in Hne.
    destruct (updates (mgr s) !! t) as [u|] eqn:Eu; [|done]. exists t, u. split; [done|]. cbn in Hne. congruence.
Qed.

(** The client refuses what [sync] would send in this state. *)
Definition refused (s : sys) (now : Time) (order : list string) : Prop :=
  exists cs cl e, convert_all (conditions (mgr s)) order = Ret cs /\ SetConditions now cs (cli s) = (cl, Err e).

(** The last sync of the run was refused. *)
Inductive last_sync_refused (s0 : sys) : list action -> sys -> Prop :=
| last_refused tr1 s1 now order s2 tr2 s :
    steps s0 tr1 s1 -> refused s1 now order -> step s1 (ASync now order) s2 ->
    steps s2 tr2 s -> Forall no_sync tr2 ->
    last_sync_refused s0 (tr1 ++ ASync now order :: tr2) s.

Lemma sync_flag s now order s' :
  step s (ASync now order) s' -> resyncNeeded (mgr s') = true <-> refused s now order.
Proof.
  inversion 1 as [| | |m cl n o m' cl' Hv Hy]; subst. apply sync_Ret in Hy as (cs & r & Hcs & Hset & ->).
  unfold refused. cbn. destruct r as [u|e]; cbn; split; try done.
  - intros (cs' & cl1 & e & Hcs' & Hset'). rewrite Hcs in Hcs'. injection Hcs' as <-. congruence.
  - intros _. by exists cs, cl', e.
Qed.

Lemma resync_flag hb cl tr s :
  steps (initial hb cl) tr s -> resyncNeeded (mgr s) = true <-> last_sync_refused (initial hb cl) tr s.
Proof.
  intros Hs. split.
  2: { destruct 1 as [tr1 s1 now order s2 tr2 s H1 Hr Hst H2 HF].
       destruct (steps_no_sync _ _ _ H2 HF) as (_ & -> & _). by apply (sync_flag s1 now order). }
  remember (initial hb cl) as s0 eqn:E0. induction Hs as [s|s tr s' a s'' Hs IH Hst]; subst; [done|].
  specialize (IH eq_refl). assert (Ha : (exists now order, a = ASync now order) \/ no_sync a) by (destruct a; cbn; eauto).
  destruct Ha as [(now & order & ->)|Hn].
  - intros H. apply (last_refused _ tr s' now order s'' []); [done|by apply (sync_flag s' now order s'')|done|constructor|done].
  - destruct (steps_no_sync s' [a] s'') as (_ & E & _); [apply (steps_snoc s' [] s' a); [constructor|done]|by constructor|].
    rewrite E. intros H. destruct (IH H) as [tr1 s1 now order s2 tr2 s' H1 Hr Hsy H2 HF].
    rewrite <- app_assoc. cbn. eapply last_refused; [done|done|done|by econstructor|]. apply Forall_app. by repeat constructor.
Qed.

(** C30.  A changed condition is sent in the very tick that sees it, and nothing
    else is sent early.  When the ticker fires in any reachable state, and the
    decision is taken at the times [now1] and [now2] of its clock reads, whatever
    the callers do in between: the manager goes on to sync if and only if the
    newest condition of some type is not the one that was newest at the previous
    tick, or the client refused the last sync and that is at least ten seconds
    ago, or the last attempt is at least a heartbeat period ago. *)
Theorem sync_decision hb cl tr s order s1 trm s2 now1 now2 s3 :
  steps (initial hb cl) tr s -> in_int64 hb -> (int64_min < hb)%Z ->
  step s (ATick order) s1 -> steps s1 trm s2 -> Forall only_update trm -> step s2 (ADecide now1 now2) s3 ->
  pc s3 = Syncing <->
  (exists t, read_map (newest tr) t <> read_map (newest (upto_tick tr)) t) \/
  (last_sync_refused (initial hb cl) tr s /\ last_try tr + resyncPeriod <= now1)%Z \/
  (last_try tr + hb <= now2)%Z.
Proof.
  intros Hs Hhb Hmin Ht Hm HF Hd. rewrite <- (resync_flag _ _ _ _ Hs).
  pose proof (steps_Inv _ _ _ _ Hs) as HI.
  assert (Hpc : pc s2 = pc s1).
  { clear -Hm HF. induction Hm as [|s tr s' a s'' Hs IH Hst]; [done|]. apply Forall_app in HF as [HF Ha].
    rewrite <- (IH HF). apply Forall_inv in Ha. by inversion Hst; subst. }
  destruct (steps_no_sync s1 trm s2 Hm) as (Et & Er & Eh); [by eapply Forall_impl; [exact HF|by intros []]|].
  inversion Ht as [| m cl' o m' b Hv Hn | |]; subst. cbn in *.
  rewrite <- (tick_sees_change _ _ _ _ _ _ _ Hs Hv Hn).
  apply needUpdates_spec in Hn as (_ & Nt & Nr & Nh & _ & _); [|done].
  inversion Hd as [| |m2 cl2 b0 n1 n2|]; subst. cbn in *. simplify_eq.
  unfold needResync, needHeartbeat. rewrite Et, Er, Eh, Nt, Nr, Nh, (inv_try _ _ _ HI), (inv_hb _ _ _ HI).
  pose proof (Time_Sub_ge now1 (last_try tr) resyncPeriod ltac:(done)) as H1.
  pose proof (Time_Sub_ge now2 (last_try tr) (heartbeatPeriod m)) as H2. rewrite (inv_hb _ _ _ HI) in H2. specialize (H2 Hhb).
  assert (Hr : resyncPeriod ≠ int64_min) by done.
  destruct (Z.leb_spec resyncPeriod (Time_Sub now1 (last_try tr)));
    destruct (Z.leb_spec hb (Time_Sub now2 (last_try tr)));
    destruct b, (resyncNeeded m); simpl; intuition (try done; try lia).
Qed.

(** C29.  A failed sync is retried: once the client refused what [sync] sent, then
    however the callers and the ticks interleave up to the next decision, that
    decision, if it is taken at least ten seconds after the failed attempt, leads
    to another sync. *)
Theorem failed_sync_retried s now order s1 tr s2 b now1 now2 :
  step s (ASync now order) s1 -> refused s now order ->
  steps s1 tr s2 -> Forall no_sync tr ->
  pc s2 = Checked b -> (now + resyncPeriod <= now1)%Z ->
  exists s3, step s2 (ADecide now1 now2) s3 /\ pc s3 = Syncing.
Proof.
  intros Hst Hr Hs HF Hpc Hnow. apply (sync_flag _ _ _ _ Hst) in Hr.
  destruct (steps_no_sync _ _ _ Hs HF) as (Ht & Hrs & _).
  inversion Hst as [| | |m cl0 n o m' cl' Hv Hy]; subst. simpl in *.
  apply sync_Ret in Hy as (cs & r & _ & _ & ->). simpl in *.
  assert (Hn : needResync (mgr s2) now1 = true).
  { unfold needResync. rewrite Hrs, Hr, Ht, andb_true_r.
    apply Z.leb_le, Time_Sub_ge; [done | by left]. }
  destruct s2 as [m2 cl2 p2]. cbn in *. subst p2. eexists. split; [apply step_decide|]. cbn. by rewrite Hn, orb_true_r.
Qed.

(** The first tick always syncs: before any attempt the last try is the
    zero time, the elapsed time saturates, and no heartbeat period exceeds it.
    (The bound on the clock is the year 293.) *)
Theorem first_tick_syncs hb cl tr s b now1 now2 s' :
  steps (initial hb cl) tr s ->
  Forall no_sync tr ->
  pc s = Checked b -> in_int64 hb -> (int64_max <= now2)%Z ->
  step s (ADecide now1 now2) s' -> pc s' = Syncing.
Proof.
  intros Hs HF Hpc Hhb Hnow Hd.
  destruct (steps_no_sync _ _ _ Hs HF) as (Ht & _ & Hh). simpl in Ht, Hh.
  assert (Hn : needHeartbeat (mgr s) now2 = true).
  { unfold needHeartbeat. rewrite Hh, Ht. apply Z.leb_le.
    unfold Time_Sub, in_int64, Time_zero in *. lia. }
  inversion Hd as [| |m2 cl2 b0 n1 n2|]; subst. simpl in *. by rewrite Hn, orb_true_r.
Qed.

(** ** Running the system *)

(** The step relation as a function. *)
Definition exec (s : sys) (a : action) : option sys :=
  match a, pc s with
  | AUpdate c, p => Some (mkSys (UpdateCondition (mgr s) c) (cli s) p)
  | ATick order, Waiting =>
    if decide (visits (updates (mgr s)) order) then
      let '(m, b) := needUpdates (mgr s) order in Some (mkSys m (cli s) (Checked b))
    else None
  | ADecide now1 now2, Checked b =>
    Some (mkSys (mgr s) (cli s)
            (if b || needResync (mgr s) now1 || needHeartbeat (mgr s) now2
             then Syncing else Waiting))
  | ASync now order, Syncing =>
    if decide (visits (conditions (mgr s)) order) then
      match sync (mgr s) (cli s) now order with
      | Ret (m, cl) => Some (mkSys m cl Waiting)
      | Panic _ => None
      end
    else None
  | _, _ => None
  end.

Lemma exec_step s a s' : exec s a = Some s' -> step s a s'.
Proof.
  destruct s as [m cl p]. unfold exec. simpl. intros H.
  destruct a as [c|order|n1 n2|now order], p as [|b|]; simplify_eq; try constructor.
  - destruct (decide _) as [Hv|]; [|done].
    destruct (needUpdates m order) as [m' b] eqn:E. simplify_eq. by constructor.
  - destruct (decide _) as [Hv|]; [|done].
    destruct (sync m cl now order) as [[m' cl']|] eqn:E; [|done]. simplify_eq.
    by constructor.
Qed.

Lemma step_exec s a s' : step s a s' -> exec s a = Some s'.
Proof.
  destruct 1 as [m cl p c|m cl order m' b Hv Hn|m cl b n1 n2|m cl now order m' cl' Hv Hy];
    unfold exec; cbn; try done.
  - rewrite decide_True by done. by rewrite Hn.
  - rewrite decide_True by done. by rewrite Hy.
Qed.

Definition run (s : sys) (tr : list action) : option sys :=
  foldl (fun o a => o ≫= fun s => exec s a) (Some s) tr.

Lemma run_steps s tr s' : run s tr = Some s' -> steps s tr s'.
Proof.
  revert s'. induction tr as [|a tr IH] using rev_ind; intros s' H.
  { unfold run in H. simpl in H. simplify_eq. constructor. }
  unfold run in H. rewrite foldl_app in H. simpl in H.
  destruct (foldl _ _ tr) as [s1|] eqn:E; [|done].
  econstructor; [by apply IH | by apply exec_step].
Qed.
End Manager.
Arguments sys : clear implicits.

(** ** Witnesses: a run with the fake client *)
Definition oom : Condition := mkCondition "OOM" CTrue 5 "OOMKilling" "killed".
Definition ro : Condition := mkCondition "ReadonlyFS" CTrue 6 "FSReadonly" "remounted".
Definition year2024 : Time := 63871200000000000000.

Definition refusing : FakeProblemClient := InjectError NewFakeProblemClient "SetConditions" "down".
Definition hb5 : Duration := (5 * Minute)%Z.

(** Two updates, a tick and its sync; one update arrives while the goroutine is
    between its check and its sync. *)
Definition demo : list action :=
  [AUpdate oom; ATick ["OOM"]; AUpdate ro; ADecide year2024 year2024].

Definition state_after (cl : FakeProblemClient) (tr : list action) : sys FakeProblemClient :=
  default (initial hb5 cl) (run (initial hb5 cl) tr).

Lemma demo_steps cl tr :
  is_Some (run (initial hb5 cl) tr) -> steps (initial hb5 cl) tr (state_after cl tr).
Proof. intros [s Hs]. apply run_steps. unfold state_after. by rewrite Hs. Qed.

Ltac run_demo := apply demo_steps; vm_compute; eexists; reflexivity.
Ltac run_step := apply exec_step; vm_compute; reflexivity.

Lemma needUpdates_order_irrelevant_witness :
  let m := UpdateCondition (UpdateCondition (NewConditionManager hb5) oom) ro in
  needUpdates m ["OOM"; "ReadonlyFS"] = needUpdates m ["ReadonlyFS"; "OOM"].
Proof.
  intros m. apply (needUpdates_order_irrelevant m).
  - apply (bool_decide_unpack _). vm_compute. exact I.
  - apply (bool_decide_unpack _). vm_compute. exact I.
Defined.

Lemma newest_condition_held_witness :
  default (read_map (conditions (mgr (state_after NewFakeProblemClient demo))) "ReadonlyFS")
    (updates (mgr (state_after NewFakeProblemClient demo)) !! "ReadonlyFS") = ro.
Proof.
  rewrite (newest_condition_held hb5 NewFakeProblemClient demo).
  - vm_compute. reflexivity.
  - run_demo.
Defined.

Lemma sync_publishes_newest_witness :
  option_nc_equiv
    (published (cli (state_after NewFakeProblemClient (demo ++ [ASync year2024 ["OOM"]]))) "OOM")
    (Some (api_condition oom)).
Proof.
  apply (proj1 (sync_publishes_newest hb5 NewFakeProblemClient demo
    (state_after NewFakeProblemClient demo) year2024 ["OOM"]
    (state_after NewFakeProblemClient (demo ++ [ASync year2024 ["OOM"]]))
    ltac:(run_demo) ltac:(run_step) ltac:(vm_compute; reflexivity) ltac:(reflexivity))
    "OOM" oom); vm_compute; congruence.
Defined.

Lemma sync_never_panics_witness :
  exists s', step (state_after refusing demo) (ASync year2024 ["OOM"]) s'.
Proof.
  apply (sync_never_panics hb5 refusing demo).
  - run_demo.
  - vm_compute. reflexivity.
  - intros c H. apply list_elem_of_In in H. simpl in H.
    destruct H as [H|[H|[H|[H|[]]]]]; simplify_eq; left; reflexivity.
  - apply (bool_decide_unpack _). vm_compute. exact I.
Defined.

Lemma sync_decision_witness :
  pc (state_after NewFakeProblemClient demo) = Syncing <->
  (exists t, read_map (newest [AUpdate oom]) t <> read_map (newest (upto_tick [AUpdate oom])) t) \/
  (last_sync_refused (initial hb5 NewFakeProblemClient) [AUpdate oom] (state_after NewFakeProblemClient [AUpdate oom]) /\
   last_try [AUpdate oom] + resyncPeriod <= year2024)%Z \/
  (last_try [AUpdate oom] + hb5 <= year2024)%Z.
Proof.
  apply (sync_decision hb5 NewFakeProblemClient [AUpdate oom] (state_after NewFakeProblemClient [AUpdate oom]) ["OOM"]
    (state_after NewFakeProblemClient (take 2 demo)) [AUpdate ro]
    (state_after NewFakeProblemClient (take 3 demo)) year2024 year2024).
  - run_demo.
  - vm_compute. split; discriminate.
  - vm_compute. reflexivity.
  - run_step.
  - apply run_steps. vm_compute. reflexivity.
  - repeat constructor.
  - run_step.
Defined.

Lemma refused_demo : refused (state_after refusing demo) year2024 ["OOM"].
Proof. eexists _, _, _. split; vm_compute; reflexivity. Qed.

Lemma failed_sync_retried_witness :
  exists s, step (state_after refusing (demo ++ [ASync year2024 ["OOM"]] ++ [ATick ["ReadonlyFS"]]))
    (ADecide (year2024 + resyncPeriod) year2024) s /\ pc s = Syncing.
Proof.
  apply (failed_sync_retried (state_after refusing demo) year2024 ["OOM"]
    (state_after refusing (demo ++ [ASync year2024 ["OOM"]]))
    [ATick ["ReadonlyFS"]]
    (state_after refusing (demo ++ [ASync year2024 ["OOM"]] ++ [ATick ["ReadonlyFS"]]))
    true (year2024 + resyncPeriod)%Z year2024).
  - run_step.
  - exact refused_demo.
  - apply run_steps. vm_compute. reflexivity.
  - repeat constructor.
  - vm_compute. reflexivity.
  - lia.
Defined.

Lemma first_tick_syncs_witness :
  pc (state_after NewFakeProblemClient [ATick []; ADecide year2024 year2024]) = Syncing.
Proof.
  apply (first_tick_syncs hb5 NewFakeProblemClient [ATick []]
    (state_after NewFakeProblemClient [ATick []]) false year2024 year2024).
  - run_demo.
  - repeat constructor.
  - vm_compute. reflexivity.
  - vm_compute. split; discriminate.
  - vm_compute. discriminate.
  - run_step.
Defined.
