(* ===== verification/Metrics.v ===== *)
(** Metrics ([pkg/util/metrics]): the OpenCensus-backed metrics with their
    global tag map, the interface the problem metrics are written against, its
    fake implementation, and the helpers that parse and find metrics.

    OpenCensus itself is a parameter of the definitions that call it.
    [Int64MetricInterface] states what a metric promises to its users; the fake
    metric discharges it here, and the metric on OpenCensus in [OpenCensusMetric]. *)

From S2P Require Import Prelude GoStrings GoTime Options.

(* @ pkg/util/metrics/helpers.go:40-48 Aggregation *)
Definition Aggregation : Type := string.
Definition LastValue : Aggregation := "LastValue".
Definition Sum : Aggregation := "Sum".

Abbreviation tags_map := (gmap string string) (only parsing).

(** ** The mapping of view names *)

(* @ pkg/util/metrics/metric.go:81-84 MetricMapping *)
Record MetricMapping : Type := mkMapping { viewNameToMetricIDMap : gmap string string }.

(* @ pkg/util/metrics/metric.go:86-91 AddMapping *)
Definition AddMapping (mm : MetricMapping) (metricID viewName : string) : MetricMapping :=
  mkMapping (<[viewName := metricID]> (viewNameToMetricIDMap mm)).

(* @ pkg/util/metrics/metric.go:93-99 ViewNameToMetricID *)
Definition ViewNameToMetricID (mm : MetricMapping) (viewName : string) : option string :=
  viewNameToMetricIDMap mm !! viewName.

(** ** Metrics on OpenCensus *)
Section OpenCensus.
(** Tag keys, the state of the library, a measurement, and its operations. *)
Context {Key OC Number : Type}.
Variable tag_NewKey : string -> result Key.
Variable view_Register : OC -> string -> string -> Aggregation -> list Key -> OC * result unit.
Variable RecordWithTags : OC -> list (Key * string) -> string -> Number -> OC * result unit.

(** The package's global state: [tagMap], [MetricMap], and the library's. *)
(* @ pkg/util/metrics/helpers.go:29-38 tagMap *)
Record globals : Type := mkGlobals {
  tagMap : gmap string Key;
  metricMap : MetricMapping;
  oc : OC
}.

(** A metric: its name, which is also the name of its measure. *)
(* @ pkg/util/metrics/metric_int64.go:38-42 Int64Metric *)
Record OCMetric : Type := mkOCMetric { mName : string }.

(* @ pkg/util/metrics/helpers.go:50-68 getTagKeysFromNames *)
Fixpoint getTagKeysFromNames (tm : gmap string Key) (tagNames : list string)
    : gmap string Key * result (list Key) :=
  match tagNames with
  | [] => (tm, Ok [])
  | tagName :: names =>
    let found :=
      match tm !! tagName with
      | Some k => Ok (tm, k)
      | None =>
        match tag_NewKey tagName with
        | Err e => Err "failed to create tag"
        | Ok k => Ok (<[tagName := k]> tm, k)
        end
      end in
    match found with
    | Err e => (tm, Err e)
    | Ok (tm, k) =>
      let '(tm, r) := getTagKeysFromNames tm names in
      (tm, match r with Ok ks => Ok (k :: ks) | Err e => Err e end)
    end
  end.

(** [NewInt64Metric] and [NewFloat64Metric] differ in the type of the measure
    only; a nil metric is [None]. *)
(* @ pkg/util/metrics/metric_int64.go:44-81 NewInt64Metric *)
Definition NewInt64Metric (g : globals) (metricID viewName description unit_ : string)
    (aggregation : Aggregation) (tagNames : list string) : globals * result (option OCMetric) :=
  if String.eqb viewName "" then (g, Ok None)
  else
    let mm := AddMapping (metricMap g) metricID viewName in
    let '(tm, r) := getTagKeysFromNames (tagMap g) tagNames in
    let g := mkGlobals tm mm (oc g) in
    match r with
    | Err _ => (g, Err "failed to create metric because of tag creation failure")
    | Ok tagKeys =>
      if String.eqb aggregation LastValue || String.eqb aggregation Sum then
        let '(o, r) := view_Register (oc g) viewName description aggregation tagKeys in
        let g := mkGlobals (tagMap g) (metricMap g) o in
        match r with
        | Err _ => (g, Err "failed to register view for metric")
        | Ok _ => (g, Ok (Some (mkOCMetric viewName)))
        end
      else (g, Err "unknown aggregation option")
    end.

(* @ pkg/util/metrics/metric_float64.go:44-81 NewFloat64Metric *)
Definition NewFloat64Metric (g : globals) (metricID viewName description unit_ : string)
    (aggregation : Aggregation) (tagNames : list string) : globals * result (option OCMetric) :=
  NewInt64Metric g metricID viewName description unit_ aggregation tagNames.

(** The mutators of [Record], in the order the tags are visited. *)
Fixpoint mutators (tm : gmap string Key) (tags : tags_map) (order : list string)
    : result (list (Key * string)) :=
  match order with
  | [] => Ok []
  | tagName :: order =>
    match tm !! tagName with
    | None => Err "referencing none existing tag"
    | Some k =>
      rest ← mutators tm tags order;
      Ok ((k, default "" (tags !! tagName)) :: rest)
    end
  end.

(** A nil receiver is dereferenced on every path. *)
(* @ pkg/util/metrics/metric_int64.go:83-102 Record *)
Definition Record_Int64 (g : globals) (metric : option OCMetric) (tags : tags_map)
    (order : list string) (measurement : Number) : outcome (globals * result unit) :=
  m ← deref metric;
  match mutators (tagMap g) tags order with
  | Err e => Ret (g, Err e)
  | Ok ms =>
    let '(o, r) := RecordWithTags (oc g) ms (mName m) measurement in
    Ret (mkGlobals (tagMap g) (metricMap g) o, r)
  end.

(* @ pkg/util/metrics/metric_float64.go:83-102 Record *)
Definition Record_Float64 (g : globals) (metric : option OCMetric) (tags : tags_map)
    (order : list string) (measurement : Number) : outcome (globals * result unit) :=
  Record_Int64 g metric tags order measurement.

Lemma getTagKeys_mono tm names tm' r :
  getTagKeysFromNames tm names = (tm', r) -> tm ⊆ tm'.
Proof.
  revert tm tm' r. induction names as [|n names IH]; intros tm tm' r H; simpl in H.
  { by simplify_eq. }
  destruct (tm !! n) as [k|] eqn:E; [|destruct (tag_NewKey n) as [k|]; [|by simplify_eq]].
  all: destruct (getTagKeysFromNames _ names) as [tm1 r1] eqn:E1; simplify_eq;
    apply IH in E1.
  - done.
  - etrans; [by apply insert_subseteq | done].
Qed.

Lemma getTagKeys_known tm names tm' ks :
  getTagKeysFromNames tm names = (tm', Ok ks) ->
  Forall2 (fun n k => tm' !! n = Some k) names ks.
Proof.
  revert tm tm' ks. induction names as [|n names IH]; intros tm tm' ks H; simpl in H.
  { simplify_eq. constructor. }
  destruct (tm !! n) as [k|] eqn:E; [|destruct (tag_NewKey n) as [k|]; [|done]].
  all: destruct (getTagKeysFromNames _ names) as [tm1 [ks1|]] eqn:E1; simplify_eq;
    constructor; [|by eapply IH].
  - eapply lookup_weaken; [done | by eapply getTagKeys_mono].
  - eapply lookup_weaken; [apply lookup_insert_eq | by eapply getTagKeys_mono].
Qed.

Lemma mutators_known tm tags order :
  (forall t, t ∈ order -> is_Some (tm !! t)) ->
  exists ms, mutators tm tags order = Ok ms /\ length ms = length order.
Proof.
  induction order as [|t order IH]; intros H; simpl; [by exists []|].
  destruct (H t ltac:(by left)) as [k ->].
  destruct IH as (ms & -> & Hl); [intros t' Ht'; apply H; by right|].
  simpl. eexists. split; [done|]. simpl. by rewrite Hl.
Qed.

Lemma NewInt64Metric_Some g id name desc u agg tags g' m :
  NewInt64Metric g id name desc u agg tags = (g', Ok (Some m)) ->
  m = mkOCMetric name /\ name ≠ "" /\ tagMap g ⊆ tagMap g' /\
  (agg = LastValue \/ agg = Sum) /\
  (forall t, t ∈ tags -> is_Some (tagMap g' !! t)) /\
  ViewNameToMetricID (metricMap g') name = Some id.
Proof.
  unfold NewInt64Metric. destruct (String.eqb_spec name "") as [->|Hn]; [done|].
  destruct (getTagKeysFromNames (tagMap g) tags) as [tm [ks|]] eqn:E; [|done].
  destruct (String.eqb agg LastValue || String.eqb agg Sum) eqn:Ea; [|done]. simpl.
  destruct (view_Register _ _ _ _ _) as [o [[]|]]; [|done]. intros [= <- <-]. simpl.
  split_and!; [done | done | by eapply getTagKeys_mono | | |].
  - apply orb_true_iff in Ea as [?%String.eqb_eq|?%String.eqb_eq]; auto.
  - intros t Ht. apply getTagKeys_known in E.
    apply list_elem_of_lookup in Ht as [i Hi].
    destruct (Forall2_lookup_l _ _ _ _ _ E Hi) as (k & _ & Hk). eauto.
  - unfold ViewNameToMetricID, AddMapping. simpl. apply lookup_insert_eq.
Qed.

Lemma NewInt64Metric_mono g id name desc u agg tags g' r :
  NewInt64Metric g id name desc u agg tags = (g', r) -> tagMap g ⊆ tagMap g'.
Proof.
  unfold NewInt64Metric. destruct (String.eqb name ""); [by intros [= <- _]|].
  destruct (getTagKeysFromNames (tagMap g) tags) as [tm [ks|]] eqn:E;
    apply getTagKeys_mono in E; [|by intros [= <- _]].
  destruct (_ || _); [|by intros [= <- _]]. simpl.
  destruct (view_Register _ _ _ _ _) as [o [[]|]]; by intros [= <- _].
Qed.

(** A metric that was created can be recorded with its own tags, however
    many other metrics were created in between: [Record] reaches the library,
    with one mutator per tag, and never fails on an unknown tag. *)
Theorem created_metric_records g id name desc u agg tagNames g1 m defs g2 tags order v :
  NewInt64Metric g id name desc u agg tagNames = (g1, Ok (Some m)) ->
  g2 = foldl (fun g '(i, n, d, un, a, ts) => (NewInt64Metric g i n d un a ts).1) g1 defs ->
  visits tags order -> (forall t, is_Some (tags !! t) -> t ∈ tagNames) ->
  exists ms, length ms = size tags /\
    Record_Int64 g2 (Some m) tags order v =
    let '(o, r) := RecordWithTags (oc g2) ms name v in
    Ret (mkGlobals (tagMap g2) (metricMap g2) o, r).
Proof.
  intros Hnew Hg2 Hv Htags.
  apply NewInt64Metric_Some in Hnew as (-> & _ & _ & _ & Hk & _).
  assert (Hmono : tagMap g1 ⊆ tagMap g2).
  { subst g2. clear Hk. revert g1. induction defs as [|d defs IH]; intros g1; [done|]. simpl.
    etrans; [|apply IH]. destruct d as [[[[[i n] de] un] a] ts].
    destruct (NewInt64Metric g1 i n de un a ts) as [g' r] eqn:E.
    by eapply NewInt64Metric_mono. }
  destruct (mutators_known (tagMap g2) tags order) as (ms & Hms & Hlen).
  { intros t Ht. apply (visits_elem tags) in Ht; [|done].
    destruct (Hk t (Htags t Ht)) as [k Hk']. exists k. by eapply lookup_weaken. }
  exists ms. split.
  - rewrite Hlen, (Permutation_length Hv), length_fmap. apply length_map_to_list.
  - unfold Record_Int64. simpl. rewrite Hms. by destruct (RecordWithTags _ _ _ _).
Qed.
End OpenCensus.

(** ** The interface of an int64 metric *)

(** What recording a measurement does to the time series of its labels. *)
Definition aggregate (agg : Aggregation) (old : option Z) (v : Z) : Z :=
  if String.eqb agg LastValue then v else int64 (default 0%Z old + v).

Definition known_aggregation (agg : Aggregation) : Prop := agg = LastValue \/ agg = Sum.

(** [value_of m tags] is the value a reader sees for the labels [tags];
    [value_ok m x] says that [x] may be the value of a label.  A measurement with
    the metric's own labels and such values is aggregated; one with another value is
    refused; and what is refused, for whatever reason, leaves no trace. *)
(* @ pkg/util/metrics/fakes.go:24-28 Int64MetricInterface *)
Class Int64MetricInterface (M : Type) : Type := {
  MRecord : M -> tags_map -> Z -> M * result unit;
  aggregation_of : M -> Aggregation;
  tag_names : M -> list string;
  value_ok : M -> string -> bool;
  value_of : M -> tags_map -> option Z;
  MRecord_config m tags v :
    aggregation_of (MRecord m tags v).1 = aggregation_of m /\
    tag_names (MRecord m tags v).1 = tag_names m /\
    forall x, value_ok (MRecord m tags v).1 x = value_ok m x;
  MRecord_allowed m tags v :
    known_aggregation (aggregation_of m) ->
    (forall t x, tags !! t = Some x -> t ∈ tag_names m /\ value_ok m x = true) ->
    (MRecord m tags v).2 = Ok tt /\
    forall tags', value_of (MRecord m tags v).1 tags' =
      if decide (tags' = tags) then Some (aggregate (aggregation_of m) (value_of m tags) v)
      else value_of m tags';
  MRecord_refused m tags v t x :
    tags !! t = Some x -> value_ok m x = false -> is_ok (MRecord m tags v).2 = false;
  MRecord_failed m tags v :
    known_aggregation (aggregation_of m) -> is_ok (MRecord m tags v).2 = false ->
    forall tags', value_of (MRecord m tags v).1 tags' = value_of m tags'
}.

(** *** The fake metric *)

(* @ pkg/util/metrics/metric_int64.go:27-36 Int64MetricRepresentation *)
Record Int64MetricRepresentation : Type := mkInt64Rep {
  irName : string; irLabels : tags_map; irValue : Z
}.

(* @ pkg/util/metrics/fakes.go:30-38 FakeInt64Metric *)
Record FakeInt64Metric : Type := mkFakeMetric {
  fName : string;
  fAggregation : Aggregation;
  fAllowedTags : list string;
  fMetrics : list Int64MetricRepresentation
}.

(* @ pkg/util/metrics/fakes.go:40-52 NewFakeInt64Metric *)
Definition NewFakeInt64Metric (name : string) (aggregation : Aggregation)
    (tagNames : list string) : option FakeInt64Metric :=
  if String.eqb name "" then None
  else Some (mkFakeMetric name aggregation tagNames []).

(** The entry with the labels is updated, or a new one appended. *)
Fixpoint upsert (name : string) (labels : tags_map) (f : option Z -> Z)
    (ms : list Int64MetricRepresentation) : list Int64MetricRepresentation :=
  match ms with
  | [] => [mkInt64Rep name labels (f None)]
  | m :: ms =>
    if decide (irLabels m = labels) then mkInt64Rep (irName m) labels (f (Some (irValue m))) :: ms
    else m :: upsert name labels f ms
  end.

(* @ pkg/util/metrics/fakes.go:54-92 Record *)
Definition fake_Record (fake : FakeInt64Metric) (tags : tags_map) (measurement : Z)
    : FakeInt64Metric * result unit :=
  if decide (map_Forall (fun t _ => t ∈ fAllowedTags fake) tags) then
    let set f := mkFakeMetric (fName fake) (fAggregation fake) (fAllowedTags fake)
                   (upsert (fName fake) tags f (fMetrics fake)) in
    if String.eqb (fAggregation fake) LastValue then (set (fun _ => measurement), Ok tt)
    else if String.eqb (fAggregation fake) Sum
    then (set (fun old => int64 (default 0%Z old + measurement)), Ok tt)
    else (set (default 0%Z), Err "unsupported aggregation type")
  else (fake, Err "tag is not allowed").

(* @ pkg/util/metrics/fakes.go:94-97 ListMetrics *)
Definition ListMetrics (fake : FakeInt64Metric) : list Int64MetricRepresentation := fMetrics fake.

Fixpoint find_value (ms : list Int64MetricRepresentation) (labels : tags_map) : option Z :=
  match ms with
  | [] => None
  | m :: ms => if decide (irLabels m = labels) then Some (irValue m) else find_value ms labels
  end.

Lemma find_upsert name labels f ms labels' :
  find_value (upsert name labels f ms) labels' =
  if decide (labels' = labels) then Some (f (find_value ms labels)) else find_value ms labels'.
Proof.
  induction ms as [|m ms IH]; simpl.
  - repeat case_decide; congruence.
  - destruct (decide (irLabels m = labels)) as [E|E]; simpl.
    + repeat case_decide; congruence.
    + rewrite IH. repeat case_decide; congruence.
Qed.

#[export, refine] Instance FakeInt64Metric_interface : Int64MetricInterface FakeInt64Metric :=
  {| MRecord := fake_Record;
     aggregation_of := fAggregation;
     tag_names := fAllowedTags;
     value_ok := fun _ _ => true;
     value_of := fun fake => find_value (fMetrics fake) |}.
Proof.
  - intros m tags v. unfold fake_Record. by repeat case_match.
  - intros m tags v Hagg Hall. unfold fake_Record.
    rewrite decide_True by (intros t x Hx; by apply (Hall t x)).
    destruct Hagg as [->| ->]; simpl; split; try done; intros tags'; by rewrite find_upsert.
  - done.
  - intros m tags v Hagg. unfold fake_Record. destruct (decide _); [|done].
    destruct Hagg as [->| ->]; done.
Defined.

(** ** Parsing and finding metrics *)

(* @ pkg/util/metrics/metric_float64.go:27-36 Float64MetricRepresentation *)
Record Float64MetricRepresentation : Type := mkFloat64Rep {
  frName : string; frLabels : tags_map; frValue : float64
}.

(** The loop body of [GetFloat64Metric]: does the metric qualify? *)
Definition metric_matches (m : Float64MetricRepresentation) (name : string) (labels : tags_map)
    (strict : bool) : bool :=
  String.eqb (frName m) name &&
  negb (strict && negb (size (frLabels m) =? size labels)) &&
  bool_decide (map_Forall (fun k v => default "" (frLabels m !! k) = v) labels).

(* @ pkg/util/metrics/helpers.go:108-134 GetFloat64Metric *)
Fixpoint GetFloat64Metric (metrics : list Float64MetricRepresentation) (name : string)
    (labels : tags_map) (strict : bool) : result Float64MetricRepresentation :=
  match metrics with
  | [] => Err "no matching metric found"
  | m :: metrics =>
    if metric_matches m name labels strict then Ok m
    else GetFloat64Metric metrics name labels strict
  end.

(** [GetFloat64Metric] finds what its comment promises, for labels with
    non-empty values: it returns the first metric with the name whose labels
    include the given ones (and are the given ones, when matching is strict),
    and fails only when there is none. *)
Theorem GetFloat64Metric_spec metrics name labels strict :
  map_Forall (fun _ v => v ≠ "") labels ->
  let ok m := frName m = name /\ labels ⊆ frLabels m /\ (strict = true -> frLabels m = labels) in
  match GetFloat64Metric metrics name labels strict with
  | Ok m => exists pre post, metrics = pre ++ m :: post /\ ok m /\ Forall (fun m' => ~ ok m') pre
  | Err _ => Forall (fun m => ~ ok m) metrics
  end.
Proof.
  intros Hne ok.
  assert (Hm : forall m, metric_matches m name labels strict = true <-> ok m).
  { intros m. unfold metric_matches, ok. rewrite !andb_true_iff, String.eqb_eq, bool_decide_eq_true.
    assert (Hsub : map_Forall (fun k v => default "" (frLabels m !! k) = v) labels <->
                   labels ⊆ frLabels m).
    { rewrite map_subseteq_spec. split.
      - intros HF k v Hk. specialize (HF k v Hk). simpl in HF. specialize (Hne k v Hk).
        destruct (frLabels m !! k); simpl in HF; congruence.
      - intros HF k v Hk. by rewrite (HF k v Hk). }
    rewrite Hsub. destruct strict; simpl.
    - rewrite negb_involutive, Nat.eqb_eq. split.
      + intros [[-> Hs] Hl]. split_and!; [done | done |]. intros _. symmetry.
        apply map_subseteq_size_eq; [done | lia].
      + intros (-> & Hl & Heq). by rewrite (Heq eq_refl).
    - naive_solver. }
  induction metrics as [|m metrics IH]; simpl; [constructor|].
  destruct (metric_matches m name labels strict) eqn:E.
  - exists [], metrics. split_and!; [done | by apply Hm | constructor].
  - assert (Hno : ~ ok m) by (by rewrite <- Hm, E).
    destruct (GetFloat64Metric metrics name labels strict) as [m'|].
    + destruct IH as (pre & post & -> & Hok & HF). exists (m :: pre), post.
      split_and!; [done | done | by constructor].
    + by constructor.
Qed.

Lemma GetFloat64Metric_spec_witness :
  let ms := [mkFloat64Rep "a" {[ "x" := "1" ]} (f64_of_Z 3)] in
  exists pre post, ms = pre ++ mkFloat64Rep "a" {[ "x" := "1" ]} (f64_of_Z 3) :: post.
Proof.
  intros ms. pose proof (GetFloat64Metric_spec ms "a" {[ "x" := "1" ]} true
    ltac:(apply (bool_decide_unpack _); vm_compute; exact I)) as H.
  change (GetFloat64Metric ms "a" {[ "x" := "1" ]} true)
    with (Ok (mkFloat64Rep "a" {[ "x" := "1" ]} (f64_of_Z 3))) in H.
  destruct H as (pre & post & Hms & _). by exists pre, post.
Defined.

(** Strict matching accepts different labels when a given value is empty. *)
Example strict_match_with_empty_value :
  GetFloat64Metric [mkFloat64Rep "a" {[ "y" := "2" ]} (f64_of_Z 3)] "a" {[ "x" := "" ]} true
  = Ok (mkFloat64Rep "a" {[ "y" := "2" ]} (f64_of_Z 3)).
Proof. vm_compute. reflexivity. Qed.

(** *** ParsePrometheusMetrics

    The text parser is a parameter: it returns metric families, whose optional
    fields are the pointers of the protobuf messages. *)
Inductive MetricType : Type := COUNTER | GAUGE | SUMMARY | UNTYPED | HISTOGRAM.

Record PMetric : Type := mkPMetric {
  pmLabels : list (option string * option string);
  pmCounter : option (option float64);
  pmGauge : option (option float64)
}.
Record MetricFamily : Type := mkFamily {
  mfName : option string; mfType : option MetricType; mfMetric : list PMetric
}.

(** [strings.ReplaceAll(s, "\r", "")] *)
Fixpoint remove_cr (s : string) : string :=
  match s with
  | String c t => if byte_is 13 c then remove_cr t else String c (remove_cr t)
  | EmptyString => ""
  end.

Fixpoint read_labels (ls : list (option string * option string)) (acc : tags_map)
    : outcome tags_map :=
  match ls with
  | [] => Ret acc
  | (n, v) :: ls =>
    v ← deref v;
    n ← deref n;
    read_labels ls (<[n := v]> acc)
  end.

Definition read_metric (f : MetricFamily) (m : PMetric)
    : outcome (result Float64MetricRepresentation) :=
  labels ← read_labels (pmLabels m) ∅;
  ty ← deref (mfType f);
  match ty with
  | COUNTER =>
    c ← deref (pmCounter m); value ← deref c; name ← deref (mfName f);
    Ret (Ok (mkFloat64Rep name labels value))
  | GAUGE =>
    g ← deref (pmGauge m); value ← deref g; name ← deref (mfName f);
    Ret (Ok (mkFloat64Rep name labels value))
  | _ => name ← deref (mfName f); Ret (Err "unexpected MetricType")
  end.

(** The two loops, over the families in the order they are visited. *)
Fixpoint read_metrics (ms : list (MetricFamily * PMetric)) (acc : list Float64MetricRepresentation)
    : outcome (list Float64MetricRepresentation * result unit) :=
  match ms with
  | [] => Ret (acc, Ok tt)
  | (f, m) :: ms =>
    r ← read_metric f m;
    match r with
    | Err e => Ret (acc, Err e)
    | Ok rep => read_metrics ms (acc ++ [rep])
    end
  end.

(* @ pkg/util/metrics/helpers.go:70-106 ParsePrometheusMetrics *)
Definition ParsePrometheusMetrics (TextToMetricFamilies : string -> result (list MetricFamily))
    (metricsText : string) : outcome (list Float64MetricRepresentation * result unit) :=
  match TextToMetricFamilies (remove_cr metricsText) with
  | Err e => Ret ([], Err e)
  | Ok families => read_metrics (families ≫= fun f => map (fun m => (f, m)) (mfMetric f)) []
  end.

Lemma created_metric_records_witness :
  let new g := NewInt64Metric (Key := string) (OC := list Z) Ok
                 (fun o _ _ _ _ => (o, Ok tt)) g in
  let g0 := mkGlobals ∅ (mkMapping ∅) [] in
  exists ms, length ms = 1 /\
    Record_Int64 (fun o _ _ v => (o ++ [v], Ok tt))
      (new (new g0 "problem_counter" "problem_counter" "" "1" Sum ["reason"]).1
         "cpu/load_1m" "cpu/load_1m" "" "1" LastValue []).1
      (Some (mkOCMetric "problem_counter")) {[ "reason" := "OOMKilling" ]} ["reason"] 1%Z =
    Ret (mkGlobals {[ "reason" := "reason" ]}
           (mkMapping (<["cpu/load_1m" := "cpu/load_1m"]> {[ "problem_counter" := "problem_counter" ]}))
           [1%Z], Ok tt) /\ ms = [("reason", "OOMKilling")].
Proof.
  intros new g0.
  destruct (created_metric_records (Key := string) (OC := list Z) Ok
    (fun o _ _ _ _ => (o, Ok tt)) (fun o _ _ v => (o ++ [v], Ok tt)) g0
    "problem_counter" "problem_counter" "" "1" Sum ["reason"]
    (new g0 "problem_counter" "problem_counter" "" "1" Sum ["reason"]).1
    (mkOCMetric "problem_counter")
    [("cpu/load_1m", "cpu/load_1m", "", "1", LastValue, [])]
    (new (new g0 "problem_counter" "problem_counter" "" "1" Sum ["reason"]).1
       "cpu/load_1m" "cpu/load_1m" "" "1" LastValue []).1
    {[ "reason" := "OOMKilling" ]} ["reason"] 1%Z) as (ms & Hl & Hrec).
  - vm_compute. reflexivity.
  - reflexivity.
  - apply (bool_decide_unpack _). vm_compute. exact I.
  - intros t [x Hx]. apply lookup_singleton_Some in Hx as [<- _]. by left.
  - exists [("reason", "OOMKilling")]. split; [reflexivity|]. split; [|reflexivity].
    rewrite Hrec. vm_compute. reflexivity.
Defined.
