(* ===== verification/ProblemMetrics.v ===== *)
(** The problem metrics manager ([pkg/problemmetrics]), against the interface
    of an int64 metric: the counter adds up, and the gauge of a problem type is
    1 for at most one reason, the last one set, unless the metric refused one. *)

From S2P Require Import Prelude GoStrings GoTime Options Metrics.

Section ProblemMetrics.
Context {M : Type} `{MI : !Int64MetricInterface M}.

(* @ pkg/problemmetrics/problem_metrics.go:38-45 ProblemMetricsManager *)
Record ProblemMetricsManager : Type := mkPMM {
  problemCounter : option M;
  problemGauge : option M;
  problemTypeToReason : gmap string string
}.

Definition reason_tags (reason : string) : tags_map := {[ "reason" := reason ]}.
Definition gauge_tags (problemType reason : string) : tags_map :=
  <["type" := problemType]> {[ "reason" := reason ]}.

(* @ pkg/problemmetrics/problem_metrics.go:78-85 IncrementProblemCounter *)
Definition IncrementProblemCounter (pmm : ProblemMetricsManager) (reason : string) (count : Z)
    : ProblemMetricsManager * result unit :=
  match problemCounter pmm with
  | None => (pmm, Err "problem counter is being incremented before initialized")
  | Some c =>
    let '(c, r) := MRecord c (reason_tags reason) count in
    (mkPMM (Some c) (problemGauge pmm) (problemTypeToReason pmm), r)
  end.

(* @ pkg/problemmetrics/problem_metrics.go:87-116 SetProblemGauge *)
Definition SetProblemGauge (pmm : ProblemMetricsManager) (problemType reason : string)
    (value : bool) : ProblemMetricsManager * result unit :=
  match problemGauge pmm with
  | None => (pmm, Err "problem gauge is being set before initialized")
  | Some g =>
    let '(g, cleared) :=
      match problemTypeToReason pmm !! problemType with
      | Some lastReason => MRecord g (gauge_tags problemType lastReason) 0
      | None => (g, Ok tt)
      end in
    match cleared with
    | Err _ =>
      (mkPMM (problemCounter pmm) (Some g) (problemTypeToReason pmm),
       Err "failed to clear previous reason")
    | Ok _ =>
      let m := <[problemType := reason]> (problemTypeToReason pmm) in
      let '(g, r) := MRecord g (gauge_tags problemType reason) (if value then 1 else 0) in
      (mkPMM (problemCounter pmm) (Some g) m, r)
    end
  end.

(** ** The gauge *)

(** A gauge as the constructors make it, before any measurement. *)
Definition fresh_gauge (g : M) : Prop :=
  aggregation_of g = LastValue /\ "type" ∈ tag_names g /\ "reason" ∈ tag_names g /\
  forall tags, value_of g tags = None.

Definition set_gauges (pmm : ProblemMetricsManager) (ops : list (string * string * bool))
    : ProblemMetricsManager :=
  foldl (fun pmm '(ty, reason, v) => (SetProblemGauge pmm ty reason v).1) pmm ops.

(** The last reason and value set for a type. *)
Definition last_set (ops : list (string * string * bool)) : gmap string (string * bool) :=
  foldl (fun m '(ty, reason, v) => <[ty := (reason, v)]> m) ∅ ops.

Lemma last_set_snoc ops ty reason v :
  last_set (ops ++ [(ty, reason, v)]) = <[ty := (reason, v)]> (last_set ops).
Proof. unfold last_set. by rewrite foldl_app. Qed.

Lemma gauge_tags_inj ty1 r1 ty2 r2 : gauge_tags ty1 r1 = gauge_tags ty2 r2 -> ty1 = ty2 /\ r1 = r2.
Proof.
  intros H. unfold gauge_tags in H. split.
  - assert (E := f_equal (lookup "type") H). rewrite !lookup_insert_eq in E. congruence.
  - assert (E := f_equal (lookup "reason") H). rewrite !lookup_insert_ne in E by done.
    rewrite !lookup_singleton_eq in E. congruence.
Qed.

Lemma gauge_tags_values ty r t x :
  gauge_tags ty r !! t = Some x -> (t = "type" /\ x = ty) \/ (t = "reason" /\ x = r).
Proof.
  unfold gauge_tags. intros H. apply lookup_insert_Some in H as [[<- <-]|[_ H]]; [by left|].
  apply lookup_singleton_Some in H as [<- <-]. by right.
Qed.

(** The metric takes the values that a type and a reason are. *)
Definition accepts (g : M) (ty reason : string) : bool := value_ok g ty && value_ok g reason.

(** The type and reason that the calls leave behind: a call is lost when the
    reason set before cannot be cleared, because the metric does not accept it. *)
Definition effective (ok : string -> string -> bool) (ops : list (string * string * bool)) : gmap string (string * bool) :=
  foldl (fun m '(ty, reason, v) =>
    match m !! ty with
    | Some (last, _) => if ok ty last then <[ty := (reason, v)]> m else m
    | None => <[ty := (reason, v)]> m
    end) ∅ ops.

Lemma effective_snoc ok ops ty reason v :
  effective ok (ops ++ [(ty, reason, v)]) =
  match effective ok ops !! ty with
  | Some (last, _) => if ok ty last then <[ty := (reason, v)]> (effective ok ops) else effective ok ops
  | None => <[ty := (reason, v)]> (effective ok ops)
  end.
Proof. unfold effective. by rewrite foldl_app. Qed.

(** What was set is what was set last, as long as it is accepted. *)
Lemma effective_elem ok ops ty r v : effective ok ops !! ty = Some (r, v) -> exists v', (ty, r, v') ∈ ops.
Proof.
  revert r v. induction ops as [|[[ty' r'] v'] ops IH] using rev_ind; intros r v; [done|]. rewrite effective_snoc.
  assert (Hold : effective ok ops !! ty = Some (r, v) -> exists v'', (ty, r, v'') ∈ ops ++ [(ty', r', v')]).
  { intros H. destruct (IH r v H) as [v'' Hin]. exists v''. apply elem_of_app. by left. }
  assert (Hnew : <[ty' := (r', v')]> (effective ok ops) !! ty = Some (r, v) -> exists v'', (ty, r, v'') ∈ ops ++ [(ty', r', v')]).
  { intros [[-> [= -> ->]]|[_ H]]%lookup_insert_Some; [|by apply Hold]. exists v. apply elem_of_app. right. by left. }
  destruct (effective ok ops !! ty') as [[last lv]|]; [|done]. by destruct (ok ty' last).
Qed.

Lemma effective_accepted ok ops ty :
  (forall r v, (ty, r, v) ∈ ops -> ok ty r = true) -> effective ok ops !! ty = last_set ops !! ty.
Proof.
  induction ops as [|[[ty' r'] v'] ops IH] using rev_ind; intros H; [done|]. rewrite effective_snoc, last_set_snoc.
  assert (IH' : effective ok ops !! ty = last_set ops !! ty).
  { apply IH. intros r v Hin. apply (H r v), elem_of_app. by left. }
  destruct (decide (ty' = ty)) as [->|Hne].
  - rewrite lookup_insert_eq. destruct (effective ok ops !! ty) as [[last lv]|] eqn:E; [|by rewrite lookup_insert_eq].
    destruct (effective_elem _ _ _ _ _ E) as [v'' Hin]. rewrite (H last v''), lookup_insert_eq by (apply elem_of_app; by left). done.
  - rewrite lookup_insert_ne by done. destruct (effective ok ops !! ty') as [[last lv]|]; [destruct (ok ty' last)|];
      rewrite ?lookup_insert_ne by done; exact IH'.
Qed.

(** After a reason that is not accepted nothing that is accepted is set any more. *)
Lemma effective_lost ok ops1 ty bad v ops2 :
  ok ty bad = false -> exists r' v', effective ok (ops1 ++ (ty, bad, v) :: ops2) !! ty = Some (r', v') /\ ok ty r' = false.
Proof.
  intros Hbad. induction ops2 as [|[[ty2 r2] v2] ops2 IH] using rev_ind.
  - rewrite effective_snoc. destruct (effective ok ops1 !! ty) as [[last lv]|] eqn:E;
      [destruct (ok ty last) eqn:Eo|]; rewrite ?lookup_insert_eq; eauto.
  - rewrite app_comm_cons, app_assoc, effective_snoc. destruct IH as (r' & v' & E & Eo).
    destruct (decide (ty2 = ty)) as [->|Hne]; [rewrite E, Eo; eauto|].
    destruct (effective _ _ !! ty2) as [[last lv]|]; [destruct (ok ty2 last)|]; rewrite ?lookup_insert_ne by done; eauto.
Qed.

(** What holds of the manager after [ops]. *)
Record GaugeInv (ok : string -> string -> bool) (ops : list (string * string * bool)) (pmm : ProblemMetricsManager) : Prop := {
  gi_gauge : exists g, problemGauge pmm = Some g /\ aggregation_of g = LastValue /\
    "type" ∈ tag_names g /\ "reason" ∈ tag_names g /\ (forall ty r, accepts g ty r = ok ty r) /\
    (forall ty r, value_of g (gauge_tags ty r) = Some 1%Z <->
                  effective ok ops !! ty = Some (r, true) /\ ok ty r = true);
  gi_reason : forall ty, problemTypeToReason pmm !! ty = fst <$> effective ok ops !! ty
}.

(** Recording one gauge value, the only way the manager writes the gauge. *)
Lemma record_gauge g ty r v :
  aggregation_of g = LastValue -> "type" ∈ tag_names g -> "reason" ∈ tag_names g ->
  let g' := (MRecord g (gauge_tags ty r) v).1 in
  is_ok (MRecord g (gauge_tags ty r) v).2 = accepts g ty r /\
  aggregation_of g' = LastValue /\ "type" ∈ tag_names g' /\ "reason" ∈ tag_names g' /\
  (forall ty' r', accepts g' ty' r' = accepts g ty' r') /\
  forall ty' r', value_of g' (gauge_tags ty' r') =
    if decide (ty' = ty /\ r' = r /\ accepts g ty r = true) then Some v else value_of g (gauge_tags ty' r').
Proof.
  intros Ha Ht Hr g'. destruct (MRecord_config g (gauge_tags ty r) v) as (C1 & C2 & C3).
  assert (Hacc : forall ty' r', accepts g' ty' r' = accepts g ty' r') by (intros; unfold accepts, g'; by rewrite !C3).
  destruct (accepts g ty r) eqn:Eacc.
  - destruct (MRecord_allowed g (gauge_tags ty r) v) as [H1 H2].
    + by left.
    + unfold accepts in Eacc. apply andb_true_iff in Eacc as [E1 E2].
      intros t x [[-> ->]|[-> ->]]%gauge_tags_values; done.
    + unfold g' in *. rewrite C1, C2, H1. split_and!; try done. intros ty' r'. rewrite H2, Ha.
      unfold aggregate. rewrite String.eqb_refl.
      destruct (decide (gauge_tags ty' r' = gauge_tags ty r)) as [E|E];
        destruct (decide (ty' = ty /\ r' = r /\ true = true)) as [E'|E']; try done.
      * apply gauge_tags_inj in E. tauto.
      * by destruct E' as (-> & -> & _).
  - assert (Hno : is_ok (MRecord g (gauge_tags ty r) v).2 = false).
    { unfold accepts in Eacc. apply andb_false_iff in Eacc as [E|E].
      - by apply (MRecord_refused g _ v "type" ty); [apply lookup_insert_eq|].
      - apply (MRecord_refused g _ v "reason" r); [|done]. unfold gauge_tags.
        rewrite lookup_insert_ne by done. apply lookup_singleton_eq. }
    unfold g' in *. rewrite C1, C2, Hno. split_and!; try done. intros ty' r'.
    rewrite decide_False by (intros (_ & _ & ?); done). apply MRecord_failed; [by left|done].
Qed.

Lemma SetProblemGauge_inv ok ops pmm ty reason v :
  GaugeInv ok ops pmm -> GaugeInv ok (ops ++ [(ty, reason, v)]) (SetProblemGauge pmm ty reason v).1.
Proof.
  intros [(g & Hg & Ha & Ht & Hr & Hok & Hval) Hreas]. unfold SetProblemGauge. rewrite Hg, Hreas.
  assert (Hset : forall g1, aggregation_of g1 = LastValue -> "type" ∈ tag_names g1 -> "reason" ∈ tag_names g1 ->
    (forall ty r, accepts g1 ty r = ok ty r) ->
    (forall ty' r', value_of g1 (gauge_tags ty' r') = Some 1%Z <->
       ty' <> ty /\ effective ok ops !! ty' = Some (r', true) /\ ok ty' r' = true) ->
    effective ok (ops ++ [(ty, reason, v)]) = <[ty := (reason, v)]> (effective ok ops) ->
    GaugeInv ok (ops ++ [(ty, reason, v)])
      (let '(g2, r) := MRecord g1 (gauge_tags ty reason) (if v then 1 else 0) in
       (mkPMM (problemCounter pmm) (Some g2) (<[ty := reason]> (problemTypeToReason pmm)), r)).1).
  { intros g1 H2 H3 H4 H5 H6 He.
    destruct (record_gauge g1 ty reason (if v then 1 else 0) H2 H3 H4) as (_ & K2 & K3 & K4 & K5 & K6).
    destruct (MRecord g1 (gauge_tags ty reason) (if v then 1 else 0)) as [g2 r2]. cbn in *.
    constructor; cbn.
    - exists g2. split_and!; try done; [intros; by rewrite K5|]. intros ty' r'. rewrite K6, He.
      destruct (decide (ty' = ty)) as [->|Hne].
      + rewrite lookup_insert_eq.
        destruct (decide (ty = ty /\ r' = reason /\ accepts g1 ty reason = true)) as [E|E].
        * destruct E as (_ & -> & Ho). rewrite H5 in Ho. rewrite Ho. destruct v; split; try done; by intros [? _].
        * rewrite H6. split; [by intros [] |]. intros [[= -> ->] Ho]. rewrite H5 in E. by destruct E.
      + rewrite lookup_insert_ne by done. rewrite decide_False by tauto. rewrite H6. tauto.
    - intros ty'. rewrite He. destruct (decide (ty' = ty)) as [->|Hne]; [by rewrite !lookup_insert_eq|].
      by rewrite !lookup_insert_ne. }
  pose proof (effective_snoc ok ops ty reason v) as He.
  destruct (effective ok ops !! ty) as [[last lv]|] eqn:El; cbn [fmap option_fmap option_map fst].
  - destruct (record_gauge g ty last 0 Ha Ht Hr) as (H1 & H2 & H3 & H4 & H5 & H6).
    destruct (MRecord g (gauge_tags ty last) 0) as [g1 r1]. cbn in *. rewrite Hok in H1.
    destruct (ok ty last) eqn:Eo; destruct r1 as [u|e]; try done.
    + apply Hset; try done; [intros; by rewrite H5|]. intros ty' r'. rewrite H6.
      destruct (decide (ty' = ty /\ r' = last /\ accepts g ty last = true)) as [E|E].
      * destruct E as (-> & -> & _). split; [done|by intros []].
      * rewrite Hval. split; [|by intros []]. intros [Hl Ho]. split; [|done]. intros ->. apply E.
        rewrite Hok. rewrite El in Hl. by injection Hl as -> ->.
    + constructor; cbn; rewrite He; [|done]. exists g1. split_and!; try done; [intros; by rewrite H5|].
      intros ty' r'. rewrite H6, decide_False by (rewrite Hok; intros (_ & _ & ?); congruence). apply Hval.
  - apply Hset; try done. intros ty' r'. rewrite Hval. split; [|by intros []]. intros [Hl Ho]. split; [|done].
    intros ->. congruence.
Qed.

Lemma set_gauges_inv ok ops pmm done_ops :
  GaugeInv ok done_ops pmm -> GaugeInv ok (done_ops ++ ops) (set_gauges pmm ops).
Proof.
  revert pmm done_ops. induction ops as [|[[ty r] v] ops IH]; intros pmm d HI; simpl.
  { by rewrite app_nil_r. }
  rewrite cons_middle, app_assoc. apply IH. by apply SetProblemGauge_inv.
Qed.

(** C19.  At any time, for each type of permanent problem, at most one reason
    has its gauge at 1, whatever values the metric refuses.  As long as it accepts
    the type and every reason set for it, the gauge of the type and a reason is 1 if
    and only if the last call of [SetProblemGauge] for the type set this reason to
    true.  But a reason that the metric refuses is remembered as the last one and
    can never be cleared: from then on no reason of the type is at 1, whatever is
    set. *)
Theorem problem_gauge_last_reason counter g ops ty :
  fresh_gauge g ->
  exists g', problemGauge (set_gauges (mkPMM counter (Some g) ∅) ops) = Some g' /\
    (forall r r', value_of g' (gauge_tags ty r) = Some 1%Z ->
       value_of g' (gauge_tags ty r') = Some 1%Z -> r' = r) /\
    ((forall r v, (ty, r, v) ∈ ops -> accepts g ty r = true) ->
     forall r, value_of g' (gauge_tags ty r) = Some 1%Z <-> last_set ops !! ty = Some (r, true)) /\
    (forall ops1 bad v ops2, ops = ops1 ++ (ty, bad, v) :: ops2 -> accepts g ty bad = false ->
     forall r, value_of g' (gauge_tags ty r) <> Some 1%Z).
Proof.
  intros (Ha & Ht & Hr & Hv).
  assert (HI : GaugeInv (accepts g) [] (mkPMM counter (Some g) ∅)).
  { constructor; simpl.
    - exists g. split_and!; try done. intros ty' r'. unfold effective. simpl.
      rewrite Hv, lookup_empty. split; [done|by intros []].
    - intros ty'. unfold effective. simpl. by rewrite !lookup_empty. }
  destruct (set_gauges_inv (accepts g) ops _ [] HI) as [(g' & Hg' & _ & _ & _ & _ & Hval) _]. cbn [app] in Hval.
  exists g'. split_and!; [done | | |].
  - intros r r' [H1 _]%Hval [H2 _]%Hval. congruence.
  - intros Hacc r. rewrite Hval, effective_accepted by done. split; [by intros []|]. intros Hl. split; [done|].
    rewrite <- (effective_accepted (accepts g) ops ty Hacc) in Hl. destruct (effective_elem _ _ _ _ _ Hl) as [v Hin]. by apply (Hacc r v).
  - intros ops1 bad v ops2 -> Hbad r [Hl Ho]%Hval. destruct (effective_lost (accepts g) ops1 ty bad v ops2 Hbad) as (r' & v' & E & Eo).
    rewrite E in Hl. injection Hl as -> ->. congruence.
Qed.

(** ** The counter *)

Definition increments (pmm : ProblemMetricsManager) (ops : list (string * Z))
    : ProblemMetricsManager :=
  foldl (fun pmm '(reason, n) => (IncrementProblemCounter pmm reason n).1) pmm ops.

(** The counts of one reason. *)
Definition counts_of (reason : string) (ops : list (string * Z)) : list Z :=
  snd <$> filter (fun op => op.1 = reason) ops.

Lemma int64_add_idem a b : int64 (int64 a + b) = int64 (a + b).
Proof.
  unfold int64. f_equal.
  replace ((a + 2 ^ 63) mod 2 ^ 64 - 2 ^ 63 + b + 2 ^ 63)%Z
    with ((a + 2 ^ 63) mod 2 ^ 64 + b)%Z by lia.
  rewrite Zplus_mod_idemp_l. f_equal. lia.
Qed.

Lemma counter_step c reason n :
  aggregation_of c = Sum -> "reason" ∈ tag_names c -> value_ok c reason = true ->
  let c' := (MRecord c (reason_tags reason) n).1 in
  aggregation_of c' = Sum /\ "reason" ∈ tag_names c' /\ (forall x, value_ok c' x = value_ok c x) /\
  (MRecord c (reason_tags reason) n).2 = Ok tt /\
  forall r, value_of c' (reason_tags r) =
    if decide (r = reason) then Some (int64 (default 0%Z (value_of c (reason_tags r)) + n))
    else value_of c (reason_tags r).
Proof.
  intros Ha Hr Hok c'. destruct (MRecord_config c (reason_tags reason) n) as (C1 & C2 & C3).
  destruct (MRecord_allowed c (reason_tags reason) n) as [H1 H2].
  - by right.
  - unfold reason_tags. intros t x Hx. by apply lookup_singleton_Some in Hx as [<- <-].
  - unfold c'. rewrite C1, C2. split_and!; try done. intros r. rewrite H2, Ha.
    destruct (decide (r = reason)) as [->|Hne].
    + by rewrite decide_True.
    + rewrite decide_False; [done|]. intros E. apply Hne.
      assert (E' := f_equal (lookup "reason") E). unfold reason_tags in E'.
      rewrite !lookup_singleton_eq in E'. congruence.
Qed.

(** With reasons that the metric accepts, the problem counter of a reason is the sum, in int64, of the counts it
    was incremented by; a reason that was never incremented has no time series,
    and one initialised with 0 reads 0. *)
Theorem problem_counter_total gauge c ops reason :
  aggregation_of c = Sum -> "reason" ∈ tag_names c -> (forall tags, value_of c tags = None) ->
  (forall r n, (r, n) ∈ ops -> value_ok c r = true) ->
  exists c', problemCounter (increments (mkPMM (Some c) gauge ∅) ops) = Some c' /\
    value_of c' (reason_tags reason) =
    match counts_of reason ops with
    | [] => None
    | counts => Some (int64 (foldr Z.add 0%Z counts))
    end.
Proof.
  intros Ha Hr Hv Hok.
  assert (G : exists c', problemCounter (increments (mkPMM (Some c) gauge ∅) ops) = Some c' /\
    aggregation_of c' = Sum /\ "reason" ∈ tag_names c' /\ (forall x, value_ok c' x = value_ok c x) /\
    forall r, value_of c' (reason_tags r) =
    match counts_of r ops with
    | [] => None
    | counts => Some (int64 (foldr Z.add 0%Z counts))
    end).
  { induction ops as [|[r n] ops IH] using rev_ind.
    { exists c. by split_and!. }
    destruct IH as (c1 & Hc1 & H2 & H3 & H3' & H4).
    { intros r' n' Hin. apply (Hok r' n'), elem_of_app. by left. }
    unfold increments. rewrite foldl_app. fold (increments (mkPMM (Some c) gauge ∅) ops).
    simpl. unfold IncrementProblemCounter. rewrite Hc1.
    destruct (counter_step c1 r n H2 H3) as (K1 & K2 & K3 & _ & K4).
    { rewrite H3'. apply (Hok r n), elem_of_app. right. by left. }
    destruct (MRecord c1 (reason_tags r) n) as [c2 res]. simpl in *.
    exists c2. split_and!; try done; [intros x; by rewrite K3|]. intros r'. rewrite K4. unfold counts_of.
    rewrite filter_app. destruct (decide (r' = r)) as [->|Hne].
    - rewrite filter_cons_True, filter_nil by done. rewrite fmap_app. simpl. rewrite H4.
      unfold counts_of. destruct (snd <$> filter _ ops) as [|z zs] eqn:E; simpl.
      + do 2 f_equal. lia.
      + f_equal. rewrite int64_add_idem. f_equal. rewrite foldr_app. simpl.
        clear. revert n z. induction zs as [|y zs IH]; intros n z; simpl; [lia|].
        specialize (IH n y). lia.
    - rewrite filter_cons_False, filter_nil, app_nil_r by (simpl; congruence).
      apply H4. }
  destruct G as (c' & H1 & _ & _ & _ & H4). by exists c'.
Qed.
End ProblemMetrics.
Arguments ProblemMetricsManager : clear implicits.

(** ** Construction *)

(** The real manager, on the OpenCensus metrics. *)
Section Construction.
Context {Key OC : Type}.
Variable tag_NewKey : string -> result Key.
Variable view_Register : OC -> string -> string -> Aggregation -> list Key -> OC * result unit.

Definition ProblemCounterID : string := "problem_counter".
Definition ProblemGaugeID : string := "problem_gauge".

(* @ pkg/problemmetrics/problem_metrics.go:47-76 NewProblemMetricsManagerOrDie *)
Definition NewProblemMetricsManagerOrDie (g : globals (Key := Key) (OC := OC))
    : outcome (globals (Key := Key) (OC := OC) * ProblemMetricsManager OCMetric) :=
  let '(g, c) := NewInt64Metric tag_NewKey view_Register g ProblemCounterID ProblemCounterID
    "Number of times a specific type of problem have occurred." "1" Sum ["reason"] in
  match c with
  | Err _ => Panic "Failed to create problem_counter metric"
  | Ok counter =>
    let '(g, p) := NewInt64Metric tag_NewKey view_Register g ProblemGaugeID ProblemGaugeID
      "Whether a specific type of problem is affecting the node or not." "1" LastValue
      ["type"; "reason"] in
    match p with
    | Err _ => Panic "Failed to create problem_gauge metric"
    | Ok gauge => Ret (g, mkPMM counter gauge ∅)
    end
  end.
End Construction.

(* @ pkg/problemmetrics/problem_metrics_stub.go:23-35 NewProblemMetricsManagerStub *)
Definition NewProblemMetricsManagerStub : ProblemMetricsManager FakeInt64Metric :=
  mkPMM (NewFakeInt64Metric "problem_counter" Sum ["reason"])
        (NewFakeInt64Metric "problem_gauge" LastValue ["type"; "reason"]) ∅.

Definition fake_gauge : FakeInt64Metric :=
  mkFakeMetric "problem_gauge" LastValue ["type"; "reason"] [].
Definition fake_counter : FakeInt64Metric := mkFakeMetric "problem_counter" Sum ["reason"] [].

Lemma fake_gauge_fresh : fresh_gauge fake_gauge.
Proof. split_and!; simpl; [done | by left | right; by left | done]. Qed.

Lemma problem_counter_total_witness :
  exists c', problemCounter (increments NewProblemMetricsManagerStub
               [("OOMKilling", 0%Z); ("TaskHung", 1%Z); ("OOMKilling", 2%Z)]) = Some c' /\
    value_of c' (reason_tags "OOMKilling") = Some 2%Z.
Proof.
  apply (problem_counter_total (Some fake_gauge) fake_counter
    [("OOMKilling", 0%Z); ("TaskHung", 1%Z); ("OOMKilling", 2%Z)] "OOMKilling").
  - reflexivity.
  - by left.
  - reflexivity.
  - reflexivity.
Defined.
