(* ===== verification/OpenCensusMetric.v ===== *)
(** The metric that the program uses, [Int64Metric] on OpenCensus
    ([pkg/util/metrics/metric_int64.go]), as an instance of
    [Int64MetricInterface].

    The library is a class: what its documentation says of recording a measurement
    with tags.  A tag may only have a printable value of bounded length, and
    [Record] knows the tags of all metrics, not only those of its own. *)

From S2P Require Import Prelude GoStrings GoTime GoConv Options Metrics ProblemMetrics.

(** Keys have names.  A view that is registered has an aggregation and keys, and one
    row of data per combination of tags. *)
Class RecordingLibrary (K L : Type) `{Countable K} : Type := {
  record : L -> list (K * string) -> string -> Z -> L * result unit;
  key_name : K -> string;
  tag_ok : string -> bool;
  registered : L -> string -> option (Aggregation * list K);
  row : L -> string -> gmap K string -> option Z;
  record_registered l ms n v n' : registered (record l ms n v).1 n' = registered l n';
  record_accepted l ms n v agg ks :
    registered l n = Some (agg, ks) -> NoDup ms.*1 -> Forall (fun kv => kv.1 ∈ ks /\ tag_ok kv.2 = true) ms ->
    (record l ms n v).2 = Ok tt /\
    forall n' tags, row (record l ms n v).1 n' tags =
      if decide (n' = n /\ tags = list_to_map ms) then Some (aggregate agg (row l n tags) v) else row l n' tags;
  record_invalid l ms n v : Exists (fun kv => tag_ok kv.2 = false) ms -> is_ok (record l ms n v).2 = false;
  record_failed l ms n v : is_ok (record l ms n v).2 = false -> forall n' tags, row (record l ms n v).1 n' tags = row l n' tags
}.

Section Metric.
Context {K L : Type} `{Countable K} {lib : RecordingLibrary K L}.
Abbreviation state := (globals (Key := K) (OC := L)).

(** A metric beside the state of the package and of the library.  Several metrics
    share that state, but a measurement of one is not seen in the rows of another. *)
Record OCInt64 : Type := mkOCInt64 { oiMetric : OCMetric; oiState : state }.

Definition oi_view (m : OCInt64) : option (Aggregation * list K) := registered (oc (oiState m)) (mName (oiMetric m)).
Definition oi_aggregation (m : OCInt64) : Aggregation := default "" (fst <$> oi_view m).

(** The tags of the view: those whose key is one of its keys. *)
Definition own_tag (m : OCInt64) (t : string) : bool :=
  match tagMap (oiState m) !! t, oi_view m with
  | Some k, Some (_, ks) => bool_decide (k ∈ ks /\ key_name k = t)
  | _, _ => false
  end.
Definition oi_tags (m : OCInt64) : list string :=
  List.filter (own_tag m) (map_to_list (tagMap (oiState m))).*1.

Definition keyed_list (tm : gmap string K) (l : list (string * string)) : list (K * string) :=
  omap (fun '(t, x) => (fun k => (k, x)) <$> tm !! t) l.
Definition keyed (tm : gmap string K) (tags : tags_map) : gmap K string := list_to_map (keyed_list tm (map_to_list tags)).

Definition oi_value (m : OCInt64) (tags : tags_map) : option Z :=
  if decide (map_Forall (fun t _ => own_tag m t = true) tags)
  then row (oc (oiState m)) (mName (oiMetric m)) (keyed (tagMap (oiState m)) tags) else None.

(** [Record], visiting the tags in some order. *)
Definition oi_record (m : OCInt64) (tags : tags_map) (v : Z) : OCInt64 * result unit :=
  match Record_Int64 record (oiState m) (Some (oiMetric m)) tags (map_to_list tags).*1 v with
  | Ret (g, r) => (mkOCInt64 (oiMetric m) g, r)
  | Panic _ => (m, Err "")
  end.

Lemma elem_oi_tags m t : t ∈ oi_tags m <-> own_tag m t = true.
Proof.
  unfold oi_tags. rewrite list_elem_of_In, filter_In, <- list_elem_of_In. split; [by intros []|]. intros Ho. split; [|done].
  unfold own_tag in Ho. destruct (tagMap (oiState m) !! t) as [k|] eqn:E; [|done].
  apply list_elem_of_fmap. exists (t, k). split; [done|]. by apply elem_of_map_to_list.
Qed.

Lemma own_tag_key m t : own_tag m t = true ->
  exists k agg ks, tagMap (oiState m) !! t = Some k /\ oi_view m = Some (agg, ks) /\ k ∈ ks /\ key_name k = t.
Proof.
  unfold own_tag. destruct (tagMap (oiState m) !! t) as [k|]; [|done]. destruct (oi_view m) as [[agg ks]|]; [|done].
  intros [Hk Hn]%bool_decide_eq_true. by exists k, agg, ks.
Qed.

Lemma mutators_keyed tm tags l :
  (forall t x, (t, x) ∈ l -> tags !! t = Some x) ->
  match mutators tm tags l.*1 with
  | Ok ms => ms = keyed_list tm l /\ Forall (fun tx => is_Some (tm !! tx.1)) l
  | Err _ => Exists (fun tx => tm !! tx.1 = None) l
  end.
Proof.
  induction l as [|[t x] l IH]; intros Hl; cbn; [done|].
  specialize (IH ltac:(intros; apply Hl; by right)). rewrite (Hl t x ltac:(by left)).
  destruct (tm !! t) as [k|] eqn:E; cbn; [|by constructor].
  destruct (mutators tm tags l.*1) as [ms|e]; cbn.
  - destruct IH as [-> HF]. split; [done|]. constructor; [cbn; by rewrite E|done].
  - by apply Exists_cons_tl.
Qed.

(** The metric after the library was asked to record. *)
Definition recorded (m : OCInt64) (ms : list (K * string)) (v : Z) : OCInt64 :=
  mkOCInt64 (oiMetric m)
    (mkGlobals (tagMap (oiState m)) (metricMap (oiState m)) (record (oc (oiState m)) ms (mName (oiMetric m)) v).1).

Lemma recorded_view m ms v : oi_view (recorded m ms v) = oi_view m.
Proof. unfold oi_view. cbn. apply record_registered. Qed.

Lemma own_tag_recorded m ms v t : own_tag (recorded m ms v) t = own_tag m t.
Proof. unfold own_tag. by rewrite recorded_view. Qed.

(** [Record]: a tag is unknown, or the library is asked. *)
Lemma oi_record_cases m tags v :
  ((oi_record m tags v).1 = m /\ is_ok (oi_record m tags v).2 = false /\ exists t, is_Some (tags !! t) /\ tagMap (oiState m) !! t = None) \/
  (let ms := keyed_list (tagMap (oiState m)) (map_to_list tags) in
   oi_record m tags v = (recorded m ms v, (record (oc (oiState m)) ms (mName (oiMetric m)) v).2) /\
   forall t x, tags !! t = Some x -> exists k, tagMap (oiState m) !! t = Some k /\ (k, x) ∈ ms).
Proof.
  unfold oi_record, Record_Int64. cbn [deref mbind outcome_bind].
  pose proof (mutators_keyed (tagMap (oiState m)) tags (map_to_list tags)
    ltac:(intros t x Hx; by apply elem_of_map_to_list)) as Hm.
  destruct (mutators _ tags _) as [ms|e].
  - right. destruct Hm as [-> HF]. cbv zeta. unfold recorded. destruct (record _ _ _ _) as [l r]. split; [done|].
    intros t x Hx. assert (Hin : (t, x) ∈ map_to_list tags) by (by apply elem_of_map_to_list).
    destruct (proj1 (Forall_forall _ _) HF _ Hin) as [k Hk]. exists k. split; [done|].
    unfold keyed_list. apply list_elem_of_omap. exists (t, x). split; [done|]. cbn in *. by rewrite Hk.
  - left. split_and!; [by destruct m|done|]. apply Exists_exists in Hm as ([t x] & Hin & Hn).
    exists t. split; [|done]. apply elem_of_map_to_list in Hin. by rewrite Hin.
Qed.

(** The keys of own tags are distinct. *)
Lemma keyed_list_NoDup m tags :
  map_Forall (fun t _ => own_tag m t = true) tags -> NoDup (keyed_list (tagMap (oiState m)) (map_to_list tags)).*1.
Proof.
  intros HF. assert (Hl : forall t x, (t, x) ∈ map_to_list tags -> own_tag m t = true).
  { intros t x Hx%elem_of_map_to_list. by apply (HF t x). }
  pose proof (NoDup_fst_map_to_list tags) as HN. revert HN Hl. induction (map_to_list tags) as [|[t x] l IH]; [constructor|].
  intros HN Hl. apply NoDup_cons in HN as [Hnin HN]. specialize (IH HN ltac:(intros; eapply Hl; by right)).
  destruct (own_tag_key m t (Hl t x ltac:(by left))) as (k & agg & ks & Hk & _ & _ & Hname). unfold keyed_list. cbn. rewrite Hk. cbn.
  apply NoDup_cons. split; [|exact IH]. intros Hin. apply list_elem_of_fmap in Hin as ([k' x'] & -> & Hin).
  apply list_elem_of_omap in Hin as ([t' y] & Hin & E). cbn in E.
  destruct (own_tag_key m t' (Hl t' y ltac:(by right))) as (k2 & _ & _ & Hk2 & _ & _ & Hname2). rewrite Hk2 in E. cbn in E.
  injection E as -> ->. cbn in *. assert (t' = t) as -> by congruence.
  apply Hnin. apply list_elem_of_fmap. by eexists (t, _).
Qed.

Lemma keyed_inj m tags tags' :
  map_Forall (fun t _ => own_tag m t = true) tags -> map_Forall (fun t _ => own_tag m t = true) tags' ->
  keyed (tagMap (oiState m)) tags = keyed (tagMap (oiState m)) tags' -> tags = tags'.
Proof.
  assert (Hlk : forall tags, map_Forall (fun t _ => own_tag m t = true) tags -> forall k x,
    keyed (tagMap (oiState m)) tags !! k = Some x <-> exists t, tagMap (oiState m) !! t = Some k /\ tags !! t = Some x).
  { intros tg HF k x. unfold keyed. rewrite <- elem_of_list_to_map by (by apply keyed_list_NoDup).
    unfold keyed_list. rewrite list_elem_of_omap. split.
    - intros ([t y] & Hin & E). cbn in E. destruct (tagMap (oiState m) !! t) as [k'|] eqn:Ek; [|done]. injection E as -> ->.
      exists t. split; [done|]. by apply elem_of_map_to_list.
    - intros (t & Ht & Hx). exists (t, x). split; [by apply elem_of_map_to_list|]. cbn. by rewrite Ht. }
  assert (Hsub : forall tg tg', map_Forall (fun t _ => own_tag m t = true) tg -> map_Forall (fun t _ => own_tag m t = true) tg' ->
    keyed (tagMap (oiState m)) tg = keyed (tagMap (oiState m)) tg' -> tg ⊆ tg').
  { intros tg tg' HF HF' E. apply map_subseteq_spec. intros t x Hx.
    destruct (own_tag_key m t (HF t x Hx)) as (k & _ & _ & Hk & _ & _ & Hn).
    assert (Hin : keyed (tagMap (oiState m)) tg !! k = Some x) by (apply Hlk; eauto).
    rewrite E in Hin. apply Hlk in Hin as (t' & Hk' & Hx'); [|done].
    destruct (own_tag_key m t' (HF' t' x Hx')) as (k' & _ & _ & Hk2 & _ & _ & Hn'). congruence. }
  intros HF HF' E. apply (anti_symm (⊆)); by apply Hsub.
Qed.

#[export, refine] Instance OCInt64_interface : Int64MetricInterface OCInt64 :=
  {| MRecord := oi_record; aggregation_of := oi_aggregation; tag_names := oi_tags;
     value_ok := fun _ => tag_ok; value_of := oi_value |}.
Proof.
  - intros m tags v. destruct (oi_record_cases m tags v) as [(-> & _)|[-> _]]; [done|]. cbn.
    unfold oi_aggregation, oi_tags, own_tag. by rewrite recorded_view.
  - intros m tags v Hagg Hall.
    assert (HF : map_Forall (fun t _ => own_tag m t = true) tags) by (intros t x Hx; by apply elem_oi_tags, (Hall t x)).
    destruct (oi_record_cases m tags v) as [(_ & _ & t & [x Hx] & Hno)|[-> Hin]].
    { destruct (own_tag_key m t (HF t x Hx)) as (k & _ & _ & Hk & _). congruence. }
    unfold oi_aggregation in Hagg. destruct (oi_view m) as [[agg ks]|] eqn:Ev; [|by destruct Hagg].
    set (ms := keyed_list _ _) in *. unfold oi_view in Ev.
    assert (Hms : Forall (fun kv => kv.1 ∈ ks /\ tag_ok kv.2 = true) ms).
    { apply Forall_forall. intros [k x] Hk. apply list_elem_of_omap in Hk as ([t y] & Ht & E). cbn in E.
      apply elem_of_map_to_list in Ht. destruct (own_tag_key m t (HF t y Ht)) as (k' & agg' & ks' & Hk' & Hv' & Hks & _).
      unfold oi_view in Hv'. rewrite Hk' in E. cbn in E. injection E as -> ->. split; [cbn; congruence|].
      by apply (Hall t x). }
    destruct (record_accepted _ ms (mName (oiMetric m)) v agg ks Ev (keyed_list_NoDup m tags HF) Hms) as [Hr Hrow].
    cbn. split; [done|]. intros tags'. unfold oi_value, oi_aggregation, oi_view. cbn. rewrite Ev. cbn.
    pose proof (own_tag_recorded m ms v) as Hown. unfold recorded in Hown.
    destruct (decide (map_Forall (fun t _ => own_tag m t = true) tags')) as [HF'|HF'].
    + rewrite decide_True by (intros t x Hx; rewrite Hown; by apply (HF' t x)). rewrite Hrow.
      destruct (decide (tags' = tags)) as [->|Hne].
      * rewrite decide_True by done. by rewrite decide_True by done.
      * rewrite decide_False; [done|]. intros [_ E]. apply Hne. by apply (keyed_inj m).
    + rewrite decide_False by (intros HF2; apply HF'; intros t x Hx; rewrite <- Hown; by apply (HF2 t x)).
      rewrite decide_False; [done|]. by intros ->.
  - intros m tags v t x Hx Hbad. destruct (oi_record_cases m tags v) as [(_ & -> & _)|[-> Hin]]; [done|]. cbn.
    apply record_invalid, Exists_exists. destruct (Hin t x Hx) as (k & _ & Hk). by exists (k, x).
  - intros m tags v _ Hfail tags'. destruct (oi_record_cases m tags v) as [(-> & _)|[Heq _]]; [done|].
    rewrite Heq in Hfail |- *. cbn [fst snd] in *. unfold oi_value.
    destruct (decide (map_Forall (fun t _ => own_tag m t = true) tags')) as [HF'|HF'].
    + rewrite decide_True by (intros t x Hx; rewrite own_tag_recorded; by apply (HF' t x)).
      by apply record_failed.
    + by rewrite decide_False by (intros HF2; apply HF'; intros t x Hx; pose proof (HF2 t x Hx) as E; cbn beta in E; by rewrite own_tag_recorded in E).
Defined.
End Metric.

(** ** A library that keeps the rows in a map *)
Definition printable (c : ascii) : bool := ((32 <=? Z.of_N (N_of_ascii c)) && (Z.of_N (N_of_ascii c) <=? 126))%Z.
Definition tag_value_ok (x : string) : bool := (String.length x <=? 255) && all_chars printable x.

Record rows : Type := mkRows {
  rwViews : gmap string (Aggregation * list string);
  rwData : gmap (string * gmap string string) Z
}.

Definition rows_record (l : rows) (ms : list (string * string)) (n : string) (v : Z) : rows * result unit :=
  if forallb (fun kv => tag_value_ok kv.2) ms then
    match rwViews l !! n with
    | Some (agg, _) =>
      let key := (n, list_to_map ms : gmap string string) in
      (mkRows (rwViews l) (<[key := aggregate agg (rwData l !! key) v]> (rwData l)), Ok tt)
    | None => (l, Ok tt)
    end
  else (l, Err "invalid value").

Lemma forallb_Forall {A} (f : A -> bool) l : forallb f l = true <-> Forall (fun x => f x = true) l.
Proof. rewrite forallb_forall, Forall_forall. by setoid_rewrite list_elem_of_In. Qed.

#[refine, local] Instance rows_library : RecordingLibrary string rows :=
  {| record := rows_record; key_name := fun k => k; tag_ok := tag_value_ok;
     registered := fun l n => rwViews l !! n; row := fun l n tags => rwData l !! (n, tags) |}.
Proof.
  - intros l ms n v n'. unfold rows_record. by repeat case_match.
  - intros l ms n v agg ks Hreg HN HF. unfold rows_record.
    rewrite (proj2 (forallb_Forall _ _)), Hreg by (eapply Forall_impl; [exact HF|by intros ? []]). cbn.
    split; [done|]. intros n' tags. destruct (decide (n' = n /\ tags = list_to_map ms)) as [[-> ->]|Hne].
    + apply lookup_insert_eq.
    + rewrite lookup_insert_ne; [done|]. intros [= <- <-]. by apply Hne.
  - intros l ms n v HE. unfold rows_record. destruct (forallb _ ms) eqn:E; [|done].
    apply forallb_Forall in E. apply Exists_exists in HE as (kv & Hin & Hbad).
    rewrite (proj1 (Forall_forall _ _) E kv Hin) in Hbad. done.
  - intros l ms n v. unfold rows_record. by repeat case_match.
Defined.

Definition rows_register (l : rows) (n desc : string) (agg : Aggregation) (ks : list string) : rows * result unit :=
  (mkRows (<[n := (agg, ks)]> (rwViews l)) (rwData l), Ok tt).

(** The gauge that the constructor of the manager makes on it. *)
Definition created_gauge : OCInt64 (K := string) (L := rows) :=
  match NewProblemMetricsManagerOrDie Ok rows_register (mkGlobals ∅ (mkMapping ∅) (mkRows ∅ ∅)) with
  | Ret (g, pmm) => mkOCInt64 (default (mkOCMetric "") (problemGauge pmm)) g
  | Panic _ => mkOCInt64 (mkOCMetric "") (mkGlobals ∅ (mkMapping ∅) (mkRows ∅ ∅))
  end.

Lemma created_gauge_fresh : fresh_gauge created_gauge.
Proof.
  split_and!.
  - vm_compute. reflexivity.
  - apply (elem_oi_tags created_gauge). vm_compute. reflexivity.
  - apply (elem_oi_tags created_gauge). vm_compute. reflexivity.
  - intros tags. cbn. unfold oi_value. destruct (decide _); [|done].
    assert (E : rwData (oc (oiState created_gauge)) = ∅) by (vm_compute; reflexivity).
    change (rwData (oc (oiState created_gauge)) !! (mName (oiMetric created_gauge), keyed (tagMap (oiState created_gauge)) tags) = None).
    rewrite E. apply lookup_empty.
Qed.

(** Two reasons in turn; and the same with one in between that the library
    refuses. *)
Definition newline_reason : string := "Docker" +:+ newline +:+ "Hung".
Definition two_reasons : list (string * string * bool) :=
  [("KernelDeadlock", "AUFSUmountHung", true); ("KernelDeadlock", "DockerHung", true)].
Definition refused_between : list (string * string * bool) :=
  [("KernelDeadlock", "AUFSUmountHung", true); ("KernelDeadlock", newline_reason, true); ("KernelDeadlock", "DockerHung", true)].

Lemma problem_gauge_last_reason_witness :
  (exists g', problemGauge (set_gauges (mkPMM None (Some created_gauge) ∅) two_reasons) = Some g' /\
     value_of g' (gauge_tags "KernelDeadlock" "DockerHung") = Some 1%Z /\
     value_of g' (gauge_tags "KernelDeadlock" "AUFSUmountHung") <> Some 1%Z) /\
  (exists g', problemGauge (set_gauges (mkPMM None (Some created_gauge) ∅) refused_between) = Some g' /\
     forall r, value_of g' (gauge_tags "KernelDeadlock" r) <> Some 1%Z).
Proof.
  split.
  - destruct (problem_gauge_last_reason None created_gauge two_reasons "KernelDeadlock" created_gauge_fresh)
      as (g' & Hg & _ & Hlast & _).
    assert (Hacc : forall r v, ("KernelDeadlock", r, v) ∈ two_reasons -> accepts created_gauge "KernelDeadlock" r = true).
    { intros r v Hin. apply elem_of_cons in Hin as [[= -> ->]|Hin]; [vm_compute; reflexivity|].
      apply list_elem_of_singleton in Hin as [= -> ->]. vm_compute. reflexivity. }
    exists g'. split; [exact Hg|]. split.
    + apply (Hlast Hacc). vm_compute. reflexivity.
    + intros H. apply (Hlast Hacc) in H. vm_compute in H. discriminate H.
  - destruct (problem_gauge_last_reason None created_gauge refused_between "KernelDeadlock" created_gauge_fresh)
      as (g' & Hg & _ & _ & Hlost).
    exists g'. split; [exact Hg|].
    apply (Hlost [("KernelDeadlock", "AUFSUmountHung", true)] newline_reason true [("KernelDeadlock", "DockerHung", true)]);
      [reflexivity|vm_compute; reflexivity].
Defined.
