(* ===== verification/Platform.v ===== *)
(** What differs between the operating systems the program runs on: the
    processes of [pkg/util/exec_unix.go] and [pkg/util/exec_windows.go], and the
    version of [pkg/util/helpers_windows.go] and [helpers_darwin.go].

    Build constraints choose one file per system; here the system is an argument
    where the callers do not care which one it is. *)

From S2P Require Import Prelude GoStrings GoConv.

(** The systems that are fully supported. *)
Inductive GOOS : Type := linux | windows.
#[export] Instance GOOS_eq_dec : EqDecision GOOS.
Proof. solve_decision. Defined.

(** ** Processes *)

(** A command before it starts: whether the end of its context kills it, and
    whether it leads a process group of its own. *)
Record Cmd : Type := mkCmd {
  cName : string;
  cArgs : list string;
  cContext : bool;
  cGroup : bool
}.

(* @ pkg/util/exec_unix.go:28-37 Exec *)
Definition unix_Exec (name : string) (arg : list string) : Cmd := mkCmd name arg true true.

Definition powershell_flags : list string :=
  ["-NoLogo"; "-NoProfile"; "-NonInteractive"; "-ExecutionPolicy"; "RemoteSigned"].

(* @ pkg/util/exec_windows.go:55-60 Powershell *)
Definition Powershell (args : list string) : Cmd :=
  mkCmd "powershell.exe" (powershell_flags ++ args) false false.

(** [filepath.Ext] on Windows: from the last dot of the last element. *)
Definition win_separator (c : ascii) : bool := byte_is 92 c || byte_is 47 c.

Fixpoint win_Ext (path : string) : string :=
  match path with
  | EmptyString => EmptyString
  | String c rest =>
    match win_Ext rest with
    | EmptyString => if byte_is 46 c && all_chars (fun d => negb (win_separator d)) rest then path else EmptyString
    | ext => ext
    end
  end.

(** [strings.ToLower] where it matters: no rune outside ASCII has a letter of
    the extensions below as its lower case. *)
Fixpoint lower (s : string) : string :=
  match s with
  | EmptyString => EmptyString
  | String c rest => String (byte_of (ascii_lower (byte_val c))) (lower rest)
  end.

(** The cleaning of Windows paths is an argument. *)
(* @ pkg/util/exec_windows.go:30-53 Exec *)
Definition windows_Exec (filepath_Clean : string -> string) (name : string) (arg : list string) : Cmd :=
  let name := filepath_Clean name in
  let ext := lower (win_Ext name) in
  if String.eqb ext ".cmd" || String.eqb ext ".bat" then mkCmd "cmd.exe" (["/C"; name] ++ arg) true false
  else if String.eqb ext ".ps1" then Powershell (name :: arg)
  else mkCmd name arg true false.

(** *** Killing a process and its children *)

(** How a run of another program ended. *)
Inductive run_result : Type := RunOk | RunExit (code : Z) | RunFailed (e : string).

Inductive kill_request : Type :=
| Signal (pid sig : Z)                  (* kill(2); a negative pid is a group *)
| TaskKill (args : list string).        (* the TASKKILL program *)

Definition SIGKILL : Z := 9.

(** What is asked, and what is returned; [process] is the pid of the process, if
    it was started. *)
(* @ pkg/util/exec_unix.go:39-45 Kill *)
Definition unix_Kill (process : option Z) (syscall_Kill : Z -> Z -> result unit)
    : list kill_request * result unit :=
  match process with
  | None => ([], Err "the command does not have a process handle")
  | Some pid => ([Signal (- pid) SIGKILL], syscall_Kill (- pid)%Z SIGKILL)
  end.

(* @ pkg/util/exec_windows.go:67-89 Kill *)
Definition windows_Kill (process : option Z) (taskkill : list string -> run_result)
    : list kill_request * result unit :=
  match process with
  | None => ([], Err "the command does not have a process handle")
  | Some pid =>
    let args := ["/T"; "/F"; "/PID"; format_int pid] in
    ([TaskKill args],
     match taskkill args with
     | RunOk => Ok tt
     | RunExit code => if Z.eqb code 128 then Ok tt else Err "exit status"
     | RunFailed e => Err e
     end)
  end.

(** Killing succeeds on Windows exactly when a process was started and taskkill
    either ended well or found that it is gone; and the process it is asked to
    end, with its children, is that one and no other. *)
Theorem windows_kill_spec process taskkill :
  let '(requests, r) := windows_Kill process taskkill in
  (is_ok r = true <-> exists pid, process = Some pid /\
     (taskkill ["/T"; "/F"; "/PID"; format_int pid] = RunOk \/
      taskkill ["/T"; "/F"; "/PID"; format_int pid] = RunExit 128)) /\
  (forall args pid, requests = [TaskKill args] -> process = Some pid -> in_int64 pid ->
     exists arg, args = ["/T"; "/F"; "/PID"; arg] /\ strconv_Atoi arg = Ok pid).
Proof.
  destruct process as [pid|]; cbn; [|split; [split; [done|by intros (? & ? & _)]|done]]. split.
  - destruct (taskkill _) as [|code|e] eqn:E; [| |].
    + split; [|done]. intros _. eauto.
    + destruct (Z.eqb_spec code 128) as [->|Hne]; (split; [|]); try done; eauto.
      intros (p & [= <-] & H). rewrite E in H. destruct H as [H|H]; congruence.
    + split; [done|]. intros (p & [= <-] & H). rewrite E in H. destruct H; congruence.
  - intros args p [= <-] [= <-] Hp. eexists. split; [done|]. by apply Atoi_format_int.
Qed.

(** A script is never run by itself on Windows: batch files go through cmd.exe
    and PowerShell scripts through powershell.exe, each with the path and the
    arguments in order; the latter are not bound to the context. *)
Theorem windows_exec_spec clean name arg :
  let c := windows_Exec clean name arg in
  let ext := lower (win_Ext (clean name)) in
  ((ext = ".cmd" \/ ext = ".bat") /\ cName c = "cmd.exe" /\ cArgs c = "/C" :: clean name :: arg /\ cContext c = true) \/
  (ext = ".ps1" /\ cName c = "powershell.exe" /\ cArgs c = powershell_flags ++ clean name :: arg /\ cContext c = false) \/
  (ext <> ".cmd" /\ ext <> ".bat" /\ ext <> ".ps1" /\ cName c = clean name /\ cArgs c = arg /\ cContext c = true).
Proof.
  intros c ext. unfold c, windows_Exec. fold ext.
  destruct (String.eqb_spec ext ".cmd"), (String.eqb_spec ext ".bat"), (String.eqb_spec ext ".ps1");
    cbn -[powershell_flags]; naive_solver.
Qed.

Example exec_examples :
  cName (windows_Exec id "C:\etc\check.d\ntp.PS1" ["-v"]) = "powershell.exe" /\
  cArgs (windows_Exec id "check.d\ntp" ["-v"]) = ["-v"].
Proof. split; reflexivity. Qed.

(** ** The version of the operating system *)

(** The registry key of the version, once it is opened: its product name and its
    update revision. *)
Record version_key : Type := mkVersionKey { kProductName : result string; kUBR : result Z }.

(** The numbers are those of the NT kernel. *)
(* @ pkg/util/helpers_windows.go:36-58 GetOSVersion *)
Definition windows_GetOSVersion (open_key : result version_key) (nt : Z * Z * Z) : result string :=
  match open_key with
  | Err e => Err e
  | Ok k =>
    let productName := match kProductName k with Ok s => s | Err _ => "windows" end in
    let ubr := match kUBR k with Ok u => u | Err _ => 0%Z end in
    let '(major, minor, build) := nt in
    Ok ("windows " +:+ format_int major +:+ "." +:+ format_int minor +:+ "." +:+ format_int build +:+ "." +:+
        format_int ubr +:+ " (" +:+ productName +:+ ")")
  end.

Example windows_version_example :
  windows_GetOSVersion (Ok (mkVersionKey (Ok "Windows Server 2016 Datacenter") (Ok 1697%Z))) (10, 0, 17763)%Z =
  Ok "windows 10.0.17763.1697 (Windows Server 2016 Datacenter)".
Proof. reflexivity. Qed.

(* @ pkg/util/helpers_darwin.go:36-43 GetOSVersion *)
Definition darwin_GetOSVersion (host_PlatformInformation : result (string * string)) : result string :=
  match host_PlatformInformation with
  | Err e => Err e
  | Ok (platform, version) => Ok (platform +:+ " " +:+ version)
  end.
