(* ===== verification/StartTime.v ===== *)
(** Where a log watcher starts reading ([GetStartTime] of
    [pkg/util/helpers.go] and [GetUptimeDuration] of [helpers_linux.go],
    [helpers_windows.go] and [helpers_darwin.go]). *)

From S2P Require Import Prelude GoStrings GoTime.

(** The uptime in seconds comes from the [sysinfo] system call. *)
(* @ pkg/util/helpers_linux.go:31-38 GetUptimeDuration *)
Definition GetUptimeDuration (sysinfo : result Z) : result Duration :=
  match sysinfo with
  | Err e => Err "failed to get system info"
  | Ok uptime => Ok (int64 (uptime * Second))
  end.

(** Elsewhere gopsutil tells the seconds, which become a duration as they are. *)
(* @ pkg/util/helpers_windows.go:27-34 GetUptimeDuration *)
Definition windows_GetUptimeDuration (host_Uptime : result Z) : result Duration :=
  match host_Uptime with
  | Err e => Err e
  | Ok ut => Ok (int64 ut)
  end.

(* @ pkg/util/helpers_darwin.go:24-32 GetUptimeDuration *)
Definition darwin_GetUptimeDuration (host_Uptime : result Z) : result Duration :=
  match host_Uptime with
  | Err e => Err e
  | Ok ut => Ok (int64 ut)
  end.

(* @ pkg/util/helpers.go:39-67 GetStartTime *)
Definition GetStartTime (now : Time) (uptimeDuration : Duration) (lookbackStr delayStr : string)
    : result Time :=
  let startTime := Time_Add now (int64 (- uptimeDuration)) in
  match
    (if negb (String.eqb delayStr "") then
       match ParseDuration delayStr with
       | Err _ => Err "failed to parse delay duration"
       | Ok delay => Ok (Time_Add startTime delay)
       end
     else Ok startTime)
  with
  | Err e => Err e
  | Ok startTime =>
    match
      (if negb (String.eqb lookbackStr "") then
         match ParseDuration lookbackStr with
         | Err _ => Err "failed to parse lookback duration"
         | Ok lookback => Ok (Time_Add now (int64 (- lookback)))
         end
       else Ok now)
    with
    | Err e => Err e
    | Ok lookbackStartTime =>
      Ok (if Time_Before startTime lookbackStartTime then lookbackStartTime else startTime)
    end
  end.

(** A duration that may be left out, which means zero. *)
Definition optional_duration (s : string) : result Duration :=
  if String.eqb s "" then Ok 0%Z else ParseDuration s.

(** Reading starts at the later of two times: the delay after boot, and the
    look-back before now.  An empty string counts as a zero duration; the only
    errors are those of a duration that does not parse.  (The look-back is not
    the least int64, whose negation wraps.) *)
Theorem start_time_spec now uptime lookbackStr delayStr :
  (int64_min < uptime <= int64_max)%Z ->
  (forall l, optional_duration lookbackStr = Ok l -> (int64_min < l <= int64_max)%Z) ->
  match GetStartTime now uptime lookbackStr delayStr with
  | Ok t => exists d l, optional_duration delayStr = Ok d /\ optional_duration lookbackStr = Ok l /\
      t = Z.max (now - uptime + d) (now - l)
  | Err _ => is_ok (optional_duration delayStr) = false \/ is_ok (optional_duration lookbackStr) = false
  end.
Proof.
  intros Hu Hl. unfold GetStartTime, optional_duration, Time_Add, Time_Before in *.
  rewrite int64_id by (unfold in_int64, int64_min, int64_max in *; lia).
  assert (Hopp : forall l, (int64_min < l <= int64_max)%Z -> int64 (- l) = (- l)%Z).
  { intros l H. apply int64_id. unfold in_int64, int64_min, int64_max in *. lia. }
  destruct (String.eqb delayStr "") eqn:Ed; simpl;
    [|destruct (ParseDuration delayStr) as [d|] eqn:Pd; [|by left]];
    (destruct (String.eqb lookbackStr "") eqn:El; simpl;
      [|destruct (ParseDuration lookbackStr) as [l|] eqn:Pl; [rewrite Hopp by auto|by right]]);
    eexists _, _; (split; [reflexivity|]); (split; [reflexivity|]); case_match; lia.
Qed.

(** A node that booted an hour ago, a delay of two minutes and a look-back of
    five minutes. *)
Lemma start_time_spec_witness :
  GetStartTime (10 * Hour) Hour "5m" "2m" = Ok (10 * Hour - 5 * Minute)%Z.
Proof.
  pose proof (start_time_spec (10 * Hour) Hour "5m" "2m") as H.
  destruct (GetStartTime (10 * Hour) Hour "5m" "2m") as [t|e] eqn:E.
  - destruct H as (d & l & Hd & Hl & ->).
    + vm_compute. split; [reflexivity | intros [=]].
    + intros l Hl. vm_compute in Hl. injection Hl as <-. vm_compute. split; [reflexivity | intros [=]].
    + vm_compute in Hd, Hl. injection Hd as <-. injection Hl as <-. reflexivity.
  - vm_compute in E. discriminate E.
Defined.

(** ** The unit of the uptime *)

Lemma start_time_no_delay now uptime lookbackStr l :
  (int64_min < uptime <= int64_max)%Z -> (int64_min < l <= int64_max)%Z -> optional_duration lookbackStr = Ok l ->
  GetStartTime now uptime lookbackStr "" = Ok (now - Z.min uptime l)%Z.
Proof.
  intros Hu Hl El. pose proof (start_time_spec now uptime lookbackStr "" Hu) as H.
  rewrite El in H. specialize (H ltac:(by intros ? [= <-])).
  destruct (GetStartTime now uptime lookbackStr "") as [t|e].
  - destruct H as (d & l' & Hd & [= <-] & ->). injection Hd as <-. f_equal. lia.
  - by destruct H.
Qed.

(** A node that has been up for [s] seconds, and a look-back of at least that
    many nanoseconds: on Linux reading starts at the boot of the node or the
    look-back before now, whichever is later; on Windows it starts [s]
    nanoseconds before now, so that the look-back does nothing. *)
Theorem uptime_unit now s lookbackStr l :
  (0 <= s)%Z -> (s * Second <= int64_max)%Z -> (s <= l <= int64_max)%Z ->
  optional_duration lookbackStr = Ok l ->
  exists u w, GetUptimeDuration (Ok s) = Ok u /\ windows_GetUptimeDuration (Ok s) = Ok w /\
    GetStartTime now u lookbackStr "" = Ok (now - Z.min (s * Second) l)%Z /\
    GetStartTime now w lookbackStr "" = Ok (now - s)%Z.
Proof.
  intros Hs Hm Hl El. exists (s * Second)%Z, s. unfold GetUptimeDuration, windows_GetUptimeDuration.
  assert (Hsec : (s <= s * Second)%Z) by (unfold Second; lia).
  assert (Hmin : (int64_min < 0)%Z) by done.
  rewrite !int64_id by (unfold in_int64; lia). split_and!; [done..| |].
  - apply start_time_no_delay; (done || lia).
  - rewrite (start_time_no_delay now s lookbackStr l) by (done || lia). f_equal. lia.
Qed.

(** Up for one hour, with a look-back of five minutes. *)
Lemma uptime_unit_witness :
  exists w, windows_GetUptimeDuration (Ok 3600%Z) = Ok w /\
    GetStartTime (10 * Hour) w "5m" "" = Ok (10 * Hour - 3600)%Z.
Proof.
  destruct (uptime_unit (10 * Hour) 3600 "5m" (5 * Minute)) as (u & w & _ & Ew & _ & Es);
    [lia | by vm_compute | by vm_compute | by vm_compute |]. eauto.
Defined.
