(* ===== verification/LogMonitor.v ===== *)
(** The system log monitor ([pkg/systemlogmonitor/log_monitor.go], [config.go]
    and the registry of log watchers).

    A monitor owns one slice of conditions, [mConditions], which it updates in
    place; every status it reports carries a reference to this slice, not a
    copy.  The slice lives in the store, and the problem metrics are the shared
    manager of [ProblemMetrics]. *)

From S2P Require Import Prelude GoStrings Regexp GoTime Types LogBuffer Options Metrics ProblemMetrics.

(** ** Configuration *)

(* @ pkg/systemlogmonitor/logwatchers/types/log_watcher.go:31-49 WatcherConfig *)
Record WatcherConfig : Type := mkWatcherConfig {
  wcPlugin : string;
  wcPluginConfig : gmap string string;
  wcSkipList : list string;
  wcLogPath : string;
  wcLookback : string;
  wcDelay : string
}.

(* @ pkg/systemlogmonitor/config.go:31-45 MonitorConfig *)
Record MonitorConfig : Type := mkMonitorConfig {
  mcWatcher : WatcherConfig;
  mcBufferSize : Z;
  mcSource : string;
  mcDefaultConditions : list Condition;
  mcRules : list Rule;
  mcEnableMetricsReporting : option bool
}.

(* @ pkg/systemlogmonitor/config.go:26-26 defaultBufferSize *)
Definition defaultBufferSize : Z := 10.
(* @ pkg/systemlogmonitor/config.go:27-27 defaultLookback *)
Definition defaultLookback : string := "0".
(* @ pkg/systemlogmonitor/config.go:28-28 defaultEnableMetricsReporting *)
Definition defaultEnableMetricsReporting : bool := true.

(* @ pkg/systemlogmonitor/config.go:47-58 ApplyDefaultConfiguration *)
Definition ApplyDefaultConfiguration (mc : MonitorConfig) : MonitorConfig :=
  let w := mcWatcher mc in
  {| mcWatcher :=
       mkWatcherConfig (wcPlugin w) (wcPluginConfig w) (wcSkipList w) (wcLogPath w)
         (if String.eqb (wcLookback w) "" then defaultLookback else wcLookback w) (wcDelay w);
     mcBufferSize := if (mcBufferSize mc =? 0)%Z then defaultBufferSize else mcBufferSize mc;
     mcSource := mcSource mc;
     mcDefaultConditions := mcDefaultConditions mc;
     mcRules := mcRules mc;
     mcEnableMetricsReporting :=
       match mcEnableMetricsReporting mc with
       | None => Some defaultEnableMetricsReporting
       | Some b => Some b
       end |}.

Section CompileRules.
Variable parse : string -> result Regexp.

(* @ pkg/systemlogmonitor/config.go:60-70 compileRules *)
Fixpoint compileRules (rules : list Rule) : result (list Pattern) :=
  match rules with
  | [] => Ok []
  | rule :: rules =>
    p ← CompilePattern parse (rPattern rule);
    ps ← compileRules rules;
    Ok (p :: ps)
  end.

Lemma compileRules_length rules ps : compileRules rules = Ok ps -> length ps = length rules.
Proof.
  revert ps. induction rules as [|r rules IH]; intros ps H; cbn [compileRules] in H.
  { by simplify_eq. }
  destruct (CompilePattern parse (rPattern r)); [|done]. simpl in H.
  destruct (compileRules rules) as [ps'|]; [|done]. simplify_eq/=. by rewrite (IH ps').
Qed.
End CompileRules.

(** ** The monitor *)
Section Monitor.
Context `{UC : !Unicode} {M : Type} `{MI : !Int64MetricInterface M}.

(* @ pkg/systemlogmonitor/log_monitor.go:48-58 logMonitor *)
Record logMonitor : Type := mkLogMonitor {
  mConfig : MonitorConfig;
  mPatterns : list Pattern;
  mBuffer : logBuffer;
  mConditions : slice_ref
}.

(** The state a monitor shares with the rest of the process: the slices, and
    the global problem metrics. *)
Record world : Type := mkWorld { wStore : store; wMetrics : ProblemMetricsManager M }.

(** The code reads the clock once per condition; the readings of one call are
    taken as one. *)
(* @ pkg/systemlogmonitor/log_monitor.go:246-254 initialConditions *)
Definition initialConditions (defaults : list Condition) (now : Time) : list Condition :=
  map (fun c => mkCondition (cType c) CFalse now (cReason c) (cMessage c)) defaults.

(* @ pkg/systemlogmonitor/log_monitor.go:256-266 generateMessage *)
Definition generateMessage (logs : list Log) (suffix : string) : string :=
  let logMessage := concatLogs (lMessage <$> logs) in
  if negb (String.eqb suffix "") then logMessage +:+ "; " +:+ suffix else logMessage.

(** The loop of a permanent rule: the first condition of the rule's type. *)
Fixpoint changeCondition (conds : list Condition) (rule : Rule) (timestamp : Time)
    (message : string) : list Condition * list Event * option Condition :=
  match conds with
  | [] => ([], [], None)
  | condition :: rest =>
    if String.eqb (cType condition) (rCondition rule) then
      let changed := String.eqb (cStatus condition) CFalse
                     || negb (String.eqb (cReason condition) (rReason rule)) in
      let condition' :=
        mkCondition (cType condition) CTrue
          (if changed then timestamp else cTransition condition) (rReason rule)
          (if changed then message else cMessage condition) in
      (condition' :: rest,
       if changed then [GenerateConditionChangeEvent (cType condition) CTrue (rReason rule)
                          message timestamp] else [],
       Some condition')
    else
      let '(rest', events, c) := changeCondition rest rule timestamp message in
      (condition :: rest', events, c)
  end.

(** The two metric loops of [generateStatus]; their errors are only logged. *)
Definition reportMetrics (pmm : ProblemMetricsManager M) (events : list Event)
    (changed : option Condition) : ProblemMetricsManager M :=
  let pmm := foldl (fun pmm e => (IncrementProblemCounter pmm (eReason e) 1).1) pmm events in
  match changed with
  | None => pmm
  | Some c => (SetProblemGauge pmm (cType c) (cReason c) (String.eqb (cStatus c) CTrue)).1
  end.

(* @ pkg/systemlogmonitor/log_monitor.go:167-232 generateStatus *)
Definition generateStatus (l : logMonitor) (w : world) (logs : list Log) (rule : Rule)
    : outcome (world * Status) :=
  first ← slice_get logs 0;
  let timestamp := lTimestamp first in
  let message := generateMessage logs (rPatternGeneratedMessageSuffix rule) in
  let conds := default [] (wStore w !! mConditions l) in
  let '(conds, events, changed) :=
    if String.eqb (rType rule) Temp then
      (conds, [mkEvent Warn timestamp (rReason rule) message], None)
    else changeCondition conds rule timestamp message in
  let w := mkWorld (<[mConditions l := conds]> (wStore w)) (wMetrics w) in
  metrics ← deref (mcEnableMetricsReporting (mConfig l));
  let w := if metrics : bool
           then mkWorld (wStore w) (reportMetrics (wMetrics w) events changed) else w in
  Ret (w, mkStatus (mcSource (mConfig l)) events (mConditions l)).

(** The loop of [parseLog] from rule [i] on: the statuses sent, in order. *)
Fixpoint parseRules (l : logMonitor) (w : world) (b : logBuffer) (i : nat) (rules : list Rule)
    : outcome (world * logBuffer * list Status) :=
  match rules with
  | [] => Ret (w, b, [])
  | rule :: rules =>
    p ← slice_get (mPatterns l) (Z.of_nat i);
    bm ← Match b p;
    let '(b, matched) := bm : logBuffer * list Log in
    if length matched =? 0 then parseRules l w b (S i) rules
    else
      ws ← generateStatus l w matched rule;
      let '(w, status) := ws : world * Status in
      rest ← parseRules l w b (S i) rules;
      let '(w, b, statuses) := rest : world * logBuffer * list Status in
      Ret (w, b, status :: statuses)
  end.

Definition with_buffer (l : logMonitor) (b : logBuffer) : logMonitor :=
  mkLogMonitor (mConfig l) (mPatterns l) b (mConditions l).

(* @ pkg/systemlogmonitor/log_monitor.go:151-165 parseLog *)
Definition parseLog (l : logMonitor) (w : world) (log : Log)
    : outcome (logMonitor * world * list Status) :=
  b ← Push (mBuffer l) log;
  r ← parseRules l w b 0 (mcRules (mConfig l));
  let '(w, b, statuses) := r : world * logBuffer * list Status in
  Ret (with_buffer l b, w, statuses).

(** [initializeStatus] allocates the slice of conditions: a fresh reference. *)
(* @ pkg/systemlogmonitor/log_monitor.go:234-244 initializeStatus *)
Definition initializeStatus (l : logMonitor) (w : world) (now : Time)
    : logMonitor * world * Status :=
  let ref := fresh (dom (wStore w)) in
  let conds := initialConditions (mcDefaultConditions (mConfig l)) now in
  (mkLogMonitor (mConfig l) (mPatterns l) (mBuffer l) ref,
   mkWorld (<[ref := conds]> (wStore w)) (wMetrics w),
   mkStatus (mcSource (mConfig l)) [] ref).

(** What the select of [monitorLoop] receives. *)
Inductive loop_input : Type :=
| InLog (log : Log)
| InClosed              (* the log channel was closed *)
| InStop.               (* the tomb is stopping *)

(** How the loop ended: the output channel is closed and the tomb done in
    either case; the watcher is stopped in the second only. *)
Inductive loop_end : Type := EndClosed | EndStopped | StillRunning.

Fixpoint monitorLoop_from (l : logMonitor) (w : world) (inputs : list loop_input)
    : outcome (logMonitor * world * list Status * loop_end) :=
  match inputs with
  | [] => Ret (l, w, [], StillRunning)
  | InClosed :: _ => Ret (l, w, [], EndClosed)
  | InStop :: _ => Ret (l, w, [], EndStopped)
  | InLog log :: inputs =>
    r ← parseLog l w log;
    let '(l, w, statuses) := r : logMonitor * world * list Status in
    rest ← monitorLoop_from l w inputs;
    let '(l, w, more, e) := rest : logMonitor * world * list Status * loop_end in
    Ret (l, w, statuses ++ more, e)
  end.

(* @ pkg/systemlogmonitor/log_monitor.go:128-149 monitorLoop *)
Definition monitorLoop (l : logMonitor) (w : world) (now : Time) (inputs : list loop_input)
    : outcome (logMonitor * world * list Status * loop_end) :=
  let '(l, w, status) := initializeStatus l w now in
  rest ← monitorLoop_from l w inputs;
  let '(l, w, statuses, e) := rest : logMonitor * world * list Status * loop_end in
  Ret (l, w, status :: statuses, e).

(** *** Construction *)

(* @ pkg/systemlogmonitor/log_monitor.go:94-110 initializeProblemMetricsOrDie *)
Fixpoint initializeProblemMetricsOrDie (pmm : ProblemMetricsManager M) (rules : list Rule)
    : outcome (ProblemMetricsManager M) :=
  match rules with
  | [] => Ret pmm
  | rule :: rules =>
    pmm ← (if String.eqb (rType rule) Perm then
             let '(pmm, r) := SetProblemGauge pmm (rCondition rule) (rReason rule) false in
             if is_ok r then Ret pmm else Panic "Failed to initialize problem gauge metrics"
           else Ret pmm);
    let '(pmm, r) := IncrementProblemCounter pmm (rReason rule) 0 in
    if is_ok r then initializeProblemMetricsOrDie pmm rules
    else Panic "Failed to initialize problem counter metrics"
  end.

Section New.
Context {Watcher : Type}.
Variable parse : string -> result Regexp.
Variable os_ReadFile : string -> result string.
Variable json_Unmarshal : string -> result MonitorConfig.

(* @ pkg/systemlogmonitor/logwatchers/log_watchers.go:28-31 registerLogWatcher *)
Definition registerLogWatcher (createFuncs : gmap string (WatcherConfig -> outcome Watcher))
    (name : string) (create : WatcherConfig -> outcome Watcher)
    : gmap string (WatcherConfig -> outcome Watcher) := <[name := create]> createFuncs.

(* @ pkg/systemlogmonitor/logwatchers/log_watchers.go:33-42 GetLogWatcherOrDie *)
Definition GetLogWatcherOrDie (createFuncs : gmap string (WatcherConfig -> outcome Watcher))
    (config : WatcherConfig) : outcome Watcher :=
  match createFuncs !! wcPlugin config with
  | None => Panic "No create function found for plugin"
  | Some create => create config
  end.

(* @ pkg/systemlogmonitor/log_monitor.go:60-92 NewLogMonitorOrDie *)
Definition NewLogMonitorOrDie (createFuncs : gmap string (WatcherConfig -> outcome Watcher))
    (w : world) (configPath : string) : outcome (world * logMonitor * Watcher) :=
  match os_ReadFile configPath with
  | Err _ => Panic "Failed to read configuration file"
  | Ok f =>
    match json_Unmarshal f with
    | Err _ => Panic "Failed to unmarshal configuration file"
    | Ok config =>
      let config := ApplyDefaultConfiguration config in
      match compileRules parse (mcRules config) with
      | Err _ => Panic "Failed to validate matching rules"
      | Ok patterns =>
        watcher ← GetLogWatcherOrDie createFuncs (mcWatcher config);
        buffer ← NewLogBuffer (mcBufferSize config);
        metrics ← deref (mcEnableMetricsReporting config);
        pmm ← (if metrics : bool
               then initializeProblemMetricsOrDie (wMetrics w) (mcRules config)
               else Ret (wMetrics w));
        Ret (mkWorld (wStore w) pmm, mkLogMonitor config patterns buffer 0, watcher)
      end
    end
  end.
End New.

(** ** What a match returns, on a represented buffer *)

Definition match_result (p : Pattern) (n : nat) (hist : list Log) : list Log :=
  if lastLineOnly p then
    match last hist with
    | Some l => if MatchString (pRegexp p) (lMessage l) then [l] else []
    | None => []
    end
  else match_spec (pRegexp p) n hist.

Lemma Match_result b n hist p :
  Repr b n hist -> exists b', Match b p = Ret (b', match_result p n hist) /\ Repr b' n hist.
Proof.
  intros HR. unfold match_result. destruct (lastLineOnly p) eqn:E.
  - exists b. unfold Match. rewrite E, (matchLastLine_Repr b n hist _ HR). simpl.
    by destruct (last hist).
  - by apply Match_full_Repr.
Qed.

(** ** One rule *)

(** Every condition has a status the API conversion knows. *)
Definition conds_valid (conds : list Condition) : Prop :=
  Forall (fun c => valid_status (cStatus c)) conds.

Lemma changeCondition_types conds rule ts m :
  cType <$> (changeCondition conds rule ts m).1.1 = cType <$> conds.
Proof.
  induction conds as [|c conds IH]; [done|]. simpl.
  destruct (String.eqb _ _); simpl; [done|].
  destruct (changeCondition conds rule ts m) as [[r e] ch].
  cbn [fst] in *. by rewrite !fmap_cons, IH.
Qed.

Lemma changeCondition_valid conds rule ts m :
  conds_valid conds -> conds_valid (changeCondition conds rule ts m).1.1.
Proof.
  unfold conds_valid. induction 1 as [|c conds Hc HF IH]; [constructor|]. simpl.
  destruct (String.eqb _ _); simpl; [constructor; [by left | done]|].
  destruct (changeCondition conds rule ts m) as [[r e] ch]. simpl in *. by constructor.
Qed.

(** The first condition of the rule's type, among the others. *)
Lemma changeCondition_split pre c post rule ts m :
  Forall (fun c => cType c ≠ rCondition rule) pre -> cType c = rCondition rule ->
  let changed := cStatus c = CFalse \/ cReason c ≠ rReason rule in
  exists c' events,
    changeCondition (pre ++ c :: post) rule ts m = (pre ++ c' :: post, events, Some c') /\
    cType c' = cType c /\ cStatus c' = CTrue /\ cReason c' = rReason rule /\
    (changed -> cTransition c' = ts /\ cMessage c' = m /\
       events = [GenerateConditionChangeEvent (cType c) CTrue (rReason rule) m ts]) /\
    (~ changed -> cTransition c' = cTransition c /\ cMessage c' = cMessage c /\ events = []).
Proof.
  intros HF Hc changed. induction HF as [|x pre Hx HF IH]; cbn [changeCondition app].
  - rewrite Hc, String.eqb_refl.
    destruct (String.eqb_spec (cStatus c) CFalse) as [E1|E1];
      destruct (String.eqb_spec (cReason c) (rReason rule)) as [E2|E2]; simpl;
      eexists _, _; (split; [reflexivity|]); simpl; unfold changed;
      split_and!; try done; intros Hch; intuition congruence.
  - destruct IH as (c' & ev & -> & IH). apply String.eqb_neq in Hx. rewrite Hx.
    exists c', ev. split; [done | exact IH].
Qed.

Lemma changeCondition_none conds rule ts m :
  Forall (fun c => cType c ≠ rCondition rule) conds ->
  changeCondition conds rule ts m = (conds, [], None).
Proof.
  induction 1 as [|x pre Hx HF IH]; [done|]. cbn [changeCondition].
  apply String.eqb_neq in Hx. by rewrite Hx, IH.
Qed.

(** The step of the specification: what a matched rule does to the conditions,
    and the events it reports. *)
Definition rule_effect (conds : list Condition) (rule : Rule) (logs : list Log)
    : list Condition * list Event * option Condition :=
  let ts := default Time_zero (lTimestamp <$> head logs) in
  let m := generateMessage logs (rPatternGeneratedMessageSuffix rule) in
  if String.eqb (rType rule) Temp then (conds, [mkEvent Warn ts (rReason rule) m], None)
  else changeCondition conds rule ts m.

Definition metrics_after (l : logMonitor) (pmm : ProblemMetricsManager M)
    (events : list Event) (changed : option Condition) : ProblemMetricsManager M :=
  match mcEnableMetricsReporting (mConfig l) with
  | Some true => reportMetrics pmm events changed
  | _ => pmm
  end.

Lemma generateStatus_effect l w logs rule conds :
  logs ≠ [] -> is_Some (mcEnableMetricsReporting (mConfig l)) ->
  wStore w !! mConditions l = Some conds ->
  let '(conds', events, changed) := rule_effect conds rule logs in
  generateStatus l w logs rule =
  Ret (mkWorld (<[mConditions l := conds']> (wStore w))
         (metrics_after l (wMetrics w) events changed),
       mkStatus (mcSource (mConfig l)) events (mConditions l)).
Proof.
  intros Hl [b Hb] Hc. destruct logs as [|first logs]; [done|].
  unfold rule_effect, generateStatus, metrics_after. simpl. rewrite Hc, Hb. simpl.
  destruct (String.eqb (rType rule) Temp).
  - by destruct b.
  - destruct (changeCondition _ _ _ _) as [[c' ev] ch]. by destruct b.
Qed.

(** A permanent rule that matched turns its condition True with the rule's
    reason and leaves every other condition alone.  It reports an event, and
    moves the transition time to the first matched line and the message to the
    matched lines, if and only if the condition was False or had another
    reason.  The status carries the monitor's own slice. *)
Theorem permanent_rule_reports_changes l w logs first rule pre c post :
  head logs = Some first -> rType rule ≠ Temp ->
  is_Some (mcEnableMetricsReporting (mConfig l)) ->
  wStore w !! mConditions l = Some (pre ++ c :: post) ->
  Forall (fun c => cType c ≠ rCondition rule) pre -> cType c = rCondition rule ->
  let changed := cStatus c = CFalse \/ cReason c ≠ rReason rule in
  let message := generateMessage logs (rPatternGeneratedMessageSuffix rule) in
  exists w' events c',
    generateStatus l w logs rule =
      Ret (w', mkStatus (mcSource (mConfig l)) events (mConditions l)) /\
    wStore w' = <[mConditions l := pre ++ c' :: post]> (wStore w) /\
    cType c' = cType c /\ cStatus c' = CTrue /\ cReason c' = rReason rule /\
    (changed -> cTransition c' = lTimestamp first /\ cMessage c' = message /\
       events = [GenerateConditionChangeEvent (cType c) CTrue (rReason rule) message
                   (lTimestamp first)]) /\
    (~ changed -> cTransition c' = cTransition c /\ cMessage c' = cMessage c /\ events = []).
Proof.
  intros Hh Ht Hm Hs HF Hc changed message.
  assert (Hl : logs ≠ []) by (by intros ->).
  pose proof (generateStatus_effect l w logs rule _ Hl Hm Hs) as Hg.
  unfold rule_effect in Hg. apply String.eqb_neq in Ht. rewrite Ht, Hh in Hg. simpl in Hg.
  destruct (changeCondition_split pre c post rule (lTimestamp first) message HF Hc)
    as (c' & ev & Hch & H1).
  fold message in Hg. rewrite Hch in Hg. eexists _, ev, c'.
  split; [exact Hg|]. split; [done | exact H1].
Qed.

(** Reporting the same permanent problem again changes nothing: whatever
    lines match the second time, the second status has no event and the
    conditions are exactly as the first report left them. *)
Theorem permanent_rule_idempotent l w logs1 logs2 rule conds w1 s1 w2 s2 :
  rType rule ≠ Temp -> logs2 ≠ [] ->
  is_Some (mcEnableMetricsReporting (mConfig l)) ->
  wStore w !! mConditions l = Some conds ->
  generateStatus l w logs1 rule = Ret (w1, s1) ->
  generateStatus l w1 logs2 rule = Ret (w2, s2) ->
  sEvents s2 = [] /\ wStore w2 = wStore w1.
Proof.
  intros Ht Hl2 Hm Hs H1 H2. apply String.eqb_neq in Ht.
  assert (Hl1 : logs1 ≠ []) by (by intros ->).
  pose proof (generateStatus_effect l w logs1 rule conds Hl1 Hm Hs) as G1.
  unfold rule_effect in G1. rewrite Ht in G1.
  destruct (changeCondition conds rule _ _) as [[conds1 ev1] ch1] eqn:E1.
  rewrite H1 in G1. injection G1 as -> _. simpl in H2.
  assert (Hs1 : wStore (mkWorld (<[mConditions l := conds1]> (wStore w))
                  (metrics_after l (wMetrics w) ev1 ch1)) !! mConditions l = Some conds1)
    by apply lookup_insert_eq.
  pose proof (generateStatus_effect l _ logs2 rule conds1 Hl2 Hm Hs1) as G2.
  unfold rule_effect in G2. rewrite Ht in G2.
  assert (E2 : changeCondition conds1 rule
                 (default Time_zero (lTimestamp <$> head logs2))
                 (generateMessage logs2 (rPatternGeneratedMessageSuffix rule)) =
               (conds1, [], ch1)).
  { clear -E1. revert conds1 ev1 ch1 E1.
    induction conds as [|c conds IH]; intros conds1 ev1 ch1 E1; cbn [changeCondition] in E1.
    { by simplify_eq. }
    destruct (String.eqb (cType c) (rCondition rule)) eqn:Ec.
    - injection E1 as <- _ <-. cbn [changeCondition cType cReason cStatus]. rewrite Ec. simpl.
      by rewrite String.eqb_refl.
    - destruct (changeCondition conds rule _ _) as [[r e] ch] eqn:Er.
      injection E1 as <- _ <-. cbn [changeCondition]. rewrite Ec.
      by rewrite (IH _ _ _ eq_refl). }
  rewrite E2 in G2. rewrite H2 in G2. injection G2 as -> ->. simpl.
  split; [done|]. by rewrite insert_insert_eq.
Qed.

(** ** One line *)

Record MonInv (l : logMonitor) (w : world) (n : nat) (hist : list Log) (conds : list Condition)
    : Prop := {
  mi_repr : Repr (mBuffer l) n hist;
  mi_patterns : length (mPatterns l) = length (mcRules (mConfig l));
  mi_metrics : is_Some (mcEnableMetricsReporting (mConfig l));
  mi_store : wStore w !! mConditions l = Some conds
}.

(** The specification of [parseLog] on the window: the rules in order, each
    with its pattern, against the conditions. *)
Fixpoint spec_rules (source : string) (ref : slice_ref) (n : nat) (hist : list Log)
    (rps : list (Rule * Pattern)) (conds : list Condition) : list Condition * list Status :=
  match rps with
  | [] => (conds, [])
  | (rule, p) :: rps =>
    match match_result p n hist with
    | [] => spec_rules source ref n hist rps conds
    | logs =>
      let '(conds, events, _) := rule_effect conds rule logs in
      let '(conds, statuses) := spec_rules source ref n hist rps conds in
      (conds, mkStatus source events ref :: statuses)
    end
  end.

Lemma parseRules_spec l n hist rules : forall i b w conds,
  Repr b n hist -> i + length rules = length (mPatterns l) ->
  is_Some (mcEnableMetricsReporting (mConfig l)) ->
  wStore w !! mConditions l = Some conds ->
  let '(conds', statuses) := spec_rules (mcSource (mConfig l)) (mConditions l) n hist
                               (zip rules (drop i (mPatterns l))) conds in
  exists w' b', parseRules l w b i rules = Ret (w', b', statuses) /\ Repr b' n hist /\
    wStore w' = <[mConditions l := conds']> (wStore w).
Proof.
  induction rules as [|rule rules IH]; intros i b w conds HR Hlen Hm Hs; simpl.
  { exists w, b. split_and!; [done | done | by rewrite insert_id]. }
  destruct (lookup_lt_is_Some_2 (mPatterns l) i ltac:(simpl in Hlen; lia)) as [p Hp].
  rewrite (drop_S _ _ _ Hp). cbn [zip zip_with spec_rules].
  rewrite (slice_get_lookup _ _ _ Hp). simpl.
  destruct (Match_result b n hist p HR) as (b1 & HM & HR1). rewrite HM. simpl.
  destruct (match_result p n hist) as [|log logs] eqn:El; cbn [length Nat.eqb].
  { apply (IH (S i) b1 w conds HR1); [simpl in *; lia | done | done]. }
  pose proof (generateStatus_effect l w (log :: logs) rule conds ltac:(done) Hm Hs) as Hg.
  destruct (rule_effect conds rule (log :: logs)) as [[conds1 ev] ch]. rewrite Hg. simpl.
  specialize (IH (S i) b1 (mkWorld (<[mConditions l := conds1]> (wStore w))
    (metrics_after l (wMetrics w) ev ch)) conds1 HR1 ltac:(simpl in *; lia) Hm
    ltac:(apply lookup_insert_eq)).
  destruct (spec_rules _ _ n hist (zip rules (drop (S i) (mPatterns l))) conds1)
    as [conds2 ss].
  destruct IH as (w' & b' & -> & HR' & Hw'). exists w', b'. simpl.
  split_and!; [done | done |]. by rewrite Hw'; simpl; rewrite insert_insert_eq.
Qed.

Lemma rule_effect_keeps conds rule logs :
  conds_valid conds ->
  conds_valid (rule_effect conds rule logs).1.1 /\
  cType <$> (rule_effect conds rule logs).1.1 = cType <$> conds.
Proof.
  intros Hv. unfold rule_effect. destruct (String.eqb _ _); [done|].
  split; [by apply changeCondition_valid | apply changeCondition_types].
Qed.

Lemma spec_rules_keeps source ref n hist rps conds :
  conds_valid conds ->
  let '(conds', statuses) := spec_rules source ref n hist rps conds in
  conds_valid conds' /\ cType <$> conds' = cType <$> conds /\
  Forall (fun s => sSource s = source /\ sConditions s = ref) statuses.
Proof.
  revert conds. induction rps as [|[rule p] rps IH]; intros conds Hv; simpl; [done|].
  destruct (match_result p n hist) as [|lg logs]; [by apply IH|].
  destruct (rule_effect_keeps conds rule (lg :: logs) Hv) as [Hv1 Ht1].
  destruct (rule_effect conds rule (lg :: logs)) as [[conds1 ev] ch]. cbn [fst] in *.
  specialize (IH conds1 Hv1). destruct (spec_rules source ref n hist rps conds1) as [c2 ss].
  destruct IH as (H1 & H2 & H3). split_and!; [done | by rewrite H2 |]. by constructor.
Qed.

(** C5.  [parseLog] refines its specification: under the monitor's invariant it
    returns (no index is out of range, no pointer nil), it sends one status per
    rule that matches the window with the new line, in the order of the rules,
    each computed on the conditions the previous ones left, and it keeps the
    invariant. *)
Theorem parseLog_refines l w n hist conds log :
  MonInv l w n hist conds ->
  (Z.of_nat (length hist) + 1 + Z.of_nat n <= int64_max)%Z ->
  let '(conds', statuses) :=
    spec_rules (mcSource (mConfig l)) (mConditions l) n (hist ++ [log])
      (zip (mcRules (mConfig l)) (mPatterns l)) conds in
  exists b' w', parseLog l w log = Ret (with_buffer l b', w', statuses) /\
    MonInv (with_buffer l b') w' n (hist ++ [log]) conds' /\
    wStore w' = <[mConditions l := conds']> (wStore w).
Proof.
  intros [HR Hp Hm Hs] Hb. unfold parseLog.
  destruct (Push_Repr (mBuffer l) n hist log HR Hb) as (b1 & -> & HR1). simpl.
  pose proof (parseRules_spec l n (hist ++ [log]) (mcRules (mConfig l)) 0 b1 w conds HR1
    ltac:(lia) Hm Hs) as H. rewrite drop_0 in H.
  destruct (spec_rules _ _ _ _ _ _) as [conds' statuses].
  destruct H as (w' & b' & -> & HR' & Hw'). simpl. exists b', w'.
  split_and!; [done | | done]. constructor; simpl; try done.
  rewrite Hw'. apply lookup_insert_eq.
Qed.

Lemma parseLog_keeps l w n hist conds log :
  MonInv l w n hist conds -> conds_valid conds ->
  (Z.of_nat (length hist) + 1 + Z.of_nat n <= int64_max)%Z ->
  exists b' w' conds' statuses, parseLog l w log = Ret (with_buffer l b', w', statuses) /\
    MonInv (with_buffer l b') w' n (hist ++ [log]) conds' /\ conds_valid conds' /\
    cType <$> conds' = cType <$> conds /\
    Forall (fun s => sSource s = mcSource (mConfig l) /\ sConditions s = mConditions l) statuses.
Proof.
  intros HI Hv Hb.
  pose proof (spec_rules_keeps (mcSource (mConfig l)) (mConditions l) n (hist ++ [log])
    (zip (mcRules (mConfig l)) (mPatterns l)) conds Hv) as Hk.
  destruct HI as [HR Hp Hm Hs]. unfold parseLog.
  destruct (Push_Repr (mBuffer l) n hist log HR Hb) as (b1 & -> & HR1). simpl.
  pose proof (parseRules_spec l n (hist ++ [log]) (mcRules (mConfig l)) 0 b1 w conds HR1
    ltac:(lia) Hm Hs) as H. rewrite drop_0 in H.
  destruct (spec_rules _ _ _ _ _ _) as [conds' statuses].
  destruct H as (w' & b' & -> & HR' & Hw'), Hk as (K1 & K2 & K3).
  exists b', w', conds', statuses. simpl. split_and!; try done.
  constructor; simpl; try done. rewrite Hw'. apply lookup_insert_eq.
Qed.

(** ** The whole loop *)

Lemma monitorLoop_from_total inputs : forall l w n hist conds,
  MonInv l w n hist conds -> conds_valid conds ->
  (Z.of_nat (length hist) + Z.of_nat (length inputs) + Z.of_nat n <= int64_max)%Z ->
  exists b' w' conds' statuses e,
    monitorLoop_from l w inputs = Ret (with_buffer l b', w', statuses, e) /\
    wStore w' !! mConditions l = Some conds' /\ conds_valid conds' /\
    cType <$> conds' = cType <$> conds /\
    Forall (fun s => sSource s = mcSource (mConfig l) /\ sConditions s = mConditions l) statuses.
Proof.
  induction inputs as [|inp inputs IH]; intros l w n hist conds HI Hv Hb; simpl.
  { exists (mBuffer l), w, conds, [], StillRunning. destruct HI. by destruct l. }
  destruct inp as [log| |].
  - destruct (parseLog_keeps l w n hist conds log HI Hv ltac:(simpl in Hb; lia))
      as (b1 & w1 & conds1 & ss1 & -> & HI1 & Hv1 & Ht1 & HF1). simpl.
    destruct (IH _ _ _ _ _ HI1 Hv1) as (b2 & w2 & conds2 & ss2 & e & -> & H1 & H2 & H3 & H4).
    { rewrite length_app. simpl in *. lia. }
    exists b2, w2, conds2, (ss1 ++ ss2), e. simpl in *.
    split_and!; [done | done | done | by rewrite H3 | by apply Forall_app].
  - exists (mBuffer l), w, conds, [], EndClosed. destruct HI. by destruct l.
  - exists (mBuffer l), w, conds, [], EndStopped. destruct HI. by destruct l.
Qed.

Lemma initialConditions_valid defaults now : conds_valid (initialConditions defaults now).
Proof. unfold conds_valid, initialConditions. apply Forall_map, Forall_true. right; by left. Qed.

Lemma initialConditions_types defaults now :
  cType <$> initialConditions defaults now = cType <$> defaults.
Proof. unfold initialConditions. induction defaults; [done|]. simpl. by f_equal. Qed.

Lemma NewLogBuffer_Ret n b :
  NewLogBuffer n = Ret b -> n ≠ 0%Z -> (n <= int64_max)%Z -> Repr b (Z.to_nat n) [].
Proof.
  intros H Hz Hmax. destruct (Z.ltb_spec n 0) as [Hneg|Hpos].
  - unfold NewLogBuffer, make_slice in H. by rewrite (proj2 (Z.ltb_lt _ _)) in H.
  - destruct (NewLogBuffer_Repr (Z.to_nat n)) as (b' & Hb' & HR); [lia | lia |].
    rewrite Z2Nat.id in Hb' by lia. congruence.
Qed.

Section Total.
Context {Watcher : Type}.
Variable parse : string -> result Regexp.
Variable os_ReadFile : string -> result string.
Variable json_Unmarshal : string -> result MonitorConfig.

(** A monitor that was created satisfies what the loop needs. *)
Lemma NewLogMonitorOrDie_Ret (createFuncs : gmap string (WatcherConfig -> outcome Watcher))
    w path w1 l watcher :
  NewLogMonitorOrDie parse os_ReadFile json_Unmarshal createFuncs w path = Ret (w1, l, watcher) ->
  (mcBufferSize (mConfig l) <= int64_max)%Z ->
  Repr (mBuffer l) (Z.to_nat (mcBufferSize (mConfig l))) [] /\
  length (mPatterns l) = length (mcRules (mConfig l)) /\
  is_Some (mcEnableMetricsReporting (mConfig l)) /\ wStore w1 = wStore w.
Proof.
  unfold NewLogMonitorOrDie. intros H Hmax.
  destruct (os_ReadFile path) as [f|]; [|done].
  destruct (json_Unmarshal f) as [cfg|]; [|done].
  assert (Hz : mcBufferSize (ApplyDefaultConfiguration cfg) ≠ 0%Z).
  { unfold ApplyDefaultConfiguration. simpl. by destruct (Z.eqb_spec (mcBufferSize cfg) 0). }
  assert (Hm : is_Some (mcEnableMetricsReporting (ApplyDefaultConfiguration cfg))).
  { unfold ApplyDefaultConfiguration. simpl.
    by destruct (mcEnableMetricsReporting cfg); eexists. }
  generalize dependent (ApplyDefaultConfiguration cfg). intros cfg' H Hz [mb Hmb].
  destruct (compileRules parse _) as [ps|] eqn:Ec; [|done].
  destruct (GetLogWatcherOrDie _ _) as [wt|]; [|done]. simpl in H.
  destruct (NewLogBuffer _) as [b|] eqn:Eb; [|done]. simpl in H.
  rewrite Hmb in H. simpl in H.
  match type of H with (mbind _ ?m = _) => destruct m as [pmm|]; [|done] end. simpl in H.
  injection H as <- <- _. simpl in *.
  split_and!; [by apply NewLogBuffer_Ret | by eapply compileRules_length | by eexists | done].
Qed.

(** C27.  A log monitor that was created never takes the process down, and all
    its statuses share one slice.  For every configuration that
    [NewLogMonitorOrDie] accepts and every sequence of log lines, channel close
    and stop, [monitorLoop] returns.  It owns a slice of conditions that nobody
    had before; the conditions in it keep the configured types and a status the
    API knows.  Every status that was ever sent refers to this slice, so a
    reader sees in an earlier status the conditions of the latest one. *)
Theorem log_monitor_runs (createFuncs : gmap string (WatcherConfig -> outcome Watcher))
    w path w1 l watcher now inputs :
  NewLogMonitorOrDie parse os_ReadFile json_Unmarshal createFuncs w path = Ret (w1, l, watcher) ->
  (Z.of_nat (length inputs) + mcBufferSize (mConfig l) <= int64_max)%Z ->
  exists l' w' statuses e ref conds,
    monitorLoop l w1 now inputs = Ret (l', w', statuses, e) /\
    wStore w !! ref = None /\ wStore w' !! ref = Some conds /\
    conds_valid conds /\ cType <$> conds = cType <$> mcDefaultConditions (mConfig l) /\
    Forall (fun s => sSource s = mcSource (mConfig l) /\
                     read_conditions (wStore w') s = conds) statuses.
Proof.
  intros Hnew Hb.
  destruct (NewLogMonitorOrDie_Ret _ _ _ _ _ _ Hnew) as (HR & Hp & Hm & Hst); [lia|].
  pose proof (repr_pos _ _ _ HR) as Hpos.
  unfold monitorLoop, initializeStatus. rewrite Hst.
  set (ref := fresh (dom (wStore w))).
  set (c0 := initialConditions (mcDefaultConditions (mConfig l)) now).
  set (l0 := mkLogMonitor (mConfig l) (mPatterns l) (mBuffer l) ref).
  set (w0 := mkWorld (<[ref := c0]> (wStore w)) (wMetrics w1)).
  assert (HI : MonInv l0 w0 (Z.to_nat (mcBufferSize (mConfig l))) [] c0).
  { constructor; simpl; try done. apply lookup_insert_eq. }
  destruct (monitorLoop_from_total inputs l0 w0 _ [] c0 HI (initialConditions_valid _ _))
    as (b' & w' & conds' & ss & e & -> & H1 & H2 & H3 & H4).
  { simpl. lia. }
  simpl. exists (with_buffer l0 b'), w', (mkStatus (mcSource (mConfig l)) [] ref :: ss), e, ref, conds'.
  split_and!; try done.
  - apply not_elem_of_dom, is_fresh.
  - rewrite H3. apply initialConditions_types.
  - simpl in H1. constructor; [split; [done|]; unfold read_conditions; simpl; by rewrite H1|].
    eapply Forall_impl; [exact H4|]. intros s [Hs1 Hs2]. split; [done|].
    unfold read_conditions. rewrite Hs2. simpl. by rewrite H1.
Qed.
End Total.
End Monitor.
Arguments logMonitor : clear implicits.
Arguments world : clear implicits.

(** ** Witnesses *)
#[local] Existing Instance AsciiUnicode.

Definition kernel_condition : Condition :=
  mkCondition "KernelDeadlock" CFalse 0 "KernelHasNoDeadlock" "kernel has no deadlock".
Definition docker_hung : Rule := mkRule Perm "KernelDeadlock" "DockerHung" "oom" "".
Definition oom_rule : Rule := mkRule Temp "" "OOMKilling" "oom" "see docs".
Definition kernel_config : MonitorConfig :=
  mkMonitorConfig (mkWatcherConfig "kmsg" ∅ [] "" "" "") 0 "kernel-monitor" [kernel_condition]
    [docker_hung; oom_rule] None.
Definition kernel_monitor : logMonitor :=
  mkLogMonitor (ApplyDefaultConfiguration kernel_config)
    [mkPattern oom_anchored true; mkPattern oom_anchored true] oom_buffer 7.
Definition kernel_world : world FakeInt64Metric :=
  mkWorld {[ 7 := [kernel_condition] ]} NewProblemMetricsManagerStub.

Lemma permanent_rule_reports_changes_witness :
  exists w' events c',
    generateStatus kernel_monitor kernel_world [mkLog 5 "docker hung"] docker_hung =
      Ret (w', mkStatus "kernel-monitor" events 7) /\
    cStatus c' = CTrue /\ cTransition c' = 5%Z /\ length events = 1.
Proof.
  destruct (permanent_rule_reports_changes kernel_monitor kernel_world [mkLog 5 "docker hung"]
    (mkLog 5 "docker hung") docker_hung [] kernel_condition [])
    as (w' & ev & c' & H1 & _ & _ & H2 & _ & H3 & _); 
    [reflexivity | discriminate | by eexists | vm_compute; reflexivity | constructor | reflexivity |].
  destruct (H3 (or_introl eq_refl)) as (H4 & _ & H5).
  exists w', ev, c'. split_and!; [done | done | done | by rewrite H5].
Defined.

Lemma permanent_rule_idempotent_witness :
  exists w1 s1 w2 s2,
    generateStatus kernel_monitor kernel_world [mkLog 5 "docker hung"] docker_hung = Ret (w1, s1) /\
    generateStatus kernel_monitor w1 [mkLog 6 "again"] docker_hung = Ret (w2, s2) /\
    sEvents s2 = [].
Proof.
  do 4 eexists. split; [vm_compute; reflexivity|]. split; [vm_compute; reflexivity|].
  eapply (proj1 (permanent_rule_idempotent kernel_monitor kernel_world
    [mkLog 5 "docker hung"] [mkLog 6 "again"] docker_hung [kernel_condition] _ _ _ _
    ltac:(discriminate) ltac:(discriminate) ltac:(by eexists) ltac:(vm_compute; reflexivity)
    ltac:(vm_compute; reflexivity) ltac:(vm_compute; reflexivity))).
Defined.

Lemma parseLog_refines_witness :
  exists b' w' statuses,
    parseLog kernel_monitor kernel_world (mkLog 9 "out: oom") =
      Ret (with_buffer kernel_monitor b', w', statuses) /\ length statuses = 2.
Proof.
  assert (HI : MonInv kernel_monitor kernel_world 2 oom_hist [kernel_condition]).
  { constructor; [exact oom_buffer_Repr | reflexivity | by eexists | vm_compute; reflexivity]. }
  pose proof (parseLog_refines kernel_monitor kernel_world 2 oom_hist [kernel_condition]
    (mkLog 9 "out: oom") HI ltac:(vm_compute; discriminate)) as H.
  destruct (spec_rules _ _ _ _ _ _) as [conds' statuses] eqn:E.
  destruct H as (b' & w' & H & _). exists b', w', statuses. split; [exact H|].
  vm_compute in E. injection E as _ <-. reflexivity.
Defined.

Definition kernel_create : gmap string (WatcherConfig -> outcome nat) := {[ "kmsg" := fun _ => Ret 0 ]}.

Lemma log_monitor_runs_witness :
  exists w1 l watcher l' w' statuses e,
    NewLogMonitorOrDie oom_parse (fun p => Ok p) (fun _ => Ok kernel_config) kernel_create
      (mkWorld ∅ NewProblemMetricsManagerStub) "kernel.json" = Ret (w1, l, watcher) /\
    monitorLoop l w1 1 [InLog (mkLog 2 "oom"); InLog (mkLog 3 "x"); InStop]
      = Ret (l', w', statuses, e) /\ length statuses = 3 /\
    Forall (fun s => length (read_conditions (wStore w') s) = 1) statuses.
Proof.
  destruct (NewLogMonitorOrDie oom_parse (fun p => Ok p) (fun _ => Ok kernel_config) kernel_create
      (mkWorld ∅ NewProblemMetricsManagerStub) "kernel.json") as [[[w1 l] watcher]|] eqn:E;
    [|vm_compute in E; discriminate].
  assert (Hb : (3 + mcBufferSize (mConfig l) <= int64_max)%Z).
  { vm_compute in E. injection E as _ <- _. vm_compute. discriminate. }
  assert (Hd : length (mcDefaultConditions (mConfig l)) = 1).
  { vm_compute in E. injection E as _ <- _. reflexivity. }
  destruct (log_monitor_runs oom_parse (fun p => Ok p) (fun _ => Ok kernel_config) kernel_create
    (mkWorld ∅ NewProblemMetricsManagerStub) "kernel.json" w1 l watcher 1
    [InLog (mkLog 2 "oom"); InLog (mkLog 3 "x"); InStop] E Hb)
    as (l' & w' & ss & e & ref & conds & Hrun & _ & _ & _ & Hty & HF).
  exists w1, l, watcher, l', w', ss, e. split; [reflexivity|]. split; [exact Hrun|].
  split.
  - vm_compute in E. injection E as <- <- <-. vm_compute in Hrun. injection Hrun as _ _ <- _.
    reflexivity.
  - eapply Forall_impl; [exact HF|]. intros s [_ ->].
    apply (f_equal length) in Hty. by rewrite !length_fmap, Hd in Hty.
Defined.
