(* ===== verification/MonitorInterface.v ===== *)
(** What a problem daemon that reports statuses promises to the detector
    ([types.Monitor] of [pkg/types/types.go]): a class of operations, and a class
    of laws about them.

    A monitor is a goroutine that receives inputs (logs, results of plugins),
    owns one slice of conditions, and sends statuses which refer to that slice.
    The log monitor and the custom plugin monitor are instances; what is proved
    of the pipeline behind them uses the laws only. *)

From S2P Require Import Prelude GoTime Types Metrics ProblemMetrics LogMonitor.

(** Where the goroutine of a monitor is: before its first statement, in its
    select, at work on an input, or in the send of a status. *)
Inductive mstate : Type :=
| SInit
| SSelect
| SBusy
| SSending (s : Status).

(** What it does next: its first statements, the receipt of an input, or one turn
    of the work on it; with the time that [time.Now] returns. *)
Inductive mop (X : Type) : Type :=
| OStart (now : Time)
| OInput (x : X) (now : Time)
| OTurn.
Arguments OStart {X} now.
Arguments OInput {X} x now.
Arguments OTurn {X}.

Definition is_input {X} (op : mop X) : bool := match op with OInput _ _ => true | _ => false end.

(** The operations.  [mon_sent], [mon_inputs] and [mon_begin] record the statuses
    generated, the inputs received (with the time, where it matters: [mon_item],
    and back: [mon_source]) and the time of the start.  [mon_left] bounds the turns
    and [mon_more] the statuses that are still to come without another input.  The
    last three depend on the configuration only: the types of the conditions, the
    number of inputs that the monitor can count, and what the inputs should lead
    to. *)
(* @ pkg/types/types.go:104-112 Monitor *)
Class MonitorOps (M D X I : Type) : Type := {
  mon_exec : D -> world M -> mop X -> option (D * world M);
  mon_send : D -> option (Status * D);
  mon_state : D -> mstate;
  mon_ref : D -> slice_ref;
  mon_sent : D -> list Status;
  mon_item : X -> Time -> I;
  mon_source : I -> X;
  mon_inputs : D -> list I;
  mon_begin : D -> Time;
  mon_left : D -> nat;
  mon_more : D -> nat;
  mon_types : D -> list string;
  mon_bound : D -> nat -> Prop;
  mon_spec : D -> slice_ref -> Time -> list I -> list Condition * list Status
}.

Section Laws.
Context {M D X I : Type} `{MO : !MonitorOps M D X I}.

Definition op_inputs (op : mop X) : list I := match op with OInput x now => [mon_item x now] | _ => [] end.

(** The status that a monitor is about to send. *)
Definition in_hand (d : D) : list Status := match mon_state d with SSending s => [s] | _ => [] end.

(** The configuration stays. *)
Record mon_same (d d' : D) : Prop := mkMonSame {
  same_types : mon_types d' = mon_types d;
  same_bound : forall n, mon_bound d' n <-> mon_bound d n;
  same_spec : forall r t l, mon_spec d' r t l = mon_spec d r t l
}.

(** A step of one monitor, as the others see it: it writes to its own slice only. *)
Record mon_step (inv : world M -> D -> Prop) (w : world M) (d : D) (w' : world M) (d' : D)
    (out : list Status) (ins : list I) : Prop := mkMonStep {
  ms_inv : inv w' d';
  ms_same : mon_same d d';
  ms_started : mon_state d' <> SInit;
  ms_store : forall r, r <> mon_ref d' -> wStore w' !! r = wStore w !! r;
  ms_ref : (mon_state d <> SInit /\ mon_ref d' = mon_ref d) \/ (mon_state d = SInit /\ wStore w !! mon_ref d' = None);
  ms_sent : mon_sent d' = mon_sent d ++ out;
  ms_inputs : mon_inputs d' = mon_inputs d ++ ins
}.
End Laws.

Class Monitor (M D X I : Type) {MO : MonitorOps M D X I} : Type := {
  source_item : forall x now, mon_source (mon_item x now) = x;
  mon_fresh : D -> Prop;                       (* as its constructor makes it *)
  mon_inv : world M -> D -> Prop;
  fresh_law : forall w d, mon_fresh d -> mon_inv w d /\ mon_state d = SInit;
  init_law : forall w d, mon_inv w d -> mon_state d = SInit -> mon_sent d = [] /\ mon_inputs d = [];
  (* a step needs the state it starts from ... *)
  exec_guard : forall d w op d' w', mon_exec d w op = Some (d', w') ->
    match op with OStart _ => mon_state d = SInit | OInput _ _ => mon_state d = SSelect | OTurn => mon_state d = SBusy end;
  send_guard : forall d s d', mon_send d = Some (s, d') -> mon_state d = SSending s;
  (* ... and can be taken there *)
  start_enabled : forall w d now, mon_state d = SInit -> is_Some (mon_exec d w (OStart now));
  turn_enabled : forall w d, mon_inv w d -> mon_state d = SBusy -> is_Some (mon_exec d w OTurn);
  send_enabled : forall d s, mon_state d = SSending s -> exists d', mon_send d = Some (s, d');
  (* the slice is written only when a status is to be sent, or at the start *)
  exec_law : forall w d op d' w', mon_inv w d -> mon_exec d w op = Some (d', w') ->
    mon_bound d (length (mon_inputs d ++ op_inputs op)) ->
    exists o, mon_step mon_inv w d w' d' (option_list o) (op_inputs op) /\ in_hand d' = option_list o /\
      (o = None -> mon_state d = SInit \/ wStore w' = wStore w) /\
      Forall (fun s => length (sEvents s) <= 1) (option_list o) /\
      (is_input op = false -> mon_left d' < mon_left d /\ mon_more d' + length (option_list o) <= mon_more d);
  begin_law : forall d w op d' w', mon_exec d w op = Some (d', w') ->
    match op with OStart now => mon_begin d' = now | _ => mon_begin d' = mon_begin d end;
  send_law : forall w d s d', mon_inv w d -> mon_send d = Some (s, d') ->
    mon_step mon_inv w d w d' [] [] /\ mon_ref d' = mon_ref d /\ in_hand d' = [] /\ mon_begin d' = mon_begin d /\
    mon_left d' <= mon_left d /\ mon_more d' <= mon_more d;
  (* what the other goroutines may do *)
  frame_law : forall w w' d, mon_inv w d ->
    mon_state d = SInit \/ wStore w' !! mon_ref d = wStore w !! mon_ref d -> mon_inv w' d;
  conds_law : forall w d, mon_inv w d -> mon_state d <> SInit ->
    exists conds, wStore w !! mon_ref d = Some conds /\ conds_valid conds /\ cType <$> conds = mon_types d /\
      Forall (fun s => sConditions s = mon_ref d) (mon_sent d);
  (* in its select, all inputs are dealt with *)
  select_law : forall w d conds, mon_inv w d -> mon_state d = SSelect -> wStore w !! mon_ref d = Some conds ->
    mon_spec d (mon_ref d) (mon_begin d) (mon_inputs d) = (conds, mon_sent d);
  bound_mono : forall d n n', mon_bound d n -> n' <= n -> mon_bound d n'
}.

(** ** Monitors of two kinds in one process *)
Section Sum.
Context {M D1 X1 I1 D2 X2 I2 : Type}.
Context {MO1 : MonitorOps M D1 X1 I1} {MO2 : MonitorOps M D2 X2 I2}.

Definition left_op (op : mop (X1 + X2)) : option (mop X1) :=
  match op with
  | OStart now => Some (OStart now)
  | OInput (inl x) now => Some (OInput x now)
  | OInput (inr _) _ => None
  | OTurn => Some OTurn
  end.
Definition right_op (op : mop (X1 + X2)) : option (mop X2) :=
  match op with
  | OStart now => Some (OStart now)
  | OInput (inr x) now => Some (OInput x now)
  | OInput (inl _) _ => None
  | OTurn => Some OTurn
  end.
Definition lefts (l : list (I1 + I2)) : list I1 := omap (fun i => match i with inl i => Some i | inr _ => None end) l.
Definition rights (l : list (I1 + I2)) : list I2 := omap (fun i => match i with inr i => Some i | inl _ => None end) l.

Lemma lefts_inl l : lefts (inl <$> l) = l.
Proof. induction l as [|i l IH]; [done|]. unfold lefts in *. cbn. by f_equal. Qed.
Lemma rights_inr l : rights (inr <$> l) = l.
Proof. induction l as [|i l IH]; [done|]. unfold rights in *. cbn. by f_equal. Qed.

#[export] Instance sum_MonitorOps : MonitorOps M (D1 + D2) (X1 + X2) (I1 + I2) := {|
  mon_exec := fun d w op =>
    match d with
    | inl d => op ← left_op op; dw ← mon_exec d w op; Some (inl dw.1, dw.2)
    | inr d => op ← right_op op; dw ← mon_exec d w op; Some (inr dw.1, dw.2)
    end;
  mon_send := fun d =>
    match d with
    | inl d => sd ← mon_send d; Some (sd.1, inl sd.2)
    | inr d => sd ← mon_send d; Some (sd.1, inr sd.2)
    end;
  mon_state := fun d => match d with inl d => mon_state d | inr d => mon_state d end;
  mon_ref := fun d => match d with inl d => mon_ref d | inr d => mon_ref d end;
  mon_sent := fun d => match d with inl d => mon_sent d | inr d => mon_sent d end;
  mon_item := fun x now => match x with inl x => inl (mon_item x now) | inr x => inr (mon_item x now) end;
  mon_source := fun i => match i with inl i => inl (mon_source i) | inr i => inr (mon_source i) end;
  mon_inputs := fun d => match d with inl d => inl <$> mon_inputs d | inr d => inr <$> mon_inputs d end;
  mon_begin := fun d => match d with inl d => mon_begin d | inr d => mon_begin d end;
  mon_left := fun d => match d with inl d => mon_left d | inr d => mon_left d end;
  mon_more := fun d => match d with inl d => mon_more d | inr d => mon_more d end;
  mon_types := fun d => match d with inl d => mon_types d | inr d => mon_types d end;
  mon_bound := fun d => match d with inl d => mon_bound d | inr d => mon_bound d end;
  mon_spec := fun d r t l =>
    match d with inl d => mon_spec d r t (lefts l) | inr d => mon_spec d r t (rights l) end
|}.

(** A step of the one kind is a step of the sum. *)
Lemma sum_step_inl (inv : world M -> D1 -> Prop) (inv' : world M -> D1 + D2 -> Prop) w d w' d' out ins :
  (forall w d, inv w d -> inv' w (inl d)) ->
  mon_step inv w d w' d' out ins -> mon_step inv' w (inl d) w' (inl d') out (inl <$> ins).
Proof.
  intros H [H1 [H2a H2b H2c] H3 H4 H5 H6 H7]. constructor; cbn; auto; [by constructor; cbn; auto|].
  by rewrite H7, fmap_app.
Qed.
Lemma sum_step_inr (inv : world M -> D2 -> Prop) (inv' : world M -> D1 + D2 -> Prop) w d w' d' out ins :
  (forall w d, inv w d -> inv' w (inr d)) ->
  mon_step inv w d w' d' out ins -> mon_step inv' w (inr d) w' (inr d') out (inr <$> ins).
Proof.
  intros H [H1 [H2a H2b H2c] H3 H4 H5 H6 H7]. constructor; cbn; auto; [by constructor; cbn; auto|].
  by rewrite H7, fmap_app.
Qed.

Lemma left_op_inputs op op1 :
  left_op op = Some op1 -> op_inputs op = inl <$> op_inputs op1 /\ is_input op = is_input op1.
Proof. destruct op as [now|[x|x] now|]; by intros [= <-]. Qed.
Lemma right_op_inputs op op1 :
  right_op op = Some op1 -> op_inputs op = inr <$> op_inputs op1 /\ is_input op = is_input op1.
Proof. destruct op as [now|[x|x] now|]; by intros [= <-]. Qed.

Context {MM1 : Monitor M D1 X1 I1} {MM2 : Monitor M D2 X2 I2}.

Definition sum_inv (w : world M) (d : D1 + D2) : Prop := match d with inl d => mon_inv w d | inr d => mon_inv w d end.

#[export] Instance sum_Monitor : Monitor M (D1 + D2) (X1 + X2) (I1 + I2).
Proof.
  refine {| mon_fresh := fun d => match d with inl d => mon_fresh d | inr d => mon_fresh d end; mon_inv := sum_inv |}.
  - intros [x|x] now; cbn; by rewrite source_item.
  - intros w [d|d]; exact (fresh_law w d).
  - intros w [d|d] Hi Hs; destruct (init_law w d Hi Hs) as [H1 H2]; cbn; by rewrite H1, H2.
  - intros [d|d] w op d' w'; cbn.
    + destruct (left_op op) as [op1|] eqn:Eo; [|done]. cbn. destruct (mon_exec d w op1) as [[d1 w1]|] eqn:E; [|done].
      intros _. apply exec_guard in E. destruct op as [now|[x|x] now|]; by simplify_eq/=.
    + destruct (right_op op) as [op1|] eqn:Eo; [|done]. cbn. destruct (mon_exec d w op1) as [[d1 w1]|] eqn:E; [|done].
      intros _. apply exec_guard in E. destruct op as [now|[x|x] now|]; by simplify_eq/=.
  - intros [d|d] s d'; cbn; (destruct (mon_send d) as [[s1 d1]|] eqn:E; [|done]); intros [= <- _]; exact (send_guard d s1 d1 E).
  - intros w [d|d] now Hs; cbn; destruct (start_enabled w d now Hs) as [[d' w'] ->]; by eexists.
  - intros w [d|d] Hi Hs; cbn; destruct (turn_enabled w d Hi Hs) as [[d' w'] ->]; by eexists.
  - intros [d|d] s Hs; cbn; destruct (send_enabled d s Hs) as [d' ->]; by eexists.
  - intros w [d|d] op d' w' Hi; cbn [mon_exec sum_MonitorOps].
    + destruct (left_op op) as [op1|] eqn:Eo; [|done]. cbn [mbind option_bind].
      destruct (mon_exec d w op1) as [[d1 w1]|] eqn:E; [|done]. intros [= <- <-] Hb.
      destruct (left_op_inputs _ _ Eo) as [Ei ->]. rewrite Ei in *. cbn in Hb. rewrite <- fmap_app, length_fmap in Hb.
      destruct (exec_law w d op1 d1 w1 Hi E Hb) as (o & Hst & H1 & H2 & H3 & H4). exists o.
      split; [by eapply sum_step_inl|by split_and!].
    + destruct (right_op op) as [op1|] eqn:Eo; [|done]. cbn [mbind option_bind].
      destruct (mon_exec d w op1) as [[d1 w1]|] eqn:E; [|done]. intros [= <- <-] Hb.
      destruct (right_op_inputs _ _ Eo) as [Ei ->]. rewrite Ei in *. cbn in Hb. rewrite <- fmap_app, length_fmap in Hb.
      destruct (exec_law w d op1 d1 w1 Hi E Hb) as (o & Hst & H1 & H2 & H3 & H4). exists o.
      split; [by eapply sum_step_inr|by split_and!].
  - intros [d|d] w op d' w'; cbn.
    + destruct (left_op op) as [op1|] eqn:Eo; [|done]. cbn. destruct (mon_exec d w op1) as [[d1 w1]|] eqn:E; [|done].
      intros [= <- _]. apply begin_law in E. destruct op as [now|[x|x] now|]; by simplify_eq/=.
    + destruct (right_op op) as [op1|] eqn:Eo; [|done]. cbn. destruct (mon_exec d w op1) as [[d1 w1]|] eqn:E; [|done].
      intros [= <- _]. apply begin_law in E. destruct op as [now|[x|x] now|]; by simplify_eq/=.
  - intros w [d|d] s d' Hi; cbn [mon_send sum_MonitorOps]; (destruct (mon_send d) as [[s1 d1]|] eqn:E; [|done]);
      intros [= <- <-]; destruct (send_law w d s1 d1 Hi E) as (Hst & H1 & H2 & H3 & H4 & H5).
    + split; [by apply (sum_step_inl mon_inv sum_inv) in Hst|by split_and!].
    + split; [by apply (sum_step_inr mon_inv sum_inv) in Hst|by split_and!].
  - intros w w' [d|d]; exact (frame_law w w' d).
  - intros w [d|d]; exact (conds_law w d).
  - intros w [d|d] conds Hi Hs Hc; cbn; rewrite ?lefts_inl, ?rights_inr; exact (select_law w d conds Hi Hs Hc).
  - intros [d|d]; exact (bound_mono d).
Defined.
End Sum.
