(* ===== verification/LogMonitorLoop.v ===== *)
(** The loop of a log monitor at the grain at which the rest of the process can
    observe it: one step per log received, per rule tried and per status sent
    ([Start], [monitorLoop] and [parseLog] of
    [pkg/systemlogmonitor/log_monitor.go]).

    [LogMonitor] runs a whole log at once; here another goroutine may read the
    shared slice of conditions between two rules, or before a status is sent.
    The invariant relates every intermediate state to the specification of
    [LogMonitor] on the logs received so far. *)

From S2P Require Import Prelude GoStrings GoTime Regexp Types LogBuffer Metrics ProblemMetrics LogMonitor MonitorInterface.

Section Loop.
Context `{UC : !Unicode} {M : Type} `{MI : !Int64MetricInterface M}.

(** Where the goroutine is: before its first statement, in its select, at rule
    [i] of the current log, or about to send a status and to go on at rule [i]. *)
Inductive mphase : Type :=
| PhInit
| PhSelect
| PhRules (i : nat) (rules : list Rule)
| PhSend (s : Status) (i : nat) (rules : list Rule)
| PhFailed.

(** A monitor with its goroutine; [lmStart], [lmLogs] and [lmSent] record the
    time of its start, the logs it received, and the statuses it generated. *)
Record lmon : Type := mkLmon {
  lmMon : logMonitor;
  lmPhase : mphase;
  lmStart : Time;
  lmLogs : list Log;
  lmSent : list Status
}.

Definition lm_phase (m : lmon) (ph : mphase) : lmon :=
  mkLmon (lmMon m) ph (lmStart m) (lmLogs m) (lmSent m).

(** The monitor that [Start] runs. *)
Definition lm_new (l : logMonitor) : lmon := mkLmon l PhInit Time_zero [] [].

(** [initializeStatus], up to the send. *)
Definition lm_init (m : lmon) (w : world M) (now : Time) : option (lmon * world M) :=
  match lmPhase m with
  | PhInit =>
    let '(l, w, status) := initializeStatus (lmMon m) w now in
    Some (mkLmon l (PhSend status 0 []) now (lmLogs m) (lmSent m ++ [status]), w)
  | _ => None
  end.

(** A log is received and pushed. *)
Definition lm_log (m : lmon) (log : Log) : option lmon :=
  match lmPhase m with
  | PhSelect =>
    Some (match Push (mBuffer (lmMon m)) log with
          | Panic _ => mkLmon (lmMon m) PhFailed (lmStart m) (lmLogs m ++ [log]) (lmSent m)
          | Ret b => mkLmon (with_buffer (lmMon m) b) (PhRules 0 (mcRules (mConfig (lmMon m))))
                       (lmStart m) (lmLogs m ++ [log]) (lmSent m)
          end)
  | _ => None
  end.

(** One turn of the loop of [parseLog]. *)
(* @ pkg/systemlogmonitor/log_monitor.go:156-164 parseLog *)
Definition rule_turn (l : logMonitor) (w : world M) (i : nat) (rule : Rule)
    : outcome (logBuffer * world M * option Status) :=
  p ← slice_get (mPatterns l) (Z.of_nat i);
  bm ← Match (mBuffer l) p;
  let '(b, matched) := bm : logBuffer * list Log in
  if length matched =? 0 then Ret (b, w, None)
  else
    ws ← generateStatus l w matched rule;
    let '(w, status) := ws : world M * Status in
    Ret (b, w, Some status).

Definition lm_rule (m : lmon) (w : world M) : option (lmon * world M) :=
  match lmPhase m with
  | PhRules i [] => Some (lm_phase m PhSelect, w)
  | PhRules i (rule :: rules) =>
    Some (match rule_turn (lmMon m) w i rule with
          | Panic _ => (lm_phase m PhFailed, w)
          | Ret (b, w, None) =>
            (mkLmon (with_buffer (lmMon m) b) (PhRules (S i) rules) (lmStart m) (lmLogs m) (lmSent m), w)
          | Ret (b, w, Some s) =>
            (mkLmon (with_buffer (lmMon m) b) (PhSend s (S i) rules) (lmStart m) (lmLogs m) (lmSent m ++ [s]), w)
          end)
  | _ => None
  end.

(** The send of a status: the status, and the monitor after it. *)
Definition lm_send (m : lmon) : option (Status * lmon) :=
  match lmPhase m with
  | PhSend s i rules => Some (s, lm_phase m (PhRules i rules))
  | _ => None
  end.

(** The turns of the loop are those of [LogMonitor.parseRules]. *)
Lemma parseRules_turn l w b i rule rules :
  parseRules l w b i (rule :: rules) =
  (r ← rule_turn (with_buffer l b) w i rule;
   let '(b, w, o) := r : logBuffer * world M * option Status in
   rest ← parseRules l w b (S i) rules;
   let '(w, b, statuses) := rest : world M * logBuffer * list Status in
   Ret (w, b, option_list o ++ statuses)).
Proof.
  unfold rule_turn. cbn [parseRules]. change (mPatterns (with_buffer l b)) with (mPatterns l).
  change (mBuffer (with_buffer l b)) with b.
  destruct (slice_get (mPatterns l) (Z.of_nat i)) as [p|]; [|done]. cbn [mbind outcome_bind].
  destruct (Match b p) as [[b1 matched]|]; [|done]. cbn [mbind outcome_bind].
  destruct (length matched =? 0).
  - cbn [mbind outcome_bind]. by destruct (parseRules l w b1 (S i) rules) as [[[w1 b2] ss]|].
  - change (generateStatus (with_buffer l b) w matched rule) with (generateStatus l w matched rule).
    destruct (generateStatus l w matched rule) as [[w1 s]|]; [|done]. cbn [mbind outcome_bind].
    by destruct (parseRules l w1 b1 (S i) rules) as [[[w2 b2] ss]|].
Qed.

(** ** The specification on a sequence of logs *)

(** One rule against the window. *)
Definition spec_rule (source : string) (ref : slice_ref) (n : nat) (hist : list Log)
    (rp : Rule * Pattern) (conds : list Condition) : list Condition * option Status :=
  match match_result rp.2 n hist with
  | [] => (conds, None)
  | logs =>
    let '(conds, events, _) := rule_effect conds rp.1 logs in
    (conds, Some (mkStatus source events ref))
  end.

Lemma spec_rules_snoc source ref n hist rps rp conds :
  spec_rules source ref n hist (rps ++ [rp]) conds =
  let '(c1, ss) := spec_rules source ref n hist rps conds in
  let '(c2, o) := spec_rule source ref n hist rp c1 in
  (c2, ss ++ option_list o).
Proof.
  revert conds. induction rps as [|[r p] rps IH]; intros conds; cbn [app spec_rules].
  - destruct rp as [r p]. unfold spec_rule. cbn [fst snd]. destruct (match_result p n hist) as [|lg logs]; [done|].
    by destruct (rule_effect conds r (lg :: logs)) as [[c ev] ch].
  - destruct (match_result p n hist) as [|lg logs]; [apply IH|].
    destruct (rule_effect conds r (lg :: logs)) as [[c ev] ch]. rewrite IH.
    destruct (spec_rules source ref n hist rps c) as [c1 ss].
    by destruct (spec_rule source ref n hist rp c1) as [c2 o].
Qed.

(** The logs one after the other, each with those before it in the window. *)
Fixpoint spec_logs (source : string) (ref : slice_ref) (n : nat) (rps : list (Rule * Pattern))
    (hist : list Log) (conds : list Condition) (logs : list Log) : list Condition * list Status :=
  match logs with
  | [] => (conds, [])
  | log :: logs =>
    let '(c1, s1) := spec_rules source ref n (hist ++ [log]) rps conds in
    let '(c2, s2) := spec_logs source ref n rps (hist ++ [log]) c1 logs in
    (c2, s1 ++ s2)
  end.

Lemma spec_logs_snoc source ref n rps hist conds logs log :
  spec_logs source ref n rps hist conds (logs ++ [log]) =
  let '(c1, s1) := spec_logs source ref n rps hist conds logs in
  let '(c2, s2) := spec_rules source ref n ((hist ++ logs) ++ [log]) rps c1 in
  (c2, s1 ++ s2).
Proof.
  revert hist conds. induction logs as [|lg logs IH]; intros hist conds; cbn [app spec_logs].
  - rewrite app_nil_r. destruct (spec_rules source ref n (hist ++ [log]) rps conds) as [c s].
    by rewrite app_nil_r.
  - destruct (spec_rules source ref n (hist ++ [lg]) rps conds) as [c1 s1]. rewrite IH.
    destruct (spec_logs source ref n rps (hist ++ [lg]) c1 logs) as [c2 s2].
    rewrite <- (app_assoc hist [lg] logs). cbn [app].
    destruct (spec_rules source ref n ((hist ++ lg :: logs) ++ [log]) rps c2) as [c3 s3].
    by rewrite app_assoc.
Qed.

Lemma spec_logs_keeps source ref n rps hist conds logs :
  conds_valid conds ->
  let '(conds', statuses) := spec_logs source ref n rps hist conds logs in
  conds_valid conds' /\ cType <$> conds' = cType <$> conds /\
  Forall (fun s => sSource s = source /\ sConditions s = ref) statuses.
Proof.
  revert hist conds. induction logs as [|lg logs IH]; intros hist conds Hv; cbn [spec_logs]; [done|].
  pose proof (spec_rules_keeps source ref n (hist ++ [lg]) rps conds Hv) as H1.
  destruct (spec_rules source ref n (hist ++ [lg]) rps conds) as [c1 s1]. destruct H1 as (Hv1 & Ht1 & Hf1).
  specialize (IH (hist ++ [lg]) c1 Hv1).
  destruct (spec_logs source ref n rps (hist ++ [lg]) c1 logs) as [c2 s2]. destruct IH as (Hv2 & Ht2 & Hf2).
  split_and!; [done|by rewrite Ht2|by apply Forall_app].
Qed.

(** ** The invariant *)
Definition lmSource (m : lmon) : string := mcSource (mConfig (lmMon m)).
Definition lmRef (m : lmon) : slice_ref := mConditions (lmMon m).
Definition lmRules (m : lmon) : list Rule := mcRules (mConfig (lmMon m)).
Definition lmWindow (m : lmon) : nat := Z.to_nat (mcBufferSize (mConfig (lmMon m))).
Definition lmPairs (m : lmon) : list (Rule * Pattern) := zip (lmRules m) (mPatterns (lmMon m)).
Definition lmTypes (m : lmon) : list string := cType <$> mcDefaultConditions (mConfig (lmMon m)).

(** The conditions and the statuses that the logs should lead to. *)
Definition lm_spec (m : lmon) (logs : list Log) : list Condition * list Status :=
  let '(conds, ss) := spec_logs (lmSource m) (lmRef m) (lmWindow m) (lmPairs m) []
                        (initialConditions (mcDefaultConditions (mConfig (lmMon m))) (lmStart m)) logs in
  (conds, mkStatus (lmSource m) [] (lmRef m) :: ss).

(** All logs are dealt with ... *)
Definition between (m : lmon) (conds : list Condition) : Prop := lm_spec m (lmLogs m) = (conds, lmSent m).

(** ... or the last one is, up to rule [i]. *)
Definition at_rule (m : lmon) (i : nat) (rest : list Rule) (conds : list Condition) : Prop :=
  exists prev log c1 s1 s2, lmLogs m = prev ++ [log] /\ rest = drop i (lmRules m) /\
    lm_spec m prev = (c1, s1) /\
    spec_rules (lmSource m) (lmRef m) (lmWindow m) (prev ++ [log]) (take i (lmPairs m)) c1 = (conds, s2) /\
    lmSent m = s1 ++ s2.

Definition within (m : lmon) (i : nat) (rest : list Rule) (conds : list Condition) : Prop :=
  (rest = [] /\ between m conds) \/ at_rule m i rest conds.

Definition lm_bound (m : lmon) : Prop :=
  (Z.of_nat (length (lmLogs m)) + Z.of_nat (lmWindow m) <= int64_max)%Z.

Record lm_inv (w : world M) (m : lmon) : Prop := mkLmInv {
  lmi_patterns : length (mPatterns (lmMon m)) = length (lmRules m);
  lmi_metrics : is_Some (mcEnableMetricsReporting (mConfig (lmMon m)));
  lmi_buffer : Repr (mBuffer (lmMon m)) (lmWindow m) (lmLogs m);
  lmi_phase :
    match lmPhase m with
    | PhInit => lmLogs m = [] /\ lmSent m = []
    | PhSelect => exists conds, wStore w !! lmRef m = Some conds /\ between m conds
    | PhRules i rest => exists conds, wStore w !! lmRef m = Some conds /\ within m i rest conds
    | PhSend s i rest => exists conds, wStore w !! lmRef m = Some conds /\ within m i rest conds /\
        last (lmSent m) = Some s
    | PhFailed => False
    end
}.

(** What a step of the monitor leaves of it. *)
Record lm_same (m m' : lmon) : Prop := mkLmSame {
  lms_config : mConfig (lmMon m') = mConfig (lmMon m);
  lms_patterns : mPatterns (lmMon m') = mPatterns (lmMon m);
  lms_ref : lmRef m' = lmRef m;
  lms_start : lmStart m' = lmStart m
}.

Lemma lm_same_spec m m' logs : lm_same m m' -> lm_spec m' logs = lm_spec m logs.
Proof.
  intros [H1 H2 H3 H4]. unfold lm_spec, lmSource, lmWindow, lmPairs, lmRules. by rewrite H1, H2, H3, H4.
Qed.

Lemma at_rule_end m i conds :
  length (mPatterns (lmMon m)) = length (lmRules m) -> at_rule m i [] conds -> between m conds.
Proof.
  intros Hlen (prev & log & c1 & s1 & s2 & Hl & Hd & H1 & H2 & Hs).
  assert (Hi : length (lmRules m) <= i).
  { symmetry in Hd. apply (f_equal length) in Hd. rewrite length_drop in Hd. cbn in Hd. lia. }
  rewrite take_ge in H2 by (unfold lmPairs; rewrite length_zip; lia).
  unfold between, lm_spec in *. rewrite Hl, spec_logs_snoc. cbn [app].
  destruct (spec_logs _ _ _ _ [] _ prev) as [c0 s0]. injection H1 as -> <-.
  rewrite H2. by rewrite Hs.
Qed.

Lemma within_end m i conds :
  length (mPatterns (lmMon m)) = length (lmRules m) -> within m i [] conds -> between m conds.
Proof. intros Hlen [[_ H]|H]; [done|]. by eapply at_rule_end. Qed.

(** A new log, before its first rule. *)
Lemma at_rule_start m m' log conds :
  lm_same m m' -> between m conds -> lmLogs m' = lmLogs m ++ [log] -> lmSent m' = lmSent m ->
  at_rule m' 0 (lmRules m') conds.
Proof.
  intros Hsame Hb Hl Hs. exists (lmLogs m), log, conds, (lmSent m), [].
  split_and!; [done|by rewrite drop_0| |done|by rewrite Hs, app_nil_r].
  by rewrite (lm_same_spec m m').
Qed.

(** One more rule. *)
Lemma at_rule_next m m' i rule rest conds conds' o :
  length (mPatterns (lmMon m)) = length (lmRules m) -> lm_same m m' ->
  at_rule m i (rule :: rest) conds -> lmLogs m' = lmLogs m -> lmSent m' = lmSent m ++ option_list o ->
  (forall p, mPatterns (lmMon m) !! i = Some p ->
     spec_rule (lmSource m) (lmRef m) (lmWindow m) (lmLogs m) (rule, p) conds = (conds', o)) ->
  at_rule m' (S i) rest conds'.
Proof.
  intros Hlen Hsame (prev & log & c1 & s1 & s2 & Hl & Hd & H1 & H2 & Hs) Hl' Hs' Hspec.
  assert (Hi : lmRules m !! i = Some rule).
  { rewrite <- (Nat.add_0_r i), <- lookup_drop, <- Hd. done. }
  pose proof (lookup_lt_Some _ _ _ Hi) as Hlt.
  destruct (lookup_lt_is_Some_2 (mPatterns (lmMon m)) i ltac:(lia)) as [p Hp].
  assert (Hpair : lmPairs m !! i = Some (rule, p)).
  { unfold lmPairs. rewrite lookup_zip_Some. done. }
  exists prev, log, c1, s1, (s2 ++ option_list o). pose proof Hsame as [E1 E2 E3 E4].
  assert (Epairs : lmPairs m' = lmPairs m) by (unfold lmPairs, lmRules; by rewrite E1, E2).
  split_and!.
  - by rewrite Hl'.
  - unfold lmRules. rewrite E1. change (mcRules (mConfig (lmMon m))) with (lmRules m).
    rewrite <- Nat.add_1_r, <- drop_drop, <- Hd. done.
  - by rewrite (lm_same_spec m m').
  - rewrite Epairs, (take_S_r _ _ _ Hpair), spec_rules_snoc.
    unfold lmSource, lmWindow. rewrite E1, E3.
    change (mcSource (mConfig (lmMon m))) with (lmSource m).
    change (Z.to_nat (mcBufferSize (mConfig (lmMon m)))) with (lmWindow m).
    rewrite H2. specialize (Hspec p Hp). rewrite Hl in Hspec. by rewrite Hspec.
  - by rewrite Hs', Hs, app_assoc.
Qed.

(** What a turn does, on a represented buffer. *)
Lemma rule_turn_spec l w i rule n hist conds p :
  Repr (mBuffer l) n hist -> mPatterns l !! i = Some p -> is_Some (mcEnableMetricsReporting (mConfig l)) ->
  wStore w !! mConditions l = Some conds ->
  exists b w', rule_turn l w i rule =
      Ret (b, w', (spec_rule (mcSource (mConfig l)) (mConditions l) n hist (rule, p) conds).2) /\
    Repr b n hist /\
    wStore w' = <[mConditions l := (spec_rule (mcSource (mConfig l)) (mConditions l) n hist (rule, p) conds).1]> (wStore w).
Proof.
  intros HR Hp Hm Hs. unfold rule_turn, spec_rule. cbn [fst snd].
  rewrite (slice_get_lookup _ _ _ Hp). cbn [mbind outcome_bind].
  destruct (Match_result (mBuffer l) n hist p HR) as (b & -> & HR'). cbn [mbind outcome_bind].
  destruct (match_result p n hist) as [|lg logs]; cbn [length Nat.eqb].
  - exists b, w. split_and!; [done|done|]. cbn. by rewrite insert_id.
  - pose proof (generateStatus_effect l w (lg :: logs) rule conds ltac:(done) Hm Hs) as Hg.
    destruct (rule_effect conds rule (lg :: logs)) as [[conds1 ev] ch]. rewrite Hg. cbn [mbind outcome_bind].
    eexists b, _. by split_and!.
Qed.

(** ** Steps *)

Lemma lm_frame w w' m :
  lm_inv w m -> lmPhase m = PhInit \/ wStore w' !! lmRef m = wStore w !! lmRef m -> lm_inv w' m.
Proof.
  intros [H1 H2 H3 H4] Hw. constructor; try done.
  destruct (lmPhase m) eqn:E; try done; destruct Hw as [Hw|Hw]; try done; by rewrite Hw.
Qed.

(** The conditions of a monitor that has started. *)
Lemma lm_spec_keeps m logs conds ss :
  lm_spec m logs = (conds, ss) ->
  conds_valid conds /\ cType <$> conds = lmTypes m /\
  Forall (fun s => sSource s = lmSource m /\ sConditions s = lmRef m) ss.
Proof.
  unfold lm_spec. pose proof (spec_logs_keeps (lmSource m) (lmRef m) (lmWindow m) (lmPairs m) []
    (initialConditions (mcDefaultConditions (mConfig (lmMon m))) (lmStart m)) logs
    (initialConditions_valid _ _)) as H.
  destruct (spec_logs _ _ _ _ _ _ _) as [c s]. destruct H as (Hv & Ht & Hf). intros [= <- <-].
  split_and!; [done| |by constructor]. by rewrite Ht, initialConditions_types.
Qed.

Lemma within_keeps m i rest conds :
  within m i rest conds ->
  conds_valid conds /\ cType <$> conds = lmTypes m /\
  Forall (fun s => sSource s = lmSource m /\ sConditions s = lmRef m) (lmSent m).
Proof.
  intros [[_ H]|(prev & log & c1 & s1 & s2 & _ & _ & H1 & H2 & Hs)]; [by eapply lm_spec_keeps|].
  destruct (lm_spec_keeps _ _ _ _ H1) as (Hv1 & Ht1 & Hf1).
  pose proof (spec_rules_keeps (lmSource m) (lmRef m) (lmWindow m) (prev ++ [log]) (take i (lmPairs m)) c1 Hv1) as H.
  rewrite H2 in H. destruct H as (Hv & Ht & Hf). rewrite Hs.
  split_and!; [done|by rewrite Ht|by apply Forall_app].
Qed.

Lemma lm_conds w m :
  lm_inv w m -> lmPhase m <> PhInit ->
  exists conds, wStore w !! lmRef m = Some conds /\ conds_valid conds /\ cType <$> conds = lmTypes m /\
    Forall (fun s => sSource s = lmSource m /\ sConditions s = lmRef m) (lmSent m).
Proof.
  intros [_ _ _ H] Hne. destruct (lmPhase m) as [| |i rest|s i rest|]; try done.
  - destruct H as (conds & Hs & Hb). exists conds. split; [done|]. by eapply lm_spec_keeps.
  - destruct H as (conds & Hs & Hb). exists conds. split; [done|]. by eapply within_keeps.
  - destruct H as (conds & Hs & Hb & _). exists conds. split; [done|]. by eapply within_keeps.
Qed.

Lemma lm_new_inv w l :
  Repr (mBuffer l) (Z.to_nat (mcBufferSize (mConfig l))) [] ->
  length (mPatterns l) = length (mcRules (mConfig l)) ->
  is_Some (mcEnableMetricsReporting (mConfig l)) -> lm_inv w (lm_new l).
Proof. intros H1 H2 H3. by constructor. Qed.

Lemma lm_init_inv w m now m' w' :
  lm_inv w m -> lm_init m w now = Some (m', w') ->
  lm_inv w' m' /\ lmPhase m = PhInit /\ mConfig (lmMon m') = mConfig (lmMon m) /\
  wStore w !! lmRef m' = None /\ lmLogs m' = [] /\
  (exists c0, wStore w' = <[lmRef m' := c0]> (wStore w)) /\
  exists s, lmSent m' = [s] /\ lmPhase m' = PhSend s 0 [].
Proof.
  intros [H1 H2 H3 H4]. unfold lm_init. destruct (lmPhase m); try done. destruct H4 as [Hl Hs].
  intros [= <- <-]. cbn. rewrite Hl in *. rewrite Hs. split_and!; try done; [| |by eexists|by eexists].
  - constructor; [done..|]. cbn. eexists. split; [apply lookup_insert_eq|].
    split; [|done]. left. by split.
  - apply not_elem_of_dom, is_fresh.
Qed.

Lemma lm_log_inv w m log m' :
  lm_inv w m -> lm_log m log = Some m' -> lm_bound m' ->
  lm_inv w m' /\ lm_same m m' /\ lmPhase m = PhSelect /\ lmLogs m' = lmLogs m ++ [log] /\
  lmSent m' = lmSent m /\ lmPhase m' = PhRules 0 (lmRules m').
Proof.
  intros [H1 H2 H3 H4]. unfold lm_log. destruct (lmPhase m); try done. destruct H4 as (conds & Hs & Hb).
  intros [= E] Hbound.
  assert (Hbd : (Z.of_nat (length (lmLogs m)) + 1 + Z.of_nat (lmWindow m) <= int64_max)%Z).
  { unfold lm_bound in Hbound.
    assert (Elen : length (lmLogs m') = length (lmLogs m) + 1 /\ lmWindow m' = lmWindow m).
    { rewrite <- E. destruct (Push _ _); cbn; by rewrite length_app. }
    destruct Elen as [E1 E2]. rewrite E1, E2 in Hbound. lia. }
  destruct (Push_Repr _ _ _ log H3 Hbd) as (b & HP & HR). rewrite HP in E. subst m'.
  set (m' := mkLmon _ _ _ _ _). assert (Hsame : lm_same m m') by done.
  split_and!; try done. constructor; try done. cbn [lmPhase m'].
  exists conds. split; [done|]. right. by eapply at_rule_start.
Qed.

Lemma lm_rule_inv w m m' w' :
  lm_inv w m -> lm_rule m w = Some (m', w') ->
  lm_inv w' m' /\ lm_same m m' /\ lmLogs m' = lmLogs m /\
  exists conds conds' o, wStore w !! lmRef m = Some conds /\ wStore w' = <[lmRef m := conds']> (wStore w) /\
    lmSent m' = lmSent m ++ option_list o /\
    match o with
    | None => conds' = conds /\ (forall s i rest, lmPhase m' <> PhSend s i rest)
    | Some s => exists i rest, lmPhase m' = PhSend s i rest
    end /\ lmPhase m <> PhInit /\ lmPhase m' <> PhInit /\ (forall s i rest, lmPhase m <> PhSend s i rest).
Proof.
  intros Hinv. pose proof Hinv as [H1 H2 H3 H4]. unfold lm_rule.
  destruct (lmPhase m) as [| |i rest| |] eqn:Eph; try done. destruct H4 as (conds & Hs & Hb).
  destruct rest as [|rule rest].
  - intros [= <- <-]. split; [|split; [done|split; [done|]]].
    + constructor; try done. cbn. exists conds. split; [done|]. by eapply within_end.
    + exists conds, conds, None. rewrite insert_id, app_nil_r by done. by split_and!.
  - destruct Hb as [[? _]|Hat]; [done|]. pose proof Hat as (prev & log & _ & _ & _ & _ & Hd & _).
    assert (Hi : lmRules m !! i = Some rule).
    { rewrite <- (Nat.add_0_r i), <- lookup_drop, <- Hd. done. }
    pose proof (lookup_lt_Some _ _ _ Hi) as Hlt.
    destruct (lookup_lt_is_Some_2 (mPatterns (lmMon m)) i ltac:(lia)) as [p Hp].
    destruct (rule_turn_spec (lmMon m) w i rule _ _ conds p H3 Hp H2 Hs) as (b & w1 & -> & HR & Hw1).
    change (mcSource (mConfig (lmMon m))) with (lmSource m) in *.
    change (mConditions (lmMon m)) with (lmRef m) in *.
    destruct (spec_rule (lmSource m) (lmRef m) (lmWindow m) (lmLogs m) (rule, p) conds) as [conds' o] eqn:Esp.
    cbn [fst snd] in *.
    assert (Hnext : forall m2, lm_same m m2 -> lmLogs m2 = lmLogs m -> lmSent m2 = lmSent m ++ option_list o ->
      at_rule m2 (S i) rest conds').
    { intros m2 Hs2 Hl2 Hst2. eapply at_rule_next; [exact H1|exact Hs2|exact Hat|done|done|].
      intros p' Hp'. rewrite Hp in Hp'. by injection Hp' as <-. }
    assert (Hst : wStore w1 !! lmRef m = Some conds') by (rewrite Hw1; apply lookup_insert_eq).
    destruct o as [st|]; intros [= <- <-].
    + set (m2 := mkLmon _ _ _ _ _). assert (Hsame : lm_same m m2) by done.
      split_and!; try done.
      * constructor; try done. cbn [lmPhase m2]. exists conds'. split_and!; [done|right; by apply Hnext|].
        cbn. by rewrite last_snoc.
      * exists conds, conds', (Some st). split_and!; eauto.
    + set (m2 := mkLmon _ _ _ _ _). assert (Hsame : lm_same m m2) by done.
      assert (Ec : conds' = conds).
      { unfold spec_rule in Esp. cbn [fst snd] in Esp. destruct (match_result p _ _); [by injection Esp|].
        by destruct (rule_effect conds rule _) as [[? ?] ?]. }
      split_and!; try done.
      * constructor; try done. cbn [lmPhase m2]. exists conds'. split; [done|]. right.
        apply Hnext; [done|done|]. by rewrite app_nil_r.
      * exists conds, conds', None. split_and!; try done. by rewrite app_nil_r.
Qed.

Lemma lm_send_inv w m s m' :
  lm_inv w m -> lm_send m = Some (s, m') ->
  lm_inv w m' /\ lm_same m m' /\ lmLogs m' = lmLogs m /\ lmSent m' = lmSent m /\
  last (lmSent m) = Some s /\
  exists i rest, lmPhase m = PhSend s i rest /\ lmPhase m' = PhRules i rest.
Proof.
  intros [H1 H2 H3 H4]. unfold lm_send. destruct (lmPhase m) as [| | |st i rest|] eqn:E; try done.
  intros [= <- <-]. destruct H4 as (conds & Hs & Hw & Hl). split_and!; try done; [|by eexists _, _].
  constructor; try done. cbn. by exists conds.
Qed.

(** A status carries at most one event. *)
Lemma rule_effect_events conds rule logs : length (rule_effect conds rule logs).1.2 <= 1.
Proof.
  unfold rule_effect. destruct (String.eqb (rType rule) Temp); [done|].
  generalize (default Time_zero (lTimestamp <$> head logs)) as ts.
  generalize (generateMessage logs (rPatternGeneratedMessageSuffix rule)) as msg. intros msg ts.
  induction conds as [|c conds IH]; cbn [changeCondition]; [cbn; lia|].
  destruct (String.eqb (cType c) (rCondition rule)); [by destruct (_ || _); cbn; lia|].
  by destruct (changeCondition conds rule ts msg) as [[? ?] ?].
Qed.

Lemma lm_rule_events w m m' w' s i rest :
  lm_inv w m -> lm_rule m w = Some (m', w') -> lmPhase m' = PhSend s i rest ->
  length (sEvents s) <= 1 /\ exists i0 rule, lmPhase m = PhRules i0 (rule :: rest).
Proof.
  intros [H1 H2 H3 H4]. unfold lm_rule. destruct (lmPhase m) as [| |n [|rule rules]| |] eqn:Eph; try done.
  { by intros [= <- _]. }
  destruct H4 as (conds & Hs & Hb). destruct Hb as [[? _]|Hat]; [done|].
  pose proof Hat as (prev & log & _ & _ & _ & _ & Hd & _).
  assert (Hi : lmRules m !! n = Some rule) by (rewrite <- (Nat.add_0_r n), <- lookup_drop, <- Hd; done).
  pose proof (lookup_lt_Some _ _ _ Hi) as Hlt.
  destruct (lookup_lt_is_Some_2 (mPatterns (lmMon m)) n ltac:(lia)) as [p Hp].
  destruct (rule_turn_spec (lmMon m) w n rule _ _ conds p H3 Hp H2 Hs) as (b & w1 & -> & _ & _).
  unfold spec_rule. cbn [fst snd]. destruct (match_result _ _ _) as [|lg logs]; cbn [snd]; [by intros [= <- _]|].
  pose proof (rule_effect_events conds rule (lg :: logs)) as He.
  destruct (rule_effect conds rule (lg :: logs)) as [[c1 ev] ch]. cbn [snd fst] in *.
  intros [= <- _] [= <- _ <-]. split; [done|]. by eexists _, _.
Qed.

(** ** The log monitor as a [Monitor] *)
Definition lm_state (m : lmon) : mstate :=
  match lmPhase m with
  | PhInit => SInit
  | PhSelect => SSelect
  | PhRules _ _ | PhFailed => SBusy
  | PhSend s _ _ => SSending s
  end.

Definition lm_exec (m : lmon) (w : world M) (op : mop Log) : option (lmon * world M) :=
  match op with
  | OStart now => lm_init m w now
  | OInput log _ => m' ← lm_log m log; Some (m', w)
  | OTurn => lm_rule m w
  end.

(** What the logs should lead to: the conditions, and the statuses in order. *)
Definition log_expected (l : logMonitor) (ref : slice_ref) (start : Time) (logs : list Log)
    : list Condition * list Status :=
  let cfg := mConfig l in
  let '(conds, ss) := spec_logs (mcSource cfg) ref (Z.to_nat (mcBufferSize cfg)) (zip (mcRules cfg) (mPatterns l)) []
                        (initialConditions (mcDefaultConditions cfg) start) logs in
  (conds, mkStatus (mcSource cfg) [] ref :: ss).

(** The size of the buffer and the number of logs stay within an [int]. *)
Definition log_bound (l : logMonitor) (n : nat) : Prop :=
  (Z.of_nat n + Z.of_nat (Z.to_nat (mcBufferSize (mConfig l))) <= int64_max)%Z.

#[export] Instance log_MonitorOps : MonitorOps M lmon Log Log := {|
  mon_exec := lm_exec;
  mon_send := lm_send;
  mon_state := lm_state;
  mon_ref := lmRef;
  mon_sent := lmSent;
  mon_item := fun log _ => log;
  mon_source := fun log => log;
  mon_inputs := lmLogs;
  mon_begin := lmStart;
  mon_left := fun m =>
    match lmPhase m with
    | PhInit => 2
    | PhSelect | PhFailed => 0
    | PhRules _ rest | PhSend _ _ rest => S (length rest)
    end;
  mon_more := fun m =>
    match lmPhase m with
    | PhInit => 1
    | PhSelect | PhFailed => 0
    | PhRules _ rest | PhSend _ _ rest => length rest
    end;
  mon_types := lmTypes;
  mon_bound := fun m => log_bound (lmMon m);
  mon_spec := fun m => log_expected (lmMon m)
|}.

(** What [NewLogMonitorOrDie] guarantees of a monitor. *)
Definition created (l : logMonitor) : Prop :=
  Repr (mBuffer l) (Z.to_nat (mcBufferSize (mConfig l))) [] /\
  length (mPatterns l) = length (mcRules (mConfig l)) /\ is_Some (mcEnableMetricsReporting (mConfig l)).

Lemma lm_same_mon m m' :
  mConfig (lmMon m') = mConfig (lmMon m) -> mPatterns (lmMon m') = mPatterns (lmMon m) -> mon_same (M := M) m m'.
Proof.
  intros H1 H2. constructor; cbn.
  - unfold lmTypes. by rewrite H1.
  - intros n. unfold log_bound. by rewrite H1.
  - intros r t l. unfold log_expected. by rewrite H1, H2.
Qed.

Lemma lm_state_init m : lm_state m = SInit <-> lmPhase m = PhInit.
Proof. unfold lm_state. destruct (lmPhase m); done. Qed.

(** The three kinds of steps. *)
Lemma lm_init_step w m now m' w' :
  lm_inv w m -> lm_init m w now = Some (m', w') ->
  exists s, mon_step (M := M) lm_inv w m w' m' [s] [] /\ in_hand (M := M) m' = [s] /\ lmPhase m = PhInit /\
    sEvents s = [] /\ lmPhase m' = PhSend s 0 [].
Proof.
  intros Hi H. pose proof Hi as [_ _ _ Hph].
  destruct (lm_init_inv _ _ _ _ _ Hi H) as (Hi' & Hp & Hc & Hn & Hlg & (c0 & Hw) & s & Hs & Hp').
  unfold lm_init in H. rewrite Hp in H, Hph. destruct Hph as [Hl Hsent]. injection H as Em Ew.
  exists s. split_and!; [| |done| |done].
  - constructor; cbn; try done.
    + apply lm_same_mon; by subst m'.
    + unfold lm_state. by rewrite Hp'.
    + intros r Hr. by rewrite Hw, lookup_insert_ne.
    + right. unfold lm_state. by rewrite Hp.
    + by rewrite Hsent.
    + by rewrite Hl.
  - unfold in_hand, mon_state. cbn. unfold lm_state. by rewrite Hp'.
  - subst m'. cbn in Hp'. by injection Hp' as <-.
Qed.

Lemma lm_log_step w m log m' :
  lm_inv w m -> lm_log m log = Some m' -> log_bound (lmMon m) (length (lmLogs m ++ [log])) ->
  mon_step (M := M) lm_inv w m w m' [] [log] /\ in_hand (M := M) m' = [].
Proof.
  intros Hi H Hb.
  assert (Hb' : lm_bound m').
  { unfold lm_log in H. destruct (lmPhase m); try done. injection H as <-. unfold lm_bound, lmWindow, log_bound in *.
    by destruct (Push _ _). }
  destruct (lm_log_inv _ _ _ _ Hi H Hb') as (Hi' & Hs & Hp & Hl & Hsent & Hp').
  split; [|unfold in_hand; cbn; unfold lm_state; by rewrite Hp'].
  constructor; cbn; try done.
  - destruct Hs. by apply lm_same_mon.
  - unfold lm_state. by rewrite Hp'.
  - left. unfold lm_state. rewrite Hp. split; [done|by destruct Hs].
  - by rewrite app_nil_r.
Qed.

Lemma lm_rule_step w m m' w' :
  lm_inv w m -> lm_rule m w = Some (m', w') ->
  exists o, mon_step (M := M) lm_inv w m w' m' (option_list o) [] /\ in_hand (M := M) m' = option_list o /\
    (o = None -> wStore w' = wStore w) /\ Forall (fun s => length (sEvents s) <= 1) (option_list o) /\
    mon_left (M := M) m' < mon_left (M := M) m /\ mon_more (M := M) m' + length (option_list o) <= mon_more (M := M) m.
Proof.
  intros Hi H. destruct (lm_rule_inv _ _ _ _ Hi H)
    as (Hi' & Hs & Hl & conds & conds' & o & Hc & Hw & Hsent & Ho & Hp & Hp' & Hns).
  exists o. pose proof Hs as [Hcf Hpt Hr _].
  assert (Hhand : in_hand (M := M) m' = option_list o).
  { unfold in_hand. cbn. unfold lm_state. destruct o as [s|]; [by destruct Ho as (i & rest & ->)|].
    destruct Ho as [_ Ho]. destruct (lmPhase m') eqn:E; try done. by destruct (Ho s i rules). }
  split; [|split; [done|split; [|split]]].
  - constructor; cbn; try done.
    + by apply lm_same_mon.
    + by rewrite lm_state_init.
    + intros r Hne. rewrite Hw, lookup_insert_ne; congruence.
    + left. by rewrite lm_state_init.
    + by rewrite app_nil_r.
  - intros ->. destruct Ho as [-> _]. rewrite Hw. by rewrite insert_id.
  - destruct o as [s|]; [|done]. destruct Ho as (i & rest & Ho). constructor; [|done].
    by eapply (lm_rule_events w m m' w' s i rest).
  - unfold lm_rule in H. cbn [mon_left mon_more log_MonitorOps].
    destruct (lmPhase m) as [| |n [|rule rest]| |] eqn:Ep; try done.
    { injection H as <- _. destruct o as [s|]; cbn; [by destruct Ho as (? & ? & ?)|lia]. }
    destruct (rule_turn _ _ _ _) as [[[b w1] [st|]]|]; injection H as <- _; cbn in *; destruct o; cbn; try lia;
      naive_solver.
Qed.

#[export] Instance log_Monitor : Monitor M lmon Log Log.
Proof.
  refine {| mon_fresh := fun m => exists l, m = lm_new l /\ created l; mon_inv := lm_inv |}.
  - done.
  - intros w d (l & -> & H1 & H2 & H3). split; [by apply lm_new_inv|done].
  - intros w d [_ _ _ H] Hs%lm_state_init. rewrite Hs in H. cbn. tauto.
  - intros d w [now|log now|] d' w'; cbn; unfold lm_init, lm_log, lm_rule, lm_state; by destruct (lmPhase d).
  - intros d s d'. cbn. unfold lm_send, lm_state. destruct (lmPhase d); try done. by intros [= <- _].
  - intros w d now. cbn. unfold lm_init, lm_state. destruct (lmPhase d); by eauto.
  - intros w d [_ _ _ H]. cbn. unfold lm_rule, lm_state. destruct (lmPhase d) as [| |n [|]| |]; by eauto.
  - intros d s. cbn. unfold lm_send, lm_state. destruct (lmPhase d); try done. intros [= ->]. by eexists.
  - intros w d [now|log now|] d' w' Hi He Hb; cbn [mon_exec log_MonitorOps lm_exec] in He.
    + destruct (lm_init_step _ _ _ _ _ Hi He) as (s & Hst & Hh & Hp & Hev & Hp'). exists (Some s).
      split_and!; [done|done|done| |]; [constructor; [by rewrite Hev; cbn; lia|done]|].
      intros _. cbn. rewrite Hp, Hp'. cbn. lia.
    + destruct (lm_log d log) as [m'|] eqn:E; [|done]. injection He as <- <-.
      destruct (lm_log_step w d log m' Hi E Hb) as [Hst Hh]. exists None. split_and!; [done|done|by right|done|done].
    + destruct (lm_rule_step _ _ _ _ Hi He) as (o & Hst & Hh & Ho & Hev & Hl). exists o.
      split_and!; [done|done|by right; auto|done|done].
  - intros d w [now|log now|] d' w'; cbn; unfold lm_init, lm_log, lm_rule; destruct (lmPhase d) as [| |n [|rule rest]| |]; try done.
    + by intros [= <- _].
    + cbn. destruct (Push _ _); by intros [= <- _].
    + by intros [= <- _].
    + destruct (rule_turn _ _ _ _) as [[[b w1] [st|]]|]; by intros [= <- _].
  - intros w d s d' Hi H. destruct (lm_send_inv _ _ _ _ Hi H) as (Hi' & [Hc Hpt Hr Hst] & Hl & Hsent & _ & i & rest & Hp & Hp').
    cbn. unfold in_hand. cbn. unfold lm_state. rewrite Hp, Hp'. split_and!; try done.
    constructor; cbn; try done; rewrite ?app_nil_r; try done; [by apply lm_same_mon|by rewrite lm_state_init, Hp'|].
    left. by rewrite lm_state_init, Hp.
  - intros w w' d Hi [H%lm_state_init|H]; eapply lm_frame; eauto.
  - intros w d Hi Hp. assert (Hp' : lmPhase d <> PhInit) by (by rewrite <- lm_state_init).
    destruct (lm_conds w d Hi Hp') as (conds & H1 & H2 & H3 & H4). exists conds. split_and!; try done.
    eapply Forall_impl; [exact H4|]. by intros s [_ ?].
  - intros w d conds [_ _ _ H] Hs Hc. cbn in *. unfold lm_state in Hs. destruct (lmPhase d); try done.
    destruct H as (conds' & Hc' & Hb). rewrite Hc in Hc'. injection Hc' as <-. exact Hb.
  - intros d n n'. cbn. unfold log_bound. lia.
Defined.
End Loop.
