(* ===== verification/K8sExporter.v ===== *)
(** The Kubernetes exporter ([pkg/exporters/k8sexporter/k8s_exporter.go]), with
    the HTTP helpers it serves conditions with ([pkg/util/http.go]): events go
    to the problem client, conditions to the condition manager. *)

From S2P Require Import Prelude GoStrings GoTime GoConv Types Options ProblemClient ConditionManager.

(** ** HTTP *)
Record Response : Type := mkResponse {
  respStatus : Z; respContentType : string; respBody : string
}.

(* @ pkg/util/http.go:40-46 ReturnHTTPError *)
Definition ReturnHTTPError (err : string) : Response := mkResponse 500 "" err.

(* @ pkg/util/http.go:26-38 ReturnHTTPJson *)
Definition ReturnHTTPJson (marshalled : result string) : Response :=
  match marshalled with
  | Err e => ReturnHTTPError e
  | Ok data => mkResponse 200 "application/json" data
  end.

Section Exporter.
Context {API : Type}.
Variable GetNodeAPI : API -> string -> result Node.

(* @ pkg/exporters/k8sexporter/k8s_exporter.go:37-42 k8sExporter *)
Record k8sExporter : Type := mkExporter {
  keClient : nodeProblemClient API;
  keManager : conditionManager;
  writeEvents : bool;
  updateConditions : bool
}.

(** The events of one status, sent one by one. *)
Fixpoint sendEvents (c : nodeProblemClient API) (source : string) (events : list Event)
    : nodeProblemClient API * list RecordedEvent :=
  match events with
  | [] => (c, [])
  | e :: events =>
    let '(c, r) := Eventf c (ConvertToAPIEventType (eSeverity e)) source (eReason e) (eMessage e) in
    let '(c, rs) := sendEvents c source events in
    (c, r :: rs)
  end.

(* @ pkg/exporters/k8sexporter/k8s_exporter.go:74-85 ExportProblems *)
Definition ExportProblems (ke : k8sExporter) (st : store) (status : Status)
    : k8sExporter * list RecordedEvent :=
  let '(client, recorded) :=
    if writeEvents ke then sendEvents (keClient ke) (sSource status) (sEvents status)
    else (keClient ke, []) in
  let manager :=
    if updateConditions ke
    then foldl UpdateCondition (keManager ke) (read_conditions st status)
    else keManager ke in
  (mkExporter client manager (writeEvents ke) (updateConditions ke), recorded).

(** *** Readiness of the API server *)

(** [wait.PollUntilContextTimeout] with an immediate first call: the condition
    is called at once and then at most [ticks] times before the deadline; it
    stops on true and on an error.  The condition is given the number of calls
    made before it. *)
Fixpoint PollUntil {S} (ticks calls : nat) (condition : nat -> S -> S * result bool) (s : S)
    : S * result unit * nat :=
  let '(s, r) := condition calls s in
  match r with
  | Err e => (s, Err e, calls + 1)
  | Ok true => (s, Ok tt, calls + 1)
  | Ok false =>
    match ticks with
    | O => (s, Err "context deadline exceeded", calls + 1)
    | Datatypes.S ticks => PollUntil ticks (calls + 1) condition s
    end
  end.

(** The API server at the time of each call. *)
Variable api_at : nat -> API -> API.

Definition nodeReady (i : nat) (c : nodeProblemClient API) : nodeProblemClient API * result bool :=
  let '(c, r) := GetNode GetNodeAPI (with_api c (api_at i (npcClient c))) in
  match r with
  | Err e => (c, Err e)
  | Ok _ => (c, Ok true)
  end.

(* @ pkg/exporters/k8sexporter/k8s_exporter.go:123-135 waitForAPIServerReadyWithTimeout *)
Definition waitForAPIServerReadyWithTimeout (c : nodeProblemClient API) (ticks : nat)
    : nodeProblemClient API * result unit * nat := PollUntil ticks 0 nodeReady c.

(** *** The HTTP server *)
Inductive Handler : Type := HHealthz | HConditions | HPprof (name : string).

(* @ pkg/exporters/k8sexporter/k8s_exporter.go:87-121 startHTTPReporting *)
Definition startHTTPReporting (npdo : NodeProblemDetectorOptions)
    : option (string * list (string * Handler)) :=
  if (ServerPort npdo <=? 0)%Z then None
  else Some (JoinHostPort (ServerAddress npdo) (fmtInt (ServerPort npdo)),
    [("/healthz", HHealthz); ("/conditions", HConditions);
     ("/debug/pprof/", HPprof "index"); ("/debug/pprof/cmdline", HPprof "cmdline");
     ("/debug/pprof/profile", HPprof "profile"); ("/debug/pprof/symbol", HPprof "symbol");
     ("/debug/pprof/trace", HPprof "trace")]).

Definition serve (json_Marshal : list Condition -> result string) (pprof : string -> Response)
    (ke : k8sExporter) (order : list string) (h : Handler) : Response :=
  match h with
  | HHealthz => mkResponse 200 "" "ok"
  | HConditions => ReturnHTTPJson (json_Marshal (GetConditions (keManager ke) order))
  | HPprof name => pprof name
  end.

(** *** Construction *)
Variable NewClient : NodeProblemDetectorOptions -> outcome (nodeProblemClient API).

(** The number of polls that fit the timeout is an argument. *)
(* @ pkg/exporters/k8sexporter/k8s_exporter.go:44-72 NewExporterOrDie *)
Definition NewExporterOrDie (npdo : NodeProblemDetectorOptions) (ticks : nat)
    : outcome (option k8sExporter) :=
  if negb (EnableK8sExporter npdo) then Ret None
  else
    c ← NewClient npdo;
    let '(c, _, _) := waitForAPIServerReadyWithTimeout c ticks in
    Ret (Some (mkExporter c (NewConditionManager (K8sExporterHeartbeatPeriod npdo))
                 (K8sExporterWriteEvents npdo) (K8sExporterUpdateNodeConditions npdo))).

(** ** What is exported *)

(** Recorders are kept by source, and each reports its own source. *)
Definition recorders_ok (c : nodeProblemClient API) : Prop :=
  forall s r, npcRecorders c !! s = Some r ->
    r = getEventRecorder (npcEventNamespace c) (npcNodeName c) s.

Definition recorded_as (c : nodeProblemClient API) (source : string) (e : Event)
    (message : string) : RecordedEvent :=
  mkRecorded (getEventRecorder (npcEventNamespace c) (npcNodeName c) source) (nodeRefWithUID c)
    (ConvertToAPIEventType (eSeverity e)) (eReason e) message.

Lemma Eventf_spec c ty source reason m :
  recorders_ok c ->
  recorders_ok (Eventf c ty source reason m).1 /\
  keeps_ref c (Eventf c ty source reason m).1 /\
  npcCachedNodeRef (Eventf c ty source reason m).1 = npcCachedNodeRef c /\
  (Eventf c ty source reason m).2 =
    mkRecorded (getEventRecorder (npcEventNamespace c) (npcNodeName c) source)
      (nodeRefWithUID c) ty reason (fmt_Sprintf m).
Proof.
  intros Hok. unfold Eventf. destruct (npcRecorders c !! source) as [r|] eqn:E; simpl.
  - rewrite (Hok _ _ E). split_and!; try done. exact (keeps_ref_refl c).
  - split_and!; try done; [|exact (keeps_ref_refl c)].
    intros s r Hs. simpl in Hs. apply lookup_insert_Some in Hs as [[<- <-]|[_ Hs]]; [done|].
    by apply Hok.
Qed.

Lemma sendEvents_spec c source events :
  recorders_ok c ->
  recorders_ok (sendEvents c source events).1 /\
  (sendEvents c source events).2 =
    map (fun e => recorded_as c source e (fmt_Sprintf (eMessage e))) events.
Proof.
  revert c. induction events as [|e events IH]; intros c Hok; simpl; [done|].
  destruct (Eventf_spec c (ConvertToAPIEventType (eSeverity e)) source (eReason e) (eMessage e) Hok)
    as (Hok1 & (Hr & Hn & Hns & _) & Hu & Hrec).
  destruct (Eventf c _ source _ _) as [c1 r]. cbn [fst snd] in *.
  destruct (IH c1 Hok1) as [Hok2 Hrs]. destruct (sendEvents c1 source events) as [c2 rs].
  cbn [fst snd] in *. split; [done|]. rewrite Hrec, Hrs. f_equal.
  apply map_ext. intros e'. unfold recorded_as, nodeRefWithUID. by rewrite Hn, Hns, Hr, Hu.
Qed.

(** What a status turns into.  With events enabled, the exporter records
    exactly one event per event of the status, in order, under the recorder of
    the status' source, with the converted type and the reason of the event,
    and its message verbatim when the message has no percent sign.  With
    conditions enabled, the manager's pending update of each type becomes the
    last condition of that type that is in the monitor's slice when the status
    is exported; other pending updates stay. *)
Theorem ExportProblems_spec ke st status ke' recorded :
  recorders_ok (keClient ke) ->
  Forall (fun e => no_percent (eMessage e) = true) (sEvents status) ->
  ExportProblems ke st status = (ke', recorded) ->
  recorders_ok (keClient ke') /\
  recorded = (if writeEvents ke
              then map (fun e => recorded_as (keClient ke) (sSource status) e (eMessage e))
                     (sEvents status)
              else []) /\
  (forall t, updates (keManager ke') !! t =
     if updateConditions ke then
       match last (filter (fun c => cType c = t) (read_conditions st status)) with
       | Some c => Some c
       | None => updates (keManager ke) !! t
       end
     else updates (keManager ke) !! t) /\
  conditions (keManager ke') = conditions (keManager ke).
Proof.
  intros Hok HF. unfold ExportProblems.
  destruct (sendEvents_spec (keClient ke) (sSource status) (sEvents status) Hok) as [Hok1 Hrec].
  assert (Hm : map (fun e => recorded_as (keClient ke) (sSource status) e (fmt_Sprintf (eMessage e)))
                 (sEvents status) =
               map (fun e => recorded_as (keClient ke) (sSource status) e (eMessage e))
                 (sEvents status)).
  { clear -HF. induction HF as [|e es He HF IH]; [done|]. simpl.
    by rewrite fmt_Sprintf_plain, IH. }
  assert (Hups : forall m,
    (forall t, updates (foldl UpdateCondition m (read_conditions st status)) !! t =
       match last (filter (fun c => cType c = t) (read_conditions st status)) with
       | Some c => Some c
       | None => updates m !! t
       end) /\
    conditions (foldl UpdateCondition m (read_conditions st status)) = conditions m).
  { intros m. induction (read_conditions st status) as [|c cs IH] using rev_ind; [done|].
    destruct IH as [IH1 IH2]. rewrite foldl_app. simpl. split; [|done].
    intros t. rewrite filter_app. destruct (decide (cType c = t)) as [<-|Hne].
    - rewrite lookup_insert_eq, filter_cons_True, filter_nil, last_snoc by done. done.
    - rewrite lookup_insert_ne, IH1, filter_cons_False, filter_nil, app_nil_r by done. done. }
  destruct (sendEvents _ _ _) as [c1 rs]. cbn [fst snd] in *.
  destruct (writeEvents ke); intros [= <- <-]; simpl; split_and!; try done;
    try (by rewrite Hrec, Hm); destruct (updateConditions ke); apply Hups || done.
Qed.

(** The wait for the API server does not wait: whatever the timeout, it
    asks for the node once.  When that first call fails, the error ends the
    poll at once, even if the API server would answer the next call. *)
Theorem wait_stops_at_first_error c ticks :
  (waitForAPIServerReadyWithTimeout c ticks).2 = 1 /\
  (waitForAPIServerReadyWithTimeout c ticks).1.2 =
    match GetNodeAPI (api_at 0 (npcClient c)) (npcNodeName c) with
    | Ok _ => Ok tt
    | Err e => Err e
    end.
Proof.
  unfold waitForAPIServerReadyWithTimeout. destruct ticks; simpl; unfold nodeReady, GetNode; simpl;
    destruct (GetNodeAPI _ _); done.
Qed.
End Exporter.
Arguments k8sExporter : clear implicits.

(** An event whose message has a percent sign does not arrive as written: the
    message of a status is used as a format. *)
Example percent_message_mangled :
  let ke := mkExporter sample_client (NewConditionManager hb5) true true in
  let e := mkEvent Warn 1 "ThrottlingCPU" "cpu at 100% of limit" in
  map reMessage (ExportProblems ke ∅ (mkStatus "kernel-monitor" [e] 0)).2 =
  ["cpu at 100%!o(MISSING)f limit"].
Proof. vm_compute. reflexivity. Qed.

Lemma ExportProblems_spec_witness :
  let ke := mkExporter sample_client (NewConditionManager hb5) true true in
  let e := mkEvent Warn 1 "OOMKilling" "killed" in
  updates (keManager (ExportProblems ke {[ 3 := [oom; ro] ]}
             (mkStatus "kernel-monitor" [e] 3)).1) !! "OOM" = Some oom.
Proof.
  intros ke e.
  destruct (ExportProblems ke {[ 3 := [oom; ro] ]} (mkStatus "kernel-monitor" [e] 3))
    as [ke' rec] eqn:E.
  destruct (ExportProblems_spec ke {[ 3 := [oom; ro] ]} (mkStatus "kernel-monitor" [e] 3) ke' rec)
    as (_ & _ & H & _).
  - intros s r Hs. vm_compute in Hs. discriminate.
  - repeat constructor.
  - exact E.
  - simpl. rewrite H. vm_compute. reflexivity.
Defined.
