(* ===== verification/ProblemDetector.v ===== *)
(** The problem detector ([pkg/problemdetector]), the life cycle of its monitors
    ([pkg/util/tomb]), the Prometheus exporter's constructor and the main
    function that puts the parts together.

    Start-up is a function.  The running system is a step relation: monitors
    send statuses, one forwarding goroutine per channel moves them to the merged
    channel, and the loop of [Run] hands each to every exporter.  Shutdown is a
    second step relation, of the deferred stops against the monitors' own
    goroutines. *)

From S2P Require Import Prelude GoStrings GoTime GoConv Types Options.

(** ** Tombs *)

(* @ pkg/util/tomb/tomb.go:19-23 Tomb *)
Record Tomb : Type := mkTomb { tStopClosed : bool; tDoneClosed : bool }.

(* @ pkg/util/tomb/tomb.go:25-31 NewTomb *)
Definition NewTomb : Tomb := mkTomb false false.

(** [close(t.stop)], the first half of [Stop]; the second half, the receive
    from [done], is enabled by [Stop_returns]. *)
(* @ pkg/util/tomb/tomb.go:33-37 Stop *)
Definition Tomb_Stop_close (t : Tomb) : outcome Tomb :=
  if tStopClosed t then Panic "close of closed channel" else Ret (mkTomb true (tDoneClosed t)).
Definition Tomb_Stop_returns (t : Tomb) : bool := tDoneClosed t.

(* @ pkg/util/tomb/tomb.go:39-42 Stopping *)
Definition Tomb_Stopping (t : Tomb) : bool := tStopClosed t.

(* @ pkg/util/tomb/tomb.go:44-47 Done *)
Definition Tomb_Done (t : Tomb) : outcome Tomb :=
  if tDoneClosed t then Panic "close of closed channel" else Ret (mkTomb (tStopClosed t) true).

(** ** Start-up *)

(** What [Start] of a monitor returned: an error, or a channel that may be nil
    (a monitor that only reports metrics). *)
Abbreviation StartResult := (result bool) (only parsing).

(** The loop over the monitors: the indices of those with a channel, and the
    number of failures. *)
Fixpoint startMonitors (i : nat) (starts : list StartResult) : list nat * nat :=
  match starts with
  | [] => ([], 0)
  | r :: starts =>
    let '(chans, failures) := startMonitors (S i) starts in
    match r with
    | Err _ => (chans, S failures)
    | Ok true => (i :: chans, failures)
    | Ok false => (chans, failures)
    end
  end.

(* @ pkg/problemdetector/problem_detector.go:47-76 Run *)
Definition RunStart (starts : list StartResult) : result (list nat) :=
  let '(chans, failureCount) := startMonitors 0 starts in
  if length starts =? failureCount then Err "no problem daemon is successfully setup"
  else Ok chans.

Lemma startMonitors_spec i starts :
  (startMonitors i starts).2 = length (filter (fun r => is_ok r = false) starts) /\
  forall k, k ∈ (startMonitors i starts).1 <->
    i <= k /\ starts !! (k - i) = Some (Ok true).
Proof.
  revert i. induction starts as [|r starts IH]; intros i; cbn [startMonitors].
  { split; [done|]. intros k. simpl. split; [by intros ?%elem_of_nil | by intros [_ ?]]. }
  destruct (IH (S i)) as [IH1 IH2]. destruct (startMonitors (S i) starts) as [chans f].
  cbn [fst snd] in *. subst f.
  assert (Hsplit : forall k, (i <= k /\ (r :: starts) !! (k - i) = Some (Ok true)) <->
            (k = i /\ r = Ok true) \/ k ∈ chans).
  { intros k. rewrite IH2. destruct (decide (k = i)) as [->|Hne].
    - rewrite Nat.sub_diag. simpl. split; [intros [_ [= ->]]; by left|].
      intros [[_ ->]|[? _]]; [done | lia].
    - split.
      + intros [Hle Hk]. right. replace (k - i) with (S (k - S i)) in Hk by lia.
        split; [lia | done].
      + intros [[? _]|[Hle Hk]]; [done|]. split; [lia|].
        by replace (k - i) with (S (k - S i)) by lia. }
  destruct r as [[]|e]; simpl; (split; [done || by rewrite filter_cons_True|]);
    intros k; rewrite Hsplit; rewrite ?elem_of_cons; naive_solver.
Qed.

(** Start-up fails exactly when every monitor failed to start (or there is
    none); otherwise the detector listens to exactly the monitors that started
    with a status channel. *)
Theorem RunStart_spec starts :
  match RunStart starts with
  | Err _ => Forall (fun r => is_ok r = false) starts
  | Ok chans => Exists (fun r => is_ok r = true) starts /\
      forall k, k ∈ chans <-> starts !! k = Some (Ok true)
  end.
Proof.
  unfold RunStart. destruct (startMonitors_spec 0 starts) as [H1 H2].
  destruct (startMonitors 0 starts) as [chans f]. cbn [fst snd] in *. subst f.
  destruct (Nat.eqb_spec (length starts) (length (filter (fun r => is_ok r = false) starts)))
    as [E|E].
  - symmetry in E. apply Forall_forall. intros r Hr.
    assert (Hf : filter (fun r => is_ok r = false) starts = starts).
    { clear -E. induction starts as [|r starts IH]; [done|].
      destruct (decide (is_ok r = false)) as [Hr|Hr].
      - rewrite filter_cons_True in E |- * by done. f_equal. apply IH. by injection E.
      - rewrite filter_cons_False in E by done.
        match type of E with length (filter ?P ?l) = _ => pose proof (length_filter P l) end.
        cbn [length] in E. lia. }
    rewrite <- Hf in Hr. by apply list_elem_of_filter in Hr as [? _].
  - split.
    + destruct (decide (Exists (fun r => is_ok r = true) starts)) as [|Hn]; [done|].
      destruct E. clear -Hn. induction starts as [|r starts IH]; [done|].
      rewrite Exists_cons in Hn. destruct (is_ok r) eqn:Er; [tauto|].
      rewrite filter_cons_True by done. simpl. f_equal. apply IH. tauto.
    + intros k. rewrite H2, Nat.sub_0_r. split; [by intros [_ ?]|]. split; [lia | done].
Qed.

(** ** Merging the channels *)
Section Merge.
Context {E : Type}.
(** [ExportProblems] of one exporter. *)
Variable exportProblems : E -> Status -> E.

(** A monitor's channel with its forwarder: what is in the channel, and what
    the forwarder holds between its receive and its send. *)
Record lane : Type := mkLane { queue : list Status; held : option Status }.

Record detector : Type := mkDetector { lanes : list lane; exporters : list E }.

Inductive daction : Type :=
| DSend (i : nat) (s : Status)       (* monitor i sends *)
| DTake (i : nat)                    (* forwarder i receives *)
| DDeliver (i : nat) (s : Status).   (* forwarder i's send meets the loop of Run *)

(** The forwarders of [groupChannel] and the loop of [Run].  A monitor can always
    send here: these runs include those of the channels with room for 1000, which
    are those of [Pipeline]. *)
(* @ pkg/problemdetector/problem_detector.go:76-101 groupChannel *)
Inductive dstep : detector -> daction -> detector -> Prop :=
| dstep_send ls es i l s :
    ls !! i = Some l ->
    dstep (mkDetector ls es) (DSend i s)
      (mkDetector (<[i := mkLane (queue l ++ [s]) (held l)]> ls) es)
| dstep_take ls es i s q :
    ls !! i = Some (mkLane (s :: q) None) ->
    dstep (mkDetector ls es) (DTake i) (mkDetector (<[i := mkLane q (Some s)]> ls) es)
| dstep_deliver ls es i s q :
    ls !! i = Some (mkLane q (Some s)) ->
    dstep (mkDetector ls es) (DDeliver i s)
      (mkDetector (<[i := mkLane q None]> ls) (map (fun e => exportProblems e s) es)).

Inductive dsteps : detector -> list daction -> detector -> Prop :=
| dsteps_nil d : dsteps d [] d
| dsteps_snoc d tr d' a d'' : dsteps d tr d' -> dstep d' a d'' -> dsteps d (tr ++ [a]) d''.

Definition initial_detector (n : nat) (es : list E) : detector :=
  mkDetector (replicate n (mkLane [] None)) es.

(** What monitor [i] sent, what of it was delivered, and all deliveries. *)
Definition sent (i : nat) (tr : list daction) : list Status :=
  omap (fun a => match a with DSend j s => if decide (j = i) then Some s else None | _ => None end) tr.
Definition delivered_of (i : nat) (tr : list daction) : list Status :=
  omap (fun a => match a with DDeliver j s => if decide (j = i) then Some s else None
                            | _ => None end) tr.
Definition delivered (tr : list daction) : list Status :=
  omap (fun a => match a with DDeliver _ s => Some s | _ => None end) tr.

Definition pending (l : lane) : list Status := option_list (held l) ++ queue l.

Lemma omap_snoc {A B} (f : A -> option B) l x :
  omap f (l ++ [x]) = omap f l ++ option_list (f x).
Proof. rewrite omap_app. simpl. by destruct (f x). Qed.

Lemma lane_invariant n es tr d i l :
  dsteps (initial_detector n es) tr d -> lanes d !! i = Some l ->
  sent i tr = delivered_of i tr ++ pending l.
Proof.
  remember (initial_detector n es) as d0 eqn:E0. intros Hs. revert i l.
  induction Hs as [d|d tr d' a d'' Hs IH Hst]; subst; intros i l Hl.
  { simpl in Hl. apply lookup_replicate in Hl as [-> _]. done. }
  specialize (IH eq_refl). unfold sent, delivered_of. rewrite !omap_snoc.
  fold (sent i tr) (delivered_of i tr).
  inversion Hst as [ls es' j l' s Hj | ls es' j s q Hj | ls es' j s q Hj]; subst; simpl in *.
  - destruct (decide (j = i)) as [->|Hne]; simpl; rewrite ?app_nil_r.
    + rewrite list_lookup_insert_eq in Hl by (by eapply lookup_lt_Some). simplify_eq.
      rewrite (IH _ _ Hj), <- app_assoc. f_equal. unfold pending. simpl. by rewrite app_assoc.
    + rewrite list_lookup_insert_ne in Hl by done. by apply IH.
  - rewrite !app_nil_r. destruct (decide (j = i)) as [->|Hne].
    + rewrite list_lookup_insert_eq in Hl by (by eapply lookup_lt_Some). simplify_eq.
      by rewrite (IH _ _ Hj).
    + rewrite list_lookup_insert_ne in Hl by done. by apply IH.
  - rewrite app_nil_r. destruct (decide (j = i)) as [->|Hne]; simpl; rewrite ?app_nil_r.
    + rewrite list_lookup_insert_eq in Hl by (by eapply lookup_lt_Some). simplify_eq.
      rewrite (IH _ _ Hj), <- app_assoc. done.
    + rewrite list_lookup_insert_ne in Hl by done. by apply IH.
Qed.

Lemma exporters_invariant n es tr d :
  dsteps (initial_detector n es) tr d ->
  exporters d = map (fun e => foldl exportProblems e (delivered tr)) es.
Proof.
  remember (initial_detector n es) as d0 eqn:E0.
  induction 1 as [d|d tr d' a d'' Hs IH Hst]; subst; [by rewrite map_id|].
  specialize (IH eq_refl). unfold delivered. rewrite omap_snoc. fold (delivered tr).
  inversion Hst as [ls es' j l' s Hj | ls es' j s q Hj | ls es' j s q Hj]; subst; simpl in *;
    subst; rewrite ?app_nil_r; try done.
  rewrite map_map. apply map_ext. intros e. by rewrite foldl_app.
Qed.

(** C8.  No status is lost, duplicated or reordered between a monitor and the
    exporters, under any interleaving of monitors, forwarders and the loop: in
    every reachable state, what a monitor sent is what of it was delivered, then
    the status its forwarder holds, then the contents of its channel; and every
    exporter has been given exactly the delivered statuses, in order. *)
Theorem statuses_fifo_per_monitor n es tr d i l :
  dsteps (initial_detector n es) tr d -> lanes d !! i = Some l ->
  sent i tr = delivered_of i tr ++ option_list (held l) ++ queue l /\
  exporters d = map (fun e => foldl exportProblems e (delivered tr)) es.
Proof. intros Hs Hl. split; [by eapply lane_invariant | by eapply exporters_invariant]. Qed.
End Merge.
Arguments detector : clear implicits.

(** ** Shutdown *)

(** A monitor at shutdown: its tomb, and whether its loop is running. *)
Record mon : Type := mkMon { mTomb : Tomb; mRunning : bool }.

(** The deferred function of [Run]: stopping monitor [next]; [waiting] when its
    stop channel is closed and its done channel awaited. *)
Record shutdown : Type := mkShutdown { mons : list mon; next : nat; waiting : bool }.

(* @ pkg/problemdetector/problem_detector.go:70-74 Run.func1 *)
Inductive sstep : shutdown -> shutdown -> Prop :=
| sstep_close ms k m t :
    ms !! k = Some m -> Tomb_Stop_close (mTomb m) = Ret t ->
    sstep (mkShutdown ms k false) (mkShutdown (<[k := mkMon t (mRunning m)]> ms) k true)
| sstep_return ms k m :
    ms !! k = Some m -> Tomb_Stop_returns (mTomb m) = true ->
    sstep (mkShutdown ms k true) (mkShutdown ms (S k) false)
| sstep_exit ms k w j m t :
    (* the loop of a monitor ends: it sees the stop, or its input closed *)
    ms !! j = Some m -> mRunning m = true -> Tomb_Done (mTomb m) = Ret t ->
    sstep (mkShutdown ms k w) (mkShutdown (<[j := mkMon t false]> ms) k w).

(** A monitor after start-up: its loop runs if and only if [Start] succeeded. *)
Definition started (r : StartResult) : mon := mkMon NewTomb (is_ok r).

Definition begin_shutdown (starts : list StartResult) : shutdown :=
  mkShutdown (started <$> starts) 0 false.
Definition finished (s : shutdown) : Prop := next s = length (mons s) /\ waiting s = false.

(** A monitor is alive or done. *)
Definition mon_ok (m : mon) : Prop :=
  (mRunning m = true /\ tDoneClosed (mTomb m) = false) \/ tDoneClosed (mTomb m) = true.

Record ShutInv (s : shutdown) : Prop := {
  si_ok : Forall mon_ok (mons s);
  si_open : forall j m, mons s !! j = Some m -> next s < j \/ (next s = j /\ waiting s = false) ->
    tStopClosed (mTomb m) = false;
  si_next : next s <= length (mons s);
  si_wait : waiting s = true -> next s < length (mons s)
}.

Lemma ShutInv_begin starts :
  Forall (fun r => is_ok r = true) starts -> ShutInv (begin_shutdown starts).
Proof.
  intros HF. constructor; simpl; try lia; try done.
  - rewrite Forall_fmap. eapply Forall_impl; [exact HF|]. intros r Hr. left. by simpl.
  - intros j m Hj _. apply list_lookup_fmap_Some in Hj as (r & -> & _). done.
Qed.

Lemma ShutInv_step s s' : ShutInv s -> sstep s s' -> ShutInv s'.
Proof.
  intros [H1 H2 H3 H4] Hst.
  inversion Hst as [ms k m t Hm Ht | ms k m Hm Ht | ms k w j m t Hm Hr Ht]; subst; simpl in *.
  - unfold Tomb_Stop_close in Ht. destruct (tStopClosed (mTomb m)) eqn:E; [done|]. simplify_eq.
    pose proof (lookup_lt_Some _ _ _ Hm) as Hlt.
    constructor; simpl; rewrite ?length_insert; try lia.
    + apply Forall_insert; [done|]. by apply (Forall_lookup_1 _ _ _ _ H1 Hm).
    + intros j m' Hj [Hlt'|[_ ?]]; [|done]. rewrite list_lookup_insert_ne in Hj by lia.
      eapply H2; [done | by left].
  - pose proof (lookup_lt_Some _ _ _ Hm) as Hlt. constructor; simpl; try done.
    intros j m' Hj Hx. eapply H2; [done | left; lia].
  - unfold Tomb_Done in Ht. destruct (tDoneClosed (mTomb m)) eqn:E; [done|]. simplify_eq.
    constructor; simpl; rewrite ?length_insert; try done.
    + apply Forall_insert; [done|]. by right.
    + intros j' m' Hj Hx. destruct (decide (j' = j)) as [->|Hne].
      * rewrite list_lookup_insert_eq in Hj by (by eapply lookup_lt_Some). simplify_eq. simpl.
        by eapply H2.
      * rewrite list_lookup_insert_ne in Hj by done. by eapply H2.
Qed.

(** Steps left: one exit per running loop, two per monitor still to stop. *)
Lemma ShutInv_progress s :
  ShutInv s -> ~ finished s -> exists s', sstep s s'.
Proof.
  intros [H1 H2 H3 H4] Hnf. destruct s as [ms k w]; simpl in *.
  destruct w.
  - destruct (lookup_lt_is_Some_2 ms k (H4 eq_refl)) as [m Hm].
    destruct (Forall_lookup_1 _ _ _ _ H1 Hm) as [[Hr Hd]|Hd].
    + eexists. eapply sstep_exit; [done | done |]. unfold Tomb_Done. by rewrite Hd.
    + eexists. by eapply sstep_return.
  - assert (Hlt : k < length ms).
    { apply Nat.lt_eq_cases in H3 as [?| ->]; [done|]. destruct Hnf. done. }
    destruct (lookup_lt_is_Some_2 ms k Hlt) as [m Hm].
    eexists. eapply sstep_close; [done|]. unfold Tomb_Stop_close.
    rewrite (H2 k m Hm) by (right; done). done.
Qed.

Definition measure (s : shutdown) : nat :=
  length (filter (fun m => mRunning m = true) (mons s)) +
  2 * (length (mons s) - next s) - (if waiting s then 1 else 0).

Lemma running_insert ms j m t :
  ms !! j = Some m -> mRunning m = true ->
  length (filter (fun m => mRunning m = true) ms) =
  S (length (filter (fun m => mRunning m = true) (<[j := mkMon t false]> ms))).
Proof.
  revert j. induction ms as [|x ms IH]; intros [|j] Hm Hr; simpl in Hm; try done.
  - simplify_eq. simpl. rewrite filter_cons_True, filter_cons_False by done. done.
  - simpl. destruct (decide (mRunning x = true)) as [Hx|Hx].
    + rewrite !filter_cons_True by done. simpl. f_equal. by apply IH.
    + rewrite !filter_cons_False by done. by apply IH.
Qed.

Lemma running_keep ms k m t :
  ms !! k = Some m ->
  length (filter (fun m => mRunning m = true) (<[k := mkMon t (mRunning m)]> ms)) =
  length (filter (fun m => mRunning m = true) ms).
Proof.
  revert k. induction ms as [|x ms IH]; intros [|k] Hm; simpl in Hm; try done.
  - simplify_eq. simpl. destruct (decide (mRunning m = true)) as [Hx|Hx].
    + by rewrite !filter_cons_True.
    + by rewrite !filter_cons_False.
  - simpl. destruct (decide (mRunning x = true)) as [Hx|Hx].
    + rewrite !filter_cons_True by done. simpl. by rewrite IH.
    + rewrite !filter_cons_False by done. by apply IH.
Qed.

Lemma measure_decreases s s' : ShutInv s -> sstep s s' -> measure s' < measure s.
Proof.
  intros [_ _ H3 H4] Hst. unfold measure.
  inversion Hst as [ms k m t Hm Ht | ms k m Hm Ht | ms k w j m t Hm Hr Ht]; subst; simpl in *.
  - rewrite length_insert, (running_keep ms k m t Hm).
    pose proof (lookup_lt_Some _ _ _ Hm). lia.
  - pose proof (lookup_lt_Some _ _ _ Hm). lia.
  - rewrite length_insert, (running_insert ms j m t Hm Hr). destruct w; simpl in *; [|lia].
    specialize (H4 eq_refl). lia.
Qed.

Lemma reachable_ShutInv starts s :
  Forall (fun r => is_ok r = true) starts -> rtc sstep (begin_shutdown starts) s -> ShutInv s.
Proof.
  intros HF Hr. apply ShutInv_begin in HF. revert HF.
  induction Hr as [|s1 s2 s3 Hst Hr IH]; [done|]. intros HI. by eapply IH, ShutInv_step.
Qed.

(** When every monitor started, shutdown completes: in every reachable
    state of the deferred stops, either all monitors are stopped or some step is
    possible, and every step brings the end nearer. *)
Theorem shutdown_completes starts s :
  Forall (fun r => is_ok r = true) starts -> rtc sstep (begin_shutdown starts) s ->
  (finished s \/ exists s', sstep s s') /\
  (forall s', sstep s s' -> measure s' < measure s).
Proof.
  intros HF Hr. pose proof (reachable_ShutInv starts s HF Hr) as HI. split.
  - destruct (decide (next s = length (mons s))) as [E|E].
    + destruct (waiting s) eqn:Ew; [|by left].
      pose proof (si_wait s HI Ew). lia.
    + right. apply ShutInv_progress; [done|]. by intros [? _].
  - intros s'. by apply measure_decreases.
Qed.

(** C40.  When one monitor failed to start, shutdown never completes: the
    detector still stops it, and nobody closes the done channel of its tomb. *)
Theorem shutdown_hangs_after_failed_start starts k e s :
  starts !! k = Some (Err e) -> rtc sstep (begin_shutdown starts) s -> ~ finished s.
Proof.
  intros Hk Hr.
  assert (HI : exists m, mons s !! k = Some m /\ mRunning m = false /\
                         tDoneClosed (mTomb m) = false /\ next s <= k).
  { assert (H0 : exists m, mons (begin_shutdown starts) !! k = Some m /\ mRunning m = false /\
              tDoneClosed (mTomb m) = false /\ next (begin_shutdown starts) <= k).
    { exists (started (Err e)). simpl. rewrite list_lookup_fmap, Hk. simpl.
      split_and!; [done..|lia]. }
    revert H0. induction Hr as [|s1 s2 s3 Hst Hr IH]; [done|]. intros (m & Hm & H1 & H2 & H3).
    apply IH. inversion Hst as [ms j m' t Hm' Ht | ms j m' Hm' Ht | ms j w i m' t Hm' Hr' Ht];
      subst; simpl in *.
    - unfold Tomb_Stop_close in Ht. destruct (tStopClosed _); [done|]. simplify_eq.
      destruct (decide (j = k)) as [->|Hne].
      + exists (mkMon (mkTomb true (tDoneClosed (mTomb m))) (mRunning m)).
        rewrite list_lookup_insert_eq by (by eapply lookup_lt_Some). simplify_eq. done.
      + exists m. by rewrite list_lookup_insert_ne.
    - exists m. split_and!; try done. destruct (decide (j = k)) as [->|]; [|lia].
      unfold Tomb_Stop_returns in Ht. simplify_eq. congruence.
    - exists m. split_and!; try done. destruct (decide (i = k)) as [->|Hne].
      + simplify_eq. congruence.
      + by rewrite list_lookup_insert_ne. }
  destruct HI as (m & Hm & _ & _ & Hn). intros [Hf _]. apply lookup_lt_Some in Hm. lia.
Qed.

(** ** The main function *)
Section Main.
Context {Monitor Exporter CommandLineOptions : Type}.

(** The Prometheus library's exporter, if it can be created. *)
Variable prometheus_NewExporter : result Exporter.

(** The address that the metrics are served on, and the exporter. *)
(* @ pkg/exporters/prometheusexporter/prometheus_exporter.go:34-54 NewExporterOrDie *)
Definition prometheus_NewExporterOrDie (npdo : NodeProblemDetectorOptions)
    : outcome (option (string * Exporter)) :=
  if (PrometheusServerPort npdo <=? 0)%Z then Ret None
  else
    let addr := JoinHostPort (PrometheusServerAddress npdo) (format_int (PrometheusServerPort npdo)) in
    match prometheus_NewExporter with
    | Err _ => Panic "Failed to create Prometheus exporter"
    | Ok pe => Ret (Some (addr, pe))
    end.

(** The goroutine that serves the metrics: the server returns with an error, or
    not at all ([None]). *)
(* @ pkg/exporters/prometheusexporter/prometheus_exporter.go:45-51 NewExporterOrDie.func1 *)
Definition serve_metrics (http_ListenAndServe : string -> option (result unit)) (addr : string) : outcome unit :=
  match http_ListenAndServe addr with
  | Some (Err _) => Panic "Failed to start Prometheus scrape endpoint"
  | Some (Ok _) | None => Ret tt
  end.

Variable url_Parse_ok : string -> bool.
Variable os_Getenv : string -> string.
Variable os_Hostname : result string.
Variable k8s_NewExporterOrDie : NodeProblemDetectorOptions -> outcome (option Exporter).
Variable daemonHandlers : gmap string (ProblemDaemonHandler (Monitor := Monitor)).
Variable exporterHandlers : gmap string (ExporterHandler Exporter CommandLineOptions).

(** [npdMain] up to the call of [Run]: the daemons and the exporters it is
    given; [None] when only the version is printed. *)
(* @ cmd/nodeproblemdetector/node_problem_detector.go:36-76 npdMain *)
Definition npdMain (npdo : NodeProblemDetectorOptions) (pathOrder exporterOrder : list string)
    : outcome (option (list Monitor * list Exporter)) :=
  if PrintVersion npdo then Ret None
  else
    npdo ← SetNodeNameOrDie os_Getenv os_Hostname npdo;
    npdo ← SetConfigFromDeprecatedOptionsOrDie npdo;
    _ ← ValidOrDie url_Parse_ok npdo pathOrder;
    problemDaemons ← NewProblemDaemons daemonHandlers (MonitorConfigPaths npdo) pathOrder;
    if length problemDaemons =? 0 then Panic "No problem daemon is configured"
    else
      ke ← k8s_NewExporterOrDie npdo;
      pe ← prometheus_NewExporterOrDie npdo;
      let defaultExporters := option_list ke ++ option_list (snd <$> pe) in
      plugable ← NewExporters exporterHandlers exporterOrder;
      let npdExporters := defaultExporters ++ plugable in
      if length npdExporters =? 0 then Panic "No exporter is successfully setup"
      else Ret (Some (problemDaemons, npdExporters)).

Lemma SetNodeName_paths npdo npdo' :
  SetNodeNameOrDie os_Getenv os_Hostname npdo = Ret npdo' ->
  MonitorConfigPaths npdo' = MonitorConfigPaths npdo /\
  SystemLogMonitorConfigPaths npdo' = SystemLogMonitorConfigPaths npdo /\
  CustomPluginMonitorConfigPaths npdo' = CustomPluginMonitorConfigPaths npdo.
Proof.
  unfold SetNodeNameOrDie. repeat case_match; intros [= <-]; done.
Qed.

End Main.

(** ** Witnesses *)
Definition stat (n : Z) : Status := mkStatus "m" [mkEvent Info n "r" ""] 0.

Lemma statuses_fifo_per_monitor_witness :
  sent 0 [DSend 0 (stat 1); DSend 0 (stat 2); DTake 0; DDeliver 0 (stat 1)] =
    [stat 1] ++ [] ++ [stat 2] /\ [[stat 1]] = map (fun e => foldl (fun l s => l ++ [s]) e [stat 1]) [[]].
Proof.
  apply (statuses_fifo_per_monitor (fun l s => l ++ [s]) 2 [[]]
    [DSend 0 (stat 1); DSend 0 (stat 2); DTake 0; DDeliver 0 (stat 1)]
    (mkDetector [mkLane [stat 2] None; mkLane [] None] [[stat 1]]) 0 (mkLane [stat 2] None)).
  - set (f := fun (l : list Status) s => l ++ [s]).
    pose (L := fun l0 : lane => [l0; mkLane [] None]).
    pose proof (dstep_send f (L (mkLane [] None)) [[]] 0 _ (stat 1) eq_refl) as S1.
    pose proof (dstep_send f (L (mkLane [stat 1] None)) [[]] 0 _ (stat 2) eq_refl) as S2.
    pose proof (dstep_take f (L (mkLane [stat 1; stat 2] None)) [[]] 0 _ _ eq_refl) as S3.
    pose proof (dstep_deliver f (L (mkLane [stat 2] (Some (stat 1)))) [[]] 0 _ _ eq_refl) as S4.
    pose proof (dsteps_nil f (initial_detector 2 [[]])) as T0.
    pose proof (dsteps_snoc f _ _ _ _ _ T0 S1) as T1.
    pose proof (dsteps_snoc f _ _ _ _ _ T1 S2) as T2.
    pose proof (dsteps_snoc f _ _ _ _ _ T2 S3) as T3.
    exact (dsteps_snoc f _ _ _ _ _ T3 S4).
  - reflexivity.
Defined.

Lemma shutdown_completes_witness :
  finished (begin_shutdown [Ok true]) \/ exists s', sstep (begin_shutdown [Ok true]) s'.
Proof.
  apply (shutdown_completes [Ok true] (begin_shutdown [Ok true])).
  - repeat constructor.
  - apply rtc_refl.
Defined.

Lemma shutdown_hangs_after_failed_start_witness :
  RunStart [Ok true; Err "no such file"] = Ok [0] /\
  ~ finished (begin_shutdown [Ok true; Err "no such file"]).
Proof.
  split; [reflexivity|].
  apply (shutdown_hangs_after_failed_start [Ok true; Err "no such file"] 1 "no such file").
  - reflexivity.
  - apply rtc_refl.
Defined.

