(* ===== verification/CustomPluginConfig.v ===== *)
(** The configuration of the custom plugin monitor
    ([pkg/custompluginmonitor/types]): defaults and validation.

    Optional JSON fields are [option]s, as the Go pointers are.  The rules are
    values: a null entry in the rules is not modelled. *)

From S2P Require Import Prelude GoStrings GoTime Types.

Module Cpm.

(* @ pkg/custompluginmonitor/types/types.go:25-31 Status *)
Definition Status : Type := Z.
Definition OK : Status := 0%Z.
Definition NonOK : Status := 1%Z.
Definition Unknown : Status := 2%Z.

(* @ pkg/custompluginmonitor/types/types.go:40-62 CustomRule *)
Record CustomRule : Type := mkCustomRule {
  crType : ProblemType;
  crCondition : string;
  crReason : string;
  crPath : string;
  crArgs : list string;
  crTimeoutString : option string;
  crTimeout : option Duration;
  crInvokeIntervalString : option string;
  crInvokeInterval : option Duration
}.

(* @ pkg/custompluginmonitor/types/types.go:33-38 Result *)
Record Result : Type := mkResult { resRule : CustomRule; resExitStatus : Status; resMessage : string }.

#[export] Instance CustomRule_eq_dec : EqDecision CustomRule.
Proof. solve_decision. Defined.

(* @ pkg/custompluginmonitor/types/config.go:41-58 pluginGlobalConfig *)
Record pluginGlobalConfig : Type := mkGlobal {
  InvokeIntervalString : option string;
  TimeoutString : option string;
  InvokeInterval : option Duration;
  Timeout : option Duration;
  MaxOutputLength : option Z;
  Concurrency : option Z;
  EnableMessageChangeBasedConditionUpdate : option bool;
  SkipInitialStatus : option bool
}.

(* @ pkg/custompluginmonitor/types/config.go:60-75 CustomPluginConfig *)
Record CustomPluginConfig : Type := mkCustomPluginConfig {
  cpcPlugin : string;
  cpcGlobal : pluginGlobalConfig;
  cpcSource : string;
  cpcDefaultConditions : list Condition;
  cpcRules : list CustomRule;
  cpcEnableMetricsReporting : option bool
}.

(* @ pkg/custompluginmonitor/types/config.go:27-39 defaults *)
Definition defaultGlobalTimeout : Duration := (5 * Second)%Z.
Definition defaultGlobalTimeoutString : string := Duration_String defaultGlobalTimeout.
Definition defaultInvokeInterval : Duration := (30 * Second)%Z.
Definition defaultInvokeIntervalString : string := Duration_String defaultInvokeInterval.
Definition defaultMaxOutputLength : Z := 80.
Definition defaultConcurrency : Z := 3.
Definition defaultMessageChangeBasedConditionUpdate : bool := false.
Definition defaultCpmMetricsReporting : bool := true.
Definition defaultSkipInitialStatus : bool := false.
Definition customPluginName : string := "custom".

(** An optional duration string, parsed. *)
Definition parse_optional (s : option string) (old : option Duration) (err : string)
    : result (option Duration) :=
  match s with
  | None => Ok old
  | Some s => match ParseDuration s with Ok d => Ok (Some d) | Err _ => Err err end
  end.

(** The loop body over the rules. *)
Definition applyRule (rule : CustomRule) : result CustomRule :=
  timeout ← parse_optional (crTimeoutString rule) (crTimeout rule) "error in parsing rule timeout";
  interval ← parse_optional (crInvokeIntervalString rule) (crInvokeInterval rule)
               "error in parsing rule invoke interval";
  Ok (mkCustomRule (crType rule) (crCondition rule) (crReason rule) (crPath rule) (crArgs rule)
        (crTimeoutString rule) timeout (crInvokeIntervalString rule) interval).

Fixpoint applyRules (rules : list CustomRule) : result (list CustomRule) :=
  match rules with
  | [] => Ok []
  | rule :: rules =>
    rule ← applyRule rule;
    rest ← applyRules rules;
    Ok (rule :: rest)
  end.

Definition or_default {A} (o : option A) (d : A) : option A := Some (default d o).

(* @ pkg/custompluginmonitor/types/config.go:77-137 ApplyConfiguration *)
Definition ApplyConfiguration (cpc : CustomPluginConfig) : result CustomPluginConfig :=
  let g := cpcGlobal cpc in
  let timeoutString := default defaultGlobalTimeoutString (TimeoutString g) in
  match ParseDuration timeoutString with
  | Err _ => Err "error in parsing global timeout"
  | Ok timeout =>
    let intervalString := default defaultInvokeIntervalString (InvokeIntervalString g) in
    match ParseDuration intervalString with
    | Err _ => Err "error in parsing invoke interval"
    | Ok invokeInterval =>
      let g := {| InvokeIntervalString := Some intervalString;
                  TimeoutString := Some timeoutString;
                  InvokeInterval := Some invokeInterval;
                  Timeout := Some timeout;
                  MaxOutputLength := or_default (MaxOutputLength g) defaultMaxOutputLength;
                  Concurrency := or_default (Concurrency g) defaultConcurrency;
                  EnableMessageChangeBasedConditionUpdate :=
                    or_default (EnableMessageChangeBasedConditionUpdate g)
                      defaultMessageChangeBasedConditionUpdate;
                  SkipInitialStatus :=
                    or_default (SkipInitialStatus g) defaultSkipInitialStatus |} in
      rules ← applyRules (cpcRules cpc);
      Ok {| cpcPlugin := cpcPlugin cpc; cpcGlobal := g; cpcSource := cpcSource cpc;
            cpcDefaultConditions := cpcDefaultConditions cpc; cpcRules := rules;
            cpcEnableMetricsReporting :=
              or_default (cpcEnableMetricsReporting cpc) defaultCpmMetricsReporting |}
    end
  end.

Section Validation.
(** [os.Stat] reports that the path does not exist. *)
Variable path_missing : string -> bool.

(** The first loop: intervals and timeouts of the rules. *)
Fixpoint validateTimes (global : option Duration) (rules : list CustomRule)
    : outcome (result unit) :=
  match rules with
  | [] => Ret (Ok tt)
  | rule :: rules =>
    if match crInvokeInterval rule with Some i => (i <=? 0)%Z | None => false end
    then Ret (Err "rule invoke interval must be greater than zero")
    else
      match crTimeout rule with
      | None => validateTimes global rules
      | Some t =>
        g ← deref global;
        if (g <? t)%Z then Ret (Err "plugin timeout is greater than global timeout")
        else validateTimes global rules
      end
  end.

Definition has_default (conds : list Condition) (rule : CustomRule) : bool :=
  existsb (fun cond => String.eqb (crCondition rule) (cType cond)) conds.

(* @ pkg/custompluginmonitor/types/config.go:139-182 Validate *)
Definition Validate (cpc : CustomPluginConfig) : outcome (result unit) :=
  if negb (String.eqb (cpcPlugin cpc) customPluginName) then Ret (Err "NPD does not support the plugin")
  else
    interval ← deref (InvokeInterval (cpcGlobal cpc));
    if (interval <=? 0)%Z then Ret (Err "global invoke interval must be greater than zero")
    else
      r ← validateTimes (Timeout (cpcGlobal cpc)) (cpcRules cpc);
      match r with
      | Err e => Ret (Err e)
      | Ok _ =>
        if existsb (fun rule => path_missing (crPath rule)) (cpcRules cpc)
        then Ret (Err "rule path does not exist")
        else if existsb (fun rule => String.eqb (crType rule) Perm
                          && negb (has_default (cpcDefaultConditions cpc) rule)) (cpcRules cpc)
        then Ret (Err "permanent problem does not have preset default condition")
        else Ret (Ok tt)
      end.

(** ** What they establish *)

(** A configuration a monitor can run with. *)
Record runnable (cpc : CustomPluginConfig) (timeout interval : Duration) : Prop := {
  run_timeout : Timeout (cpcGlobal cpc) = Some timeout;
  run_interval : InvokeInterval (cpcGlobal cpc) = Some interval;
  run_max_output : is_Some (MaxOutputLength (cpcGlobal cpc));
  run_concurrency : is_Some (Concurrency (cpcGlobal cpc));
  run_message : is_Some (EnableMessageChangeBasedConditionUpdate (cpcGlobal cpc));
  run_skip : is_Some (SkipInitialStatus (cpcGlobal cpc));
  run_metrics : is_Some (cpcEnableMetricsReporting cpc)
}.

Lemma ApplyConfiguration_runnable cpc cpc' :
  ApplyConfiguration cpc = Ok cpc' ->
  exists timeout interval, runnable cpc' timeout interval.
Proof.
  unfold ApplyConfiguration. destruct (ParseDuration _) as [t|]; [|done].
  destruct (ParseDuration _) as [i|]; [|done].
  destruct (applyRules (cpcRules cpc)) as [rules|]; [|done].
  intros [= <-]. exists t, i. constructor; simpl; unfold or_default; by eauto.
Qed.

(** What a valid configuration promises to the plugin and the monitor. *)
Record valid_config (cpc : CustomPluginConfig) (timeout interval : Duration) : Prop := {
  vc_plugin : cpcPlugin cpc = customPluginName;
  vc_interval : (0 < interval)%Z;
  vc_rule_interval : forall r i, r ∈ cpcRules cpc -> crInvokeInterval r = Some i -> (0 < i)%Z;
  vc_rule_timeout : forall r t, r ∈ cpcRules cpc -> crTimeout r = Some t -> (t <= timeout)%Z;
  vc_path : forall r, r ∈ cpcRules cpc -> path_missing (crPath r) = false;
  vc_default : forall r, r ∈ cpcRules cpc -> crType r = Perm ->
    exists c, c ∈ cpcDefaultConditions cpc /\ cType c = crCondition r
}.

Lemma validateTimes_spec timeout rules :
  exists r, validateTimes (Some timeout) rules = Ret r /\
  (r = Ok tt <-> forall rl, rl ∈ rules ->
     (forall i, crInvokeInterval rl = Some i -> (0 < i)%Z) /\
     (forall t, crTimeout rl = Some t -> (t <= timeout)%Z)).
Proof.
  induction rules as [|rl rules (r & Hr & IH)]; simpl.
  { exists (Ok tt). split; [done|]. split; [|done]. by intros _ ? ?%elem_of_nil. }
  assert (Hcons : (forall rl', rl' ∈ rl :: rules ->
      (forall i, crInvokeInterval rl' = Some i -> (0 < i)%Z) /\
      (forall t, crTimeout rl' = Some t -> (t <= timeout)%Z)) <->
    ((forall i, crInvokeInterval rl = Some i -> (0 < i)%Z) /\
     (forall t, crTimeout rl = Some t -> (t <= timeout)%Z)) /\ r = Ok tt).
  { rewrite IH. split.
    - intros H. split; [apply H; by left|]. intros rl' Hrl'. apply H. by right.
    - intros [H1 H2] rl' [->|Hrl']%elem_of_cons; [done | by apply H2]. }
  destruct (crInvokeInterval rl) as [i|] eqn:Ei; [destruct (Z.leb_spec i 0) as [Hi|Hi]|].
  - eexists. split; [done|]. split; [done|]. rewrite Hcons. intros [[H _] _].
    specialize (H i eq_refl). lia.
  - destruct (crTimeout rl) as [t|] eqn:Et; simpl; [destruct (Z.ltb_spec timeout t) as [Ht|Ht]|].
    + eexists. split; [done|]. split; [done|]. rewrite Hcons. intros [[_ H] _].
      specialize (H t eq_refl). lia.
    + exists r. split; [done|]. rewrite Hcons. split; [|tauto].
      intros ->. split_and!; try done; intros ? [= <-]; lia.
    + exists r. split; [done|]. rewrite Hcons. split; [|tauto].
      intros ->. split_and!; try done. intros ? [= <-]; lia.
  - destruct (crTimeout rl) as [t|] eqn:Et; simpl; [destruct (Z.ltb_spec timeout t) as [Ht|Ht]|].
    + eexists. split; [done|]. split; [done|]. rewrite Hcons. intros [[_ H] _].
      specialize (H t eq_refl). lia.
    + exists r. split; [done|]. rewrite Hcons. split; [|tauto].
      intros ->. split_and!; try done. intros ? [= <-]; lia.
    + exists r. split; [done|]. rewrite Hcons. split; [|tauto]. intros ->. done.
Qed.

Lemma existsb_false {A} (f : A -> bool) l :
  existsb f l = false <-> forall x, x ∈ l -> f x = false.
Proof.
  induction l as [|a l IH]; simpl.
  - split; [by intros _ ? ?%elem_of_nil | done].
  - rewrite orb_false_iff, IH. split.
    + intros [H1 H2] x [->|Hx]%elem_of_cons; [done | by apply H2].
    + intros H. split; [apply H; by left|]. intros x Hx. apply H. by right.
Qed.

Lemma has_default_spec conds rule :
  has_default conds rule = true <-> exists c, c ∈ conds /\ cType c = crCondition rule.
Proof.
  unfold has_default. rewrite existsb_exists. split; intros (c & Hc & E); exists c.
  - apply String.eqb_eq in E. by rewrite list_elem_of_In.
  - rewrite <- list_elem_of_In. split; [done|]. by apply String.eqb_eq.
Qed.

(** Applying the defaults and validating accepts exactly the usable
    configurations.  After [ApplyConfiguration] succeeded no pointer that the
    monitor dereferences is nil, so [Validate] returns; and it returns no error
    if and only if the plugin is "custom", the global and all rule intervals are
    positive, no rule timeout exceeds the global one, every rule's path exists,
    and every permanent rule has a default condition. *)
Theorem config_accepted cpc cpc' :
  ApplyConfiguration cpc = Ok cpc' ->
  exists timeout interval, runnable cpc' timeout interval /\
    exists r, Validate cpc' = Ret r /\ (r = Ok tt <-> valid_config cpc' timeout interval).
Proof.
  intros HA. destruct (ApplyConfiguration_runnable _ _ HA) as (timeout & interval & HR).
  exists timeout, interval. split; [done|]. unfold Validate.
  rewrite (run_interval _ _ _ HR), (run_timeout _ _ _ HR). simpl.
  destruct (String.eqb_spec (cpcPlugin cpc') customPluginName) as [Hp|Hp]; simpl.
  2:{ eexists. split; [done|]. split; [done|]. by intros []. }
  destruct (Z.leb_spec interval 0) as [Hi|Hi].
  { eexists. split; [done|]. split; [done|]. intros []. lia. }
  destruct (validateTimes_spec timeout (cpcRules cpc')) as (rt & -> & Hrt). simpl.
  destruct rt as [[]|e].
  2:{ eexists. split; [done|]. split; [done|]. intros [_ _ V3 V4 _ _].
      assert (Err e = Ok tt) by (apply Hrt; eauto). done. }
  pose proof (proj1 Hrt eq_refl) as Ht.
  destruct (existsb _ _) eqn:E1.
  { eexists. split; [done|]. split; [done|]. intros [_ _ _ _ V5 _].
    assert (H0 : existsb (fun rule => path_missing (crPath rule)) (cpcRules cpc') = false)
      by (apply existsb_false; done). congruence. }
  destruct (existsb (fun rule => String.eqb (crType rule) Perm && _) _) eqn:E2.
  { eexists. split; [done|]. split; [done|]. intros [_ _ _ _ _ V6].
    apply existsb_exists in E2 as (r & Hr & [Hty Hd]%andb_true_iff).
    apply list_elem_of_In in Hr. apply String.eqb_eq in Hty.
    apply negb_true_iff in Hd.
    assert (has_default (cpcDefaultConditions cpc') r = true)
      by (apply has_default_spec; by apply V6). congruence. }
  exists (Ok tt). split; [done|]. split; [|done]. intros _.
  rewrite existsb_false in E1, E2. constructor; try done.
  - intros r i Hr. by apply (Ht r Hr).
  - intros r t Hr. by apply (Ht r Hr).
  - intros r Hr Hty. specialize (E2 r Hr). rewrite Hty in E2. simpl in E2.
    apply has_default_spec. by apply negb_false_iff in E2.
Qed.
End Validation.

(** The defaults, applied to a configuration that sets none of them. *)
Example default_durations :
  ApplyConfiguration (mkCustomPluginConfig "custom" (mkGlobal None None None None None None None None)
    "src" [] [] None) =
  Ok (mkCustomPluginConfig "custom"
        (mkGlobal (Some "30s") (Some "5s") (Some (30 * Second)%Z) (Some (5 * Second)%Z)
           (Some 80%Z) (Some 3%Z) (Some false) (Some false)) "src" [] [] (Some true)).
Proof. vm_compute. reflexivity. Qed.

Definition ntp_condition : Condition := mkCondition "NTPProblem" CFalse 0 "NTPIsUp" "ntp service is up".
Definition ntp_rule : CustomRule :=
  mkCustomRule Perm "NTPProblem" "NTPIsDown" "./config/plugin/check_ntp.sh" [] (Some "3s") None None None.
Definition ntp_config : CustomPluginConfig :=
  mkCustomPluginConfig "custom" (mkGlobal (Some "30s") (Some "5s") None None (Some 80%Z) (Some 3%Z) None None)
    "ntp-custom-plugin-monitor" [ntp_condition] [ntp_rule] None.
Definition ntp_applied : CustomPluginConfig :=
  match ApplyConfiguration ntp_config with Ok c => c | Err _ => ntp_config end.

Lemma config_accepted_witness :
  exists timeout interval, runnable ntp_applied timeout interval /\
    exists r, Validate (fun _ => false) ntp_applied = Ret r /\
      (r = Ok tt <-> valid_config (fun _ => false) ntp_applied timeout interval).
Proof. apply (config_accepted (fun _ => false) ntp_config). vm_compute. reflexivity. Defined.
End Cpm.
