(* ===== verification/CustomPluginMonitor.v ===== *)
(** The custom plugin monitor ([pkg/custompluginmonitor/custom_plugin_monitor.go]):
    from the results of plugins to statuses.  As in the log monitor, the
    conditions are one slice that every status refers to. *)

From S2P Require Import Prelude GoStrings Regexp GoTime Types LogBuffer Options Metrics ProblemMetrics LogMonitor CustomPluginConfig.

Module CustomPluginMonitor.
Import Cpm.

(* @ pkg/custompluginmonitor/custom_plugin_monitor.go:289-298 toConditionStatus *)
Definition toConditionStatus (s : Cpm.Status) : ConditionStatus :=
  if Z.eqb s OK then CFalse
  else if Z.eqb s NonOK then CTrue
  else CUnknown.

(** The code reads the clock once per condition; the readings of one call are
    taken as one. *)
(* @ pkg/custompluginmonitor/custom_plugin_monitor.go:316-324 initialConditions *)
Definition initialConditions (defaults : list Condition) (now : Time) : list Condition :=
  map (fun c => mkCondition (cType c) CFalse now (cReason c) (cMessage c)) defaults.

(** The reason and message of the first default condition of a type. *)
Fixpoint defaultFor (defaults : list Condition) (t : string) : string * string :=
  match defaults with
  | [] => ("", "")
  | d :: defaults =>
    if String.eqb (cType d) t then (cReason d, cMessage d) else defaultFor defaults t
  end.

Section Monitor.
Context `{UC : !Unicode} {M : Type} `{MI : !Int64MetricInterface M}.

(* @ pkg/custompluginmonitor/custom_plugin_monitor.go:46-53 customPluginMonitor *)
Record customPluginMonitor : Type := mkMonitor {
  cConfig : CustomPluginConfig;
  cConditions : slice_ref
}.

(** The five scenarios: the new reason and message, when the condition needs an
    update. *)
(* @ pkg/custompluginmonitor/custom_plugin_monitor.go:191-230 generateStatus *)
Definition scenario (cfg : CustomPluginConfig) (condition : Condition) (result : Result)
    (defaultReason defaultMessage : string) : outcome (option (string * string)) :=
  let status := toConditionStatus (resExitStatus result) in
  let message_if_false := if String.eqb status CFalse then defaultMessage else resMessage result in
  let isTrue := String.eqb (cStatus condition) CTrue in
  if isTrue && negb (String.eqb status CTrue) then
    Ret (Some (defaultReason, message_if_false))
  else if negb isTrue && String.eqb status CTrue then
    Ret (Some (crReason (resRule result), resMessage result))
  else if negb (String.eqb (cStatus condition) status) then
    Ret (Some (defaultReason, message_if_false))
  else if isTrue && String.eqb status CTrue then
    if negb (String.eqb (cReason condition) (crReason (resRule result)))
    then Ret (Some (crReason (resRule result), resMessage result))
    else
      messageBased ← deref (EnableMessageChangeBasedConditionUpdate (cpcGlobal cfg));
      if messageBased && negb (String.eqb (cMessage condition) (resMessage result))
      then Ret (Some (crReason (resRule result), resMessage result))
      else Ret None
  else Ret None.

(** The loop over the conditions, up to the first of the rule's type: the new
    conditions, and the events of active and inactive problems. *)
Fixpoint updateCondition (cfg : CustomPluginConfig) (conds : list Condition) (result : Result)
    (timestamp : Time) : outcome (list Condition * list Event * list Event) :=
  match conds with
  | [] => Ret ([], [], [])
  | condition :: rest =>
    if String.eqb (cType condition) (crCondition (resRule result)) then
      let '(defaultReason, defaultMessage) :=
        defaultFor (cpcDefaultConditions cfg) (crCondition (resRule result)) in
      let status := toConditionStatus (resExitStatus result) in
      u ← scenario cfg condition result defaultReason defaultMessage;
      match u with
      | None => Ret (condition :: rest, [], [])
      | Some (newReason, newMessage) =>
        let condition' := mkCondition (cType condition) status timestamp newReason newMessage in
        let event := GenerateConditionChangeEvent (cType condition) status newReason newMessage
                       timestamp in
        if String.eqb status CTrue then Ret (condition' :: rest, [event], [])
        else Ret (condition' :: rest, [], [event])
      end
    else
      r ← updateCondition cfg rest result timestamp;
      let '(rest', active, inactive) := r : list Condition * list Event * list Event in
      Ret (condition :: rest', active, inactive)
  end.

(** The metric loops; their errors are only logged. *)
Definition reportCpmMetrics (pmm : ProblemMetricsManager M) (active : list Event)
    (conds : list Condition) : ProblemMetricsManager M :=
  let pmm := foldl (fun pmm e => (IncrementProblemCounter pmm (eReason e) 1).1) pmm active in
  foldl (fun pmm c => (SetProblemGauge pmm (cType c) (cReason c) (String.eqb (cStatus c) CTrue)).1)
    pmm conds.

(* @ pkg/custompluginmonitor/custom_plugin_monitor.go:156-287 generateStatus *)
Definition generateStatus (c : customPluginMonitor) (w : world M) (result : Result)
    (timestamp : Time) : outcome (world M * Types.Status) :=
  let conds := default [] (wStore w !! cConditions c) in
  r ← (if String.eqb (crType (resRule result)) Temp then
         Ret (conds,
              if (NonOK <=? resExitStatus result)%Z
              then [mkEvent Warn timestamp (crReason (resRule result)) (resMessage result)] else [],
              [])
       else updateCondition (cConfig c) conds result timestamp);
  let '(conds, active, inactive) := r : list Condition * list Event * list Event in
  metrics ← deref (cpcEnableMetricsReporting (cConfig c));
  let pmm := if metrics : bool then reportCpmMetrics (wMetrics w) active conds else wMetrics w in
  Ret (mkWorld (<[cConditions c := conds]> (wStore w)) pmm,
       mkStatus (cpcSource (cConfig c)) (active ++ inactive) (cConditions c)).

(** [initializeConditions] allocates the slice. *)
(* @ pkg/custompluginmonitor/custom_plugin_monitor.go:310-314 initializeConditions *)
Definition initializeConditions (c : customPluginMonitor) (w : world M) (now : Time)
    : customPluginMonitor * world M :=
  let ref := fresh (dom (wStore w)) in
  (mkMonitor (cConfig c) ref,
   mkWorld (<[ref := initialConditions (cpcDefaultConditions (cConfig c)) now]> (wStore w))
     (wMetrics w)).

(* @ pkg/custompluginmonitor/custom_plugin_monitor.go:300-308 sendInitialStatus *)
Definition sendInitialStatus (c : customPluginMonitor) : Types.Status :=
  mkStatus (cpcSource (cConfig c)) [] (cConditions c).

(** What the select of the loop receives: a result and the time it is handled,
    the close of the result channel, or the stop. *)
Inductive cpm_input : Type :=
| InResult (r : Result) (now : Time)
| InResultsClosed
| InStopping.

Fixpoint monitorLoop_from (c : customPluginMonitor) (w : world M) (inputs : list cpm_input)
    : outcome (world M * list Types.Status) :=
  match inputs with
  | InResult r now :: inputs =>
    ws ← generateStatus c w r now;
    let '(w, status) := ws : world M * Types.Status in
    rest ← monitorLoop_from c w inputs;
    let '(w, statuses) := rest : world M * list Types.Status in
    Ret (w, status :: statuses)
  | _ => Ret (w, [])
  end.

(* @ pkg/custompluginmonitor/custom_plugin_monitor.go:123-154 monitorLoop *)
Definition monitorLoop (c : customPluginMonitor) (w : world M) (now : Time)
    (inputs : list cpm_input) : outcome (customPluginMonitor * world M * list Types.Status) :=
  let '(c, w) := initializeConditions c w now in
  skip ← deref (SkipInitialStatus (cpcGlobal (cConfig c)));
  rest ← monitorLoop_from c w inputs;
  let '(w, statuses) := rest : world M * list Types.Status in
  Ret (c, w, if skip : bool then statuses else sendInitialStatus c :: statuses).

(** *** Construction *)
(* @ pkg/custompluginmonitor/custom_plugin_monitor.go:93-109 initializeProblemMetricsOrDie *)
Fixpoint initializeProblemMetricsOrDie (pmm : ProblemMetricsManager M) (rules : list CustomRule)
    : outcome (ProblemMetricsManager M) :=
  match rules with
  | [] => Ret pmm
  | rule :: rules =>
    pmm ← (if String.eqb (crType rule) Perm then
             let '(pmm, r) := SetProblemGauge pmm (crCondition rule) (crReason rule) false in
             if is_ok r then Ret pmm else Panic "Failed to initialize problem gauge metrics"
           else Ret pmm);
    let '(pmm, r) := IncrementProblemCounter pmm (crReason rule) 0 in
    if is_ok r then initializeProblemMetricsOrDie pmm rules
    else Panic "Failed to initialize problem counter metrics"
  end.

Variable os_ReadFile : string -> result string.
Variable json_Unmarshal : string -> result CustomPluginConfig.
Variable path_missing : string -> bool.

(* @ pkg/custompluginmonitor/custom_plugin_monitor.go:55-91 NewCustomPluginMonitorOrDie *)
Definition NewCustomPluginMonitorOrDie (w : world M) (configPath : string)
    : outcome (world M * customPluginMonitor) :=
  match os_ReadFile configPath with
  | Err _ => Panic "Failed to read configuration file"
  | Ok f =>
    match json_Unmarshal f with
    | Err _ => Panic "Failed to unmarshal configuration file"
    | Ok config =>
      match ApplyConfiguration config with
      | Err _ => Panic "Failed to apply configuration"
      | Ok config =>
        v ← Validate path_missing config;
        match v with
        | Err _ => Panic "Failed to validate custom plugin config"
        | Ok _ =>
          concurrency ← deref (Concurrency (cpcGlobal config));
          if (concurrency <? 0)%Z then Panic "makechan: size out of range"
          else
            metrics ← deref (cpcEnableMetricsReporting config);
            pmm ← (if metrics : bool
                   then initializeProblemMetricsOrDie (wMetrics w) (cpcRules config)
                   else Ret (wMetrics w));
            Ret (mkWorld (wStore w) pmm, mkMonitor config 0)
        end
      end
    end
  end.

(** ** The scenarios, closed *)

(** What the exit codes mean: 0 is no problem, 1 a problem, anything else
    unknown. *)
Definition exit_status (s : Z) : ConditionStatus :=
  match s with 0 => CFalse | 1 => CTrue | _ => CUnknown end%Z.

Lemma toConditionStatus_exit s : toConditionStatus s = exit_status s.
Proof. by destruct s as [|[| |]|]. Qed.

(** When a result changes a condition. *)
Definition changes (messageBased : bool) (c : Condition) (result : Result) : bool :=
  let status := exit_status (resExitStatus result) in
  negb (String.eqb (cStatus c) status) ||
  String.eqb status CTrue &&
  (negb (String.eqb (cReason c) (crReason (resRule result))) ||
   messageBased && negb (String.eqb (cMessage c) (resMessage result))).

(** The reason and message that go with a status. *)
Definition wording (result : Result) (dr dm : string) : string * string :=
  let status := exit_status (resExitStatus result) in
  if String.eqb status CTrue then (crReason (resRule result), resMessage result)
  else (dr, if String.eqb status CFalse then dm else resMessage result).

Lemma scenario_closed cfg mb c result dr dm :
  EnableMessageChangeBasedConditionUpdate (cpcGlobal cfg) = Some mb ->
  scenario cfg c result dr dm =
  Ret (if changes mb c result then Some (wording result dr dm) else None).
Proof.
  intros Hmb. unfold scenario, changes, wording. rewrite toConditionStatus_exit.
  set (st := exit_status (resExitStatus result)).
  destruct (String.eqb_spec (cStatus c) CTrue) as [E1|E1];
    destruct (String.eqb_spec st CTrue) as [E2|E2]; simpl.
  - rewrite E1, E2. simpl. rewrite Hmb. simpl.
    destruct (String.eqb (cReason c) _); simpl; [|done].
    by destruct (mb && _).
  - rewrite E1. rewrite (proj2 (String.eqb_neq CTrue st)) by congruence. done.
  - rewrite E2. rewrite (proj2 (String.eqb_neq (cStatus c) CTrue)) by done. done.
  - destruct (String.eqb (cStatus c) st); done.
Qed.

(** ** The conditions against their defaults *)

(** A condition and the default it came from: the type is kept, the status is
    one the API knows, a condition that is not True has the default reason, and
    one that is False also has the default message. *)
Definition cond_ok (d c : Condition) : Prop :=
  cType c = cType d /\ valid_status (cStatus c) /\
  (cStatus c ≠ CTrue -> cReason c = cReason d) /\
  (cStatus c = CFalse -> cMessage c = cMessage d).

Lemma exit_status_valid s : valid_status (exit_status s).
Proof. unfold exit_status, valid_status. repeat case_match; auto. Qed.

Lemma initialConditions_ok defaults now :
  Forall2 cond_ok defaults (initialConditions defaults now).
Proof.
  unfold initialConditions. induction defaults as [|d defaults IH]; simpl; constructor; [|done].
  unfold cond_ok, valid_status. simpl. tauto.
Qed.

Lemma wording_ok d result now :
  let status := exit_status (resExitStatus result) in
  let '(r, m) := wording result (cReason d) (cMessage d) in
  cond_ok d (mkCondition (cType d) status now r m).
Proof.
  unfold wording. simpl. set (st := exit_status (resExitStatus result)).
  pose proof (exit_status_valid (resExitStatus result)) as Hv. fold st in Hv.
  destruct (String.eqb_spec st CTrue) as [E|E].
  - unfold cond_ok. simpl. split_and!; try done; rewrite E; done.
  - unfold cond_ok. simpl. split_and!; try done. intros ->. done.
Qed.

(** The condition after a result that changes it. *)
Definition changed_condition (cfg : CustomPluginConfig) (c : Condition) (result : Result)
    (now : Time) : Condition :=
  let '(dr, dm) := defaultFor (cpcDefaultConditions cfg) (crCondition (resRule result)) in
  let '(r, m) := wording result dr dm in
  mkCondition (cType c) (exit_status (resExitStatus result)) now r m.

Definition change_event (c' : Condition) : Event :=
  GenerateConditionChangeEvent (cType c') (cStatus c') (cReason c') (cMessage c') (cTransition c').

Lemma updateCondition_first cfg mb pre c post result now :
  EnableMessageChangeBasedConditionUpdate (cpcGlobal cfg) = Some mb ->
  Forall (fun c => cType c ≠ crCondition (resRule result)) pre ->
  cType c = crCondition (resRule result) ->
  updateCondition cfg (pre ++ c :: post) result now =
  Ret (if changes mb c result then
         let c' := changed_condition cfg c result now in
         if String.eqb (cStatus c') CTrue
         then (pre ++ c' :: post, [change_event c'], [])
         else (pre ++ c' :: post, [], [change_event c'])
       else (pre ++ c :: post, [], [])).
Proof.
  intros Hmb HF Hc. unfold changed_condition.
  destruct (defaultFor (cpcDefaultConditions cfg) (crCondition (resRule result))) as [dr dm] eqn:Ed.
  induction HF as [|x pre Hx HF IH]; cbn [updateCondition app].
  - rewrite Hc, String.eqb_refl, Ed, (scenario_closed cfg mb) by done. cbn.
    rewrite ?toConditionStatus_exit.
    destruct (changes mb c result); [|done]. destruct (wording result dr dm) as [r m].
    unfold change_event. simpl. by destruct (String.eqb _ CTrue).
  - apply String.eqb_neq in Hx. rewrite Hx, IH. simpl. rewrite ?toConditionStatus_exit.
    destruct (changes mb c result); [|done]. destruct (wording result dr dm) as [r m].
    simpl. by destruct (String.eqb _ CTrue).
Qed.

Lemma updateCondition_none cfg conds result now :
  Forall (fun c => cType c ≠ crCondition (resRule result)) conds ->
  updateCondition cfg conds result now = Ret (conds, [], []).
Proof.
  induction 1 as [|x pre Hx HF IH]; cbn [updateCondition]; [done|].
  apply String.eqb_neq in Hx. by rewrite Hx, IH.
Qed.

(** The first element of a type splits a list. *)
Lemma first_of_type (t : string) (conds : list Condition) :
  Forall (fun c => cType c ≠ t) conds \/
  exists pre c post, conds = pre ++ c :: post /\ cType c = t /\
    Forall (fun c => cType c ≠ t) pre.
Proof.
  induction conds as [|x conds IH]; [by left|].
  destruct (decide (cType x = t)) as [E|E]; [right; by exists [], x, conds|].
  destruct IH as [IH|(pre & c & post & -> & Hc & HF)]; [left; by constructor|].
  right. exists (x :: pre), c, post. split_and!; [done | done | by constructor].
Qed.

(** The default that [defaultFor] finds is the one paired with the condition. *)
Lemma defaultFor_paired ds pre c post t :
  Forall2 cond_ok ds (pre ++ c :: post) -> Forall (fun c => cType c ≠ t) pre -> cType c = t ->
  exists dpre d dpost, ds = dpre ++ d :: dpost /\ Forall2 cond_ok dpre pre /\ cond_ok d c /\
    Forall2 cond_ok dpost post /\ defaultFor ds t = (cReason d, cMessage d).
Proof.
  intros H HF Hc. apply Forall2_app_inv_r in H as (dpre & drest & Hpre & Hrest & ->).
  inversion Hrest as [|d c0 dpost post0 Hd Hpost]; subst.
  exists dpre, d, dpost. split_and!; try done. destruct Hd as (Hty & _).
  clear Hrest. induction Hpre as [|x y dpre pre [Hx _] Hpre IH]; simpl.
  - by rewrite Hty, String.eqb_refl.
  - inversion_clear HF as [|? ? Hy HF']. rewrite (proj2 (String.eqb_neq (cType x) _)) by congruence.
    by apply IH.
Qed.

(** One result keeps the conditions in line with their defaults. *)
Lemma updateCondition_ok cfg mb conds result now :
  EnableMessageChangeBasedConditionUpdate (cpcGlobal cfg) = Some mb ->
  Forall2 cond_ok (cpcDefaultConditions cfg) conds ->
  exists conds' active inactive,
    updateCondition cfg conds result now = Ret (conds', active, inactive) /\
    Forall2 cond_ok (cpcDefaultConditions cfg) conds'.
Proof.
  intros Hmb HF2. destruct (first_of_type (crCondition (resRule result)) conds)
    as [HF|(pre & c & post & -> & Hc & HF)].
  { exists conds, [], []. split; [by apply updateCondition_none | done]. }
  rewrite (updateCondition_first cfg mb) by done.
  destruct (changes mb c result); [|by eexists _, _, _].
  destruct (defaultFor_paired _ _ _ _ _ HF2 HF Hc)
    as (dpre & d & dpost & Hds & Hpre & Hd & Hpost & Hdf).
  assert (Hok : cond_ok d (changed_condition cfg c result now)).
  { unfold changed_condition. rewrite Hdf. pose proof (wording_ok d result now) as Hw.
    destruct (wording result (cReason d) (cMessage d)) as [r m]. simpl in Hw.
    destruct Hw as (_ & Hw). destruct Hd as (Hty & _). split; [done | exact Hw]. }
  exists (pre ++ changed_condition cfg c result now :: post).
  cbv zeta. destruct (String.eqb (cStatus (changed_condition cfg c result now)) CTrue);
    eexists _, _; (split; [reflexivity|]); rewrite Hds;
    apply Forall2_app; try done; by constructor.
Qed.

(** ** Statuses *)

Lemma changed_condition_fields cfg cd result now :
  let cd' := changed_condition cfg cd result now in
  cTransition cd' = now /\ cStatus cd' = exit_status (resExitStatus result) /\
  (eSeverity (change_event cd') = Warn <-> cStatus cd' = CTrue).
Proof.
  intros cd'. assert (Hcd : cTransition cd' = now /\ cStatus cd' = exit_status (resExitStatus result)).
  { unfold cd', changed_condition. destruct (defaultFor _ _). by destruct (wording _ _ _). }
  split_and!; [apply Hcd..|]. unfold change_event, GenerateConditionChangeEvent. simpl.
  destruct (String.eqb_spec (cStatus cd') CTrue); split; done.
Qed.

(** C17.  What a plugin result does, on every branch.  The handler returns a status
    that refers to the monitor's conditions.  A result of a temporary rule leaves
    the conditions alone and reports one warning with the rule's reason and the
    plugin's message when the exit code is at least 1 (so also for Unknown), and
    nothing otherwise.  A result of a permanent rule without a condition of its
    type changes and reports nothing; otherwise the first condition
    of the rule's type takes the status of the exit code if the status differs,
    or stays True with a new reason (or, when so configured, a new message);
    only then is there an event, stamped with the time of the result, of
    severity Warn exactly for True; reason and message are the rule's and the
    plugin's for True, and otherwise the configured default reason, with the
    default message for False and the plugin's for Unknown.  No other condition
    changes. *)
Theorem result_effect c w result now mb metrics conds :
  EnableMessageChangeBasedConditionUpdate (cpcGlobal (cConfig c)) = Some mb ->
  cpcEnableMetricsReporting (cConfig c) = Some metrics ->
  wStore w !! cConditions c = Some conds ->
  exists w' events conds',
    generateStatus c w result now = Ret (w', mkStatus (cpcSource (cConfig c)) events (cConditions c)) /\
    wStore w' = <[cConditions c := conds']> (wStore w) /\
    (crType (resRule result) = Temp ->
       conds' = conds /\
       events = if (1 <=? resExitStatus result)%Z
                then [mkEvent Warn now (crReason (resRule result)) (resMessage result)] else []) /\
    (crType (resRule result) <> Temp -> Forall (fun cd => cType cd <> crCondition (resRule result)) conds ->
       conds' = conds /\ events = []) /\
    (forall pre cd post, crType (resRule result) <> Temp -> conds = pre ++ cd :: post ->
       Forall (fun cd => cType cd <> crCondition (resRule result)) pre -> cType cd = crCondition (resRule result) ->
       let cd' := changed_condition (cConfig c) cd result now in
       conds' = pre ++ (if changes mb cd result then cd' else cd) :: post /\
       events = (if changes mb cd result then [change_event cd'] else []) /\
       cTransition cd' = now /\ cStatus cd' = exit_status (resExitStatus result) /\
       (eSeverity (change_event cd') = Warn <-> cStatus cd' = CTrue)).
Proof.
  intros Hmb Hm Hs. unfold generateStatus. rewrite Hs. cbn [default from_option id].
  destruct (String.eqb_spec (crType (resRule result)) Temp) as [Ht|Ht].
  { cbn. rewrite Hm. cbn. eexists _, _, _. rewrite app_nil_r. split_and!; [reflexivity|reflexivity|done|done|done]. }
  destruct (first_of_type (crCondition (resRule result)) conds) as [HF|(pre & cd & post & -> & Hc & HF)].
  - rewrite updateCondition_none by done. cbn. rewrite Hm. cbn. eexists _, _, _.
    split_and!; [reflexivity|reflexivity|done|done|].
    intros pre cd post _ -> _ Hc. apply Forall_app in HF as [_ HF]. apply Forall_inv in HF. done.
  - rewrite (updateCondition_first _ mb) by done. cbv zeta.
    assert (Huniq : forall pre' cd' post', pre ++ cd :: post = pre' ++ cd' :: post' ->
      Forall (fun cd => cType cd <> crCondition (resRule result)) pre' -> cType cd' = crCondition (resRule result) ->
      pre' = pre /\ cd' = cd /\ post' = post).
    { clear -HF Hc. induction HF as [|x pre Hx HF IH]; intros [|y pre'] cd' post' E HF' Hc'; cbn in E; injection E as E1 E2; subst.
      - done.
      - apply Forall_inv in HF'. done.
      - done.
      - apply Forall_inv_tail in HF'. destruct (IH _ _ _ E2 HF' Hc') as (-> & -> & ->). done. }
    pose proof (changed_condition_fields (cConfig c) cd result now) as Hf.
    destruct (changes mb cd result) eqn:Ech; [destruct (String.eqb (cStatus _) CTrue)|]; cbn; rewrite Hm; cbn;
      (eexists _, _, _; split_and!; [reflexivity|reflexivity|done| |]);
      try (intros _ HF'; apply Forall_app in HF' as [_ HF']; apply Forall_inv in HF'; done);
      intros pre' cd' post' _ E HF' Hc'; destruct (Huniq _ _ _ E HF' Hc') as (-> & -> & ->); rewrite Ech;
      destruct Hf as (Hf1 & Hf2 & Hf3); split_and!; (done || reflexivity).
Qed.

(** The loop over any inputs, from conditions in line with their defaults. *)
Lemma monitorLoop_from_ok inputs : forall c w mb metrics conds,
  EnableMessageChangeBasedConditionUpdate (cpcGlobal (cConfig c)) = Some mb ->
  cpcEnableMetricsReporting (cConfig c) = Some metrics ->
  wStore w !! cConditions c = Some conds ->
  Forall2 cond_ok (cpcDefaultConditions (cConfig c)) conds ->
  exists w' statuses conds', monitorLoop_from c w inputs = Ret (w', statuses) /\
    wStore w' !! cConditions c = Some conds' /\
    Forall2 cond_ok (cpcDefaultConditions (cConfig c)) conds' /\
    Forall (fun s => sSource s = cpcSource (cConfig c) /\ sConditions s = cConditions c) statuses.
Proof.
  induction inputs as [|[r now| |] inputs IH]; intros c w mb metrics conds Hmb Hm Hs HF;
    cbn [monitorLoop_from]; try (by exists w, [], conds).
  assert (Hg : exists w1 ev conds1,
    generateStatus c w r now = Ret (w1, mkStatus (cpcSource (cConfig c)) ev (cConditions c)) /\
    wStore w1 !! cConditions c = Some conds1 /\
    Forall2 cond_ok (cpcDefaultConditions (cConfig c)) conds1).
  { unfold generateStatus. rewrite Hs. cbn [default from_option id].
    destruct (String.eqb (crType (resRule r)) Temp).
    - simpl. rewrite Hm. simpl. eexists _, _, _. split; [reflexivity|]. simpl.
      split; [apply lookup_insert_eq | done].
    - destruct (updateCondition_ok (cConfig c) mb conds r now Hmb HF)
        as (conds1 & act & inact & -> & HF1).
      simpl. rewrite Hm. simpl. eexists _, _, _. split; [reflexivity|]. simpl.
      split; [apply lookup_insert_eq | done]. }
  destruct Hg as (w1 & ev & conds1 & -> & Hs1 & HF1). simpl.
  destruct (IH c w1 mb metrics conds1 Hmb Hm Hs1 HF1) as (w' & ss & conds' & -> & H1 & H2 & H3).
  simpl. eexists _, _, _. split; [reflexivity|]. split_and!; [done | done | by constructor].
Qed.

Lemma NewCustomPluginMonitorOrDie_Ret w path w1 c :
  NewCustomPluginMonitorOrDie w path = Ret (w1, c) ->
  exists timeout interval, runnable (cConfig c) timeout interval /\ wStore w1 = wStore w /\
    valid_config path_missing (cConfig c) timeout interval /\
    exists n, Concurrency (cpcGlobal (cConfig c)) = Some n /\ (0 <= n)%Z.
Proof.
  unfold NewCustomPluginMonitorOrDie. destruct (os_ReadFile path); [|done].
  destruct (json_Unmarshal _) as [cfg|]; [|done].
  destruct (ApplyConfiguration cfg) as [cfg'|] eqn:E; [|done].
  destruct (config_accepted path_missing _ _ E) as (timeout & interval & HR & r & Hv & Hvalid). rewrite Hv.
  destruct r as [[]|]; [|done]. simpl. pose proof (proj1 Hvalid eq_refl) as HV.
  destruct (Concurrency (cpcGlobal cfg')) as [n|] eqn:Ec; [|done]. simpl. destruct (Z.ltb_spec n 0); [done|].
  destruct (cpcEnableMetricsReporting cfg') as [[]|]; [| |done]; simpl.
  - destruct (initializeProblemMetricsOrDie _ _); [|done]. intros [= <- <-].
    exists timeout, interval. split_and!; try done. by exists n.
  - intros [= <- <-]. exists timeout, interval. split_and!; try done. by exists n.
Qed.

(** For any sequence of plugin results, [monitorLoop] returns, and whatever is
    reported at any time refers to conditions of the configured types that have,
    when they are not True, the configured default reason and, when they are
    False, the default message. *)
Lemma monitorLoop_runs w path w1 c now inputs :
  NewCustomPluginMonitorOrDie w path = Ret (w1, c) ->
  exists c' w' statuses conds,
    monitorLoop c w1 now inputs = Ret (c', w', statuses) /\
    wStore w !! cConditions c' = None /\ wStore w' !! cConditions c' = Some conds /\
    Forall2 cond_ok (cpcDefaultConditions (cConfig c)) conds /\
    Forall (fun s => sSource s = cpcSource (cConfig c) /\
                     read_conditions (wStore w') s = conds) statuses.
Proof.
  intros Hnew. destruct (NewCustomPluginMonitorOrDie_Ret _ _ _ _ Hnew)
    as (timeout & interval & HR & Hst & _).
  unfold monitorLoop, initializeConditions. rewrite Hst.
  set (ref := fresh (dom (wStore w))).
  destruct (run_message _ _ _ HR) as [mb Hmb]. destruct (run_metrics _ _ _ HR) as [me Hme].
  destruct (run_skip _ _ _ HR) as [sk Hsk]. simpl. rewrite Hsk. simpl.
  set (w0 := mkWorld _ _). set (c0 := mkMonitor (cConfig c) ref).
  destruct (monitorLoop_from_ok inputs c0 w0 mb me
    (initialConditions (cpcDefaultConditions (cConfig c)) now))
    as (w' & ss & conds & -> & H1 & H2 & H3); [done | done | apply lookup_insert_eq |
    apply initialConditions_ok |].
  simpl. exists c0, w', (if sk then ss else sendInitialStatus c0 :: ss), conds.
  split_and!; try done.
  - apply not_elem_of_dom, is_fresh.
  - assert (HF : Forall (fun s => sSource s = cpcSource (cConfig c) /\
                     read_conditions (wStore w') s = conds) ss).
    { eapply Forall_impl; [exact H3|]. intros s [Hs1 Hs2]. split; [done|].
      unfold read_conditions. by rewrite Hs2, H1. }
    destruct sk; [done|]. constructor; [|done]. split; [done|].
    unfold read_conditions. change (sConditions (sendInitialStatus c0)) with (cConditions c0).
    by rewrite H1.
Qed.
End Monitor.

(** ** Witnesses *)
#[local] Existing Instance AsciiUnicode.

Definition ntp_monitor : customPluginMonitor := mkMonitor ntp_applied 4.
Definition temporary_rule : CustomRule :=
  mkCustomRule Temp (crCondition ntp_rule) (crReason ntp_rule) (crPath ntp_rule) (crArgs ntp_rule)
    (crTimeoutString ntp_rule) (crTimeout ntp_rule) (crInvokeIntervalString ntp_rule) (crInvokeInterval ntp_rule).
Definition ntp_world : world FakeInt64Metric :=
  mkWorld {[ 4 := [ntp_condition] ]} NewProblemMetricsManagerStub.

Lemma result_effect_witness :
  (exists w', generateStatus ntp_monitor ntp_world (mkResult ntp_rule NonOK "down") 9 =
    Ret (w', mkStatus "ntp-custom-plugin-monitor"
               [change_event (mkCondition "NTPProblem" CTrue 9 "NTPIsDown" "down")] 4)) /\
  (exists w', generateStatus ntp_monitor ntp_world (mkResult temporary_rule NonOK "down") 9 =
    Ret (w', mkStatus "ntp-custom-plugin-monitor" [mkEvent Warn 9 "NTPIsDown" "down"] 4)).
Proof.
  split.
  - destruct (result_effect ntp_monitor ntp_world (mkResult ntp_rule NonOK "down") 9 false true [ntp_condition])
      as (w' & ev & conds & H & _ & _ & _ & Hp); [reflexivity|reflexivity|vm_compute; reflexivity|].
    exists w'. rewrite H. destruct (Hp [] ntp_condition []) as (_ & -> & _);
      [discriminate|reflexivity|constructor|reflexivity|reflexivity].
  - destruct (result_effect ntp_monitor ntp_world (mkResult temporary_rule NonOK "down") 9 false true [ntp_condition])
      as (w' & ev & conds & H & _ & Ht & _); [reflexivity|reflexivity|vm_compute; reflexivity|].
    exists w'. rewrite H. destruct (Ht eq_refl) as [_ ->]. reflexivity.
Defined.
End CustomPluginMonitor.
