(* ===== verification/CustomMonitorLoop.v ===== *)
(** The loop of a custom plugin monitor at the grain at which the rest of the
    process can observe it ([monitorLoop] of
    [pkg/custompluginmonitor/custom_plugin_monitor.go]): the first statements, the
    handling of one result, and the send of a status.  Its specification on a
    sequence of results, and the monitor as a [Monitor]. *)

From S2P Require Import Prelude GoStrings GoTime Types Metrics ProblemMetrics LogMonitor MonitorInterface CustomPluginConfig CustomPluginMonitor.
Import Cpm CustomPluginMonitor.

Section Loop.
Context {M : Type} `{MI : !Int64MetricInterface M}.

Inductive cphase : Type :=
| CInit
| CSelect
| CSend (s : Types.Status)
| CFailed.

(** A monitor with its goroutine; [cpStart], [cpResults] and [cpSent] record the
    time of its start, the results it handled with the time of each, and the
    statuses it generated. *)
Record cpmon : Type := mkCpmon {
  cpMon : customPluginMonitor;
  cpPhase : cphase;
  cpStart : Time;
  cpResults : list (Result * Time);
  cpSent : list Types.Status
}.

(** The monitor that [Start] runs. *)
Definition cp_new (c : customPluginMonitor) : cpmon := mkCpmon c CInit Time_zero [] [].

(** Up to the loop: the conditions, and the initial status unless it is skipped. *)
(* @ pkg/custompluginmonitor/custom_plugin_monitor.go:126-132 monitorLoop *)
Definition cp_init (m : cpmon) (w : world M) (now : Time) : option (cpmon * world M) :=
  match cpPhase m with
  | CInit =>
    let '(c, w) := initializeConditions (cpMon m) w now in
    Some (match deref (SkipInitialStatus (cpcGlobal (cConfig c))) with
          | Panic _ => mkCpmon c CFailed now (cpResults m) (cpSent m)
          | Ret true => mkCpmon c CSelect now (cpResults m) (cpSent m)
          | Ret false => mkCpmon c (CSend (sendInitialStatus c)) now (cpResults m) (cpSent m ++ [sendInitialStatus c])
          end, w)
  | _ => None
  end.

(** A result is received, and its status generated. *)
(* @ pkg/custompluginmonitor/custom_plugin_monitor.go:136-146 monitorLoop *)
Definition cp_result (m : cpmon) (w : world M) (r : Result) (now : Time) : option (cpmon * world M) :=
  match cpPhase m with
  | CSelect =>
    Some (match generateStatus (cpMon m) w r now with
          | Panic _ => (mkCpmon (cpMon m) CFailed (cpStart m) (cpResults m ++ [(r, now)]) (cpSent m), w)
          | Ret (w, s) => (mkCpmon (cpMon m) (CSend s) (cpStart m) (cpResults m ++ [(r, now)]) (cpSent m ++ [s]), w)
          end)
  | _ => None
  end.

Definition cp_send (m : cpmon) : option (Types.Status * cpmon) :=
  match cpPhase m with
  | CSend s => Some (s, mkCpmon (cpMon m) CSelect (cpStart m) (cpResults m) (cpSent m))
  | _ => None
  end.

(** ** The specification *)

(** What a result of a permanent rule does to the conditions: the first of its
    type may change, with one event. *)
Fixpoint spec_update (cfg : CustomPluginConfig) (mb : bool) (conds : list Condition) (r : Result) (now : Time)
    : list Condition * list Event :=
  match conds with
  | [] => ([], [])
  | c :: rest =>
    if String.eqb (cType c) (crCondition (resRule r)) then
      if changes mb c r
      then let c' := changed_condition cfg c r now in (c' :: rest, [change_event c'])
      else (c :: rest, [])
    else let '(rest', ev) := spec_update cfg mb rest r now in (c :: rest', ev)
  end.

Definition spec_result (cfg : CustomPluginConfig) (mb : bool) (conds : list Condition) (r : Result) (now : Time)
    : list Condition * list Event :=
  if String.eqb (crType (resRule r)) Temp then
    (conds, if (NonOK <=? resExitStatus r)%Z then [mkEvent Warn now (crReason (resRule r)) (resMessage r)] else [])
  else spec_update cfg mb conds r now.

Fixpoint spec_results (cfg : CustomPluginConfig) (mb : bool) (ref : slice_ref) (conds : list Condition)
    (rs : list (Result * Time)) : list Condition * list Types.Status :=
  match rs with
  | [] => (conds, [])
  | (r, now) :: rs =>
    let '(c1, ev) := spec_result cfg mb conds r now in
    let '(c2, ss) := spec_results cfg mb ref c1 rs in
    (c2, mkStatus (cpcSource cfg) ev ref :: ss)
  end.

Definition message_based (cfg : CustomPluginConfig) : bool :=
  default false (EnableMessageChangeBasedConditionUpdate (cpcGlobal cfg)).
Definition skips_initial (cfg : CustomPluginConfig) : bool := default false (SkipInitialStatus (cpcGlobal cfg)).

(** What the results should lead to: the conditions, and the statuses in order. *)
Definition plugin_expected (c : customPluginMonitor) (ref : slice_ref) (start : Time) (rs : list (Result * Time))
    : list Condition * list Types.Status :=
  let cfg := cConfig c in
  let '(conds, ss) := spec_results cfg (message_based cfg) ref (initialConditions (cpcDefaultConditions cfg) start) rs in
  (conds, (if skips_initial cfg then [] else [mkStatus (cpcSource cfg) [] ref]) ++ ss).

Lemma spec_results_snoc cfg mb ref conds rs r now :
  spec_results cfg mb ref conds (rs ++ [(r, now)]) =
  let '(c1, ss) := spec_results cfg mb ref conds rs in
  let '(c2, ev) := spec_result cfg mb c1 r now in
  (c2, ss ++ [mkStatus (cpcSource cfg) ev ref]).
Proof.
  revert conds. induction rs as [|[r0 t0] rs IH]; intros conds; cbn [app spec_results].
  - by destruct (spec_result cfg mb conds r now).
  - destruct (spec_result cfg mb conds r0 t0) as [c1 ev1]. rewrite IH.
    destruct (spec_results cfg mb ref c1 rs) as [c2 ss]. by destruct (spec_result cfg mb c2 r now).
Qed.

Lemma plugin_expected_snoc c ref start rs r now :
  plugin_expected c ref start (rs ++ [(r, now)]) =
  let '(c1, ss) := plugin_expected c ref start rs in
  let '(c2, ev) := spec_result (cConfig c) (message_based (cConfig c)) c1 r now in
  (c2, ss ++ [mkStatus (cpcSource (cConfig c)) ev ref]).
Proof.
  unfold plugin_expected. rewrite spec_results_snoc.
  destruct (spec_results _ _ _ _ rs) as [c1 ss]. destruct (spec_result _ _ _ _ _) as [c2 ev]. by rewrite app_assoc.
Qed.

(** The conditions keep their types and stay valid, and there is at most one event. *)
Lemma spec_update_keeps cfg mb conds r now :
  conds_valid conds ->
  let '(conds', ev) := spec_update cfg mb conds r now in
  conds_valid conds' /\ cType <$> conds' = cType <$> conds /\ length ev <= 1.
Proof.
  intros Hv. induction Hv as [|c conds Hc Hv IH]; cbn [spec_update]; [split_and!; [constructor|done|cbn; lia]|].
  destruct (String.eqb _ _).
  - destruct (changes mb c r); [|split_and!; [by constructor|done|cbn; lia]].
    assert (E : cType (changed_condition cfg c r now) = cType c /\
                valid_status (cStatus (changed_condition cfg c r now))).
    { unfold changed_condition. destruct (defaultFor _ _). destruct (wording _ _ _). cbn. split; [done|].
      apply exit_status_valid. }
    destruct E as [E1 E2]. split_and!; [by constructor|cbn; by rewrite E1|done].
  - destruct (spec_update cfg mb conds r now) as [c' ev]. destruct IH as (H1 & H2 & H3).
    split_and!; [by constructor|cbn; by f_equal|done].
Qed.

Lemma spec_result_keeps cfg mb conds r now :
  conds_valid conds ->
  let '(conds', ev) := spec_result cfg mb conds r now in
  conds_valid conds' /\ cType <$> conds' = cType <$> conds /\ length ev <= 1.
Proof.
  intros Hv. unfold spec_result. destruct (String.eqb _ _); [|by apply spec_update_keeps].
  split_and!; [done|done|]. case_match; cbn; lia.
Qed.

Lemma plugin_expected_keeps c ref start rs conds ss :
  plugin_expected c ref start rs = (conds, ss) ->
  conds_valid conds /\ cType <$> conds = cType <$> cpcDefaultConditions (cConfig c) /\
  Forall (fun s => sConditions s = ref) ss.
Proof.
  revert conds ss. induction rs as [|[r now] rs IH] using rev_ind; intros conds ss.
  - unfold plugin_expected. cbn. intros [= <- <-]. rewrite app_nil_r. split_and!.
    + unfold initialConditions. induction (cpcDefaultConditions _); constructor; [|done]. unfold valid_status. cbn. tauto.
    + unfold initialConditions. by induction (cpcDefaultConditions _); [|cbn; f_equal].
    + destruct (skips_initial _); by repeat constructor.
  - rewrite plugin_expected_snoc. destruct (plugin_expected c ref start rs) as [c1 ss1].
    destruct (IH c1 ss1 eq_refl) as (H1 & H2 & H3). pose proof (spec_result_keeps (cConfig c) (message_based (cConfig c)) c1 r now H1) as Hk.
    destruct (spec_result _ _ c1 r now) as [c2 ev]. destruct Hk as (Hk1 & Hk2 & _). intros [= <- <-].
    split_and!; [done|congruence|]. apply Forall_app. by repeat constructor.
Qed.

(** There is a status as soon as there is a result, or at the start. *)
Lemma plugin_expected_sent c ref start rs conds ss :
  plugin_expected c ref start rs = (conds, ss) -> rs.*1 <> [] \/ skips_initial (cConfig c) = false -> ss <> [].
Proof.
  induction rs as [|r rs _] using rev_ind.
  - unfold plugin_expected. cbn. intros [= _ <-] [?|Hs]; [done|]. by rewrite Hs.
  - destruct r as [r now]. rewrite plugin_expected_snoc. destruct (plugin_expected _ _ _ _), (spec_result _ _ _ _ _).
    intros [= _ <-] _. by destruct l0.
Qed.

(** ** The code against it *)
Lemma updateCondition_spec cfg mb conds r now :
  EnableMessageChangeBasedConditionUpdate (cpcGlobal cfg) = Some mb ->
  exists conds' active inactive, updateCondition cfg conds r now = Ret (conds', active, inactive) /\
    spec_update cfg mb conds r now = (conds', active ++ inactive).
Proof.
  intros Hmb. induction conds as [|c conds IH]; cbn [updateCondition spec_update]; [by eexists _, _, _|].
  destruct (String.eqb _ _) eqn:Et.
  - apply String.eqb_eq in Et. unfold changed_condition.
    destruct (defaultFor _ _) as [dr dm]. rewrite (scenario_closed cfg mb) by done. cbn.
    destruct (changes mb c r); [|by eexists _, _, _]. destruct (wording r dr dm) as [rs ms].
    rewrite toConditionStatus_exit. unfold change_event. cbn. destruct (String.eqb _ CTrue); by eexists _, _, _.
  - destruct IH as (conds' & a & i & -> & Hs). cbn. rewrite Hs. by eexists _, _, _.
Qed.

(** The whole handler: it returns, and leaves the conditions and the status that
    the specification gives. *)
Lemma generateStatus_spec c w r now mb metrics conds :
  EnableMessageChangeBasedConditionUpdate (cpcGlobal (cConfig c)) = Some mb ->
  cpcEnableMetricsReporting (cConfig c) = Some metrics ->
  wStore w !! cConditions c = Some conds ->
  exists w', generateStatus c w r now =
      Ret (w', mkStatus (cpcSource (cConfig c)) (spec_result (cConfig c) mb conds r now).2 (cConditions c)) /\
    wStore w' = <[cConditions c := (spec_result (cConfig c) mb conds r now).1]> (wStore w).
Proof.
  intros Hmb Hm Hs. unfold generateStatus, spec_result. rewrite Hs. cbn [default from_option id].
  destruct (String.eqb _ Temp).
  - cbn. rewrite Hm. cbn. rewrite app_nil_r. by eexists.
  - destruct (updateCondition_spec (cConfig c) mb conds r now Hmb) as (conds' & a & i & -> & ->).
    cbn. rewrite Hm. cbn. by eexists.
Qed.

(** ** The custom plugin monitor as a [Monitor] *)
Definition cp_state (m : cpmon) : mstate :=
  match cpPhase m with
  | CInit => SInit
  | CSelect => SSelect
  | CSend s => SSending s
  | CFailed => SBusy
  end.

Definition cp_exec (m : cpmon) (w : world M) (op : mop Result) : option (cpmon * world M) :=
  match op with
  | OStart now => cp_init m w now
  | OInput r now => cp_result m w r now
  | OTurn => None
  end.

#[export] Instance plugin_MonitorOps : MonitorOps M cpmon Result (Result * Time) := {|
  mon_exec := cp_exec;
  mon_send := cp_send;
  mon_state := cp_state;
  mon_ref := fun m => cConditions (cpMon m);
  mon_sent := cpSent;
  mon_item := pair;
  mon_source := fst;
  mon_inputs := cpResults;
  mon_begin := cpStart;
  mon_left := fun m => match cpPhase m with CInit => 1 | _ => 0 end;
  mon_more := fun m => match cpPhase m with CInit => 1 | _ => 0 end;
  mon_types := fun m => cType <$> cpcDefaultConditions (cConfig (cpMon m));
  mon_bound := fun _ _ => True;
  mon_spec := fun m => plugin_expected (cpMon m)
|}.

Record cp_inv (w : world M) (m : cpmon) : Prop := mkCpInv {
  cpi_message : is_Some (EnableMessageChangeBasedConditionUpdate (cpcGlobal (cConfig (cpMon m))));
  cpi_skip : is_Some (SkipInitialStatus (cpcGlobal (cConfig (cpMon m))));
  cpi_metrics : is_Some (cpcEnableMetricsReporting (cConfig (cpMon m)));
  cpi_phase :
    match cpPhase m with
    | CInit => cpResults m = [] /\ cpSent m = []
    | CFailed => False
    | CSelect | CSend _ => exists conds, wStore w !! cConditions (cpMon m) = Some conds /\
        plugin_expected (cpMon m) (cConditions (cpMon m)) (cpStart m) (cpResults m) = (conds, cpSent m)
    end
}.

Lemma cp_state_init m : cp_state m = SInit <-> cpPhase m = CInit.
Proof. unfold cp_state. by destruct (cpPhase m). Qed.

Lemma cp_same m m' : cConfig (cpMon m') = cConfig (cpMon m) -> mon_same (M := M) m m'.
Proof. intros H. constructor; cbn; [by rewrite H|done|]. intros r t l. unfold plugin_expected. by rewrite H. Qed.

Lemma cp_init_step w m now m' w' :
  cp_inv w m -> cp_init m w now = Some (m', w') ->
  exists o, mon_step (M := M) cp_inv w m w' m' (option_list o) [] /\ in_hand (M := M) m' = option_list o /\
    Forall (fun s => length (sEvents s) <= 1) (option_list o) /\ cp_state m = SInit /\ cpPhase m' <> CInit.
Proof.
  intros [H1 [sk H2] H3 H4]. unfold cp_init. destruct (cpPhase m) eqn:Ep; try done. destruct H4 as [Hr Hs].
  cbn [initializeConditions cConfig]. rewrite H2. cbn [deref].
  set (ref := fresh (dom (wStore w))).
  assert (Hn : wStore w !! ref = None) by apply not_elem_of_dom, is_fresh.
  assert (Hexp : plugin_expected (mkMonitor (cConfig (cpMon m)) ref) ref now [] =
    (initialConditions (cpcDefaultConditions (cConfig (cpMon m))) now,
     if sk then [] else [sendInitialStatus (mkMonitor (cConfig (cpMon m)) ref)])).
  { unfold plugin_expected, skips_initial. cbn. rewrite H2. cbn. by rewrite app_nil_r. }
  intros [= <- <-].
  exists (if sk then None else Some (sendInitialStatus (mkMonitor (cConfig (cpMon m)) ref))).
  assert (Hst : cp_state m = SInit) by by rewrite cp_state_init.
  split; [|split; [by destruct sk|split; [destruct sk; repeat constructor; cbn; lia|split; [done|by destruct sk]]]].
  constructor; cbn [mon_ref mon_sent mon_inputs mon_state plugin_MonitorOps].
  - rewrite Hr, Hs. destruct sk; (constructor; [done|by eexists|done|]); cbn; eexists; (split; [apply lookup_insert_eq|exact Hexp]).
  - apply cp_same. by destruct sk.
  - by destruct sk.
  - intros r Hne. cbn. rewrite lookup_insert_ne; [done|]. destruct sk; cbn in Hne; congruence.
  - right. split; [done|]. by destruct sk.
  - destruct sk; cbn; [by rewrite app_nil_r|done].
  - destruct sk; by rewrite app_nil_r.
Qed.

Lemma cp_result_step w m r now m' w' :
  cp_inv w m -> cp_result m w r now = Some (m', w') ->
  exists s, mon_step (M := M) cp_inv w m w' m' [s] [(r, now)] /\ in_hand (M := M) m' = [s] /\ length (sEvents s) <= 1.
Proof.
  intros [[mb H1] H2 [me H3] H4]. unfold cp_result. destruct (cpPhase m) eqn:Ep; try done.
  destruct H4 as (conds & Hc & He).
  destruct (generateStatus_spec (cpMon m) w r now mb me conds H1 H3 Hc) as (w1 & -> & Hw1).
  intros [= <- <-]. eexists. split; [|split; [done|]].
  - constructor; cbn [mon_ref mon_sent mon_inputs mon_state plugin_MonitorOps cpMon cpSent cpResults]; try done.
    + constructor; cbn; [by eexists|done|by eexists|].
      exists (spec_result (cConfig (cpMon m)) mb conds r now).1. rewrite Hw1. split; [apply lookup_insert_eq|].
      rewrite plugin_expected_snoc, He. unfold message_based. rewrite H1. cbn [default from_option id].
      by destruct (spec_result _ _ _ _ _).
    + intros r' Hne. rewrite Hw1, lookup_insert_ne; [done|congruence].
    + left. by rewrite cp_state_init, Ep.
  - cbn. destruct (plugin_expected_keeps _ _ _ _ _ _ He) as (Hv & _).
    pose proof (spec_result_keeps (cConfig (cpMon m)) mb conds r now Hv) as Hk. destruct (spec_result _ _ _ _ _). tauto.
Qed.

#[export] Instance plugin_Monitor : Monitor M cpmon Result (Result * Time).
Proof.
  refine {| mon_fresh := fun m => exists c timeout interval, m = cp_new c /\ runnable (cConfig c) timeout interval;
            mon_inv := cp_inv |}.
  - done.
  - intros w d (c & t & i & -> & HR). destruct HR. by split.
  - intros w d [_ _ _ H] Hs%cp_state_init. rewrite Hs in H. cbn. tauto.
  - intros d w [now|r now|] d' w'; cbn; unfold cp_init, cp_result, cp_state; by destruct (cpPhase d).
  - intros d s d'. cbn. unfold cp_send, cp_state. destruct (cpPhase d); try done. by intros [= <- _].
  - intros w d now. cbn. unfold cp_init, cp_state. destruct (cpPhase d); by eauto.
  - intros w d [_ _ _ H]. cbn. unfold cp_state. by destruct (cpPhase d).
  - intros d s. cbn. unfold cp_send, cp_state. destruct (cpPhase d); try done. intros [= ->]. by eexists.
  - intros w d [now|r now|] d' w' Hi He _; cbn [mon_exec plugin_MonitorOps cp_exec] in He; [| |done].
    + destruct (cp_init_step _ _ _ _ _ Hi He) as (o & Hst & Hh & Hev & Hs & Hp). exists o.
      split; [done|]. split; [done|]. split; [by left|]. split; [done|]. intros _. cbn.
      apply cp_state_init in Hs. rewrite Hs. destruct (cpPhase d'), o; done || (cbn; lia).
    + destruct (cp_result_step _ _ _ _ _ _ Hi He) as (s & Hst & Hh & Hev). exists (Some s).
      split_and!; [done|done|done|by constructor|done].
  - intros d w [now|r now|] d' w'; cbn; unfold cp_init, cp_result; destruct (cpPhase d); try done.
    + intros [= <- _]. by destruct (deref _) as [[]|].
    + destruct (generateStatus _ _ _ _) as [[? ?]|]; by intros [= <- _].
  - intros w d s d' [H1 H2 H3 H4]. cbn [mon_send plugin_MonitorOps]. unfold cp_send. destruct (cpPhase d) eqn:Ep; try done.
    intros [= <- <-]. split_and!; try (cbn; lia || done).
    constructor; cbn; rewrite ?app_nil_r; try done. left. by rewrite cp_state_init, Ep.
  - intros w w' d [H1 H2 H3 H4] Hw. constructor; try done.
    cbn in Hw. rewrite cp_state_init in Hw. destruct (cpPhase d); try done; (destruct Hw as [?|Hw]; [done|by rewrite Hw]).
  - intros w d [H1 H2 H3 H4] Hp. cbn in *. rewrite cp_state_init in Hp.
    assert (exists conds, wStore w !! cConditions (cpMon d) = Some conds /\
      plugin_expected (cpMon d) (cConditions (cpMon d)) (cpStart d) (cpResults d) = (conds, cpSent d)) as (conds & Hc & He)
      by by destruct (cpPhase d).
    destruct (plugin_expected_keeps _ _ _ _ _ _ He) as (? & ? & ?). by exists conds.
  - intros w d conds [_ _ _ H] Hs Hc. cbn in *. unfold cp_state in Hs. destruct (cpPhase d); try done.
    destruct H as (conds' & Hc' & He). congruence.
  - done.
Defined.
End Loop.
