(* ===== verification/Plugin.v ===== *)
(** The plugin runner of the custom plugin monitor
    ([pkg/custompluginmonitor/plugin/plugin.go]): the grouping of rules by
    interval, the bounded parallel execution of a batch of rules, and the run of
    one plugin process.

    The parallel execution is a step relation over the launchers of all running
    batches and their workers, which share one channel of tokens. *)

From S2P Require Import Prelude GoStrings GoTime Types CustomPluginConfig.

Module Plugin.
Import Cpm.

(** ** Groups of rules *)

(* @ pkg/custompluginmonitor/plugin/plugin.go:51-55 intervalGroup *)
Record intervalGroup : Type := mkGroup { giInterval : Duration; giRules : list CustomRule }.

(* @ pkg/custompluginmonitor/plugin/plugin.go:124-129 effectiveInterval *)
Definition effectiveInterval (g : pluginGlobalConfig) (rule : CustomRule) : outcome Duration :=
  match crInvokeInterval rule with
  | Some i => Ret i
  | None => deref (InvokeInterval g)
  end.

(** Appending a rule to the group of an index. *)
Definition add_to_group (groups : list intervalGroup) (i : nat) (rule : CustomRule)
    : outcome (list intervalGroup) :=
  match groups !! i with
  | Some gr => Ret (<[i := mkGroup (giInterval gr) (giRules gr ++ [rule])]> groups)
  | None => Panic "index out of range"
  end.

Fixpoint groupRules (g : pluginGlobalConfig) (rules : list CustomRule)
    (groups : list intervalGroup) (groupIndexes : gmap Z nat) : outcome (list intervalGroup) :=
  match rules with
  | [] => Ret groups
  | rule :: rules =>
    interval ← effectiveInterval g rule;
    match groupIndexes !! interval with
    | Some i =>
      groups ← add_to_group groups i rule;
      groupRules g rules groups groupIndexes
    | None =>
      let i := length groups in
      groups' ← add_to_group (groups ++ [mkGroup interval []]) i rule;
      groupRules g rules groups' (<[interval := i]> groupIndexes)
    end
  end.

(* @ pkg/custompluginmonitor/plugin/plugin.go:108-122 intervalGroups *)
Definition intervalGroups (cfg : CustomPluginConfig) : outcome (list intervalGroup) :=
  groupRules (cpcGlobal cfg) (cpcRules cfg) [] ∅.

#[export] Instance outcome_eq_dec {A} `{EqDecision A} : EqDecision (outcome A).
Proof. solve_decision. Defined.

(** The invariant of the grouping: the index map points each interval at its
    group, and a group holds the rules of its interval, in order. *)
Record GroupInv (g : pluginGlobalConfig) (seen : list CustomRule) (groups : list intervalGroup)
    (idx : gmap Z nat) : Prop := {
  gv_idx : forall i n, idx !! i = Some n <-> exists gr, groups !! n = Some gr /\ giInterval gr = i;
  gv_rules : forall n gr, groups !! n = Some gr ->
    giRules gr = filter (fun r => effectiveInterval g r = Ret (giInterval gr)) seen;
  gv_seen : forall r, r ∈ seen -> exists gr, gr ∈ groups /\ effectiveInterval g r = Ret (giInterval gr)
}.

Lemma GroupInv_nil g : GroupInv g [] [] ∅.
Proof.
  constructor.
  - intros i n. rewrite lookup_empty. split; [done | by intros (? & ? & _)].
  - done.
  - by intros r ?%elem_of_nil.
Qed.

(** Adding a rule to the group of its interval. *)
Lemma GroupInv_add g seen groups idx rule interval n gr :
  GroupInv g seen groups idx -> effectiveInterval g rule = Ret interval ->
  groups !! n = Some gr -> giInterval gr = interval ->
  GroupInv g (seen ++ [rule]) (<[n := mkGroup (giInterval gr) (giRules gr ++ [rule])]> groups) idx.
Proof.
  intros [H1 H2 H3] He Hn Hi. pose proof (lookup_lt_Some _ _ _ Hn) as Hlt. constructor.
  - intros i m. rewrite H1. destruct (decide (m = n)) as [->|Hne].
    + rewrite list_lookup_insert_eq by done. rewrite Hn. naive_solver.
    + by rewrite list_lookup_insert_ne.
  - intros m gr' Hm. rewrite filter_app. destruct (decide (m = n)) as [->|Hne].
    + rewrite list_lookup_insert_eq in Hm by done. simplify_eq. simpl.
      rewrite filter_cons_True, filter_nil by done. by rewrite (H2 n gr Hn).
    + rewrite list_lookup_insert_ne in Hm by done. rewrite filter_cons_False, filter_nil, app_nil_r.
      * by apply (H2 m).
      * intros E. rewrite He in E. injection E as E.
        assert (idx !! interval = Some n) by (apply H1; eauto).
        assert (idx !! interval = Some m) by (apply H1; eauto). congruence.
  - intros r [Hr| ->%list_elem_of_singleton]%elem_of_app.
    + destruct (H3 r Hr) as (gr0 & Hg0 & He0). apply list_elem_of_lookup in Hg0 as [m Hm].
      destruct (decide (m = n)) as [->|Hne].
      * exists (mkGroup (giInterval gr) (giRules gr ++ [rule])). simplify_eq. split; [|done].
        eapply list_elem_of_lookup_2. by apply list_lookup_insert_eq.
      * exists gr0. split; [|done]. eapply list_elem_of_lookup_2.
        by rewrite list_lookup_insert_ne.
    + exists (mkGroup (giInterval gr) (giRules gr ++ [rule])). simpl. rewrite He, Hi.
      split; [|done]. eapply list_elem_of_lookup_2. by apply list_lookup_insert_eq.
Qed.

(** A new, empty group for an interval not seen before. *)
Lemma GroupInv_new g seen groups idx interval :
  GroupInv g seen groups idx -> idx !! interval = None ->
  GroupInv g seen (groups ++ [mkGroup interval []]) (<[interval := length groups]> idx).
Proof.
  intros [H1 H2 H3] Hn.
  assert (Hnot : forall n gr, groups !! n = Some gr -> giInterval gr ≠ interval).
  { intros n gr Hg E. assert (idx !! interval = Some n) by (apply H1; eauto). congruence. }
  constructor.
  - intros i n. rewrite lookup_insert_Some. split.
    + intros [[<- <-]|[Hne Hi]].
      * exists (mkGroup interval []). split; [|done]. by rewrite lookup_app_r, Nat.sub_diag by lia.
      * apply H1 in Hi as (gr & Hg & Hi). exists gr. split; [|done]. by apply lookup_app_l_Some.
    + intros (gr & Hg & Hi). apply lookup_app_Some in Hg as [Hg|[Hle Hg]].
      * right. split; [|apply H1; eauto]. intros <-. by eapply Hnot.
      * apply list_lookup_singleton_Some in Hg as [Hz <-]. left. simpl in Hi. split; [done|lia].
  - intros n gr Hg. apply lookup_app_Some in Hg as [Hg|[Hle Hg]]; [by apply (H2 n)|].
    apply list_lookup_singleton_Some in Hg as [_ <-]. simpl. symmetry.
    destruct (filter (fun r => effectiveInterval g r = Ret interval) seen) as [|r l] eqn:E; [done|].
    assert (Hr : r ∈ filter (fun r => effectiveInterval g r = Ret interval) seen)
      by (rewrite E; by left).
    apply list_elem_of_filter in Hr as [He Hr]. destruct (H3 r Hr) as (gr & Hg & He').
    apply list_elem_of_lookup in Hg as [m Hm]. destruct (Hnot m gr Hm). congruence.
  - intros r Hr. destruct (H3 r Hr) as (gr & Hg & He). exists gr. split; [|done].
    rewrite elem_of_app. by left.
Qed.

Lemma groupRules_inv g rules : forall seen groups idx groups',
  GroupInv g seen groups idx -> groupRules g rules groups idx = Ret groups' ->
  exists idx', GroupInv g (seen ++ rules) groups' idx'.
Proof.
  induction rules as [|rule rules IH]; intros seen groups idx groups' HI H; cbn [groupRules] in H.
  { simplify_eq. exists idx. by rewrite app_nil_r. }
  destruct (effectiveInterval g rule) as [interval|] eqn:He; [|done]. simpl in H.
  rewrite cons_middle, app_assoc. destruct (idx !! interval) as [n|] eqn:En.
  - destruct (proj1 (gv_idx _ _ _ _ HI interval n) En) as (gr & Hg & Hi).
    unfold add_to_group in H. rewrite Hg in H. simpl in H.
    eapply IH; [|exact H]. by eapply GroupInv_add.
  - pose proof (GroupInv_new g seen groups idx interval HI En) as HI'.
    assert (Hg : (groups ++ [mkGroup interval []]) !! length groups = Some (mkGroup interval [])).
    { by rewrite lookup_app_r, Nat.sub_diag by lia. }
    unfold add_to_group in H. rewrite Hg in H. simpl in H.
    eapply IH; [|exact H]. by eapply (GroupInv_add _ _ _ _ _ _ _ (mkGroup interval [])).
Qed.

Lemma groupRules_total g rules : forall seen groups idx,
  GroupInv g seen groups idx -> is_Some (InvokeInterval g) ->
  exists groups', groupRules g rules groups idx = Ret groups'.
Proof.
  intros seen groups idx HI [d Hd]. revert seen groups idx HI.
  induction rules as [|rule rules IH]; intros seen groups idx HI; cbn [groupRules]; [by eexists|].
  assert (He : exists i, effectiveInterval g rule = Ret i).
  { unfold effectiveInterval. destruct (crInvokeInterval rule); [by eexists|]. rewrite Hd. by eexists. }
  destruct He as [i He]. rewrite He. simpl. destruct (idx !! i) as [n|] eqn:En.
  - destruct (proj1 (gv_idx _ _ _ _ HI i n) En) as (gr & Hg & Hi).
    unfold add_to_group. rewrite Hg. simpl. eapply IH. by eapply GroupInv_add.
  - pose proof (GroupInv_new g seen groups idx i HI En) as HI'.
    assert (Hg : (groups ++ [mkGroup i []]) !! length groups = Some (mkGroup i [])).
    { by rewrite lookup_app_r, Nat.sub_diag by lia. }
    unfold add_to_group. rewrite Hg. simpl. eapply IH.
    by eapply (GroupInv_add _ _ _ _ _ _ _ (mkGroup i [])).
Qed.

(** The groups partition the rules by interval: with a global interval
    set, grouping never panics; no two groups have the same interval; a group
    holds, in configuration order, exactly the rules whose effective interval is
    its own; and every rule is in some group. *)
Theorem intervalGroups_partition cfg :
  is_Some (InvokeInterval (cpcGlobal cfg)) ->
  exists groups, intervalGroups cfg = Ret groups /\
    (forall n m g1 g2, groups !! n = Some g1 -> groups !! m = Some g2 ->
       giInterval g1 = giInterval g2 -> n = m) /\
    (forall gr, gr ∈ groups -> giRules gr =
       filter (fun r => effectiveInterval (cpcGlobal cfg) r = Ret (giInterval gr)) (cpcRules cfg)) /\
    (forall r, r ∈ cpcRules cfg -> exists gr, gr ∈ groups /\ r ∈ giRules gr).
Proof.
  intros Hd. unfold intervalGroups.
  destruct (groupRules_total (cpcGlobal cfg) (cpcRules cfg) [] [] ∅ (GroupInv_nil _) Hd) as [groups Hg].
  destruct (groupRules_inv _ _ _ _ _ _ (GroupInv_nil _) Hg) as [idx [H1 H2 H3]]. simpl in H2, H3.
  assert (Hrules : forall gr, gr ∈ groups -> giRules gr =
    filter (fun r => effectiveInterval (cpcGlobal cfg) r = Ret (giInterval gr)) (cpcRules cfg)).
  { intros gr Hgr. apply list_elem_of_lookup in Hgr as [n Hn]. by apply (H2 n). }
  exists groups. split_and!; [done | | done |].
  - intros n m g1 g2 Hn Hm E.
    assert (idx !! giInterval g1 = Some n) by (apply H1; eauto).
    assert (idx !! giInterval g1 = Some m) by (apply H1; eauto). congruence.
  - intros r Hr. destruct (H3 r Hr) as (gr & Hgr & He). exists gr. split; [done|].
    rewrite (Hrules gr Hgr). by apply list_elem_of_filter.
Qed.

(** ** Running batches of rules *)

(** A worker: launched, running its plugin, or with a result to send. *)
Inductive wphase : Type := WStarted | WRunning | WDone.

#[export] Instance wphase_eq_dec : EqDecision wphase.
Proof. solve_decision. Defined.

(** The goroutine of [runRules]: in its loop, holding a token for the next
    worker, waiting for its workers, or returned. *)
Inductive lphase : Type := LLoop | LHolding | LWait (ok : bool) | LReturned (ok : bool).

Record batch : Type := mkBatch {
  bRules : list CustomRule;                   (* the argument of runRules *)
  bTodo : list CustomRule;
  bPhase : lphase;
  bFlying : list (CustomRule * wphase);
  bSent : list CustomRule                     (* rules whose result was sent *)
}.

(** All batches, the number of tokens in [syncChan], and whether the tomb is
    stopping. *)
Record pool : Type := mkPool { batches : list batch; tokens : nat; stopping : bool }.

Definition new_batch (rules : list CustomRule) : batch := mkBatch rules rules LLoop [] [].

Section RunRules.
(** The capacity of [syncChan]: the configured concurrency. *)
Variable cap : nat.

(** One step of a batch: its launcher or one of its workers. *)
(* @ pkg/custompluginmonitor/plugin/plugin.go:145-210 runRules *)
Inductive bstep : batch -> nat -> bool -> batch -> nat -> Prop :=
| b_acquire rs r todo fl sent n st :
    n < cap ->
    bstep (mkBatch rs (r :: todo) LLoop fl sent) n st
          (mkBatch rs (r :: todo) LHolding fl sent) (S n)
| b_stop_acquire rs r todo fl sent n :
    bstep (mkBatch rs (r :: todo) LLoop fl sent) n true
          (mkBatch rs (r :: todo) (LWait false) fl sent) n
| b_stop_holding rs todo fl sent n :
    bstep (mkBatch rs todo LHolding fl sent) (S n) true
          (mkBatch rs todo (LWait false) fl sent) n
| b_launch rs r todo fl sent n :
    bstep (mkBatch rs (r :: todo) LHolding fl sent) n false
          (mkBatch rs todo LLoop (fl ++ [(r, WStarted)]) sent) n
| b_loop_end rs fl sent n st :
    bstep (mkBatch rs [] LLoop fl sent) n st (mkBatch rs [] (LWait true) fl sent) n
| b_return rs todo ok sent n st :
    bstep (mkBatch rs todo (LWait ok) [] sent) n st (mkBatch rs todo (LReturned ok) [] sent) n
| b_worker_skip rs todo ph l1 r l2 sent n :
    bstep (mkBatch rs todo ph (l1 ++ (r, WStarted) :: l2) sent) (S n) true
          (mkBatch rs todo ph (l1 ++ l2) sent) n
| b_worker_run rs todo ph l1 r l2 sent n :
    bstep (mkBatch rs todo ph (l1 ++ (r, WStarted) :: l2) sent) n false
          (mkBatch rs todo ph (l1 ++ (r, WRunning) :: l2) sent) n
| b_worker_finish rs todo ph l1 r l2 sent n st :
    bstep (mkBatch rs todo ph (l1 ++ (r, WRunning) :: l2) sent) n st
          (mkBatch rs todo ph (l1 ++ (r, WDone) :: l2) sent) n
| b_worker_send rs todo ph l1 r l2 sent n st :
    bstep (mkBatch rs todo ph (l1 ++ (r, WDone) :: l2) sent) (S n) st
          (mkBatch rs todo ph (l1 ++ l2) (sent ++ [r])) n
| b_worker_drop rs todo ph l1 r l2 sent n :
    bstep (mkBatch rs todo ph (l1 ++ (r, WDone) :: l2) sent) (S n) true
          (mkBatch rs todo ph (l1 ++ l2) sent) n.

(** A step of the plugin: a batch moves, a group starts another batch, or the
    plugin is stopped. *)
Inductive pstep : pool -> pool -> Prop :=
| p_batch bs n st k b b' n' :
    bs !! k = Some b -> bstep b n st b' n' ->
    pstep (mkPool bs n st) (mkPool (<[k := b']> bs) n' st)
| p_start bs n st rules :
    pstep (mkPool bs n st) (mkPool (bs ++ [new_batch rules]) n st)
| p_stop bs n st : pstep (mkPool bs n st) (mkPool bs n true).

Definition initial_pool : pool := mkPool [] 0 false.

(** The tokens a batch holds. *)
Definition held_tokens (b : batch) : nat :=
  (match bPhase b with LHolding => 1 | _ => 0 end) + length (bFlying b).

Definition is_aborted (b : batch) : bool :=
  match bPhase b with LWait false | LReturned false => true | _ => false end.

(** What a batch did with its rules. *)
Definition accounted (b : batch) : list CustomRule := bSent b ++ (bFlying b).*1 ++ bTodo b.

Record BatchInv (st : bool) (b : batch) : Prop := {
  bi_once : accounted b ⊆+ bRules b;
  bi_all : st = false -> accounted b ≡ₚ bRules b /\ is_aborted b = false;
  bi_todo : (bPhase b = LWait true \/ bPhase b = LReturned true) -> bTodo b = [];
  bi_holding : bPhase b = LHolding -> bTodo b ≠ [];
  bi_returned : forall ok, bPhase b = LReturned ok -> bFlying b = []
}.

Record PoolInv (p : pool) : Prop := {
  pi_tokens : tokens p = sum_list_with held_tokens (batches p);
  pi_cap : tokens p <= cap;
  pi_batches : Forall (BatchInv (stopping p)) (batches p)
}.

Lemma BatchInv_new st rules : BatchInv st (new_batch rules).
Proof.
  unfold new_batch. constructor; simpl; try done.
  - by intros [?|?].
Qed.

Lemma BatchInv_stop st b : BatchInv st b -> BatchInv true b.
Proof. intros [H1 H2 H3 H4 H5]. by constructor. Qed.

Lemma flying_mid {A} (l1 l2 : list A) x : l1 ++ x :: l2 ≡ₚ x :: l1 ++ l2.
Proof. by rewrite Permutation_middle. Qed.

(** A step moves a rule along: nothing is added, and nothing is lost unless the
    plugin is stopping. *)
Lemma bstep_accounted b n st b' n' :
  bstep b n st b' n' ->
  bRules b' = bRules b /\ accounted b' ⊆+ accounted b /\
  (st = false -> accounted b' ≡ₚ accounted b).
Proof.
  unfold accounted. destruct 1; simpl; (split; [done|]); try done.
  - assert (E : sent ++ (fl ++ [(r, WStarted)]).*1 ++ todo ≡ₚ sent ++ fl.*1 ++ r :: todo)
      by (rewrite fmap_app, <- app_assoc; done).
    split; [by rewrite E | done].
  - split; [|done]. rewrite !fmap_app. simpl. rewrite <- !app_assoc. simpl.
    apply submseteq_app; [done|]. apply submseteq_app; [done|]. by apply submseteq_cons.
  - by rewrite !fmap_app.
  - by rewrite !fmap_app.
  - assert (E : (sent ++ [r]) ++ (l1 ++ l2).*1 ++ todo ≡ₚ
                sent ++ (l1 ++ (r, WDone) :: l2).*1 ++ todo).
    { rewrite !fmap_app, fmap_cons. simpl. rewrite <- !app_assoc. simpl.
      by rewrite (flying_mid l1.*1). }
    split; [by rewrite E | done].
  - split; [|done]. rewrite !fmap_app. simpl. rewrite <- !app_assoc. simpl.
    apply submseteq_app; [done|]. apply submseteq_app; [done|]. by apply submseteq_cons.
Qed.

Lemma bstep_tokens b n st b' n' :
  bstep b n st b' n' -> n + held_tokens b' = n' + held_tokens b /\ (n <= cap -> n' <= cap).
Proof.
  unfold held_tokens. destruct 1; simpl; rewrite ?length_app; simpl; try (split; lia).
  all: try (destruct ph; simpl; rewrite ?length_app; simpl; split; lia).
Qed.

Lemma bstep_inv b n st b' n' : bstep b n st b' n' -> BatchInv st b -> BatchInv st b'.
Proof.
  intros Hst [H1 H2 H3 H4 H5]. pose proof (bstep_accounted _ _ _ _ _ Hst) as (Hr & Hs & Hp).
  assert (Hall : st = false -> accounted b' ≡ₚ bRules b') by
    (intros E; rewrite (Hp E), Hr; by apply H2).
  constructor.
  - rewrite Hr. by etrans.
  - intros E. split; [by apply Hall|]. destruct (H2 E) as [_ Ha].
    clear -Hst Ha E. destruct Hst; simpl in *; try done.
  - clear -Hst H3 H4. destruct Hst; simpl in *; try done; try (by intros [?|?]); intros [?|E];
      simplify_eq; try done; eauto.
  - clear -Hst H4. destruct Hst; simpl in *; try done; intros; eauto.
  - intros ok. clear -Hst H5. destruct Hst; simpl in *; try done; intros E;
      specialize (H5 _ E); by destruct l1.
Qed.

Lemma PoolInv_step p p' : PoolInv p -> pstep p p' -> PoolInv p'.
Proof.
  intros [H1 H2 H3] Hst. destruct Hst as [bs n st k b b' n' Hk Hb | bs n st rules | bs n st];
    simpl in *.
  - destruct (bstep_tokens _ _ _ _ _ Hb) as [Ht Hc]. constructor; simpl.
    + pose proof (sum_list_insert held_tokens bs k b b' Hk). lia.
    + lia.
    + apply Forall_insert; [done|]. eapply bstep_inv; [done|].
      by apply (Forall_lookup_1 _ _ _ _ H3 Hk).
  - constructor; simpl; [|done|].
    + rewrite sum_list_with_app. simpl. lia.
    + apply Forall_app. split; [done|]. repeat constructor; try apply BatchInv_new; simpl; done.
  - constructor; simpl; [done | done |]. eapply Forall_impl; [exact H3|].
    intros b. apply BatchInv_stop.
Qed.

Lemma reachable_PoolInv p : rtc pstep initial_pool p -> PoolInv p.
Proof.
  assert (H0 : PoolInv initial_pool) by (constructor; simpl; [done | lia | constructor]).
  revert H0. generalize initial_pool. intros p0 H0 Hr. revert H0.
  induction Hr as [|p1 p2 p3 Hst Hr IH]; [done|]. intros HI. by eapply IH, PoolInv_step.
Qed.

(** Workers that are running a plugin process, over all batches. *)
Definition running_plugins (p : pool) : nat :=
  sum_list_with (fun b => length (filter (fun w => w.2 = WRunning) (bFlying b))) (batches p).

Lemma running_le bs :
  sum_list_with (fun b => length (filter (fun w => w.2 = WRunning) (bFlying b))) bs <=
  sum_list_with held_tokens bs.
Proof.
  induction bs as [|b bs IH]; simpl; [lia|]. unfold held_tokens at 1.
  pose proof (length_filter (fun w : CustomRule * wphase => w.2 = WRunning) (bFlying b)). lia.
Qed.

(** C33.  Bounded parallelism: in every reachable state, over all groups and
    batches together, at most the configured number of plugins run at once. *)
Theorem concurrency_bounded p : rtc pstep initial_pool p -> running_plugins p <= cap.
Proof.
  intros Hr. apply reachable_PoolInv in Hr as [H1 H2 _]. unfold running_plugins.
  pose proof (running_le (batches p)). lia.
Qed.

(** C18.  Every rule runs, once: a batch never sends more than one result per
    occurrence of a rule, whatever is stopped when; and a batch that returned
    while the plugin was not stopping returned true, has no worker left, and has
    sent exactly one result per rule. *)
Theorem batch_results p k b :
  rtc pstep initial_pool p -> batches p !! k = Some b ->
  bSent b ⊆+ bRules b /\
  (forall ok, bPhase b = LReturned ok -> bFlying b = [] /\
     (stopping p = false -> ok = true /\ bSent b ≡ₚ bRules b)).
Proof.
  intros Hr Hk. apply reachable_PoolInv in Hr as [_ _ HF].
  destruct (Forall_lookup_1 _ _ _ _ HF Hk) as [H1 H2 H3 H4 H5]. split.
  - etrans; [|exact H1]. unfold accounted. by apply submseteq_inserts_r.
  - intros ok Hok. rewrite (H5 ok Hok). split; [done|]. intros Hs.
    destruct (H2 Hs) as [Ha Hab]. unfold is_aborted in Hab. rewrite Hok in Hab.
    destruct ok; [|done]. split; [done|]. rewrite <- Ha. unfold accounted.
    rewrite (H5 true Hok), (H3 ltac:(by right)). simpl. by rewrite app_nil_r.
Qed.

Definition unreturned (b : batch) : Prop :=
  match bPhase b with LReturned _ => False | _ => True end.

Lemma flying_progress b n st w :
  w ∈ bFlying b -> 0 < n -> exists b' n', bstep b n st b' n'.
Proof.
  intros Hw Hn. destruct w as [r ph]. apply list_elem_of_split in Hw as (l1 & l2 & Hfl).
  destruct b as [rs todo lp fl sent]; simpl in *; subst. destruct n as [|n]; [lia|].
  destruct ph; [destruct st|..]; eexists _, _.
  - apply b_worker_skip.
  - apply b_worker_run.
  - apply b_worker_finish.
  - apply b_worker_send.
Qed.

(** A holder of a token, and so its batch, can always move. *)
Lemma holding_progress st b n :
  BatchInv st b -> 0 < held_tokens b -> held_tokens b <= n -> exists b' n', bstep b n st b' n'.
Proof.
  intros [_ _ _ H4 _] Hp Hn. destruct (bFlying b) as [|w fl] eqn:E.
  - unfold held_tokens in *. rewrite E in *.
    destruct b as [rs todo lp fl sent]; simpl in *; subst.
    destruct lp; simpl in *; try lia. destruct todo as [|r todo]; [by destruct (H4 eq_refl)|].
    destruct st; [|by eexists _, _; apply b_launch].
    destruct n as [|n]; [lia|]. eexists _, _. apply b_stop_holding.
  - apply (flying_progress b n st w); [rewrite E; by left | lia].
Qed.

Lemma sum_pos (f : batch -> nat) bs :
  0 < sum_list_with f bs -> exists k b, bs !! k = Some b /\ 0 < f b.
Proof.
  induction bs as [|b bs IH]; simpl; [lia|]. intros H.
  destruct (decide (0 < f b)) as [Hb|Hb]; [by exists 0, b|].
  destruct IH as (k & b' & Hk & Hb'); [lia|]. by exists (S k), b'.
Qed.

Lemma sum_le (f : batch -> nat) bs k b : bs !! k = Some b -> f b <= sum_list_with f bs.
Proof.
  revert k. induction bs as [|x bs IH]; intros [|k] H; simpl in *; try done.
  - simplify_eq. lia.
  - specialize (IH k H). lia.
Qed.

(** No deadlock: with a positive concurrency, as long as some batch has
    not returned, some launcher or worker can take a step. *)
Theorem batches_progress p k b :
  0 < cap -> rtc pstep initial_pool p -> batches p !! k = Some b -> unreturned b ->
  exists j b0 b1 n1, batches p !! j = Some b0 /\ bstep b0 (tokens p) (stopping p) b1 n1.
Proof.
  intros Hcap Hr Hk Hu. apply reachable_PoolInv in Hr as [H1 H2 HF].
  assert (Hhold : 0 < tokens p -> exists j b0 b1 n1,
            batches p !! j = Some b0 /\ bstep b0 (tokens p) (stopping p) b1 n1).
  { intros Ht. rewrite H1 in Ht. destruct (sum_pos _ _ Ht) as (j & b0 & Hj & Hb0).
    destruct (holding_progress (stopping p) b0 (tokens p)) as (b1 & n1 & Hs).
    - by apply (Forall_lookup_1 _ _ _ _ HF Hj).
    - done.
    - rewrite H1. by eapply sum_le.
    - by exists j, b0, b1, n1. }
  destruct (decide (tokens p = 0)) as [Hz|Hz]; [|apply Hhold; lia].
  assert (Hb0 : held_tokens b = 0) by (pose proof (sum_le held_tokens _ _ _ Hk); lia).
  exists k, b. destruct b as [rs todo lp fl sent]. unfold held_tokens in Hb0. simpl in *.
  destruct fl; [|simpl in Hb0; lia]. destruct lp as [| |ok|ok]; simpl in *; try lia; try done.
  - destruct todo as [|r todo]; eexists _, _; (split; [done|]); [apply b_loop_end|].
    apply b_acquire. lia.
  - eexists _, _. split; [done|]. apply b_return.
Qed.

(** With a concurrency of zero, which the validation lets through, no plugin is
    ever run: no batch ever sends a result. *)
Lemma zero_concurrency_runs_nothing p :
  cap = 0 -> rtc pstep initial_pool p ->
  Forall (fun b => bSent b = [] /\ bFlying b = [] /\ bPhase b ≠ LHolding) (batches p).
Proof.
  intros Hc Hr.
  assert (H0 : Forall (fun b => bSent b = [] /\ bFlying b = [] /\ bPhase b ≠ LHolding)
                 (batches initial_pool)) by constructor.
  revert H0. induction Hr as [|p1 p2 p3 Hst Hr IH]; [done|]. intros HF. apply IH.
  destruct Hst as [bs n st k b b' n' Hk Hb | bs n st rules | bs n st]; simpl in *.
  - apply Forall_insert; [done|]. destruct (Forall_lookup_1 _ _ _ _ HF Hk) as (A1 & A2 & A3).
    destruct Hb; simpl in *; try lia; try done; by destruct l1.
  - apply Forall_app. split; [done|]. repeat constructor; done.
  - done.
Qed.
End RunRules.

(** ** Running one plugin *)

(** A pipe: the bytes the process writes, and whether reading ends in an error
    instead of the end of file. *)
Record pipe : Type := mkPipe { pipeBytes : string; pipeFails : bool }.

(* @ pkg/custompluginmonitor/plugin/plugin.go:39-39 maxCustomPluginBufferBytes *)
Definition maxCustomPluginBufferBytes : nat := 1024 * 4.

(* @ pkg/custompluginmonitor/plugin/plugin.go:212-224 readFromReader *)
Definition readFromReader (reader : pipe) (maxBytes : nat) : result string :=
  let limited := stake maxBytes (pipeBytes reader) in
  if (String.length (pipeBytes reader) <? maxBytes) && pipeFails reader
  then Err "read error"                     (* io.ReadAll of the limited reader *)
  else if pipeFails reader then Err "read error"    (* draining the rest *)
  else Ok limited.

(** How waiting for the process ended: normally or with an exit error, or with
    another error. *)
Inductive wait_result : Type := WaitExited | WaitFailed.

(** What happens to the process of a rule. *)
Record process : Type := mkProcess {
  prStdoutPipeErr : bool; prStderrPipeErr : bool; prStartErr : bool;
  prStdout : pipe; prStderr : pipe;
  prWait : wait_result;
  prTimedOut : Duration -> bool; (* with this timeout, the goroutine that kills set its flag *)
  prState : string;             (* cmd.ProcessState.String() *)
  prExit : Z                    (* the exit status *)
}.

Section Run.
Context `{UC : !Unicode}.

(** The timeout of a rule, from line 230 on. *)
Definition ruleTimeout (g : pluginGlobalConfig) (rule : CustomRule) : outcome Duration :=
  match crTimeout rule with
  | Some t => gt ← deref (Timeout g); Ret (if (t <? gt)%Z then t else gt)
  | None => deref (Timeout g)
  end.

(** [output[:max]] when the output is longer than [max] bytes. *)
(* @ pkg/custompluginmonitor/plugin/plugin.go:335-338 run *)
Definition cutOutput (max : option Z) (output : string) : outcome string :=
  m ← deref max;
  if (m <? Z.of_nat (String.length output))%Z then
    if (m <? 0)%Z then Panic "slice bounds out of range" else Ret (stake (Z.to_nat m) output)
  else Ret output.

(* @ pkg/custompluginmonitor/plugin/plugin.go:226-352 run *)
Definition run (g : pluginGlobalConfig) (rule : CustomRule) (pr : process)
    : outcome (Cpm.Status * string) :=
  timeout ← ruleTimeout g rule;
  if prStdoutPipeErr pr then
    Ret (Unknown, "Error creating stdout pipe for plugin. Please check the error log")
  else if prStderrPipeErr pr then
    Ret (Unknown, "Error creating stderr pipe for plugin. Please check the error log")
  else if prStartErr pr then
    Ret (Unknown, "Error in starting plugin. Please check the error log")
  else
    match readFromReader (prStdout pr) maxCustomPluginBufferBytes with
    | Err _ => Ret (Unknown, "Error reading stdout for plugin. Please check the error log")
    | Ok stdout =>
      match readFromReader (prStderr pr) maxCustomPluginBufferBytes with
      | Err _ => Ret (Unknown, "Error reading stderr for plugin. Please check the error log")
      | Ok stderr =>
        match prWait pr with
        | WaitFailed => Ret (Unknown, "Error in waiting for plugin. Please check the error log")
        | WaitExited =>
          let output := strings_TrimSpace stdout in
          let output :=
            if prTimedOut pr timeout then
              "Timeout when running plugin " +:+ strconv_Quote (crPath rule) +:+ ": state - "
                +:+ prState pr +:+ ". output - " +:+ strconv_Quote output
            else output in
          output ← cutOutput (MaxOutputLength g) output;
          Ret (if Z.eqb (prExit pr) 0 then OK
               else if Z.eqb (prExit pr) 1 then NonOK else Unknown, output)
        end
      end
    end.

(** The process ran to its end and both pipes were read. *)
Definition completed (pr : process) : bool :=
  negb (prStdoutPipeErr pr || prStderrPipeErr pr || prStartErr pr ||
        pipeFails (prStdout pr) || pipeFails (prStderr pr)) &&
  match prWait pr with WaitExited => true | WaitFailed => false end.

Lemma readFromReader_spec reader maxBytes :
  readFromReader reader maxBytes =
  if pipeFails reader then Err "read error" else Ok (stake maxBytes (pipeBytes reader)).
Proof. unfold readFromReader. destruct (pipeFails reader), (_ <? _); done. Qed.

(** *** The specification of a run *)

(** The stages that can fail, in order, with what is reported then. *)
Definition stages (pr : process) : list (bool * string) :=
  [(prStdoutPipeErr pr, "Error creating stdout pipe for plugin. Please check the error log");
   (prStderrPipeErr pr, "Error creating stderr pipe for plugin. Please check the error log");
   (prStartErr pr, "Error in starting plugin. Please check the error log");
   (pipeFails (prStdout pr), "Error reading stdout for plugin. Please check the error log");
   (pipeFails (prStderr pr), "Error reading stderr for plugin. Please check the error log");
   (match prWait pr with WaitFailed => true | WaitExited => false end,
    "Error in waiting for plugin. Please check the error log")].
Definition failure (pr : process) : option string := snd <$> List.find fst (stages pr).

Lemma failure_completed pr : failure pr = None <-> completed pr = true.
Proof.
  unfold failure, completed, stages. cbn.
  destruct (prStdoutPipeErr pr), (prStderrPipeErr pr), (prStartErr pr), (pipeFails (prStdout pr)),
    (pipeFails (prStderr pr)), (prWait pr); done.
Qed.

(** The shorter of the timeouts of the rule and of the configuration. *)
Definition timeout_of (rule : CustomRule) (global : Duration) : Duration :=
  match crTimeout rule with Some t => Z.min t global | None => global end.

(** What a process that completed has to say. *)
Definition report (rule : CustomRule) (pr : process) (timeout : Duration) : string :=
  let text := strings_TrimSpace (stake 4096 (pipeBytes (prStdout pr))) in
  if prTimedOut pr timeout
  then "Timeout when running plugin " +:+ strconv_Quote (crPath rule) +:+ ": state - " +:+ prState pr
         +:+ ". output - " +:+ strconv_Quote text
  else text.

Lemma stake_all n s : String.length s <= n -> stake n s = s.
Proof. revert n. induction s as [|c s IH]; intros [|n] H; cbn in *; try done; [lia|]. by rewrite IH by lia. Qed.

(** [run], closed: for every process, rule and output limit. *)
Lemma run_closed g rule pr timeout m :
  Timeout g = Some timeout -> MaxOutputLength g = Some m ->
  run g rule pr =
  match failure pr with
  | Some msg => Ret (Unknown, msg)
  | None =>
    if (m <? 0)%Z then Panic "slice bounds out of range"
    else Ret (if Z.eqb (prExit pr) 0 then OK else if Z.eqb (prExit pr) 1 then NonOK else Unknown,
              stake (Z.to_nat m) (report rule pr (timeout_of rule timeout)))
  end.
Proof.
  intros Ht Hm. unfold run, failure, stages. cbn [List.find fst].
  assert (Hto : ruleTimeout g rule = Ret (timeout_of rule timeout)).
  { unfold ruleTimeout, timeout_of. rewrite Ht. destruct (crTimeout rule) as [t|]; [|done]. cbn.
    destruct (Z.ltb_spec t timeout); f_equal; lia. }
  rewrite Hto. ret_step.
  destruct (prStdoutPipeErr pr); [done|]. destruct (prStderrPipeErr pr); [done|]. destruct (prStartErr pr); [done|].
  rewrite !readFromReader_spec. destruct (pipeFails (prStdout pr)); [done|]. destruct (pipeFails (prStderr pr)); [done|].
  destruct (prWait pr); [|done]. cbn [fmap option_fmap option_map].
  change maxCustomPluginBufferBytes with 4096. fold (report rule pr (timeout_of rule timeout)).
  generalize (report rule pr (timeout_of rule timeout)). intros out. unfold cutOutput. rewrite Hm. cbn [deref mbind outcome_bind].
  destruct (Z.ltb_spec m 0); destruct (Z.ltb_spec m (Z.of_nat (String.length out))); try (exfalso; lia).
  - done.
  - done.
  - ret_step. by rewrite stake_all by lia.
Qed.

(** C34.  The outcome of a plugin run, on every path.  With the timeouts and the
    output limit of a runnable configuration: when a stage fails, the status is
    Unknown and the output says which was the first to fail.  Otherwise, when the
    limit is not negative, the status is OK for exit code 0, NonOK for 1 and
    Unknown for others, and the output is cut to exactly the limit: its text
    is the trimmed first 4096 bytes of the standard output, or the message about the
    timeout when the process outlived the shorter of the two timeouts.  When the
    limit is negative, which the validation lets through, a process that completes
    takes the detector down. *)
Theorem plugin_run_outcome cfg timeout interval rule pr m :
  runnable cfg timeout interval -> MaxOutputLength (cpcGlobal cfg) = Some m ->
  let text := report rule pr (timeout_of rule timeout) in
  (forall msg, failure pr = Some msg -> run (cpcGlobal cfg) rule pr = Ret (Unknown, msg)) /\
  (failure pr = None -> (0 <= m)%Z ->
     exists status output rest, run (cpcGlobal cfg) rule pr = Ret (status, output) /\
       status = (if Z.eqb (prExit pr) 0 then OK else if Z.eqb (prExit pr) 1 then NonOK else Unknown) /\
       text = output +:+ rest /\ Z.of_nat (String.length output) = Z.min m (Z.of_nat (String.length text))) /\
  (failure pr = None -> (m < 0)%Z -> exists e, run (cpcGlobal cfg) rule pr = Panic e).
Proof.
  intros HR Hm text. rewrite (run_closed _ rule pr timeout m) by (try done; apply (run_timeout _ _ _ HR)). fold text.
  split_and!.
  - by intros msg ->.
  - intros -> H0. destruct (Z.ltb_spec m 0); [lia|]. eexists _, _, (sdrop (Z.to_nat m) text).
    split_and!; [reflexivity|done|by rewrite stake_sdrop|]. rewrite stake_length. lia.
  - intros -> H0. rewrite (proj2 (Z.ltb_lt _ _) H0). by eexists.
Qed.
End Run.

(** ** The plugin's constructor and main function *)

(** The capacity of [syncChan]; a negative one panics. *)
(* @ pkg/custompluginmonitor/plugin/plugin.go:57-68 NewPlugin *)
Definition NewPlugin (cfg : CustomPluginConfig) : outcome nat :=
  c ← deref (Concurrency (cpcGlobal cfg));
  if (c <? 0)%Z then Panic "makechan: size out of range" else Ret (Z.to_nat c).

(** What [Run] does first: nothing but wait for the stop when there is no rule,
    else one ticker per group, one batch of all rules and then, if it was not
    interrupted, one loop per group. *)
Inductive run_plan : Type :=
| WaitForStop
| BootThenGroups (boot : list CustomRule) (groups : list intervalGroup).

(* @ pkg/custompluginmonitor/plugin/plugin.go:74-106 Run *)
Definition Run (cfg : CustomPluginConfig) : outcome run_plan :=
  groups ← intervalGroups cfg;
  if length groups =? 0 then Ret WaitForStop
  else if existsb (fun gr => (giInterval gr <=? 0)%Z) groups then Panic "non-positive interval for NewTicker"
  else Ret (BootThenGroups (cpcRules cfg) groups).

(** ** Witnesses *)
#[local] Existing Instance AsciiUnicode.

Lemma intervalGroups_partition_witness :
  exists groups, intervalGroups ntp_applied = Ret groups /\
    (forall r, r ∈ cpcRules ntp_applied -> exists gr, gr ∈ groups /\ r ∈ giRules gr).
Proof.
  destruct (intervalGroups_partition ntp_applied) as (groups & H1 & _ & _ & H2).
  - vm_compute. by eexists.
  - by exists groups.
Defined.

(** One rule, launched and running, with one token. *)
Definition one_running : pool := mkPool [mkBatch [ntp_rule] [] LLoop [(ntp_rule, WRunning)] []] 1 false.

Lemma one_running_reachable : rtc (pstep 1) initial_pool one_running.
Proof.
  eapply rtc_l; [apply (p_start 1 [] 0 false [ntp_rule])|].
  eapply rtc_l; [eapply (p_batch 1 _ 0 false 0); [reflexivity | apply b_acquire; lia]|]. simpl.
  eapply rtc_l; [eapply (p_batch 1 _ 1 false 0); [reflexivity | apply b_launch]|]. simpl.
  eapply rtc_l; [eapply (p_batch 1 _ 1 false 0); [reflexivity | apply (b_worker_run 1 _ _ _ [])]|]. simpl.
  apply rtc_refl.
Defined.

Definition one_returned : pool := mkPool [mkBatch [ntp_rule] [] (LReturned true) [] [ntp_rule]] 0 false.

Lemma one_returned_reachable : rtc (pstep 1) initial_pool one_returned.
Proof.
  eapply (transitivity (R := rtc (pstep 1))); [apply one_running_reachable|].
  eapply rtc_l; [eapply (p_batch 1 _ 1 false 0); [reflexivity | apply (b_worker_finish 1 _ _ _ [])]|]. simpl.
  eapply rtc_l; [eapply (p_batch 1 _ 1 false 0); [reflexivity | apply (b_worker_send 1 _ _ _ [])]|]. simpl.
  eapply rtc_l; [eapply (p_batch 1 _ 0 false 0); [reflexivity | apply b_loop_end]|]. simpl.
  eapply rtc_l; [eapply (p_batch 1 _ 0 false 0); [reflexivity | apply b_return]|]. simpl.
  apply rtc_refl.
Defined.

Lemma concurrency_bounded_witness : running_plugins one_running = 1 /\ running_plugins one_running <= 1.
Proof.
  split; [reflexivity|]. apply (concurrency_bounded 1 one_running). exact one_running_reachable.
Defined.

Lemma batch_results_witness :
  let b := mkBatch [ntp_rule] [] (LReturned true) [] [ntp_rule] in
  batches one_returned !! 0 = Some b /\ bSent b ≡ₚ bRules b.
Proof.
  intros b. split; [reflexivity|].
  destruct (batch_results 1 one_returned 0 b one_returned_reachable eq_refl) as [_ H].
  apply (H true eq_refl). reflexivity.
Defined.

Lemma batches_progress_witness :
  exists j b0 b1 n1, batches one_running !! j = Some b0 /\ bstep 1 b0 1 false b1 n1.
Proof.
  apply (batches_progress 1 one_running 0 (mkBatch [ntp_rule] [] LLoop [(ntp_rule, WRunning)] [])).
  - lia.
  - exact one_running_reachable.
  - reflexivity.
  - exact I.
Defined.

Definition ntp_process : process :=
  mkProcess false false false (mkPipe " ntp is down " false) (mkPipe "" false) WaitExited (fun t => (t <? 2 * Second)%Z)
    "exit status 1" 1.

Lemma plugin_run_outcome_witness :
  exists status output rest,
    run (cpcGlobal ntp_applied) ntp_rule ntp_process = Ret (status, output) /\ status = NonOK /\
    "ntp is down" = output +:+ rest /\ Z.of_nat (String.length output) = 11%Z.
Proof.
  destruct (plugin_run_outcome ntp_applied (5 * Second)%Z (30 * Second)%Z ntp_rule ntp_process 80) as (_ & H & _).
  - constructor; vm_compute; (reflexivity || by eexists).
  - vm_compute. reflexivity.
  - destruct (H eq_refl ltac:(lia)) as (st & o & rest & H1 & H2 & H3 & H4). exists st, o, rest.
    split; [exact H1|]. split; [exact H2|]. split; [exact H3|]. rewrite H4. vm_compute. reflexivity.
Defined.
End Plugin.
