(* ===== verification/PluginLifecycle.v ===== *)
(** The life cycle of a plugin ([Run], [runGroup] and [Stop] of
    [pkg/custompluginmonitor/plugin/plugin.go]): the first batch of all rules,
    one goroutine per interval, their batches, the channel of results, and the
    stop, which waits until all of them have ended.

    The batches are those of [Plugin.bstep]; a batch belongs to [Run] or to one
    group, which waits for it. *)

From S2P Require Import Prelude GoStrings GoTime GoConv Types CustomPluginConfig Plugin.
Import Cpm Plugin.

(** A group is in its select, waits for [runRules], or has ended. *)
Inductive group_pc : Type := GSelect | GBatch (k : nat) | GExited.

#[export] Instance group_pc_eq_dec : EqDecision group_pc.
Proof. solve_decision. Defined.

(** [Run] waits for the stop (there is no rule), for its first batch, for its
    groups, or has returned. *)
Inductive run_pc : Type := RIdle | RBoot (k : nat) | RGroups (gs : list group_pc) | RExited.

(** [lfResults] is the channel of results, [lfClosed] whether it is closed and the
    tomb is done; [lfPanic] when a worker sent on the closed channel. *)
Record life : Type := mkLife {
  lfPool : pool;
  lfRun : run_pc;
  lfResults : list CustomRule;
  lfClosed : bool;
  lfPanic : bool
}.

Definition resultCap : nat := 1000.

Section Life.
Variable cap : nat.
Variable groups : list intervalGroup.

(** The tomb is stopped once. *)
(* @ pkg/custompluginmonitor/plugin/plugin.go:355-358 Stop *)
Definition Plugin_Stop (p : pool) : outcome pool :=
  if stopping p then Panic "close of closed channel" else Ret (mkPool (batches p) (tokens p) true).

(** [runRules] of the batch returned. *)
Definition returned (p : pool) (k : nat) (ok : bool) : Prop :=
  exists b, batches p !! k = Some b /\ bPhase b = LReturned ok.

(* @ pkg/custompluginmonitor/plugin/plugin.go:131-143 runGroup *)
Inductive gstep : pool -> nat -> group_pc -> pool -> group_pc -> Prop :=
| g_tick bs n st g gr :
    groups !! g = Some gr ->
    gstep (mkPool bs n st) g GSelect (mkPool (bs ++ [new_batch (giRules gr)]) n st) (GBatch (length bs))
| g_return p g k ok : returned p k ok -> gstep p g (GBatch k) p (if ok then GSelect else GExited)
| g_stop p g : stopping p = true -> gstep p g GSelect p GExited.

(** The results that a step of a batch sends. *)
Definition new_results (b b' : batch) : list CustomRule := drop (length (bSent b)) (bSent b').

(** A step of the plugin, or of the monitor that receives its results until it
    stops the plugin. *)
(* @ pkg/custompluginmonitor/plugin/plugin.go:74-106 Run *)
Inductive lcstep : life -> life -> Prop :=
| lc_batch bs n st run q cl pn k b b' n' :
    bs !! k = Some b -> bstep cap b n st b' n' ->
    length (q ++ new_results b b') <= resultCap \/ new_results b b' = [] ->
    lcstep (mkLife (mkPool bs n st) run q cl pn)
      (mkLife (mkPool (<[k := b']> bs) n' st) run (q ++ new_results b b') cl
         (pn || (cl && negb (bool_decide (new_results b b' = [])))))
| lc_boot p q cl pn k ok :
    returned p k ok ->
    lcstep (mkLife p (RBoot k) q cl pn)
      (if ok then mkLife p (RGroups ((fun _ => GSelect) <$> groups)) q cl pn else mkLife p RExited q true (pn || cl))
| lc_group p p' gs q cl pn g pc pc' :
    gs !! g = Some pc -> gstep p g pc p' pc' ->
    lcstep (mkLife p (RGroups gs) q cl pn) (mkLife p' (RGroups (<[g := pc']> gs)) q cl pn)
| lc_exit p gs q cl pn :
    Forall (fun pc => pc = GExited) gs -> lcstep (mkLife p (RGroups gs) q cl pn) (mkLife p RExited q true (pn || cl))
| lc_idle p q cl pn :
    stopping p = true -> lcstep (mkLife p RIdle q cl pn) (mkLife p RExited q true (pn || cl))
| lc_stop p p' run q cl pn : Plugin_Stop p = Ret p' -> lcstep (mkLife p run q cl pn) (mkLife p' run q cl pn)
| lc_recv p run r q cl pn :
    stopping p = false -> lcstep (mkLife p run (r :: q) cl pn) (mkLife p run q cl pn).

(** ** The invariant *)

(** Somebody waits for the batch. *)
Definition awaited (run : run_pc) (k : nat) : Prop :=
  match run with
  | RBoot k' => k' = k
  | RGroups gs => GBatch k ∈ gs
  | RIdle | RExited => False
  end.

Definition is_returned (b : batch) : Prop := exists ok, bPhase b = LReturned ok.

(** Each awaited batch exists, and no two wait for the same one. *)
Definition owners_ok (run : run_pc) (len : nat) : Prop :=
  (forall k, awaited run k -> k < len) /\
  match run with
  | RGroups gs => length gs = length groups /\
      forall g g' k, gs !! g = Some (GBatch k) -> gs !! g' = Some (GBatch k) -> g = g'
  | _ => True
  end.

Record linv (s : life) : Prop := mkLInv {
  li_pool : PoolInv cap (lfPool s);
  li_owned : forall k b, batches (lfPool s) !! k = Some b -> is_returned b \/ awaited (lfRun s) k;
  li_owners : owners_ok (lfRun s) (length (batches (lfPool s)));
  li_closed : lfClosed s = true <-> lfRun s = RExited;
  li_panic : lfPanic s = false;
  li_cap : length (lfResults s) <= resultCap
}.

(** A batch that returned has no step. *)
Lemma returned_stuck b n st b' n' : BatchInv st b -> is_returned b -> ~ bstep cap b n st b' n'.
Proof.
  intros [_ _ _ _ H5] [ok Hok] Hst. pose proof (H5 ok Hok) as Hfl.
  destruct Hst; cbn in *; try done; by destruct l1.
Qed.

Lemma new_results_bstep b n st b' n' : bstep cap b n st b' n' ->
  new_results b b' = [] \/ exists r, new_results b b' = [r].
Proof.
  unfold new_results. destruct 1; cbn; rewrite ?drop_all; auto. right. exists r. by rewrite drop_app_length.
Qed.

Lemma linv_batch bs n st run q cl pn k b b' n' :
  linv (mkLife (mkPool bs n st) run q cl pn) -> bs !! k = Some b -> bstep cap b n st b' n' ->
  length (q ++ new_results b b') <= resultCap \/ new_results b b' = [] ->
  linv (mkLife (mkPool (<[k := b']> bs) n' st) run (q ++ new_results b b') cl
         (pn || (cl && negb (bool_decide (new_results b b' = []))))).
Proof.
  intros [H1 H2 H3 H4 H5 H6] Hk Hb Hcap; cbn in *.
  assert (Haw : awaited run k).
  { destruct (H2 k b Hk) as [Hret|?]; [|done].
    destruct (returned_stuck b n st b' n'); [|done|done].
    by apply (Forall_lookup_1 _ _ _ _ (pi_batches _ _ H1) Hk). }
  constructor; cbn; rewrite ?length_insert; try done.
  - by eapply PoolInv_step, p_batch.
  - intros j bj Hj. apply list_lookup_insert_Some in Hj as [(<- & <- & _)|[_ Hj]]; [by right|by eapply H2].
  - rewrite H5. destruct cl; [|done]. by rewrite (proj1 H4 eq_refl) in Haw.
  - destruct Hcap as [?| ->]; [done|]. by rewrite app_nil_r.
Qed.

Lemma linv_gstep p p' gs q cl pn g pc pc' :
  linv (mkLife p (RGroups gs) q cl pn) -> gs !! g = Some pc -> gstep p g pc p' pc' ->
  linv (mkLife p' (RGroups (<[g := pc']> gs)) q cl pn).
Proof.
  intros [H1 H2 H3 H4 H5 H6] Hg Hst; cbn in *. destruct H3 as [Hlt [Hlen Huniq]].
  pose proof (lookup_lt_Some _ _ _ Hg) as Hgl.
  assert (Hcl : cl = true <-> RGroups (<[g := pc']> gs) = RExited).
  { rewrite H4. done. }
  assert (Hother : forall k, awaited (RGroups gs) k -> pc <> GBatch k -> awaited (RGroups (<[g := pc']> gs)) k).
  { intros k [g' Hg']%list_elem_of_lookup Hne. apply list_elem_of_lookup. exists g'.
    rewrite list_lookup_insert_ne; [done|]. intros ->. congruence. }
  assert (Hback : forall k, GBatch k ∈ <[g := pc']> gs -> GBatch k ∈ gs \/ pc' = GBatch k).
  { intros k [g' Hg']%list_elem_of_lookup.
    apply list_lookup_insert_Some in Hg' as [(_ & -> & _)|[_ Hg']]; [by right|left; by eapply list_elem_of_lookup_2]. }
  destruct Hst as [bs n st g gr Hgr|p g k ok (b & Hb & Hok)|p g Hs].
  - constructor; cbn; rewrite ?length_app, ?length_insert; try done.
    + apply (PoolInv_step _ _ _ H1). apply p_start.
    + intros k b [Hk|[Hk Hb]]%lookup_app_Some.
      * destruct (H2 k b Hk); [by left|right; by apply Hother].
      * right. apply list_elem_of_lookup. exists g. rewrite list_lookup_insert_eq by done.
        cbn in Hk. apply lookup_lt_Some in Hb. cbn in Hb. do 2 f_equal. lia.
    + split; [|split; [by rewrite length_insert|]].
      * intros k Hk. destruct (Hback k Hk) as [Hin|[= <-]]; [specialize (Hlt k Hin)|]; cbn [length batches] in *; lia.
      * intros g1 g2 k E1 E2.
        assert (Hnew : forall g', gs !! g' <> Some (GBatch (length bs))).
        { intros g' E. apply list_elem_of_lookup_2, Hlt in E. cbn [batches] in E. lia. }
        apply list_lookup_insert_Some in E1 as [(Eg1 & Ek1 & _)|[Hn1 E1]];
          apply list_lookup_insert_Some in E2 as [(Eg2 & Ek2 & _)|[Hn2 E2]].
        -- congruence.
        -- injection Ek1 as <-. by destruct (Hnew g2).
        -- injection Ek2 as <-. by destruct (Hnew g1).
        -- by eapply Huniq.
  - constructor; cbn; try done.
    + intros j bj Hj. destruct (H2 j bj Hj) as [?|Haw]; [by left|].
      destruct (decide (j = k)) as [->|Hne]; [left; exists ok; congruence|].
      right. apply Hother; [done|congruence].
    + split; [|split; [by rewrite length_insert|]].
      * intros j Hj. destruct (Hback j Hj) as [?|E]; [by apply Hlt|by destruct ok].
      * intros g1 g2 j E1 E2. apply list_lookup_insert_Some in E1 as [(_ & E & _)|[_ E1]]; [by destruct ok|].
        apply list_lookup_insert_Some in E2 as [(_ & E & _)|[_ E2]]; [by destruct ok|by eapply Huniq].
  - constructor; cbn; try done.
    + intros j bj Hj. destruct (H2 j bj Hj) as [?|Haw]; [by left|right; by apply Hother].
    + split; [|split; [by rewrite length_insert|]].
      * intros j Hj. destruct (Hback j Hj) as [?|E]; [by apply Hlt|done].
      * intros g1 g2 j E1 E2. apply list_lookup_insert_Some in E1 as [(_ & E & _)|[_ E1]]; [done|].
        apply list_lookup_insert_Some in E2 as [(_ & E & _)|[_ E2]]; [done|by eapply Huniq].
Qed.

Lemma linv_step s s' : linv s -> lcstep s s' -> linv s'.
Proof.
  intros Hi Hst. destruct Hst as [bs n st run q cl pn k b b' n' Hk Hb Hc|p q cl pn k ok Hret|p p' gs q cl pn g pc pc' Hg Hs
    |p gs q cl pn HF|p q cl pn Hs|p p' run q cl pn Hs|p run r q cl pn Hs].
  - by eapply linv_batch.
  - destruct Hi as [H1 H2 H3 H4 H5 H6]; cbn in *.
    assert (Hrest : forall j b, batches p !! j = Some b -> is_returned b).
    { intros j b Hj. destruct (H2 j b Hj) as [?| <-]; [done|]. destruct Hret as (b0 & Hb0 & Hok).
      exists ok. congruence. }
    assert (cl = false) as -> by (destruct cl; [discriminate (proj1 H4 eq_refl)|done]).
    destruct ok; constructor; cbn; try done; eauto; [|by rewrite H5].
    split; [|split; [by rewrite length_fmap|]].
    + intros j Hj. apply list_elem_of_fmap in Hj as (? & ? & _). done.
    + intros g g' j Hg. apply list_lookup_fmap_Some in Hg as (? & ? & _). done.
  - by eapply linv_gstep.
  - destruct Hi as [H1 H2 H3 H4 H5 H6]; cbn in *.
    assert (cl = false) as -> by (destruct cl; [discriminate (proj1 H4 eq_refl)|done]).
    constructor; cbn; try done; [|by rewrite H5]. intros j b Hj.
    destruct (H2 j b Hj) as [?|Haw]; [by left|]. rewrite Forall_forall in HF. by specialize (HF _ Haw).
  - destruct Hi as [H1 H2 H3 H4 H5 H6]; cbn in *.
    assert (cl = false) as -> by (destruct cl; [discriminate (proj1 H4 eq_refl)|done]).
    constructor; cbn; try done. by rewrite H5.
  - destruct Hi as [H1 H2 H3 H4 H5 H6]. unfold Plugin_Stop in Hs. destruct p as [bs n st]; cbn in *.
    destruct st; [done|]. injection Hs as <-. constructor; cbn; try done.
    apply (PoolInv_step _ _ _ H1). apply p_stop.
  - destruct Hi as [H1 H2 H3 H4 H5 H6]; cbn in *. constructor; cbn; try done. lia.
Qed.

(** ** After the stop *)

(** The steps that are left to a batch, and whether it may still return true. *)
Definition phase_work (p : lphase) : nat := match p with LLoop => 3 | LHolding => 2 | LWait _ => 1 | LReturned _ => 0 end.
Definition worker_work (w : CustomRule * wphase) : nat := match w.2 with WRunning => 2 | _ => 1 end.
Definition batch_work (b : batch) : nat := phase_work (bPhase b) + sum_list_with worker_work (bFlying b).
Definition may_succeed (b : batch) : bool :=
  match bPhase b with
  | LWait ok | LReturned ok => ok
  | LLoop => match bTodo b with [] => true | _ => false end
  | LHolding => false
  end.
Definition may_succeed_at (bs : list batch) (k : nat) : bool := from_option may_succeed false (bs !! k).

Lemma batch_work_step b n b' n' :
  bstep cap b n true b' n' -> batch_work b' < batch_work b /\ (may_succeed b' = true -> may_succeed b = true).
Proof.
  remember true as st eqn:Est. unfold batch_work, may_succeed.
  destruct 1; cbn [bPhase bTodo bFlying phase_work]; try done; rewrite ?sum_list_with_app; cbn; (split; [lia|done]).
Qed.

(** What is left to a group, to [Run] and to all. *)
Definition group_work (bs : list batch) (pc : group_pc) : nat :=
  match pc with
  | GSelect => 5
  | GBatch k => 1 + (if may_succeed_at bs k then 6 else 0)
  | GExited => 0
  end.
Definition run_work (bs : list batch) (r : run_pc) : nat :=
  match r with
  | RIdle => 1
  | RBoot k => 1 + (if may_succeed_at bs k then 2 + 5 * length groups else 0)
  | RGroups gs => 1 + sum_list_with (group_work bs) gs
  | RExited => 0
  end.
Definition life_work (s : life) : nat :=
  sum_list_with batch_work (batches (lfPool s)) + run_work (batches (lfPool s)) (lfRun s).

Lemma sum_list_mono {A} (f g : A -> nat) l :
  (forall x, x ∈ l -> f x <= g x) -> sum_list_with f l <= sum_list_with g l.
Proof.
  induction l as [|x l IH]; intros H; cbn; [done|].
  pose proof (H x ltac:(by left)). assert (sum_list_with f l <= sum_list_with g l) by (apply IH; intros y Hy; apply H; by right). lia.
Qed.

(** The batches change, and no more of the awaited ones may succeed. *)
Lemma run_work_mono bs bs' r :
  (forall k, awaited r k -> may_succeed_at bs' k = true -> may_succeed_at bs k = true) ->
  run_work bs' r <= run_work bs r.
Proof.
  intros H. assert (Hk : forall k c, awaited r k ->
    (if may_succeed_at bs' k then c else 0) <= (if may_succeed_at bs k then c else 0)).
  { intros k c Ha. specialize (H k Ha). destruct (may_succeed_at bs' k); [by rewrite H|lia]. }
  destruct r as [|k|gs|]; cbn [run_work]; try done.
  - specialize (Hk k (2 + 5 * length groups) eq_refl). lia.
  - apply le_n_S, sum_list_mono. intros [|k|] Hin; cbn [group_work]; try done. specialize (Hk k 6 Hin). lia.
Qed.

Hypothesis groups_nonempty : Forall (fun gr => giRules gr <> []) groups.

Lemma gstep_work p p' gs g pc pc' :
  (forall k, awaited (RGroups gs) k -> k < length (batches p)) -> gs !! g = Some pc ->
  stopping p = true -> gstep p g pc p' pc' ->
  sum_list_with batch_work (batches p') + sum_list_with (group_work (batches p')) (<[g := pc']> gs) <
  sum_list_with batch_work (batches p) + sum_list_with (group_work (batches p)) gs /\ stopping p' = true.
Proof.
  intros Hlt Hg Hs Hst.
  assert (Hsum : forall bs, sum_list_with (group_work bs) (<[g := pc']> gs) + group_work bs pc =
    sum_list_with (group_work bs) gs + group_work bs pc').
  { intros bs. by apply sum_list_insert. }
  destruct Hst as [bs n st g gr Hgr|p g k ok (b & Hb & Hok)|p g Hs']; cbn [batches stopping] in *.
  - split; [|done]. rewrite sum_list_with_app. cbn [sum_list_with].
    assert (Hm : run_work (bs ++ [new_batch (giRules gr)]) (RGroups gs) <= run_work bs (RGroups gs)).
    { apply run_work_mono. intros k Ha. unfold may_succeed_at. rewrite lookup_app_l by (by apply Hlt). done. }
    assert (Hnew : may_succeed_at (bs ++ [new_batch (giRules gr)]) (length bs) = false).
    { unfold may_succeed_at. rewrite lookup_app_r, Nat.sub_diag by done. cbn.
      pose proof (Forall_lookup_1 _ _ _ _ groups_nonempty Hgr) as Hne. unfold may_succeed. cbn in *.
      by destruct (giRules gr). }
    specialize (Hsum (bs ++ [new_batch (giRules gr)])). cbn [group_work] in Hsum. rewrite Hnew in Hsum.
    cbn [run_work] in Hm.
    unfold batch_work at 2. cbn. lia.
  - split; [|done]. specialize (Hsum (batches p)). cbn [group_work] in Hsum.
    assert (Hm : may_succeed_at (batches p) k = ok).
    { unfold may_succeed_at. rewrite Hb. cbn. unfold may_succeed. by rewrite Hok. }
    rewrite Hm in Hsum. destruct ok; cbn [group_work] in *; lia.
  - split; [|done]. specialize (Hsum (batches p)). cbn [group_work] in Hsum. lia.
Qed.

Lemma life_work_step s s' :
  linv s -> stopping (lfPool s) = true -> lcstep s s' -> life_work s' < life_work s /\ stopping (lfPool s') = true.
Proof.
  intros [H1 H2 [Hlt _] H4 H5 H6] Hs Hst.
  destruct Hst as [bs n st run q cl pn k b b' n' Hk Hb Hc|p q cl pn k ok (b & Hb & Hok)|p p' gs q cl pn g pc pc' Hg Hst
    |p gs q cl pn HF|p q cl pn Hs'|p p' run q cl pn Hs'|p run r q cl pn Hs']; unfold life_work; cbn in *.
  - subst st. split; [|done]. destruct (batch_work_step _ _ _ _ Hb) as [Hw Hm].
    pose proof (sum_list_insert batch_work bs k b b' Hk).
    assert (run_work (<[k := b']> bs) run <= run_work bs run); [|lia].
    apply run_work_mono. intros j _. unfold may_succeed_at. destruct (decide (j = k)) as [->|Hne].
    + rewrite list_lookup_insert_eq, Hk by (by eapply lookup_lt_Some). exact Hm.
    + by rewrite list_lookup_insert_ne.
  - assert (Hm : may_succeed_at (batches p) k = ok).
    { unfold may_succeed_at. rewrite Hb. cbn. unfold may_succeed. by rewrite Hok. }
    rewrite Hm. destruct ok; (split; [|done]); cbn [lfPool lfRun run_work]; [|lia].
    assert (Hsum : sum_list_with (group_work (batches p)) ((fun _ => GSelect) <$> groups) = 5 * length groups); [|lia].
    clear. induction groups as [|gr grs IH]; [done|]. cbn in *. lia.
  - destruct (gstep_work _ _ _ _ _ _ Hlt Hg Hs Hst) as [? ?]. split; [lia|done].
  - split; [lia|done].
  - split; [lia|done].
  - unfold Plugin_Stop in Hs'. by rewrite Hs in Hs'.
  - congruence.
Qed.

(** A stopped batch goes on, without sending. *)
Lemma stopped_batch_progress b n :
  BatchInv true b -> held_tokens b <= n -> ~ is_returned b ->
  exists b' n', bstep cap b n true b' n' /\ new_results b b' = [].
Proof.
  intros [_ _ _ H4 _] Hn Hr. unfold new_results. destruct b as [rs todo ph fl sent]. unfold held_tokens in Hn. cbn in *.
  assert (Hd : drop (length sent) sent = []) by apply drop_all. destruct fl as [|[r wp] fl].
  - destruct ph as [| |ok|ok].
    + destruct todo as [|r todo].
      * eexists _, _. split; [apply b_loop_end|exact Hd].
      * eexists _, _. split; [apply b_stop_acquire|exact Hd].
    + destruct n as [|n]; [cbn in Hn; lia|]. eexists _, _. split; [apply b_stop_holding|exact Hd].
    + eexists _, _. split; [apply b_return|exact Hd].
    + destruct Hr. by exists ok.
  - destruct n as [|n]; [destruct ph; cbn in Hn; lia|].
    destruct wp; eexists _, _.
    + split; [apply (b_worker_skip _ _ _ _ [])|exact Hd].
    + split; [apply (b_worker_finish _ _ _ _ [])|exact Hd].
    + split; [apply (b_worker_drop _ _ _ _ [])|exact Hd].
Qed.

Lemma life_progress s :
  linv s -> stopping (lfPool s) = true -> lfRun s <> RExited -> exists s', lcstep s s'.
Proof.
  intros [[HT _ HB] H2 [Hlt _] H4 H5 H6] Hs Hne. destruct s as [[bs n st] run q cl pn]; cbn in *. subst st.
  assert (Hbatch : forall k, awaited run k ->
    (exists ok, returned (mkPool bs n true) k ok) \/ exists s', lcstep (mkLife (mkPool bs n true) run q cl pn) s').
  { intros k Ha. destruct (lookup_lt_is_Some_2 bs k (Hlt k Ha)) as [b Hb].
    destruct (bPhase b) as [| |ok0|ok] eqn:Ep; [right..|left; exists ok, b; done].
    all: destruct (stopped_batch_progress b n) as (b' & n' & Hst & Hnew);
      [by apply (Forall_lookup_1 _ _ _ _ HB Hb)|rewrite HT; by eapply sum_le|by intros [ok Hok]; rewrite Ep in Hok|].
    all: eexists; eapply lc_batch; [exact Hb|exact Hst|by right]. }
  destruct run as [|k|gs|]; [..|done].
  - eexists. by apply lc_idle.
  - destruct (Hbatch k eq_refl) as [[ok Hok]|?]; [|done]. eexists. by eapply lc_boot.
  - destruct (decide (Forall (fun pc => pc = GExited) gs)) as [HF|HF].
    + eexists. by apply lc_exit.
    + apply not_Forall_Exists in HF; [|apply _]. apply Exists_exists in HF as (pc & Hin & Hpc).
      destruct pc as [|k|]; [| |by destruct Hpc].
      * apply list_elem_of_lookup in Hin as [g Hg]. eexists. eapply lc_group; [exact Hg|by apply g_stop].
      * destruct (Hbatch k Hin) as [[ok Hok]|?]; [|done]. apply list_elem_of_lookup in Hin as [g Hg].
        eexists. eapply lc_group; [exact Hg|by apply g_return].
Qed.
End Life.

(** ** From the configuration *)

(** The goroutine of [Run] after its first statements. *)
Definition life_start (plan : run_plan) : life :=
  match plan with
  | WaitForStop => mkLife initial_pool RIdle [] false false
  | BootThenGroups boot _ => mkLife (mkPool [new_batch boot] 0 false) (RBoot 0) [] false false
  end.
Definition plan_groups (plan : run_plan) : list intervalGroup :=
  match plan with WaitForStop => [] | BootThenGroups _ groups => groups end.

Lemma groupRules_nonempty g rules : forall groups idx groups',
  Forall (fun gr => giRules gr <> []) groups -> groupRules g rules groups idx = Ret groups' ->
  Forall (fun gr => giRules gr <> []) groups'.
Proof.
  assert (Hadd : forall gs i r gs', (forall j gr, gs !! j = Some gr -> j <> i -> giRules gr <> []) ->
    add_to_group gs i r = Ret gs' -> Forall (fun gr => giRules gr <> []) gs').
  { intros gs i r gs' H. unfold add_to_group. destruct (gs !! i) as [gr|]; [|done]. intros [= <-].
    apply Forall_lookup_2. intros j gr' Hj. apply list_lookup_insert_Some in Hj as [(_ & <- & _)|[Hne Hj]].
    - cbn. by destruct (giRules gr).
    - by eapply H. }
  induction rules as [|r rules IH]; intros groups idx groups' HF H; cbn [groupRules] in H.
  { by injection H as <-. }
  destruct (effectiveInterval g r) as [iv|]; [|done]. cbn [mbind outcome_bind] in H.
  destruct (idx !! iv) as [i|].
  - destruct (add_to_group groups i r) as [gs|] eqn:E; [|done]. cbn [mbind outcome_bind] in H.
    eapply IH; [|exact H]. eapply Hadd; [|exact E]. intros j gr Hj _. by apply (Forall_lookup_1 _ _ _ _ HF Hj).
  - match type of H with (mbind _ ?x = _) => destruct x as [gs|] eqn:E; [|done] end. cbn [mbind outcome_bind] in H.
    eapply IH; [|exact H]. eapply Hadd; [|exact E]. intros j gr Hj Hne.
    apply lookup_app_Some in Hj as [Hj|[Hle Hj]]; [by apply (Forall_lookup_1 _ _ _ _ HF Hj)|].
    apply lookup_lt_Some in Hj. cbn in Hj. lia.
Qed.

Section Reachable.
Variables (cap : nat) (cfg : CustomPluginConfig) (plan : run_plan).
Hypothesis planned : Run cfg = Ret plan.

Lemma plan_nonempty : Forall (fun gr => giRules gr <> []) (plan_groups plan).
Proof.
  unfold Run in planned. destruct (intervalGroups cfg) as [gs|] eqn:E; [|done]. cbn [mbind outcome_bind] in planned.
  destruct (length gs =? 0); [|destruct (existsb _ gs); [done|]]; injection planned as <-; cbn; [constructor|].
  by eapply groupRules_nonempty; [|exact E].
Qed.

Lemma linv_start : linv cap (plan_groups plan) (life_start plan).
Proof.
  destruct plan as [|boot gs]; constructor; cbn; try done; try lia.
  - constructor; cbn; [done|lia|constructor].
  - constructor; cbn; [done|lia|]. repeat constructor; cbn; try done. by intros [?|?].
  - intros [|k] b Hk; [by right|done].
  - split; [|done]. by intros k <-; lia.
Qed.

Lemma linv_reachable s : rtc (lcstep cap (plan_groups plan)) (life_start plan) s -> linv cap (plan_groups plan) s.
Proof.
  intros Hr. pose proof linv_start as Hi. revert Hi. generalize (life_start plan) Hr. clear Hr. intros s0 Hr.
  induction Hr as [|s1 s2 s3 Hst Hr IH]; [done|]. intros Hi. by eapply IH, linv_step.
Qed.

(** C12.  The results channel is used safely.  Whatever is run, stopped and received
    when: no worker ever sends on the closed channel, which holds at most 1000
    results; and when it is closed, every batch has returned, so no plugin is
    running any more. *)
Theorem plugin_results_safe s :
  rtc (lcstep cap (plan_groups plan)) (life_start plan) s ->
  lfPanic s = false /\ length (lfResults s) <= 1000 /\
  (lfClosed s = true -> Forall (fun b => (exists ok, bPhase b = LReturned ok) /\ bFlying b = []) (batches (lfPool s))).
Proof.
  intros Hr. destruct (linv_reachable s Hr) as [H1 H2 _ H4 H5 H6]. split_and!; [done|exact H6|].
  intros Hc. apply Forall_lookup_2. intros k b Hk. destruct (H2 k b Hk) as [[ok Hok]|Ha].
  - split; [by exists ok|]. eapply bi_returned; [|exact Hok].
    by apply (Forall_lookup_1 _ _ _ _ (pi_batches _ _ H1) Hk).
  - by rewrite (proj1 H4 Hc) in Ha.
Qed.

(** C11.  Stopping a plugin always completes.  From every reachable state in which
    the stop was requested, whatever the launchers, workers and groups do next,
    and whichever ready case their selects take: they make at most [life_work]
    steps, and until the plugin is done one of them can take a step.  (A plugin
    that is running ends by itself or by its timeout.) *)
Theorem plugin_stop_completes s :
  rtc (lcstep cap (plan_groups plan)) (life_start plan) s -> stopping (lfPool s) = true ->
  (forall n s', nsteps (lcstep cap (plan_groups plan)) n s s' -> n <= life_work (plan_groups plan) s) /\
  (lfClosed s = true \/ exists s', lcstep cap (plan_groups plan) s s').
Proof.
  intros Hr Hs. pose proof (linv_reachable s Hr) as Hi. split.
  - intros n s' Hn. clear Hr. revert Hi Hs. induction Hn as [|n s s1 s2 Hst Hn IH]; intros Hi Hs; [lia|].
    destruct (life_work_step cap _ plan_nonempty _ _ Hi Hs Hst) as [Hlt Hs1].
    specialize (IH (linv_step _ _ _ _ Hi Hst) Hs1). lia.
  - destruct (lfClosed s) eqn:Ec; [by left|right]. apply life_progress; [done|done|].
    intros E. apply (li_closed _ _ _ Hi) in E. congruence.
Qed.
End Reachable.

(** ** Witnesses: the rule of the sample configuration is running when the plugin
    is stopped *)
Definition ntp_plan : run_plan := match Run ntp_applied with Ret p => p | Panic _ => WaitForStop end.
Definition ntp_run_rule : CustomRule := default ntp_rule (head (cpcRules ntp_applied)).
#[local] Arguments ntp_plan : simpl never.
#[local] Arguments ntp_run_rule : simpl never.
#[local] Arguments plan_groups : simpl never.
Definition stopped_running : life :=
  mkLife (mkPool [mkBatch [ntp_run_rule] [] LLoop [(ntp_run_rule, WRunning)] []] 1 true) (RBoot 0) [] false false.
Definition stopped_done : life :=
  mkLife (mkPool [mkBatch [ntp_run_rule] [] (LReturned true) [] []] 0 true)
    (RGroups [GExited]) [] false false.

Ltac batch_step t := eapply rtc_l; [eapply lc_batch with (k := 0); [reflexivity|t|by right]|]; simpl.

Lemma ntp_stopped_running : rtc (lcstep 1 (plan_groups ntp_plan)) (life_start ntp_plan) stopped_running.
Proof.
  change (life_start ntp_plan) with (mkLife (mkPool [new_batch [ntp_run_rule]] 0 false) (RBoot 0) [] false false).
  batch_step ltac:(apply b_acquire; lia).
  batch_step ltac:(apply b_launch).
  batch_step ltac:(apply (b_worker_run 1 _ _ _ [])).
  eapply rtc_l; [by apply lc_stop|]. apply rtc_refl.
Qed.

Lemma ntp_stopped_done : rtc (lcstep 1 (plan_groups ntp_plan)) (life_start ntp_plan) (mkLife (lfPool stopped_done) RExited [] true false).
Proof.
  eapply (transitivity (R := rtc _)); [apply ntp_stopped_running|]. unfold stopped_running.
  batch_step ltac:(apply (b_worker_finish 1 _ _ _ [])).
  batch_step ltac:(apply (b_worker_drop 1 _ _ _ [])).
  batch_step ltac:(apply b_loop_end).
  batch_step ltac:(apply b_return).
  eapply rtc_l; [eapply (lc_boot 1 _ _ _ _ _ 0 true); eexists; split; reflexivity|].
  change (_ <$> plan_groups ntp_plan) with [GSelect].
  eapply rtc_l; [eapply lc_group with (g := 0); [reflexivity|by apply g_stop]|]. simpl.
  eapply rtc_l; [apply lc_exit; vm_compute; by repeat constructor|]. apply rtc_refl.
Qed.

Lemma plugin_results_safe_witness :
  let s := mkLife (lfPool stopped_done) RExited [] true false in
  lfPanic s = false /\ Forall (fun b => (exists ok, bPhase b = LReturned ok) /\ bFlying b = []) (batches (lfPool s)).
Proof.
  intros s. destruct (plugin_results_safe 1 ntp_applied ntp_plan eq_refl s ntp_stopped_done) as (H1 & _ & H2).
  split; [exact H1|]. apply H2. reflexivity.
Defined.

Lemma plugin_stop_completes_witness :
  life_work (plan_groups ntp_plan) stopped_running = 13 /\
  (lfClosed stopped_running = true \/ exists s', lcstep 1 (plan_groups ntp_plan) stopped_running s').
Proof.
  split; [vm_compute; reflexivity|].
  apply (plugin_stop_completes 1 ntp_applied ntp_plan eq_refl stopped_running ntp_stopped_running). reflexivity.
Defined.
