(* ===== verification/CustomDaemon.v ===== *)
(** A custom plugin daemon as a whole: the monitor of [CustomPluginMonitor] and the
    plugin of [Plugin] and [PluginLifecycle] that [Start]
    ([pkg/custompluginmonitor/custom_plugin_monitor.go]) runs beside it. *)

From S2P Require Import Prelude GoStrings GoTime Types Options Metrics ProblemMetrics LogMonitor CustomPluginConfig CustomPluginMonitor Plugin PluginLifecycle.
Import Cpm CustomPluginMonitor Plugin.

Section Daemon.
Context `{UC : !Unicode} {M : Type} `{MI : !Int64MetricInterface M}.
Variable os_ReadFile : string -> result string.
Variable json_Unmarshal : string -> result CustomPluginConfig.
Variable path_missing : string -> bool.

(** The tickers of a valid configuration can be created. *)
Lemma Run_valid cfg timeout interval :
  runnable cfg timeout interval -> valid_config path_missing cfg timeout interval -> exists plan, Run cfg = Ret plan.
Proof.
  intros HR HV. destruct (intervalGroups_partition cfg) as (groups & Hg & _ & Hrules & _).
  { rewrite (run_interval _ _ _ HR). by eexists. }
  assert (Hne : Forall (fun gr => giRules gr <> []) groups) by (by eapply groupRules_nonempty; [|exact Hg]).
  unfold Run. rewrite Hg. cbn [mbind outcome_bind]. destruct (length groups =? 0); [by eexists|].
  destruct (existsb _ groups) eqn:E; [exfalso|by eexists].
  apply existsb_exists in E as (gr & Hgr & Hle). apply list_elem_of_In in Hgr. apply Z.leb_le in Hle.
  pose proof (proj1 (Forall_forall _ _) Hne gr Hgr) as Hn. cbn in Hn. specialize (Hrules gr Hgr).
  destruct (giRules gr) as [|r rs]; [done|].
  assert (Hr : r ∈ filter (fun r => effectiveInterval (cpcGlobal cfg) r = Ret (giInterval gr)) (cpcRules cfg))
    by (rewrite <- Hrules; by left).
  apply list_elem_of_filter in Hr as [He Hr]. unfold effectiveInterval in He.
  destruct (crInvokeInterval r) as [i|] eqn:Ei.
  - pose proof (vc_rule_interval _ _ _ _ HV r i Hr Ei). injection He as He. lia.
  - rewrite (run_interval _ _ _ HR) in He. injection He as He. pose proof (vc_interval _ _ _ _ HV). lia.
Qed.

(** C28.  What can take the process down after a custom plugin monitor was created,
    in either of the goroutines that [Start] runs.  The loop of the monitor never
    does: for any sequence of plugin results [monitorLoop] returns, and whatever
    is reported at any time refers to conditions of the configured types that
    have, when they are not True, the configured default reason and, when they are
    False, the default message.  The plugin is constructed and its tickers are
    created, and it never sends on a closed channel.  A run of a rule takes the
    process down exactly when its process completes and the configured output
    limit is negative, which the validation does not refuse. *)
Theorem custom_monitor_runs w path w1 c :
  NewCustomPluginMonitorOrDie os_ReadFile json_Unmarshal path_missing w path = Ret (w1, c) ->
  (forall now inputs, exists c' w' statuses conds,
     monitorLoop c w1 now inputs = Ret (c', w', statuses) /\
     wStore w !! cConditions c' = None /\ wStore w' !! cConditions c' = Some conds /\
     Forall2 cond_ok (cpcDefaultConditions (cConfig c)) conds /\
     Forall (fun s => sSource s = cpcSource (cConfig c) /\ read_conditions (wStore w') s = conds) statuses) /\
  (exists cap plan, NewPlugin (cConfig c) = Ret cap /\ Run (cConfig c) = Ret plan /\
     forall s, rtc (lcstep cap (plan_groups plan)) (life_start plan) s -> lfPanic s = false) /\
  (forall rule pr, (exists e, run (cpcGlobal (cConfig c)) rule pr = Panic e) <->
     completed pr = true /\ exists m, MaxOutputLength (cpcGlobal (cConfig c)) = Some m /\ (m < 0)%Z).
Proof.
  intros Hnew. destruct (NewCustomPluginMonitorOrDie_Ret _ _ _ _ _ _ _ Hnew)
    as (timeout & interval & HR & _ & HV & n & Hn & Hn0). split_and!.
  - intros now inputs. by apply (monitorLoop_runs os_ReadFile json_Unmarshal path_missing w path).
  - destruct (Run_valid _ _ _ HR HV) as [plan Hp]. exists (Z.to_nat n), plan. split_and!; [|done|].
    + unfold NewPlugin. rewrite Hn. cbn. by destruct (Z.ltb_spec n 0); [lia|].
    + intros s Hs. by apply (li_panic _ _ _ (linv_reachable _ _ _ Hp s Hs)).
  - intros rule pr. destruct (run_max_output _ _ _ HR) as [m Hm].
    rewrite (run_closed _ rule pr timeout m (run_timeout _ _ _ HR) Hm), <- failure_completed, Hm.
    destruct (failure pr) as [msg|]; [by split; [intros [? ?]|intros [? _]]|].
    destruct (Z.ltb_spec m 0) as [Hlt|Hge]; split.
    + intros _. split; [done|by exists m].
    + intros _. by eexists.
    + by intros [? ?].
    + intros [_ (m' & [= <-] & ?)]. lia.
Qed.
End Daemon.

(** ** Witnesses *)
#[local] Existing Instance AsciiUnicode.

(** The sample configuration with an output limit of -1. *)
Definition negative_config : CustomPluginConfig :=
  mkCustomPluginConfig "custom" (mkGlobal (Some "30s") (Some "5s") None None (Some (-1)%Z) (Some 3%Z) None None)
    "ntp-custom-plugin-monitor" [ntp_condition] [ntp_rule] None.

Abbreviation create cfg :=
  (NewCustomPluginMonitorOrDie (fun p => Ok p) (fun _ => Ok cfg) (fun _ => false) ntp_world "ntp.json").

Lemma custom_monitor_runs_witness :
  (exists w1 c c' w' statuses conds, create ntp_config = Ret (w1, c) /\
     monitorLoop c w1 5 [InResult (mkResult ntp_rule NonOK "down") 6;
                         InResult (mkResult ntp_rule OK "") 7; InStopping] = Ret (c', w', statuses) /\
     wStore w' !! cConditions c' = Some conds /\ length statuses = 3) /\
  (exists w1 c e, create negative_config = Ret (w1, c) /\ run (cpcGlobal (cConfig c)) ntp_rule ntp_process = Panic e).
Proof.
  split.
  - destruct (create ntp_config) as [[w1 c]|] eqn:E; [|vm_compute in E; discriminate].
    destruct (custom_monitor_runs (fun p => Ok p) (fun _ => Ok ntp_config) (fun _ => false) ntp_world "ntp.json" w1 c E)
      as (H & _).
    destruct (H 5%Z [InResult (mkResult ntp_rule NonOK "down") 6; InResult (mkResult ntp_rule OK "") 7; InStopping])
      as (c' & w' & ss & conds & Hrun & _ & Hc & _).
    exists w1, c, c', w', ss, conds. split; [reflexivity|]. split; [exact Hrun|].
    split; [exact Hc|]. vm_compute in E. injection E as <- <-. vm_compute in Hrun.
    injection Hrun as _ _ <-. reflexivity.
  - destruct (create negative_config) as [[w1 c]|] eqn:E; [|vm_compute in E; discriminate].
    destruct (custom_monitor_runs (fun p => Ok p) (fun _ => Ok negative_config) (fun _ => false) ntp_world "ntp.json" w1 c E)
      as (_ & _ & H).
    destruct (proj2 (H ntp_rule ntp_process)) as [e He].
    { split; [reflexivity|]. exists (-1)%Z. split; [|lia]. vm_compute in E. injection E as <- <-. reflexivity. }
    exists w1, c, e. split; [reflexivity|exact He].
Defined.
