(* ===== verification/HealthChecker.v ===== *)
(** The health checker ([cmd/healthchecker], [pkg/healthchecker]): a custom
    plugin of its own, which checks a component, optionally repairs it, and
    reports through its exit code.

    The outside (commands, HTTP requests, the clock) answers according to what
    happened so far: every run extends a history of commands and clock
    readings, so that the same command may answer differently later.

    The functions of [health_checker_linux.go] and [health_checker_windows.go]
    are the two branches of the operations the checker is built from; the
    theorems hold on both systems. *)

From S2P Require Import Prelude GoStrings GoTime GoConv Platform Types CustomPluginConfig CustomPluginMonitor.

(** ** Constants and options *)
(* @ pkg/healthchecker/types/types.go:37-37 KubeletComponent *)
Definition KubeletComponent : string := "kubelet".
(* @ pkg/healthchecker/types/types.go:38-38 CRIComponent *)
Definition CRIComponent : string := "cri".
(* @ pkg/healthchecker/types/types.go:39-39 DockerComponent *)
Definition DockerComponent : string := "docker".
(* @ pkg/healthchecker/types/types.go:40-40 ContainerdService *)
Definition ContainerdService : string := "containerd".
(* @ pkg/healthchecker/types/types.go:41-41 KubeProxyComponent *)
Definition KubeProxyComponent : string := "kube-proxy".
(* @ pkg/healthchecker/types/types.go:34-34 CmdTimeout *)
Definition CmdTimeout : Duration := (10 * Second)%Z.

(** The two endpoints: kubelet and kube-proxy. *)
(* @ pkg/healthchecker/types/types.go:62-96 setKubeEndpoints *)
Definition setKubeEndpoints (os_Getenv : string -> string) : string * string :=
  let or_env key dflt := if String.eqb (os_Getenv key) "" then dflt else os_Getenv key in
  let hostAddress := or_env "HOST_ADDRESS" "localhost" in
  let kubeletPort := or_env "KUBELET_PORT" "10248" in
  let kubeProxyPort := or_env "KUBEPROXY_PORT" "10256" in
  ("http://" +:+ JoinHostPort hostAddress kubeletPort +:+ "/healthz",
   "http://" +:+ JoinHostPort hostAddress kubeProxyPort +:+ "/livez").

(** *** LogPatternFlag *)

(** [LogPatternFlag]: a map from pattern to threshold. *)
Abbreviation LogPatternFlag := (gmap string Z) (only parsing).

(** Setting one item of the flag. *)
Definition setItem (m : LogPatternFlag) (item : string) : result LogPatternFlag :=
  match cut_byte 58 item with
  | (_, None) => Err "invalid format of the flag value"
  | (count, Some pattern) =>
    match strconv_Atoi count with
    | Err e => Err "invalid format for the flag value"
    | Ok countThreshold =>
      if Z.eqb countThreshold 0 then Err "invalid format for the flag value"
      else if String.eqb pattern "" then Err "invalid format for the flag value"
      else Ok (<[pattern := countThreshold]> m)
    end
  end.

(** Items before an invalid one stay set. *)
(* @ pkg/healthchecker/types/types.go:126-148 Set *)
Definition LogPatternFlag_Set (m : LogPatternFlag) (value : string) : LogPatternFlag * result unit :=
  (fix go m items :=
     match items with
     | [] => (m, Ok tt)
     | item :: items =>
       match setItem m item with
       | Err e => (m, Err e)
       | Ok m => go m items
       end
     end) m (split_byte 44 value).

(** The keys are sorted; the sort is an argument. *)
(* @ pkg/healthchecker/types/types.go:108-124 String *)
Definition LogPatternFlag_String (m : LogPatternFlag) (sorted_keys : list string) : string :=
  foldl (fun result k =>
    (if negb (String.eqb result "") then result +:+ " " else result) +:+
    (k +:+ ":" +:+ format_int (default 0%Z (m !! k)))) "" sorted_keys.

(* @ cmd/healthchecker/options/options.go:35-47 HealthCheckerOptions *)
Record HealthCheckerOptions : Type := mkHCO {
  hcoComponent : string;
  hcoService : string;
  hcoEnableRepair : bool;
  hcoCriCtlPath : string;
  hcoCriSocketPath : string;
  hcoCriTimeout : Duration;
  hcoCoolDownTime : Duration;
  hcoLoopBackTime : Duration;
  hcoHealthCheckTimeout : Duration;
  hcoLogPatterns : LogPatternFlag
}.

(** The defaults of the paths, and the layout of the start time of a service. *)
(* @ pkg/healthchecker/types/types_unix.go:21-25 DefaultCriCtl *)
Definition linux_types : string * string * string :=
  ("/usr/bin/crictl", "unix:///var/run/containerd/containerd.sock", "Mon 2006-01-02 15:04:05 MST").

(* @ pkg/healthchecker/types/types_windows.go:19-24 DefaultCriCtl *)
Definition windows_types : string * string * string :=
  ("C:/etc/kubernetes/node/bin/crictl.exe", "npipe:////./pipe/containerd-containerd", "Mon 02 Jan 2006 15:04:05 MST").

Definition DefaultCriCtl (os : GOOS) : string := match os with linux => linux_types.1.1 | windows => windows_types.1.1 end.
Definition DefaultCriSocketPath (os : GOOS) : string := match os with linux => linux_types.1.2 | windows => windows_types.1.2 end.
Definition UptimeTimeLayout (os : GOOS) : string := match os with linux => linux_types.2 | windows => windows_types.2 end.
Definition LogParsingTimeFormat : string := "yyyy-MM-dd HH:mm:ss".

(** The variables after the flags are defined, and the names of the flags; the
    deprecated one exists on Linux. *)
(* @ cmd/healthchecker/options/options.go:49-79 AddFlags *)
Definition hco_AddFlags (os : GOOS) (patterns : LogPatternFlag)
    : HealthCheckerOptions * list string :=
  (mkHCO KubeletComponent "" true (DefaultCriCtl os) (DefaultCriSocketPath os)
     (2 * Second)%Z (2 * Minute)%Z (0 * Minute)%Z (10 * Second)%Z patterns,
   "component" :: (if decide (os = linux) then ["systemd-service"] else []) ++
   ["service"; "enable-repair"; "crictl-path"; "cri-socket-path"; "cri-timeout";
    "cooldown-time"; "loopback-time"; "health-check-timeout"; "log-pattern"]).

(* @ cmd/healthchecker/options/options.go:81-106 IsValid *)
Definition IsValid (hco : HealthCheckerOptions) : result unit :=
  if negb (String.eqb (hcoComponent hco) KubeletComponent)
     && negb (String.eqb (hcoComponent hco) DockerComponent)
     && negb (String.eqb (hcoComponent hco) CRIComponent)
     && negb (String.eqb (hcoComponent hco) KubeProxyComponent)
  then Err "the component specified is not supported"
  else if hcoEnableRepair hco && String.eqb (hcoService hco) ""
  then Err "service cannot be empty when repair is enabled"
  else if negb (String.eqb (hcoComponent hco) CRIComponent) then Ok tt
  else if String.eqb (hcoCriCtlPath hco) "" then Err "the crictl-path cannot be empty for cri component"
  else if String.eqb (hcoCriSocketPath hco) ""
  then Err "the cri-socket-path cannot be empty for cri component"
  else Ok tt.

Definition with_service (hco : HealthCheckerOptions) (s : string) : HealthCheckerOptions :=
  mkHCO (hcoComponent hco) s (hcoEnableRepair hco) (hcoCriCtlPath hco) (hcoCriSocketPath hco)
    (hcoCriTimeout hco) (hcoCoolDownTime hco) (hcoLoopBackTime hco) (hcoHealthCheckTimeout hco)
    (hcoLogPatterns hco).

(* @ cmd/healthchecker/options/options.go:108-118 SetDefaults *)
Definition SetDefaults (hco : HealthCheckerOptions) : HealthCheckerOptions :=
  if negb (String.eqb (hcoService hco) "") then hco
  else if negb (String.eqb (hcoComponent hco) CRIComponent) then with_service hco (hcoComponent hco)
  else with_service hco ContainerdService.

(** ** The checker *)

Create HintDb observes.

(** What the checker does to its surroundings; the commands of PowerShell run
    without a timeout. *)
Record command : Type := mkCommand {
  cmdTimeout : option Duration;
  cmdName : string;
  cmdArgs : list string
}.
#[export] Instance command_eq_dec : EqDecision command.
Proof. solve_decision. Defined.

Inductive event : Type :=
| EvRun (c : command)
| EvGet (endpoint : string) (timeout : Duration)
| EvNow.

Abbreviation history := (list event) (only parsing).

(** A computation reads the history and extends it. *)
Abbreviation H A := (history -> A * history) (only parsing).
Definition hret {A} (a : A) : H A := fun h => (a, h).
Definition hbind {A B} (m : H A) (f : A -> H B) : H B := fun h => let '(a, h) := m h in f a h.

(** Sequencing where an error ends the function. *)
Definition htry {A B} (m : H (result A)) (f : A -> H (result B)) : H (result B) :=
  hbind m (fun r => match r with Ok a => f a | Err e => hret (Err e) end).

Section Checker.
Variable os : GOOS.
(** The combined output of a command that has a timeout, and the standard output
    of one that has none. *)
Variable run_command : history -> command -> result string.
(** The status code a GET of the endpoint answers, within the timeout. *)
Variable http_get : history -> string -> Duration -> result Z.
(** Whether the request can be built. *)
Variable request_ok : string -> bool.
Variable os_Getenv : string -> string.
(** The layout, and the text. *)
Variable time_Parse : string -> string -> result Time.
Variable format_time : Time -> string.
Variable clock : history -> Time.

Definition time_Now : H Time := fun h => (clock h, h ++ [EvNow]).

(* @ pkg/healthchecker/health_checker.go:187-199 execCommand *)
Definition execCommand (timeout : Duration) (name : string) (args : list string)
    : H (result string) :=
  fun h =>
    let cmd := mkCommand (Some timeout) name args in
    (match run_command h cmd with
     | Err e => Err e
     | Ok out => Ok (strings_TrimSuffix out newline)
     end, h ++ [EvRun cmd]).

(* @ pkg/healthchecker/health_checker_linux.go:31-54 getUptimeFunc *)
Definition linux_getUptimeFunc (service : string) : H (result Duration) :=
  htry (execCommand CmdTimeout "systemctl" ["show"; service; "--property=InactiveExitTimestamp"])
    (fun out =>
      match split_byte 61 out with
      | _ :: v :: _ =>
        match time_Parse (UptimeTimeLayout linux) v with
        | Err e => hret (Err e)
        | Ok t => hbind time_Now (fun now => hret (Ok (Time_Sub now t)))
        end
      | _ => hret (Err "could not parse the service uptime time correctly")
      end).

(** The errors of the commands are only logged. *)
(* @ pkg/healthchecker/health_checker_linux.go:56-83 getRepairFunc *)
Definition linux_getRepairFunc (hco : HealthCheckerOptions) : H unit :=
  if String.eqb (hcoComponent hco) DockerComponent then
    hbind (execCommand CmdTimeout "pkill" ["-SIGUSR1"; "dockerd"]) (fun _ =>
    hbind (execCommand CmdTimeout "systemctl" ["kill"; "--kill-who=main"; hcoService hco]) (fun _ =>
    hret tt))
  else
    hbind (execCommand CmdTimeout "systemctl" ["kill"; "--kill-who=main"; hcoService hco]) (fun _ =>
    hret tt).

(* @ pkg/healthchecker/health_checker_linux.go:85-107 checkForPattern *)
Definition linux_checkForPattern (service logStartTime logPattern : string) (logCountThreshold : Z)
    : H (result bool) :=
  let q := String dquote "" in
  htry (execCommand CmdTimeout "/bin/sh"
          ["-c"; "journalctl --unit " +:+ q +:+ service +:+ q +:+ " --since " +:+ q +:+
                 logStartTime +:+ q +:+ " | grep -i " +:+ q +:+ logPattern +:+ q +:+ " | wc -l"])
    (fun out =>
      match strconv_Atoi out with
      | Err e => hret (Err e)
      | Ok occurrences => hret (Ok (negb (logCountThreshold <=? occurrences)%Z))
      end).

(** *** On Windows *)

(** [extractCommandOutput] included. *)
(* @ pkg/healthchecker/health_checker_windows.go:73-87 powershell *)
Definition powershell (args : list string) : H (result string) :=
  fun h =>
    let c := Powershell args in
    let cmd := mkCommand None (cName c) (cArgs c) in
    (match run_command h cmd with
     | Err e => Err e
     | Ok out => Ok (strings_TrimSuffix out (String (byte_of 13) newline))
     end, h ++ [EvRun cmd]).

(** [strings.ReplaceAll] of a byte by nothing. *)
Fixpoint remove_byte (z : Z) (s : string) : string :=
  match s with
  | EmptyString => EmptyString
  | String c rest => if byte_is z c then remove_byte z rest else String c (remove_byte z rest)
  end.

Definition uptime_query (service : string) : string :=
  let q := String dquote "" in
  "$ProcessId = (Get-WMIObject -Class Win32_Service -Filter " +:+ q +:+ "Name='" +:+ service +:+ "'" +:+ q +:+
  " | Select-Object -ExpandProperty ProcessId);" +:+
  "if ([string]::IsNullOrEmpty($ProcessId) -or $ProcessId -eq 0) { (Get-WinEvent -FilterHashtable @{logname='system';id=7036} " +:+
  "| Where-Object {$_.Message -match '.*(" +:+ service +:+ ").*(running).*'}  | Select-Object -Property TimeCreated -First 1 | " +:+
  "foreach {$_.TimeCreated.ToUniversalTime().ToString('R')} | Out-String).Trim() } else { (Get-Process -Id $ProcessId | Select starttime | " +:+
  "foreach {$_.starttime.ToUniversalTime().ToString('R')} | Out-String).Trim() }".

(* @ pkg/healthchecker/health_checker_windows.go:33-63 getUptimeFunc *)
Definition windows_getUptimeFunc (service : string) : H (result Duration) :=
  htry (powershell [uptime_query service]) (fun out =>
    if String.eqb out "" then hret (Err "service time creation not found")
    else
      match time_Parse (UptimeTimeLayout windows) (remove_byte 44 out) with
      | Err e => hret (Err e)
      | Ok t => hbind time_Now (fun now => hret (Ok (Time_Sub now t)))
      end).

(* @ pkg/healthchecker/health_checker_windows.go:65-71 getRepairFunc *)
Definition windows_getRepairFunc (hco : HealthCheckerOptions) : H unit :=
  hbind (powershell ["Restart-Service"; hcoService hco]) (fun _ => hret tt).

Definition count_query (logStartTime logPattern : string) : string :=
  "@(Get-WinEvent -Logname System | Where-Object {($_.TimeCreated -ge ([datetime]::ParseExact('" +:+ logStartTime +:+
  "','" +:+ LogParsingTimeFormat +:+ "', $null))) -and ($_.Message -Match '" +:+ logPattern +:+ "')}).count".

(* @ pkg/healthchecker/health_checker_windows.go:89-108 checkForPattern *)
Definition windows_checkForPattern (service logStartTime logPattern : string) (logCountThreshold : Z)
    : H (result bool) :=
  htry (powershell [count_query logStartTime logPattern])
    (fun out =>
      match strconv_Atoi out with
      | Err e => hret (Err e)
      | Ok occurrences => hret (Ok (negb (logCountThreshold <=? occurrences)%Z))
      end).

(** *** On the system at hand *)
Definition getUptimeFunc (service : string) : H (result Duration) :=
  match os with linux => linux_getUptimeFunc service | windows => windows_getUptimeFunc service end.

Definition getRepairFunc (hco : HealthCheckerOptions) : H unit :=
  match os with linux => linux_getRepairFunc hco | windows => windows_getRepairFunc hco end.

Definition checkForPattern (service logStartTime logPattern : string) (logCountThreshold : Z) : H (result bool) :=
  match os with
  | linux => linux_checkForPattern service logStartTime logPattern logCountThreshold
  | windows => windows_checkForPattern service logStartTime logPattern logCountThreshold
  end.

(* @ pkg/healthchecker/health_checker_windows.go:110-112 getDockerPath *)
Definition getDockerPath : string := match os with linux => "docker" | windows => "docker.exe" end.

(** The patterns, in the order the map is visited, up to the first that errs or
    is unhealthy. *)
Fixpoint checkPatterns (service logStartTime : string) (m : LogPatternFlag) (order : list string)
    : H (result bool) :=
  match order with
  | [] => hret (Ok true)
  | pattern :: order =>
    htry (checkForPattern service logStartTime pattern (default 0%Z (m !! pattern)))
      (fun healthy : bool =>
         if healthy then checkPatterns service logStartTime m order else hret (Ok false))
  end.

(** The start of the log is formatted from one reading of the clock, or from a
    second one. *)
(* @ pkg/healthchecker/health_checker.go:99-124 logPatternHealthCheck *)
Definition logPatternHealthCheck (service : string) (loopBackTime : Duration) (m : LogPatternFlag)
    (order : list string) : H (result bool) :=
  if size m =? 0 then hret (Ok true)
  else
    htry (getUptimeFunc service) (fun uptime =>
      hbind time_Now (fun now =>
        let logStartTime := format_time (Time_Add now (- uptime)) in
        if ((0 <? loopBackTime) && (loopBackTime <? uptime))%Z then
          hbind time_Now (fun now =>
            checkPatterns service (format_time (Time_Add now (- loopBackTime))) m order)
        else checkPatterns service logStartTime m order)).

(* @ pkg/healthchecker/health_checker.go:126-149 healthCheckEndpointOKFunc *)
Definition healthCheckEndpointOKFunc (endpoint : string) (timeout : Duration) : H (result bool) :=
  fun h =>
    if negb (request_ok endpoint) then (Err "net/http: invalid request", h)
    else
      (match http_get h endpoint timeout with
       | Err _ => Ok false
       | Ok code => Ok (Z.eqb code 200)
       end, h ++ [EvGet endpoint timeout]).

Definition healthCheckCommandFunc (timeout : Duration) (name : string) (args : list string)
    : H (result bool) :=
  hbind (execCommand timeout name args) (fun r => hret (Ok (is_ok r))).

(** [None] is the nil function of an unknown component. *)
(* @ pkg/healthchecker/health_checker.go:151-185 getHealthCheckFunc *)
Definition getHealthCheckFunc (hco : HealthCheckerOptions) : option (H (result bool)) :=
  if String.eqb (hcoComponent hco) KubeletComponent then
    Some (healthCheckEndpointOKFunc (setKubeEndpoints os_Getenv).1 (hcoHealthCheckTimeout hco))
  else if String.eqb (hcoComponent hco) KubeProxyComponent then
    Some (healthCheckEndpointOKFunc (setKubeEndpoints os_Getenv).2 (hcoHealthCheckTimeout hco))
  else if String.eqb (hcoComponent hco) DockerComponent then
    Some (healthCheckCommandFunc (hcoHealthCheckTimeout hco) getDockerPath ["ps"])
  else if String.eqb (hcoComponent hco) CRIComponent then
    Some (healthCheckCommandFunc (hcoHealthCheckTimeout hco) (hcoCriCtlPath hco)
            ["--timeout=" +:+ Duration_String (hcoCriTimeout hco);
             "--runtime-endpoint=" +:+ hcoCriSocketPath hco; "pods"; "--latest"])
  else None.

(* @ pkg/healthchecker/health_checker.go:32-46 healthChecker *)
Record healthChecker : Type := mkHC {
  hcComponent : string;
  hcService : string;
  hcEnableRepair : bool;
  hcHealthCheckFunc : option (H (result bool));
  hcRepairFunc : H unit;
  hcUptimeFunc : H (result Duration);
  hcCrictlPath : string;
  hcHealthCheckTimeout : Duration;
  hcCoolDownTime : Duration;
  hcLoopBackTime : Duration;
  hcLogPatternsToCheck : LogPatternFlag
}.

(* @ pkg/healthchecker/health_checker.go:48-64 NewHealthChecker *)
Definition NewHealthChecker (hco : HealthCheckerOptions) : healthChecker :=
  mkHC (hcoComponent hco) (hcoService hco) (hcoEnableRepair hco) (getHealthCheckFunc hco)
    (getRepairFunc hco) (getUptimeFunc (hcoService hco)) (hcoCriCtlPath hco)
    (hcoHealthCheckTimeout hco) (hcoCoolDownTime hco) (hcoLoopBackTime hco) (hcoLogPatterns hco).

(** The attempt to repair an unhealthy service. *)
Definition attemptRepair (hc : healthChecker) : H (result bool) :=
  if hcEnableRepair hc then
    hbind (hcUptimeFunc hc) (fun r =>
      match r with
      | Err _ => hret (Ok false)
      | Ok uptime =>
        if (hcCoolDownTime hc <? uptime)%Z
        then hbind (hcRepairFunc hc) (fun _ => hret (Ok false))
        else hret (Ok false)
      end)
  else hret (Ok false).

(* @ pkg/healthchecker/health_checker.go:66-97 CheckHealth *)
Definition CheckHealth (hc : healthChecker) (order : list string) (h : history)
    : outcome (result bool * history) :=
  check ← deref (hcHealthCheckFunc hc);
  Ret (htry (check : H (result bool)) (fun healthy =>
    htry (logPatternHealthCheck (hcService hc) (hcLoopBackTime hc) (hcLogPatternsToCheck hc) order)
      (fun logPatternHealthy =>
         if healthy && logPatternHealthy then hret (Ok true) else attemptRepair hc)) h).

(** The exit code of the program, from the parsed options on. *)
(* @ cmd/healthchecker/health_checker.go:55-76 main *)
Definition health_main (hco : HealthCheckerOptions) (order : list string) (h : history)
    : outcome (Z * history) :=
  let hco := SetDefaults hco in
  match IsValid hco with
  | Err _ => Ret (Cpm.Unknown, h)
  | Ok _ =>
    r ← CheckHealth (NewHealthChecker hco) order h;
    let '(verdict, h) := r : result bool * history in
    Ret (match verdict with
         | Err _ => Cpm.Unknown
         | Ok false => Cpm.NonOK
         | Ok true => Cpm.OK
         end, h)
  end.

(** ** What a check leaves behind *)

(** Every event but the signals of a repair, and the restart of a service. *)
Definition observation (e : event) : bool :=
  match e with
  | EvRun c =>
    match cmdArgs c with
    | a :: rest =>
      negb (String.eqb a "kill") && negb (String.eqb a "-SIGUSR1") &&
      negb (bool_decide (rest !! 4 = Some "Restart-Service"))
    | [] => true
    end
  | _ => true
  end.

Definition linux_repair_run (hco : HealthCheckerOptions) : list event :=
  let kill := EvRun (mkCommand (Some CmdTimeout) "systemctl" ["kill"; "--kill-who=main"; hcoService hco]) in
  if String.eqb (hcoComponent hco) DockerComponent
  then [EvRun (mkCommand (Some CmdTimeout) "pkill" ["-SIGUSR1"; "dockerd"]); kill]
  else [kill].

Definition repair_run (hco : HealthCheckerOptions) : list event :=
  match os with
  | linux => linux_repair_run hco
  | windows =>
    [EvRun (mkCommand None "powershell.exe" (powershell_flags ++ ["Restart-Service"; hcoService hco]))]
  end.

(** A computation that only observes. *)
Definition observes {A} (m : H A) : Prop :=
  forall h, exists tr, (m h).2 = h ++ tr /\ Forall (fun e => observation e = true) tr.

Lemma observes_hret {A} (a : A) : observes (hret a).
Proof. intros h. exists []. by rewrite app_nil_r. Qed.

Lemma observes_hbind {A B} (m : H A) (f : A -> H B) :
  observes m -> (forall a, observes (f a)) -> observes (hbind m f).
Proof.
  intros Hm Hf h. unfold hbind. destruct (Hm h) as (tr & Eh & Ht). destruct (m h) as [a h']. simpl in Eh. subst h'.
  destruct (Hf a (h ++ tr)) as (tr' & Eh' & Ht'). exists (tr ++ tr').
  rewrite Eh', app_assoc. split; [done | by apply Forall_app].
Qed.

Lemma observes_htry {A B} (m : H (result A)) (f : A -> H (result B)) :
  observes m -> (forall a, observes (f a)) -> observes (htry m f).
Proof. intros Hm Hf. apply observes_hbind; [done|]. intros [a|e]; [apply Hf | apply observes_hret]. Qed.

Lemma observes_time_Now : observes time_Now.
Proof. intros h. exists [EvNow]. split; [done|]. by constructor. Qed.

Lemma observes_execCommand t name a args :
  String.eqb a "kill" = false -> String.eqb a "-SIGUSR1" = false -> length args <= 4 ->
  observes (execCommand t name (a :: args)).
Proof.
  intros H1 H2 H3 h. exists [EvRun (mkCommand (Some t) name (a :: args))]. split; [done|].
  constructor; [|done]. simpl. rewrite H1, H2. by rewrite (proj2 (lookup_ge_None args 4)).
Qed.

Lemma observes_powershell q : q <> "Restart-Service" -> observes (powershell [q]).
Proof.
  intros Hq h. eexists. split; [reflexivity|]. constructor; [|done]. cbn.
  rewrite bool_decide_eq_false_2; [done|]. congruence.
Qed.

#[local] Hint Resolve observes_hret observes_hbind observes_htry observes_time_Now
  observes_execCommand observes_powershell : observes.

Lemma observes_getUptimeFunc service : observes (getUptimeFunc service).
Proof.
  unfold getUptimeFunc. destruct os; apply observes_htry.
  - apply observes_execCommand; (done || cbn; lia).
  - intros out. repeat case_match; eauto with observes.
  - by apply observes_powershell.
  - intros out. repeat case_match; eauto with observes.
Qed.

Lemma observes_checkForPattern service start p n : observes (checkForPattern service start p n).
Proof.
  unfold checkForPattern. destruct os; apply observes_htry.
  - apply observes_execCommand; (done || cbn; lia).
  - intros out. case_match; apply observes_hret.
  - by apply observes_powershell.
  - intros out. case_match; apply observes_hret.
Qed.

Lemma observes_checkPatterns service start m order : observes (checkPatterns service start m order).
Proof.
  induction order as [|p order IH]; simpl; [apply observes_hret|].
  apply observes_htry; [apply observes_checkForPattern|].
  intros [|]; [exact IH | apply observes_hret].
Qed.
#[local] Hint Resolve observes_getUptimeFunc observes_checkPatterns : observes.

Lemma observes_logPatternHealthCheck service d m order :
  observes (logPatternHealthCheck service d m order).
Proof.
  unfold logPatternHealthCheck. case_match; [apply observes_hret|].
  apply observes_htry; [apply observes_getUptimeFunc|]. intros uptime.
  apply observes_hbind; [apply observes_time_Now|]. intros now. case_match; eauto with observes.
Qed.

Lemma observes_endpoint e t : observes (healthCheckEndpointOKFunc e t).
Proof.
  intros h. unfold healthCheckEndpointOKFunc. case_match; simpl.
  - exists []. by rewrite app_nil_r.
  - exists [EvGet e t]. split; [done|]. by constructor.
Qed.

(** A component that passes [IsValid] has a check, which only observes. *)
Lemma valid_check hco :
  IsValid hco = Ok tt -> exists check, getHealthCheckFunc hco = Some check /\ observes check.
Proof.
  unfold IsValid, getHealthCheckFunc. intros Hv.
  destruct (String.eqb (hcoComponent hco) KubeletComponent) eqn:E1; [eauto using observes_endpoint|].
  destruct (String.eqb (hcoComponent hco) KubeProxyComponent) eqn:E2; [eauto using observes_endpoint|].
  destruct (String.eqb (hcoComponent hco) DockerComponent) eqn:E3;
    [|destruct (String.eqb (hcoComponent hco) CRIComponent) eqn:E4; [|done]];
    (eexists; split; [reflexivity|]; apply observes_hbind; [apply observes_execCommand; (done || cbn; lia) | eauto with observes]).
Qed.

Lemma repair_runs hco h : (getRepairFunc hco h).2 = h ++ repair_run hco.
Proof.
  unfold getRepairFunc, repair_run, linux_repair_run. destruct os; [|done].
  unfold linux_getRepairFunc. case_match; unfold hbind, execCommand; simpl; [|done].
  by rewrite <- app_assoc.
Qed.

(** What an attempt to repair does. *)
Lemma attemptRepair_spec hco h :
  exists obs, Forall (fun e => observation e = true) obs /\
  ((attemptRepair (NewHealthChecker hco) h = (Ok false, h ++ obs) /\
    (hcoEnableRepair hco = true -> exists r, getUptimeFunc (hcoService hco) h = (r, h ++ obs) /\
       forall uptime, r = Ok uptime -> (uptime <= hcoCoolDownTime hco)%Z)) \/
   (attemptRepair (NewHealthChecker hco) h = (Ok false, h ++ obs ++ repair_run hco) /\
    hcoEnableRepair hco = true /\
    exists uptime, getUptimeFunc (hcoService hco) h = (Ok uptime, h ++ obs) /\
      (hcoCoolDownTime hco < uptime)%Z)).
Proof.
  unfold attemptRepair. simpl. destruct (hcoEnableRepair hco).
  2:{ exists []. rewrite app_nil_r. split; [done|]. left. by split. }
  destruct (observes_getUptimeFunc (hcoService hco) h) as (obs & Eh & Ho). unfold hbind.
  destruct (getUptimeFunc (hcoService hco) h) as [r h1]. simpl in Eh. subst h1. exists obs. split; [done|].
  destruct r as [uptime|e]; [|left; split; [done|]; intros _; by eexists].
  destruct (Z.ltb_spec (hcoCoolDownTime hco) uptime) as [Hlt|Hge].
  - right. pose proof (repair_runs hco (h ++ obs)) as Hr. destruct (getRepairFunc hco (h ++ obs)) as [u h2].
    simpl in Hr. subst h2. unfold hret. rewrite app_assoc. eauto.
  - left. split; [done|]. intros _. eexists. split; [done|]. by intros ? [= <-].
Qed.

(** The check of a valid checker, up to the attempt to repair: it observes, and
    either decides the exit code or finds the component unhealthy. *)
Lemma CheckHealth_spec hco order h :
  IsValid hco = Ok tt ->
  exists check r obs, getHealthCheckFunc hco = Some check /\
  Forall (fun e => observation e = true) obs /\
  htry check (fun healthy => htry (logPatternHealthCheck (hcoService hco) (hcoLoopBackTime hco)
    (hcoLogPatterns hco) order) (fun b => hret (Ok (healthy && b)))) h = (r, h ++ obs) /\
  CheckHealth (NewHealthChecker hco) order h =
    match r with
    | Ok false => Ret (attemptRepair (NewHealthChecker hco) (h ++ obs))
    | r => Ret (r, h ++ obs)
    end.
Proof.
  intros Hv. destruct (valid_check _ Hv) as (check & Ec & Ho).
  unfold CheckHealth. simpl. rewrite Ec. simpl. exists check.
  unfold htry, hbind.
  destruct (Ho h) as (tr & Eh & Ht). destruct (check h) as [r h1]. simpl in Eh. subst h1.
  destruct r as [healthy|e]; [|by exists (Err e), tr].
  destruct (observes_logPatternHealthCheck (hcoService hco) (hcoLoopBackTime hco)
    (hcoLogPatterns hco) order (h ++ tr)) as (tr' & Eh' & Ht').
  destruct (logPatternHealthCheck _ _ _ _ (h ++ tr)) as [r' h2]. simpl in Eh'. subst h2.
  rewrite <- app_assoc.
  assert (Hall : Forall (fun e => observation e = true) (tr ++ tr')) by by apply Forall_app.
  destruct r' as [b|e]; [|by exists (Err e), (tr ++ tr')].
  exists (Ok (healthy && b)), (tr ++ tr'). by destruct (healthy && b).
Qed.

(** C20.  With options that pass validation after the defaults are set, the health
    checker always ends with one of its three exit codes, and it is the exit
    code the custom plugin monitor reads as False for a healthy component, True
    for an unhealthy one and Unknown for a check that erred.  On Linux it
    signals the service, on Windows it restarts it, in exactly one case: the component was found unhealthy, repair is
    enabled, and the uptime read after the check exceeds the cool-down time;
    then the repair is the last thing it does.  In every other
    case all it does is observe. *)
Theorem repair_only_after_cooldown hco order h :
  let o := SetDefaults hco in
  IsValid o = Ok tt ->
  exists check r obs code, getHealthCheckFunc o = Some check /\
  Forall (fun e => observation e = true) obs /\
  (exists h1, htry check (fun healthy => htry (logPatternHealthCheck (hcoService o) (hcoLoopBackTime o)
     (hcoLogPatterns o) order) (fun b => hret (Ok (healthy && b)))) h = (r, h1)) /\
  CustomPluginMonitor.toConditionStatus code = match r with Ok true => CFalse | Ok false => CTrue | Err _ => CUnknown end /\
  ((health_main hco order h = Ret (code, h ++ obs) /\
    (r = Ok false -> hcoEnableRepair o = true ->
     exists h0 u, getUptimeFunc (hcoService o) h0 = (u, h ++ obs) /\
       forall uptime, u = Ok uptime -> (uptime <= hcoCoolDownTime o)%Z)) \/
   (health_main hco order h = Ret (code, h ++ obs ++ repair_run o) /\
    r = Ok false /\ hcoEnableRepair o = true /\
    exists h0 uptime, getUptimeFunc (hcoService o) h0 = (Ok uptime, h ++ obs) /\
      (hcoCoolDownTime o < uptime)%Z)).
Proof.
  intros o Hv. destruct (CheckHealth_spec o order h Hv) as (check & r & obs & Ec & Ho & Er & Ech).
  unfold health_main. fold o. rewrite Hv, Ech.
  destruct r as [[|]|e]; simpl.
  - exists check, (Ok true), obs, Cpm.OK. split_and!; eauto. by left.
  - destruct (attemptRepair_spec o (h ++ obs)) as (obs' & Ho' & [[-> Hu] | (-> & Hen & Hu)]);
      exists check, (Ok false), (obs ++ obs'), Cpm.NonOK;
      split_and!; eauto using Forall_app_2.
    + left. rewrite !app_assoc. split; [done|]. intros _ Hen. destruct (Hu Hen) as (u & Eu & Hle). eauto.
    + right. rewrite !app_assoc in *. destruct Hu as (u & Eu & Hlt). eauto 10.
  - exists check, (Err e), obs, Cpm.Unknown. split_and!; eauto. by left.
Qed.

(** ** The log patterns *)

Definition pattern_command (service start pattern : string) : command :=
  let q := String dquote "" in
  match os with
  | linux =>
    mkCommand (Some CmdTimeout) "/bin/sh"
      ["-c"; "journalctl --unit " +:+ q +:+ service +:+ q +:+ " --since " +:+ q +:+
             start +:+ q +:+ " | grep -i " +:+ q +:+ pattern +:+ q +:+ " | wc -l"]
  | windows => mkCommand None "powershell.exe" (powershell_flags ++ [count_query start pattern])
  end.

(** The end of a line. *)
Definition eol : string := match os with linux => newline | windows => String (byte_of 13) newline end.

(** The number of lines the pattern was counted on. *)
Definition counted (service start pattern : string) : result Z :=
  match run_command [] (pattern_command service start pattern) with
  | Ok out => strconv_Atoi (strings_TrimSuffix out eol)
  | Err e => Err e
  end.

(** Where the log that is searched starts, given the history at the time. *)
Definition search_start (d uptime : Duration) (h : history) : string :=
  if ((0 <? d) && (d <? uptime))%Z then format_time (Time_Add (clock (h ++ [EvNow])) (- d))
  else format_time (Time_Add (clock h) (- uptime)).

(** The journal does not change while the patterns are counted. *)
Hypothesis stable : forall h c, run_command h c = run_command [] c.

Lemma checkForPattern_spec service start p n h :
  (checkForPattern service start p n h).1 =
  match counted service start p with
  | Ok k => Ok (negb (n <=? k)%Z)
  | Err e => Err e
  end.
Proof.
  unfold checkForPattern, counted, pattern_command, eol. destruct os.
  - unfold linux_checkForPattern, htry, hbind, execCommand. rewrite stable.
    destruct (run_command [] _); [|done]. simpl. by destruct (strconv_Atoi _).
  - unfold windows_checkForPattern, htry, hbind, powershell. rewrite stable.
    change (mkCommand None (cName (Powershell [count_query start p])) (cArgs (Powershell [count_query start p])))
      with (mkCommand None "powershell.exe" (powershell_flags ++ [count_query start p])).
    destruct (run_command [] _); [|done]. simpl. by destruct (strconv_Atoi _).
Qed.

Lemma checkPatterns_healthy service start m order h :
  (checkPatterns service start m order h).1 = Ok true <->
  Forall (fun p => exists k, counted service start p = Ok k /\ (k < default 0 (m !! p))%Z) order.
Proof.
  revert h. induction order as [|p order IH]; intros h; simpl; [done|].
  rewrite Forall_cons. pose proof (checkForPattern_spec service start p (default 0%Z (m !! p)) h) as Hp.
  unfold htry, hbind. destruct (checkForPattern _ _ _ _ h) as [r h']. simpl in Hp. subst r.
  destruct (counted service start p) as [k|e]; [|split; [done|]; by intros [(? & ? & ?) _]].
  destruct (Z.leb_spec (default 0%Z (m !! p)) k) as [Hle|Hlt]; simpl.
  - split; [done|]. intros [(k' & [= <-] & Hk) _]. lia.
  - rewrite IH. split; [eauto|]. by intros [_ Hf].
Qed.

(** The log of a service passes the check exactly when no pattern is configured,
    or the uptime can be read and every configured pattern is counted, on fewer
    lines than its threshold, since the start of the service or of the look-back
    window when that is later.  The verdict does not depend on the order in which
    the map of patterns is visited. *)
Theorem log_patterns_below_threshold service d m order h :
  order ≡ₚ (map_to_list m).*1 ->
  (logPatternHealthCheck service d m order h).1 = Ok true <->
  m = ∅ \/
  exists uptime h1, getUptimeFunc service h = (Ok uptime, h1) /\
    forall p n, m !! p = Some n ->
      exists k, counted service (search_start d uptime h1) p = Ok k /\ (k < n)%Z.
Proof.
  intros Hord. unfold logPatternHealthCheck. destruct (Nat.eqb_spec (size m) 0) as [Hs|Hs].
  { apply map_size_empty_inv in Hs. subst m. split; eauto. }
  assert (Hne : m <> ∅) by (intros ->; apply Hs; reflexivity).
  assert (Hall : forall start h', (checkPatterns service start m order h').1 = Ok true <->
    forall p n, m !! p = Some n -> exists k, counted service start p = Ok k /\ (k < n)%Z).
  { intros start h'. rewrite checkPatterns_healthy, Forall_forall. setoid_rewrite Hord.
    setoid_rewrite list_elem_of_fmap. split.
    - intros Hf p n Hp. destruct (Hf p) as (k & Ek & Hk); [|rewrite Hp in Hk; eauto].
      exists (p, n). by rewrite elem_of_map_to_list.
    - intros Hf p ([p' n] & -> & Hp). apply elem_of_map_to_list in Hp. simpl. rewrite Hp. eauto. }
  unfold htry, hbind, search_start. destruct (getUptimeFunc service h) as [[uptime|e] h1].
  2:{ split; [done|]. by intros [?|(?&?&?&?)]. }
  simpl. destruct ((0 <? d) && (d <? uptime))%Z eqn:E; rewrite Hall; split;
    try (intros Hp; right; exists uptime, h1; by rewrite ?E);
    intros [?|(u & h2 & Eu & Hp)]; try done; injection Eu as <- <-; by rewrite E in Hp.
Qed.
End Checker.

(** ** Witnesses *)
Definition crictl_env (h : history) (c : command) : result string :=
  if String.eqb (cmdName c) "systemctl" then Ok "InactiveExitTimestamp=T"
  else if String.eqb (cmdName c) "/bin/sh" then Ok ("7" +:+ newline)
  else Err "exit status 1".

Definition crictl_options : HealthCheckerOptions :=
  mkHCO CRIComponent "" true "/usr/bin/crictl" "unix:///run/containerd.sock" (2 * Second)%Z
    (2 * Minute)%Z 0%Z (10 * Second)%Z {["oops" := 5%Z]}.

(** The container runtime does not answer and has been up for three minutes. *)
Lemma repair_only_after_cooldown_witness :
  let main := health_main linux crictl_env (fun _ _ _ => Ok 200%Z) (fun _ => true) (fun _ => "")
                (fun _ _ => Ok 0%Z) (fun _ => "start") (fun _ => (3 * Minute)%Z) in
  IsValid (SetDefaults crictl_options) = Ok tt /\
  match main crictl_options ["oops"] [] with
  | Ret (code, h) => code = Cpm.NonOK /\ exists obs, h = obs ++ repair_run linux (SetDefaults crictl_options)
  | Panic _ => False
  end.
Proof.
  intros main. split; [reflexivity|].
  destruct (repair_only_after_cooldown linux crictl_env (fun _ _ _ => Ok 200%Z) (fun _ => true) (fun _ => "")
                (fun _ _ => Ok 0%Z) (fun _ => "start") (fun _ => (3 * Minute)%Z) crictl_options ["oops"] []
                eq_refl) as (check & r & obs & code & Ec & _ & _ & _ & [[Em _]|[Em _]]);
    fold main in Em; rewrite Em.
  - vm_compute in Em. injection Em as <- <-. split; [reflexivity|].
    eexists [_; _; _; _; _; _; _]. reflexivity.
  - vm_compute in Em. injection Em as <- Eo. split; [reflexivity|]. by exists obs.
Defined.

Lemma log_patterns_below_threshold_witness :
  (logPatternHealthCheck linux crictl_env (fun _ _ => Ok 0%Z) (fun _ => "start") (fun _ => 9%Z)
     "containerd" 0 {["oops" := 8%Z]} ["oops"] []).1 = Ok true.
Proof.
  apply log_patterns_below_threshold; [done | reflexivity |].
  right. eexists _, _. split; [vm_compute; reflexivity|].
  intros p n Hp. apply lookup_singleton_Some in Hp as [<- <-]. exists 7%Z. split; [reflexivity | lia].
Defined.

(** The same node under Windows: the service is restarted. *)
Example windows_repair :
  health_main windows (fun _ c => if bool_decide (last (cmdArgs c) = Some (uptime_query "containerd"))
                                  then Ok ("Mon, 02 Jan" +:+ String (byte_of 13) newline) else Err "exit status 1")
    (fun _ _ _ => Ok 200%Z) (fun _ => true) (fun _ => "")
    (fun _ v => if String.eqb v "Mon 02 Jan" then Ok 0%Z else Err "") (fun _ => "start") (fun _ => (3 * Minute)%Z)
    (mkHCO CRIComponent "" true "crictl.exe" "npipe" Second (2 * Minute)%Z 0%Z Second ∅) [] [] =
  Ret (Cpm.NonOK,
    [EvRun (mkCommand (Some Second) "crictl.exe" ["--timeout=1s"; "--runtime-endpoint=npipe"; "pods"; "--latest"]);
     EvRun (mkCommand None "powershell.exe" (powershell_flags ++ [uptime_query "containerd"])); EvNow;
     EvRun (mkCommand None "powershell.exe" (powershell_flags ++ ["Restart-Service"; "containerd"]))]).
Proof. vm_compute. reflexivity. Qed.

(** ** The flag syntax *)

(** One item of the flag, [<threshold>:<pattern>], and the flag. *)
Definition print_item (it : Z * string) : string := format_int it.1 +:+ String ":" it.2.
Definition print_flag (its : list (Z * string)) : string := strings_Join (print_item <$> its) ",".

(** The items the syntax can express. *)
Definition item_ok (it : Z * string) : Prop :=
  it.1 <> 0%Z /\ in_int64 it.1 /\ it.2 <> "" /\ free_of 44 it.2 = true.

Lemma setItem_print m it : item_ok it -> setItem m (print_item it) = Ok (<[it.2 := it.1]> m).
Proof.
  destruct it as [n p]. intros (Hn & Hr & Hp & Hc). simpl in *. unfold setItem, print_item. simpl.
  rewrite cut_byte_app by (done || (apply format_int_free; lia)).
  rewrite Atoi_format_int by done. rewrite (proj2 (Z.eqb_neq _ _)) by done.
  by rewrite (proj2 (String.eqb_neq _ _)).
Qed.

Lemma print_item_free it : item_ok it -> free_of 44 (print_item it) = true.
Proof.
  intros (_ & _ & _ & Hc). unfold print_item, free_of. rewrite all_chars_app.
  fold (free_of 44 (format_int it.1)). rewrite format_int_free by lia. done.
Qed.

(** Setting the flag from the [threshold:pattern] items of its documented
    syntax, separated by commas, succeeds and adds each pattern with its
    threshold; a later item for the same pattern wins.  The thresholds are any
    non-zero int, negative ones included. *)
Theorem flag_round_trip m its :
  its <> [] -> Forall item_ok its ->
  LogPatternFlag_Set m (print_flag its) =
  (foldl (fun m it => <[it.2 := it.1]> m) m its, Ok tt).
Proof.
  intros Hne Hok. unfold LogPatternFlag_Set, print_flag.
  change (",") with (String "," ""). rewrite split_byte_Join.
  - clear Hne. revert m. induction Hok as [|it its Hit Hok IH]; intros m; simpl; [done|].
    rewrite setItem_print by done. apply IH.
  - done.
  - intros H%fmap_nil_inv. done.
  - apply Forall_fmap. eapply Forall_impl; [exact Hok|]. apply print_item_free.
Qed.

Lemma flag_round_trip_witness :
  LogPatternFlag_Set ∅ "5:oops: a panic,-1:BUG" = (<["BUG" := (-1)%Z]> {["oops: a panic" := 5%Z]}, Ok tt).
Proof.
  apply (flag_round_trip ∅ [(5%Z, "oops: a panic"); ((-1)%Z, "BUG")]); [done|].
  repeat constructor; done.
Defined.

(** What [String] prints is not what [Set] reads: the pattern comes first, and
    a space separates. *)
Example String_is_not_Set_syntax :
  let s := LogPatternFlag_String (<["BUG" := 2%Z]> {["oops" := 5%Z]}) ["BUG"; "oops"] in
  s = "BUG:2 oops:5" /\ is_ok (LogPatternFlag_Set ∅ s).2 = false.
Proof. split; vm_compute; reflexivity. Qed.
