(* ===== verification/Transitions.v ===== *)
(** Labelled transition systems given by an executable step: their runs, and
    induction over them.  Used for the log watchers and for the
    compositions of components. *)

From S2P Require Import Prelude.

Section Runs.
Context {State Action : Type}.
Variable exec : State -> Action -> option State.

(** A run, as a relation ... *)
Inductive runs (s : State) : list Action -> State -> Prop :=
| runs_nil : runs s [] s
| runs_snoc tr s1 a s2 : runs s tr s1 -> exec s1 a = Some s2 -> runs s (tr ++ [a]) s2.

(** ... and computed. *)
Fixpoint run_from (s : State) (tr : list Action) : option State :=
  match tr with
  | [] => Some s
  | a :: tr => match exec s a with Some s' => run_from s' tr | None => None end
  end.

Lemma runs_app s tr s1 tr' s2 : runs s tr s1 -> runs s1 tr' s2 -> runs s (tr ++ tr') s2.
Proof.
  intros H1 H2. induction H2 as [|tr' s2 a s3 H2 IH Ha]; [by rewrite app_nil_r|].
  rewrite app_assoc. econstructor; [exact IH | exact Ha].
Qed.

Lemma runs_one s a s' : exec s a = Some s' -> runs s [a] s'.
Proof. intros H. exact (runs_snoc s [] s a s' (runs_nil s) H). Qed.

Lemma run_from_runs s tr s' : run_from s tr = Some s' -> runs s tr s'.
Proof.
  revert s. induction tr as [|a tr IH]; intros s H; simpl in H.
  - injection H as <-. constructor.
  - destruct (exec s a) as [s1|] eqn:E; [|done].
    apply (runs_app s [a] s1); [by apply runs_one | by apply IH].
Qed.

Lemma run_from_app s tr tr' :
  run_from s (tr ++ tr') = match run_from s tr with Some s1 => run_from s1 tr' | None => None end.
Proof. revert s. induction tr as [|a tr IH]; intros s; cbn; [done|]. by destruct (exec s a). Qed.

(** What every step keeps, every run keeps. *)
Lemma runs_invariant (P : State -> Prop) s tr s' :
  (forall s a s', P s -> exec s a = Some s' -> P s') -> P s -> runs s tr s' -> P s'.
Proof. intros Hstep H0 H. induction H as [|tr s1 a s2 H IH Ha]; eauto. Qed.

(** From a state without steps a run goes nowhere. *)
Lemma runs_dead s tr s' : (forall a, exec s a = None) -> runs s tr s' -> s' = s.
Proof.
  intros Hdead. apply (runs_invariant (fun x => x = s)); [|done]. intros x a x' -> Hx.
  by rewrite Hdead in Hx.
Qed.
End Runs.

Arguments runs {State Action} exec s tr s'.
Arguments run_from {State Action} exec s tr.
