(* ===== verification/Pipeline.v ===== *)
(** From the inputs of the monitors to node conditions: the monitors, the detector
    that merges their channels, the Kubernetes exporter and the condition manager
    with its sync goroutine, composed.

    The monitors are any instance of [Monitor].  They share the store of slices
    with the exporter: a status carries a reference, and the exporter reads the
    conditions behind it one by one while the monitors go on.  The theorems say
    what nevertheless arrives. *)

From S2P Require Import Prelude GoStrings GoTime Types Options ProblemClient ConditionManager Metrics ProblemMetrics LogMonitor MonitorInterface K8sExporter ProblemDetector Transitions.

(** What the exporter needs of its client besides [SetConditions]: sending an
    event leaves the published conditions alone. *)
Class EventClient (C : Type) {CL : Client C} : Type := {
  send_event : C -> string -> Event -> C;
  send_event_published : forall c source e t, published (send_event c source e) t = published c t
}.

(** The API client is one. *)
Section APIClient.
Context {API : Type}.
Variable PatchStatus : API -> string -> string -> API * result Node.
Variable json_Marshal : list NodeCondition -> result string.
Context {CL : Client (nodeProblemClient API)}.
Variable api_published : API -> string -> string -> option NodeCondition.
Hypothesis published_api : forall c t, published c t = api_published (npcClient c) (npcNodeName c) t.

Definition api_send_event (c : nodeProblemClient API) (source : string) (e : Event) : nodeProblemClient API :=
  (Eventf c (ConvertToAPIEventType (eSeverity e)) source (eReason e) (eMessage e)).1.

Lemma api_send_event_published c source e t : published (api_send_event c source e) t = published c t.
Proof.
  rewrite !published_api. unfold api_send_event, Eventf. by destruct (npcRecorders c !! source).
Qed.

Definition nodeProblemClient_EventClient : EventClient (nodeProblemClient API) :=
  {| send_event := api_send_event; send_event_published := api_send_event_published |}.
End APIClient.

(** ** The composition *)

(** Where the loop of [Run] is: in its select, sending the events of a status
    from monitor [i], or at its [k]th condition. *)
Inductive export_pc : Type :=
| XIdle
| XEvents (i : nat) (s : Status) (todo : list Event)
| XConds (i : nat) (s : Status) (k : nat).

Section Pipeline.
Context {M D X I : Type} {MO : MonitorOps M D X I} {MM : Monitor M D X I}.
Context {C : Type} {CL : Client C} {EC : EventClient C}.
(** The two switches of the exporter, and the heartbeat of its manager. *)
Variables (writeEv updateCond : bool) (hb : Duration).

(** [pTrace] records what the condition manager was asked to do, [pEvents] the
    events that were sent, each with its monitor. *)
Record pipeline : Type := mkPipe {
  pMons : list D;
  pWorld : world M;
  pLanes : list lane;
  pExp : export_pc;
  pSys : sys C;
  pTrace : list action;
  pEvents : list (nat * Event)
}.

Inductive paction : Type :=
| PMon (i : nat) (op : mop X)
| PSend (i : nat)          (* monitor i sends to its channel *)
| PTake (i : nat)          (* forwarder i receives *)
| PReceive (i : nat)       (* forwarder i's send meets the loop of Run *)
| PEvent
| PCond
| PManager (a : action).

Definition outputCap : nat := 1000.

Definition set_mon (p : pipeline) (i : nat) (m : D) (w : world M) : pipeline :=
  mkPipe (<[i := m]> (pMons p)) w (pLanes p) (pExp p) (pSys p) (pTrace p) (pEvents p).

Definition set_lane (p : pipeline) (i : nat) (l : lane) (x : export_pc) : pipeline :=
  mkPipe (pMons p) (pWorld p) (<[i := l]> (pLanes p)) x (pSys p) (pTrace p) (pEvents p).

Definition set_exp (p : pipeline) (x : export_pc) : pipeline :=
  mkPipe (pMons p) (pWorld p) (pLanes p) x (pSys p) (pTrace p) (pEvents p).

(** The loop of [Run] and [ExportProblems], one event or condition at a time. *)
(* @ pkg/exporters/k8sexporter/k8s_exporter.go:74-85 ExportProblems *)
Definition export_turn (p : pipeline) (a : paction) : option pipeline :=
  match a, pExp p with
  | PReceive i, XIdle =>
    match pLanes p !! i with
    | Some (mkLane q (Some s)) =>
      Some (set_lane p i (mkLane q None) (XEvents i s (if writeEv then sEvents s else [])))
    | _ => None
    end
  | PEvent, XEvents i s (e :: todo) =>
    Some (mkPipe (pMons p) (pWorld p) (pLanes p) (XEvents i s todo)
            (mkSys (mgr (pSys p)) (send_event (cli (pSys p)) (sSource s) e) (pc (pSys p)))
            (pTrace p) (pEvents p ++ [(i, e)]))
  | PEvent, XEvents i s [] => Some (set_exp p (if updateCond then XConds i s 0 else XIdle))
  | PCond, XConds i s k =>
    match read_conditions (wStore (pWorld p)) s !! k with
    | Some c =>
      Some (mkPipe (pMons p) (pWorld p) (pLanes p) (XConds i s (S k))
              (mkSys (UpdateCondition (mgr (pSys p)) c) (cli (pSys p)) (pc (pSys p)))
              (pTrace p ++ [AUpdate c]) (pEvents p))
    | None => Some (set_exp p XIdle)
    end
  | _, _ => None
  end.

Definition pexec (p : pipeline) (a : paction) : option pipeline :=
  match a with
  | PMon i op => m ← pMons p !! i; mw ← mon_exec m (pWorld p) op; Some (set_mon p i mw.1 mw.2)
  | PSend i =>
    m ← pMons p !! i; l ← pLanes p !! i; sm ← mon_send m;
    if length (queue l) <? outputCap
    then Some (set_lane (set_mon p i sm.2 (pWorld p)) i (mkLane (queue l ++ [sm.1]) (held l)) (pExp p))
    else None
  | PTake i =>
    match pLanes p !! i with
    | Some (mkLane (s :: q) None) => Some (set_lane p i (mkLane q (Some s)) (pExp p))
    | _ => None
    end
  | PManager (AUpdate _) => None
  | PManager a =>
    s ← exec (pSys p) a;
    Some (mkPipe (pMons p) (pWorld p) (pLanes p) (pExp p) s (pTrace p ++ [a]) (pEvents p))
  | _ => export_turn p a
  end.

(** The process after start-up. *)
Definition start_pipeline (ds : list D) (w : world M) (cl : C) : pipeline :=
  mkPipe ds w ((fun _ => mkLane [] None) <$> ds) XIdle (initial hb cl) [] [].

(** ** The monitors and their slices *)
Record mons_inv (types : list (list string)) (ms : list D) (w : world M) : Prop := mkMonsInv {
  mv_inv : forall i m, ms !! i = Some m -> mon_inv w m;
  mv_refs : forall i j mi mj, ms !! i = Some mi -> ms !! j = Some mj ->
    mon_state mi <> SInit -> mon_state mj <> SInit -> mon_ref mi = mon_ref mj -> i = j;
  mv_types : mon_types <$> ms = types
}.

Lemma state_init_dec (m : D) : mon_state m = SInit \/ mon_state m <> SInit.
Proof. destruct (mon_state m); (by left) || by right. Qed.

(** The reference of another monitor that has started is not the one a step uses. *)
Lemma mon_step_ref types ms w w' i j m m' mj out ins :
  mons_inv types ms w -> ms !! i = Some m -> mon_step mon_inv w m w' m' out ins -> ms !! j = Some mj -> i <> j ->
  mon_state mj <> SInit -> mon_ref mj <> mon_ref m'.
Proof.
  intros [H1 H2 _] Hi Hst Hj Hne Hpj E. destruct (ms_ref _ _ _ _ _ _ _ Hst) as [[Hp Hr]|[_ Hn]].
  - apply Hne. apply (H2 i j m mj); try done. congruence.
  - destruct (conds_law w mj (H1 j mj Hj) Hpj) as (conds & Hc & _). rewrite E, Hn in Hc. done.
Qed.

Lemma mons_inv_step types ms w w' i m m' out ins :
  mons_inv types ms w -> ms !! i = Some m -> mon_step mon_inv w m w' m' out ins -> mons_inv types (<[i := m']> ms) w'.
Proof.
  intros Hv Hi Hst. pose proof Hv as [H1 H2 H3]. constructor.
  - intros j mj Hj. apply list_lookup_insert_Some in Hj as [(<- & <- & _)|[Hne Hj]]; [by destruct Hst|].
    eapply frame_law; [by apply (H1 j)|].
    destruct (state_init_dec mj) as [E|E]; [by left|]. right.
    eapply ms_store; [exact Hst|]. exact (mon_step_ref _ _ _ _ _ _ _ _ _ _ _ Hv Hi Hst Hj Hne E).
  - intros j k mj mk Hj Hk Hpj Hpk Er.
    apply list_lookup_insert_Some in Hj as [(<- & <- & _)|[Hne Hj]];
      apply list_lookup_insert_Some in Hk as [(<- & <- & _)|[Hne' Hk]]; try done.
    + destruct (mon_step_ref _ _ _ _ _ _ _ _ _ _ _ Hv Hi Hst Hk Hne' Hpk). done.
    + destruct (mon_step_ref _ _ _ _ _ _ _ _ _ _ _ Hv Hi Hst Hj Hne Hpj). done.
    + by eapply H2.
  - rewrite list_fmap_insert, (same_types _ _ (ms_same _ _ _ _ _ _ _ Hst)), H3. apply list_insert_id.
    rewrite <- H3, list_lookup_fmap, Hi. done.
Qed.

(** ** What is on the way *)

(** The exporter works on status [s] of monitor [i] ... *)
Definition exporting (x : export_pc) (i : nat) (s : Status) : Prop :=
  match x with
  | XIdle => False
  | XEvents j s' _ | XConds j s' _ => j = i /\ s' = s
  end.

(** ... with these events still to send ... *)
Definition exp_todo (x : export_pc) (i : nat) : list Event :=
  match x with XEvents j _ todo => if decide (j = i) then todo else [] | _ => [] end.

(** ... and condition [k] still to read. *)
Definition exp_reads (x : export_pc) (i k : nat) : Prop :=
  match x with
  | XIdle => False
  | XEvents j _ _ => j = i
  | XConds j _ k' => j = i /\ k' <= k
  end.

Definition events_of (i : nat) (es : list (nat * Event)) : list Event :=
  omap (fun p => if decide (p.1 = i) then Some p.2 else None) es.

Definition concat_events (ss : list Status) : list Event := mjoin (sEvents <$> ss).
#[local] Arguments events_of : simpl never.
#[local] Arguments concat_events : simpl never.

Lemma concat_events_app ss ss' : concat_events (ss ++ ss') = concat_events ss ++ concat_events ss'.
Proof. unfold concat_events. by rewrite fmap_app, join_app. Qed.

Lemma events_of_snoc i es j e :
  events_of i (es ++ [(j, e)]) = events_of i es ++ (if decide (j = i) then [e] else []).
Proof. unfold events_of. rewrite omap_snoc. cbn [fst snd]. by destruct (decide (j = i)). Qed.

(** What the exporter did of a monitor's statuses, and what is to come. *)
Definition flow (p : pipeline) (i : nat) (m : D) (l : lane) : Prop :=
  exists done, mon_sent m = done ++ pending l ++ in_hand m /\
    (forall s, exporting (pExp p) i s -> s ∈ done) /\
    events_of i (pEvents p) ++ exp_todo (pExp p) i = concat_events done.

(** Condition [k] of monitor [i] is at the manager, or it will be read. *)
Definition fresh_at (p : pipeline) (i : nat) (m : D) (l : lane) (k : nat) (c : Condition) : Prop :=
  newest (pTrace p) !! cType c = Some c \/ in_hand m <> [] \/ pending l <> [] \/ exp_reads (pExp p) i k.

Record pinv (types : list (list string)) (p : pipeline) : Prop := mkPinv {
  pv_mons : mons_inv types (pMons p) (pWorld p);
  pv_lanes : length (pLanes p) = length (pMons p);
  pv_mgr : Inv hb (pTrace p) (mgr (pSys p));
  pv_flow : forall i m l, pMons p !! i = Some m -> pLanes p !! i = Some l -> flow p i m l;
  pv_exp : forall i s, exporting (pExp p) i s -> is_Some (pMons p !! i);
  pv_fresh : forall i m l conds k c, pMons p !! i = Some m -> pLanes p !! i = Some l -> mon_state m <> SInit -> mon_sent m <> [] ->
    wStore (pWorld p) !! mon_ref m = Some conds -> conds !! k = Some c -> fresh_at p i m l k c;
  pv_valid : forall c, AUpdate c ∈ pTrace p -> valid_status (cStatus c)
}.

(** The lane of a monitor. *)
Lemma lane_of types p i m : pinv types p -> pMons p !! i = Some m -> exists l, pLanes p !! i = Some l.
Proof.
  intros Hv Hi. apply lookup_lt_is_Some_2. rewrite (pv_lanes _ _ Hv). by eapply lookup_lt_Some.
Qed.

(** A monitor that goes on by itself, having nothing to send before. *)
Lemma pinv_mon types p i m m' w' o ins :
  pinv types p -> pMons p !! i = Some m -> mon_step mon_inv (pWorld p) m w' m' (option_list o) ins ->
  in_hand m = [] -> in_hand m' = option_list o ->
  (o = None -> mon_state m = SInit \/ wStore w' = wStore (pWorld p)) ->
  pinv types (set_mon p i m' w').
Proof.
  intros Hv Hi Hst Hh Hh' Hout. pose proof Hv as [H1 H2 H3 H4 H5 H6 H7]. constructor; cbn.
  - by eapply mons_inv_step.
  - by rewrite length_insert.
  - done.
  - intros j mj l Hj Hl. apply list_lookup_insert_Some in Hj as [(<- & <- & _)|[Hne Hj]]; [|by apply H4].
    destruct (H4 i m l Hi Hl) as (d & Hd & Hx & He). exists d. split_and!; [|done|done].
    rewrite (ms_sent _ _ _ _ _ _ _ Hst), Hd, Hh, Hh', app_nil_r. by rewrite app_assoc.
  - intros j s Hs. rewrite lookup_lt_is_Some, length_insert, <- lookup_lt_is_Some. by eapply H5.
  - intros j mj l conds k c Hj Hl Hp Hsn Hc Hk.
    apply list_lookup_insert_Some in Hj as [(<- & <- & _)|[Hne Hj]].
    + destruct o as [s|]; [right; left; by rewrite Hh'|].
      rewrite (ms_sent _ _ _ _ _ _ _ Hst) in Hsn. cbn in Hsn. rewrite app_nil_r in Hsn.
      destruct (Hout eq_refl) as [Hpm|Hw].
      { destruct (init_law _ _ (mv_inv _ _ _ H1 i m Hi) Hpm). done. }
      destruct (ms_ref _ _ _ _ _ _ _ Hst) as [[Hpm Hr]|[Hpm _]].
      2: { destruct (init_law _ _ (mv_inv _ _ _ H1 i m Hi) Hpm). done. }
      rewrite Hw, Hr in Hc. destruct (H6 i m l conds k c Hi Hl Hpm Hsn Hc Hk) as [?|[?|?]]; [by left|done|].
      right. by right.
    + eapply H6; try done. rewrite <- Hc. symmetry. eapply ms_store; [exact Hst|].
      exact (mon_step_ref _ _ _ _ _ _ _ _ _ _ _ H1 Hi Hst Hj Hne Hp).
  - done.
Qed.

(** The monitor hands its status to the channel. *)
Lemma pinv_send types p i m l s m' :
  pinv types p -> pMons p !! i = Some m -> pLanes p !! i = Some l -> mon_send m = Some (s, m') ->
  pinv types (set_lane (set_mon p i m' (pWorld p)) i (mkLane (queue l ++ [s]) (held l)) (pExp p)).
Proof.
  intros Hv Hi Hl Hsend. pose proof Hv as [H1 H2 H3 H4 H5 H6 H7].
  destruct (send_law _ _ _ _ (mv_inv _ _ _ H1 i m Hi) Hsend) as (Hst & Hr & Hh' & _).
  assert (Hh : in_hand m = [s]) by (unfold in_hand; by rewrite (send_guard _ _ _ Hsend)).
  assert (Epend : pending (mkLane (queue l ++ [s]) (held l)) = pending l ++ in_hand m).
  { unfold pending. rewrite Hh. cbn. by rewrite app_assoc. }
  constructor; cbn.
  - by eapply mons_inv_step.
  - by rewrite !length_insert.
  - done.
  - intros j mj lj Hj Hlj. apply list_lookup_insert_Some in Hj as [(<- & <- & _)|[Hne Hj]].
    + apply list_lookup_insert_Some in Hlj as [(_ & <- & _)|[? _]]; [|done].
      destruct (H4 i m l Hi Hl) as (d & Hd & Hx & He). exists d. split_and!; [|done|done].
      rewrite Epend, (ms_sent _ _ _ _ _ _ _ Hst), Hd, Hh'. by rewrite !app_nil_r.
    + rewrite list_lookup_insert_ne in Hlj by done. by apply H4.
  - intros j s' Hs. rewrite lookup_lt_is_Some, length_insert, <- lookup_lt_is_Some. by eapply H5.
  - intros j mj lj conds k c Hj Hlj Hpj Hsn Hc Hk.
    apply list_lookup_insert_Some in Hj as [(<- & <- & _)|[Hne Hj]].
    + apply list_lookup_insert_Some in Hlj as [(_ & <- & _)|[? _]]; [|done].
      right. right. left. rewrite Epend, Hh. by destruct (pending l).
    + rewrite list_lookup_insert_ne in Hlj by done. by eapply H6.
  - done.
Qed.

(** A lane changes, its statuses not. *)
Lemma pinv_take types p i q s :
  pinv types p -> pLanes p !! i = Some (mkLane (s :: q) None) ->
  pinv types (set_lane p i (mkLane q (Some s)) (pExp p)).
Proof.
  intros Hv Hl. pose proof Hv as [H1 H2 H3 H4 H5 H6 H7]. constructor; cbn; try done.
  - by rewrite length_insert.
  - intros j mj lj Hj Hlj. apply list_lookup_insert_Some in Hlj as [(<- & <- & _)|[Hne Hlj]]; [|by apply H4].
    exact (H4 i mj _ Hj Hl).
  - intros j mj lj conds k c Hj Hlj Hpj Hsn Hc Hk.
    apply list_lookup_insert_Some in Hlj as [(<- & <- & _)|[Hne Hlj]]; [|by eapply H6].
    exact (H6 i mj _ conds k c Hj Hl Hpj Hsn Hc Hk).
Qed.

Hypothesis write_on : writeEv = true.
Hypothesis update_on : updateCond = true.

Lemma pinv_receive types p i q s :
  pinv types p -> pExp p = XIdle -> pLanes p !! i = Some (mkLane q (Some s)) ->
  pinv types (set_lane p i (mkLane q None) (XEvents i s (sEvents s))).
Proof.
  intros Hv Hx Hl. pose proof Hv as [H1 H2 H3 H4 H5 H6 H7]. constructor; cbn; try done.
  - by rewrite length_insert.
  - intros j mj lj Hj Hlj. apply list_lookup_insert_Some in Hlj as [(<- & <- & _)|[Hne Hlj]].
    + destruct (H4 i mj _ Hj Hl) as (d & Hd & _ & He). rewrite Hx in He. cbn in He. rewrite app_nil_r in He.
      exists (d ++ [s]). split_and!; cbn.
      * rewrite Hd. unfold pending. cbn. by rewrite <- app_assoc.
      * intros s' [_ <-]. apply elem_of_app. right. by apply list_elem_of_singleton.
      * rewrite decide_True, He, concat_events_app by done. unfold concat_events at 3. cbn. by rewrite app_nil_r.
    + destruct (H4 j mj lj Hj Hlj) as (d & Hd & Hd' & He). exists d. split_and!; [done| |]; cbn.
      * by intros s' [? _].
      * rewrite decide_False by done. by rewrite Hx in He.
  - intros j s' [<- _]. rewrite lookup_lt_is_Some, <- H2, <- lookup_lt_is_Some. by eexists.
  - intros j mj lj conds k c Hj Hlj Hpj Hsn Hc Hk.
    apply list_lookup_insert_Some in Hlj as [(<- & <- & _)|[Hne Hlj]]; [by right; right; right|].
    destruct (H6 j mj lj conds k c Hj Hlj Hpj Hsn Hc Hk) as [?|[?|[?|Hr]]]; [by left|by right; left|by right; right; left|].
    by rewrite Hx in Hr.
Qed.

(** The exporter sends an event, or goes on to the conditions. *)
Lemma pinv_event types p i s e todo :
  pinv types p -> pExp p = XEvents i s (e :: todo) ->
  pinv types (mkPipe (pMons p) (pWorld p) (pLanes p) (XEvents i s todo)
    (mkSys (mgr (pSys p)) (send_event (cli (pSys p)) (sSource s) e) (pc (pSys p)))
    (pTrace p) (pEvents p ++ [(i, e)])).
Proof.
  intros [H1 H2 H3 H4 H5 H6 H7] Hx. rewrite Hx in *. constructor; cbn; try done.
  - intros j mj lj Hj Hlj. destruct (H4 j mj lj Hj Hlj) as (d & Hd & Hd' & He).
    rewrite Hx in *. exists d. split_and!; cbn; [done|done|]. rewrite events_of_snoc, <- He. cbn.
    destruct (decide (i = j)); by rewrite <- app_assoc.
  - intros j mj lj conds k c Hj Hlj Hpj Hsn Hc Hk. pose proof (H6 j mj lj conds k c Hj Hlj Hpj Hsn Hc Hk) as Hf.
    unfold fresh_at in *. by rewrite Hx in Hf.
Qed.

Lemma pinv_conds types p i s :
  pinv types p -> pExp p = XEvents i s [] -> pinv types (set_exp p (XConds i s 0)).
Proof.
  intros [H1 H2 H3 H4 H5 H6 H7] Hx. rewrite Hx in *. constructor; cbn; try done.
  - intros j mj lj Hj Hlj. destruct (H4 j mj lj Hj Hlj) as (d & Hd & Hd' & He).
    rewrite Hx in *. exists d. split_and!; cbn; [done|done|]. rewrite <- He. cbn. by destruct (decide _).
  - intros j mj lj conds k c Hj Hlj Hpj Hsn Hc Hk.
    destruct (H6 j mj lj conds k c Hj Hlj Hpj Hsn Hc Hk) as [?|[?|[?|Hr]]];
      [by left|by right; left|by right; right; left|]. rewrite Hx in Hr. right. right. right. cbn in *. split; [done|lia].
Qed.

(** The conditions behind the status that the exporter works on. *)
Lemma exporting_conds types p i s :
  pinv types p -> exporting (pExp p) i s ->
  exists m l conds, pMons p !! i = Some m /\ pLanes p !! i = Some l /\ mon_state m <> SInit /\
    wStore (pWorld p) !! mon_ref m = Some conds /\ read_conditions (wStore (pWorld p)) s = conds /\
    conds_valid conds.
Proof.
  intros Hv Hx. destruct (pv_exp _ _ Hv i s Hx) as [m Hi]. destruct (lane_of _ _ _ _ Hv Hi) as [l Hl].
  destruct (pv_flow _ _ Hv i m l Hi Hl) as (d & Hd & Hx' & _). pose proof (mv_inv _ _ _ (pv_mons _ _ Hv) i m Hi) as HI.
  assert (Hs : s ∈ mon_sent m) by (rewrite Hd, elem_of_app; left; by apply Hx').
  assert (Hp : mon_state m <> SInit).
  { intros E. destruct (init_law _ _ HI E) as [H _]. rewrite H in Hs. by apply elem_of_nil in Hs. }
  destruct (conds_law _ _ HI Hp) as (conds & Hc & Hval & _ & HF).
  exists m, l, conds. split_and!; try done. rewrite Forall_forall in HF. pose proof (HF s Hs) as Hr.
  unfold read_conditions. by rewrite Hr, Hc.
Qed.

(** No condition type occurs twice, in one monitor or in two. *)
Lemma NoDup_join_unique {A} (ls : list (list A)) i j l1 l2 k k' x :
  NoDup (mjoin ls) -> ls !! i = Some l1 -> ls !! j = Some l2 -> l1 !! k = Some x -> l2 !! k' = Some x ->
  i = j /\ k = k'.
Proof.
  revert i j. induction ls as [|l ls IH]; intros i j HN Hi Hj Hk Hk'; [done|].
  cbn in HN. apply NoDup_app in HN as (HN1 & HN2 & HN3).
  assert (Hin : forall n l', ls !! n = Some l' -> forall q, l' !! q = Some x -> x ∈ mjoin ls).
  { intros n l' Hn q Hq. apply list_elem_of_join. exists l'. split; by eapply list_elem_of_lookup_2. }
  destruct i as [|i], j as [|j]; cbn in Hi, Hj.
  - simplify_eq. split; [done|]. exact (NoDup_lookup _ _ _ _ HN1 Hk Hk').
  - simplify_eq. destruct (HN2 x); [by eapply list_elem_of_lookup_2|by eapply Hin].
  - simplify_eq. destruct (HN2 x); [by eapply list_elem_of_lookup_2|by eapply Hin].
  - destruct (IH i j HN3 Hi Hj Hk Hk') as [-> ->]. done.
Qed.

Lemma types_at types p i m conds k c :
  pinv types p -> pMons p !! i = Some m -> mon_state m <> SInit ->
  wStore (pWorld p) !! mon_ref m = Some conds -> conds !! k = Some c ->
  exists ts, types !! i = Some ts /\ ts !! k = Some (cType c).
Proof.
  intros Hv Hi Hp Hc Hk. destruct (pv_mons _ _ Hv) as [H1 _ H3].
  destruct (conds_law _ _ (H1 i m Hi) Hp) as (conds' & Hc' & _ & Ht & _).
  rewrite Hc in Hc'. injection Hc' as <-. exists (mon_types m). split.
  - rewrite <- H3, list_lookup_fmap, Hi. done.
  - rewrite <- Ht, list_lookup_fmap, Hk. done.
Qed.

(** The exporter hands a condition to the manager, or is done. *)
Lemma pinv_cond types p i s k c :
  NoDup (mjoin types) -> pinv types p -> pExp p = XConds i s k ->
  read_conditions (wStore (pWorld p)) s !! k = Some c ->
  pinv types (mkPipe (pMons p) (pWorld p) (pLanes p) (XConds i s (S k))
    (mkSys (UpdateCondition (mgr (pSys p)) c) (cli (pSys p)) (pc (pSys p)))
    (pTrace p ++ [AUpdate c]) (pEvents p)).
Proof.
  intros HN Hv Hx Hk. pose proof Hv as [H1 H2 H3 H4 H5 H6 H7]. constructor; cbn; try done.
  - by apply Inv_update.
  - intros j mj lj Hj Hlj. destruct (H4 j mj lj Hj Hlj) as (d & Hd & Hd' & He).
    rewrite Hx in *. by exists d.
  - by rewrite Hx in H5.
  - destruct (exporting_conds types p i s Hv) as (m & l & conds & Hi & Hl & Hp & Hc & Hrd & Hval); [by rewrite Hx|].
    rewrite Hrd in Hk. destruct (types_at _ _ _ _ _ _ _ Hv Hi Hp Hc Hk) as (ts & Hts & Htk).
    intros j mj lj conds' k' c' Hj Hlj Hpj Hsn Hc' Hk'.
    destruct (types_at _ _ _ _ _ _ _ Hv Hj Hpj Hc' Hk') as (ts' & Hts' & Htk').
    unfold fresh_at. cbn. rewrite newest_snoc.
    destruct (decide (cType c = cType c')) as [E|E].
    + rewrite <- E in Htk'. destruct (NoDup_join_unique _ _ _ _ _ _ _ _ HN Hts Hts' Htk Htk') as [<- <-].
      left. simplify_eq. by rewrite lookup_insert_eq.
    + rewrite lookup_insert_ne by done.
      destruct (H6 j mj lj conds' k' c' Hj Hlj Hpj Hsn Hc' Hk') as [?|[?|[?|Hr]]];
        [by left|by right; left|by right; right; left|].
      rewrite Hx in Hr. destruct Hr as [<- Hle]. right. right. right. split; [done|].
      assert (k <> k') by (intros ->; simplify_eq). lia.
  - destruct (exporting_conds types p i s Hv) as (m & l & conds & Hi & Hl & Hp & Hc & Hrd & Hval); [by rewrite Hx|].
    intros c' [?|Hc']%elem_of_app; [by apply H7|]. apply list_elem_of_singleton in Hc' as [= ->].
    rewrite Hrd in Hk. by apply (Forall_lookup_1 _ _ _ _ Hval Hk).
Qed.

Lemma pinv_conds_done types p i s k :
  pinv types p -> pExp p = XConds i s k -> read_conditions (wStore (pWorld p)) s !! k = None ->
  pinv types (set_exp p XIdle).
Proof.
  intros Hv Hx Hk. pose proof Hv as [H1 H2 H3 H4 H5 H6 H7]. constructor; cbn; try done.
  - intros j mj lj Hj Hlj. destruct (H4 j mj lj Hj Hlj) as (d & Hd & _ & He). rewrite Hx in He. by exists d.
  - destruct (exporting_conds types p i s Hv) as (m & l & conds & Hi & Hl & Hp & Hc & Hrd & Hval); [by rewrite Hx|].
    rewrite Hrd in Hk. apply lookup_ge_None in Hk.
    intros j mj lj conds' k' c' Hj Hlj Hpj Hsn Hc' Hk'.
    destruct (H6 j mj lj conds' k' c' Hj Hlj Hpj Hsn Hc' Hk') as [?|[?|[?|Hr]]];
      [by left|by right; left|by right; right; left|].
    rewrite Hx in Hr. destruct Hr as [<- Hle]. simplify_eq. apply lookup_lt_Some in Hk'. lia.
Qed.

(** The sync goroutine. *)
Lemma Inv_exec tr s a s' : Inv hb tr (mgr s) -> exec s a = Some s' -> Inv hb (tr ++ [a]) (mgr s').
Proof. intros HI H. by eapply step_Inv, exec_step. Qed.

Lemma pinv_manager types p a s' :
  pinv types p -> (forall c, a <> AUpdate c) -> exec (pSys p) a = Some s' ->
  pinv types (mkPipe (pMons p) (pWorld p) (pLanes p) (pExp p) s' (pTrace p ++ [a]) (pEvents p)).
Proof.
  intros [H1 H2 H3 H4 H5 H6 H7] Ha He. constructor; cbn; try done; [by eapply Inv_exec| |].
  2: { intros c [?|Hc]%elem_of_app; [by apply H7|]. apply list_elem_of_singleton in Hc. by destruct (Ha c). }
  intros j mj lj conds k c Hj Hlj Hpj Hsn Hc Hk. unfold fresh_at. cbn. rewrite newest_snoc.
  destruct a as [c0| | |]; [by destruct (Ha c0)|..]; by apply (H6 j mj lj conds k c).
Qed.

(** ** Runs *)

(** The inputs that monitor [i] was given. *)
Definition inputs_of (i : nat) (tr : list paction) : list I :=
  omap (fun a => match a with PMon j (OInput x now) => if decide (j = i) then Some (mon_item x now) else None | _ => None end) tr.

(** A monitor keeps its configuration, and has received what it was given. *)
Definition hist_ok (ds : list D) (tr : list paction) (p : pipeline) : Prop :=
  forall i m, pMons p !! i = Some m ->
    exists d, ds !! i = Some d /\ mon_same d m /\ mon_inputs m = inputs_of i tr /\
      (mon_state m <> SInit -> PMon i (OStart (mon_begin m)) ∈ tr).

(** Each monitor can count its inputs. *)
Definition tr_bound (ds : list D) (tr : list paction) : Prop :=
  forall i d, ds !! i = Some d -> mon_bound d (length (inputs_of i tr)).

Definition act_inputs (i : nat) (a : paction) : list I :=
  match a with PMon j op => if decide (j = i) then op_inputs op else [] | _ => [] end.

Lemma inputs_of_snoc i tr a : inputs_of i (tr ++ [a]) = inputs_of i tr ++ act_inputs i a.
Proof. unfold inputs_of. rewrite omap_snoc. destruct a as [j []| | | | | |]; try done; cbn; by destruct (decide _). Qed.

Lemma tr_bound_snoc ds tr a : tr_bound ds (tr ++ [a]) -> tr_bound ds tr.
Proof.
  intros H i d Hd. specialize (H i d Hd). rewrite inputs_of_snoc, length_app in H. eapply bound_mono; [done|lia].
Qed.

(** What a step does to the monitors: nothing, a step of one of them, or a send. *)
Inductive mons_change (p : pipeline) (a : paction) (p' : pipeline) : Prop :=
| mc_none : pMons p' = pMons p -> match a with PMon _ _ | PSend _ => False | _ => True end -> mons_change p a p'
| mc_exec i op m m' w' : a = PMon i op -> pMons p !! i = Some m -> mon_exec m (pWorld p) op = Some (m', w') ->
    p' = set_mon p i m' w' -> mons_change p a p'
| mc_send i m l s m' : a = PSend i -> pMons p !! i = Some m -> pLanes p !! i = Some l -> mon_send m = Some (s, m') ->
    length (queue l) < outputCap ->
    p' = set_lane (set_mon p i m' (pWorld p)) i (mkLane (queue l ++ [s]) (held l)) (pExp p) -> mons_change p a p'.

Lemma pexec_mons p a p' : pexec p a = Some p' -> mons_change p a p'.
Proof.
  destruct a as [i op|i|i|i| | |a]; cbn [pexec].
  - destruct (pMons p !! i) as [m|] eqn:E; [|done]. cbn [mbind option_bind].
    destruct (mon_exec m (pWorld p) op) as [[m' w']|] eqn:Em; [|done]. intros [= <-]. by eapply mc_exec.
  - destruct (pMons p !! i) as [m|] eqn:E; [|done]. cbn [mbind option_bind].
    destruct (pLanes p !! i) as [l|] eqn:El; [|done]. cbn [mbind option_bind].
    destruct (mon_send m) as [[s m']|] eqn:Es; [|done]. cbn [mbind option_bind fst snd].
    destruct (Nat.ltb_spec (length (queue l)) outputCap); [|done]. intros [= <-]. by eapply mc_send.
  - destruct (pLanes p !! i) as [[[|s q] [|]]|]; try done. intros [= <-]. by apply mc_none.
  - cbn [export_turn]. destruct (pExp p), (pLanes p !! i) as [[q [|]]|]; try done. intros [= <-]. by apply mc_none.
  - cbn [export_turn]. destruct (pExp p) as [|j s [|e todo]|]; try done; intros [= <-]; by apply mc_none.
  - cbn [export_turn]. destruct (pExp p) as [| |j s k]; try done.
    destruct (_ !! k); intros [= <-]; by apply mc_none.
  - destruct a; try done; (destruct (exec _ _); [|done]); intros [= <-]; by apply mc_none.
Qed.

(** The bound of a run is what the next step of a monitor needs. *)
Lemma step_bound ds tr p i op m :
  hist_ok ds tr p -> tr_bound ds (tr ++ [PMon i op]) -> pMons p !! i = Some m ->
  mon_bound m (length (mon_inputs m ++ op_inputs op)).
Proof.
  intros H Hb Hi. destruct (H i m Hi) as (d & Hd & Hs & Hin & _). apply (same_bound _ _ Hs).
  specialize (Hb i d Hd). rewrite inputs_of_snoc in Hb. unfold act_inputs in Hb. rewrite decide_True in Hb by done.
  by rewrite Hin.
Qed.

Lemma mon_same_trans (d1 d2 d3 : D) : mon_same d1 d2 -> mon_same d2 d3 -> mon_same d1 d3.
Proof.
  intros [H1 H2 H3] [K1 K2 K3]. constructor; [congruence|intros n; by rewrite K2, H2|intros r t l; by rewrite K3, H3].
Qed.

(** The history of the monitor that took a step, and of the others. *)
Lemma hist_mon ds tr p a p' i m m' w w' out ins :
  hist_ok ds tr p -> pMons p !! i = Some m -> mon_step mon_inv w m w' m' out ins ->
  pMons p' = <[i := m']> (pMons p) -> act_inputs i a = ins -> (forall j, j <> i -> act_inputs j a = []) ->
  (a = PMon i (OStart (mon_begin m')) \/ (mon_begin m' = mon_begin m /\ mon_state m <> SInit)) ->
  hist_ok ds (tr ++ [a]) p'.
Proof.
  intros H Hi Hst Hp Ha Hne Hb j mj Hj. rewrite Hp in Hj. rewrite inputs_of_snoc.
  apply list_lookup_insert_Some in Hj as [(<- & <- & _)|[Hji Hj]].
  - destruct (H i m Hi) as (d & Hd & Hs & Hin & Hbeg). exists d. split_and!; [done| | |].
    + eapply mon_same_trans; [exact Hs|by destruct Hst].
    + by rewrite (ms_inputs _ _ _ _ _ _ _ Hst), Hin, Ha.
    + intros _. apply elem_of_app. destruct Hb as [->|[-> Hsm]]; [right; by apply list_elem_of_singleton|left; auto].
  - destruct (H j mj Hj) as (d & Hd & Hs & Hin & Hbeg). exists d. rewrite Hne, app_nil_r by done.
    split_and!; try done. intros Hsj. apply elem_of_app. left. auto.
Qed.

Lemma hist_ok_step ds types tr p a p' :
  hist_ok ds tr p -> pinv types p -> pexec p a = Some p' -> tr_bound ds (tr ++ [a]) -> hist_ok ds (tr ++ [a]) p'.
Proof.
  intros H Hv He Hb. pose proof (mv_inv _ _ _ (pv_mons _ _ Hv)) as HI.
  destruct (pexec_mons _ _ _ He) as [E Ha|i op m m' w' -> Hi Em ->|i m l s m' -> Hi Hl Es _ ->].
  - intros j mj Hj. rewrite E in Hj. destruct (H j mj Hj) as (d & Hd & Hs & Hin & Hbeg). exists d.
    rewrite inputs_of_snoc. replace (act_inputs j a) with (@nil I) by (by destruct a). rewrite app_nil_r.
    split_and!; try done. intros Hsj. apply elem_of_app. left. auto.
  - destruct (exec_law _ _ _ _ _ (HI i m Hi) Em (step_bound _ _ _ _ _ _ H Hb Hi)) as (o & Hst & _).
    eapply hist_mon; [done|done|exact Hst|done| | |].
    + cbn. by rewrite decide_True.
    + intros j Hj. cbn. by rewrite decide_False.
    + pose proof (begin_law _ _ _ _ _ Em) as Hbg. pose proof (exec_guard _ _ _ _ _ Em) as Hg.
      destruct op as [now|x now|]; [left; by rewrite Hbg|right; by rewrite Hg..].
  - destruct (send_law _ _ _ _ (HI i m Hi) Es) as (Hst & _ & _ & Hbg & _).
    eapply hist_mon; [done|done|exact Hst|done|done|done|]. right. by rewrite (send_guard _ _ _ Es).
Qed.

Lemma exec_hand (d : D) w op d' w' : mon_exec d w op = Some (d', w') -> in_hand d = [].
Proof. intros H%exec_guard. unfold in_hand. destruct op; by rewrite H. Qed.

Lemma pinv_step types p a p' :
  NoDup (mjoin types) -> pinv types p -> pexec p a = Some p' ->
  (forall i op m, a = PMon i op -> pMons p !! i = Some m -> mon_bound m (length (mon_inputs m ++ op_inputs op))) ->
  pinv types p'.
Proof.
  intros HN Hv He Hb. pose proof (mv_inv _ _ _ (pv_mons _ _ Hv)) as HI.
  destruct (pexec_mons _ _ _ He) as [_ Ha|i op m m' w' -> Hi Em ->|i m l s m' -> Hi Hl Es _ ->].
  2: { destruct (exec_law _ _ _ _ _ (HI i m Hi) Em (Hb i op m eq_refl Hi)) as (o & Hst & Hh & Ho & _).
       eapply pinv_mon; eauto using exec_hand. }
  2: by eapply pinv_send.
  destruct a as [i op|i|i|i| | |a]; [done|done|..].
  - cbn [pexec] in He. destruct (pLanes p !! i) as [[[|s q] [|]]|] eqn:El; try done. injection He as <-. by apply pinv_take.
  - cbn [pexec export_turn] in He. destruct (pExp p) eqn:Ex; try done.
    destruct (pLanes p !! i) as [[q [s|]]|] eqn:El; try done. injection He as <-. rewrite write_on. by apply pinv_receive.
  - cbn [pexec export_turn] in He. destruct (pExp p) as [|j s [|e todo]|] eqn:Ex; try done; injection He as <-.
    + rewrite update_on. by apply pinv_conds.
    + by apply pinv_event.
  - cbn [pexec export_turn] in He. destruct (pExp p) as [| |j s k] eqn:Ex; try done.
    destruct (_ !! k) as [c|] eqn:Ek; injection He as <-; [by apply pinv_cond|by eapply pinv_conds_done].
  - cbn [pexec] in He. destruct a; try done; (destruct (exec _ _) as [s'|] eqn:Es; [|done]); injection He as <-; by apply pinv_manager.
Qed.

(** ** From start-up *)
Variables (ds : list D) (w0 : world M) (cl0 : C).
Hypothesis ds_fresh : Forall mon_fresh ds.

(** The condition types, by monitor. *)
Definition all_types : list (list string) := mon_types <$> ds.
Hypothesis types_distinct : NoDup (mjoin all_types).
Local Abbreviation start := (start_pipeline ds w0 cl0).

Lemma fresh_at_start w i m : ds !! i = Some m -> mon_inv w m /\ mon_state m = SInit.
Proof. intros Hi. by apply fresh_law, (Forall_lookup_1 _ _ _ _ ds_fresh Hi). Qed.

Lemma pinv_start : pinv all_types start.
Proof.
  constructor; cbn.
  - constructor; [|intros i j mi mj Hi Hj Hp; by destruct (fresh_at_start w0 i mi Hi)|done].
    intros i m Hi. by apply (fresh_at_start w0 i m Hi).
  - by rewrite length_fmap.
  - apply Inv_initial.
  - intros i m l Hi Hl. apply list_lookup_fmap_Some in Hl as (l2 & -> & _). exists [].
    destruct (fresh_at_start w0 i m Hi) as [HI Hs]. destruct (init_law _ _ HI Hs) as [-> _].
    split_and!; [unfold in_hand; by rewrite Hs|done|done].
  - done.
  - intros i m l conds k c Hi Hl Hp. by destruct (fresh_at_start w0 i m Hi).
  - intros c H. by apply elem_of_nil in H.
Qed.

Lemma hist_start : hist_ok ds [] start.
Proof.
  intros i m Hi. destruct (fresh_at_start w0 i m Hi) as [HI Hs]. destruct (init_law _ _ HI Hs) as [_ ->].
  exists m. split_and!; try done.
Qed.

Lemma pipeline_inv tr p : runs pexec start tr p -> tr_bound ds tr -> hist_ok ds tr p /\ pinv all_types p.
Proof.
  induction 1 as [|tr p1 a p2 H IH Ha]; intros Hb; [split; [apply hist_start|apply pinv_start]|].
  destruct (IH (tr_bound_snoc _ _ _ Hb)) as [IH1 IH2].
  split; [by eapply hist_ok_step|]. eapply pinv_step; [done|done|done|].
  intros i op m -> Hi. by eapply step_bound.
Qed.

(** ** What arrives *)

(** Nothing of monitor [i] is on the way. *)
Definition quiet (p : pipeline) (i : nat) : bool :=
  match pMons p !! i, pLanes p !! i with
  | Some m, Some l =>
    match mon_state m, pending l, pExp p with
    | SSelect, [], XIdle => true
    | SSelect, [], XEvents j _ _ | SSelect, [], XConds j _ _ => negb (bool_decide (j = i))
    | _, _, _ => false
    end
  | _, _ => false
  end.

Lemma quiet_spec p i :
  quiet p i = true ->
  exists m l, pMons p !! i = Some m /\ pLanes p !! i = Some l /\ mon_state m = SSelect /\ pending l = [] /\
    exp_todo (pExp p) i = [] /\ (forall k, ~ exp_reads (pExp p) i k).
Proof.
  unfold quiet. destruct (pMons p !! i) as [m|]; [|done]. destruct (pLanes p !! i) as [l|]; [|done].
  destruct (mon_state m) eqn:E; try done. destruct (pending l) eqn:El; try done. intros H. exists m, l.
  split_and!; try done.
  - destruct (pExp p) as [|j s todo|j s k]; try done. cbn. case_bool_decide; [done|]. by rewrite decide_False.
  - intros k. destruct (pExp p) as [|j s todo|j s k']; cbn; [tauto|..]; case_bool_decide; try done. by intros [? _].
Qed.

(** The conditions and statuses that the inputs of monitor [i] should lead to. *)
Definition expects (tr : list paction) (i : nat) (conds : list Condition) (ss : list Status) : Prop :=
  exists d start ref, ds !! i = Some d /\ PMon i (OStart start) ∈ tr /\
    mon_spec d ref start (inputs_of i tr) = (conds, ss).

Lemma quiet_expected tr p i :
  runs pexec start tr p -> tr_bound ds tr -> quiet p i = true ->
  exists conds ss, expects tr i conds ss /\
    (ss <> [] -> forall c, c ∈ conds -> newest (pTrace p) !! cType c = Some c) /\
    events_of i (pEvents p) = concat_events ss.
Proof.
  intros Hr Hb Hq. destruct (pipeline_inv _ _ Hr Hb) as [Hh Hv].
  apply quiet_spec in Hq as (m & la & Hi & Hl & Hp & Hpd & Htodo & Hnr).
  destruct (Hh i m Hi) as (d & Hd & Hs & Hin & Hst).
  pose proof (mv_inv _ _ _ (pv_mons _ _ Hv) i m Hi) as HI.
  assert (Hns : mon_state m <> SInit) by by rewrite Hp.
  destruct (conds_law _ _ HI Hns) as (conds & Hw & _). exists conds, (mon_sent m).
  assert (Hhd : in_hand m = []) by (unfold in_hand; by rewrite Hp).
  split_and!.
  - exists d, (mon_begin m), (mon_ref m). split_and!; [done|by apply Hst|].
    rewrite <- Hin, <- (same_spec _ _ Hs). by eapply select_law.
  - intros Hss c [k Hk]%list_elem_of_lookup.
    destruct (pv_fresh _ _ Hv i m la conds k c Hi Hl Hns Hss Hw Hk) as [?|[?|[?|Hx]]]; try done.
    by destruct (Hnr k).
  - destruct (pv_flow _ _ Hv i m la Hi Hl) as (dn & Hdn & _ & He). rewrite Htodo, app_nil_r in He.
    rewrite Hpd, Hhd in Hdn. cbn in Hdn. by rewrite app_nil_r in Hdn; subst.
Qed.

(** From the inputs to the condition manager, through three goroutines per
    monitor, the exporter and the shared slices.  In every run of the process
    after start-up, under any interleaving: when nothing of a monitor is on the
    way, what the condition manager holds is exactly the conditions that its
    specification makes of the inputs it received (once it has a status to
    report), and the events that were sent for it are exactly those of the
    statuses of these inputs, each once and in order.  The monitors are as their
    constructors make them, no condition type is configured twice, and both
    switches of the exporter are on. *)
Theorem pipeline_delivers tr p i :
  runs pexec start tr p -> tr_bound ds tr -> quiet p i = true ->
  exists conds ss, expects tr i conds ss /\
    (ss <> [] -> forall c, c ∈ conds ->
       default (read_map (conditions (mgr (pSys p))) (cType c)) (updates (mgr (pSys p)) !! cType c) = c) /\
    events_of i (pEvents p) = concat_events ss.
Proof.
  intros Hr Hb Hq. destruct (quiet_expected tr p i Hr Hb Hq) as (conds & ss & H1 & H2 & H3).
  exists conds, ss. split_and!; try done. intros Hss c Hc.
  destruct (pipeline_inv _ _ Hr Hb) as [_ Hv]. rewrite (inv_newest _ _ _ (pv_mgr _ _ Hv)).
  unfold read_map. by rewrite (H2 Hss c Hc).
Qed.

(** And on to the API server: the sync goroutine cannot die of a condition
    that came through the pipeline, whatever the client answers; and once it has
    applied the pending updates and the client accepts, the node carries exactly
    the conditions that the specification makes of the inputs received, up to the
    client's encoding. *)
Theorem pipeline_publishes tr p i now order :
  runs pexec start tr p -> tr_bound ds tr -> quiet p i = true ->
  pc (pSys p) = Syncing -> updates (mgr (pSys p)) = ∅ -> visits (conditions (mgr (pSys p))) order ->
  (forall c, AUpdate c ∈ pTrace p -> ncType (encode (api_condition c)) = cType c) ->
  exists p' conds ss, pexec p (PManager (ASync now order)) = Some p' /\ expects tr i conds ss /\
    (ss <> [] -> resyncNeeded (mgr (pSys p')) = false -> forall c, c ∈ conds ->
       option_nc_equiv (published (cli (pSys p')) (cType c)) (Some (encode (api_condition c)))).
Proof.
  intros Hr Hb Hq Hpc Hup Hvis Henc. destruct (pipeline_inv _ _ Hr Hb) as [_ Hv].
  destruct (sync_enabled hb (pTrace p) (pSys p) now order (pv_mgr _ _ Hv) Hpc (pv_valid _ _ Hv) Hvis) as [s' Hs'].
  destruct (quiet_expected tr p i Hr Hb Hq) as (conds & ss & H1 & H2 & H3).
  eexists _, conds, ss. cbn [pexec]. rewrite (step_exec _ _ _ Hs'). cbn [mbind option_bind].
  split_and!; try done. cbn [pSys]. intros Hss Hres c Hc. pose proof (H2 Hss c Hc) as Hn.
  eapply (proj1 (sync_publishes hb _ _ _ _ _ (pv_mgr _ _ Hv) Hs' Hres Henc)); [done| |by rewrite Hup].
  intros ->. destruct (pv_valid _ _ Hv Condition_zero) as [Hz|[Hz|Hz]]; try done. by eapply newest_AUpdate.
Qed.
End Pipeline.
Arguments pipeline M D C : clear implicits.
Arguments paction X : clear implicits.
