(* ===== verification/Process.v ===== *)
(** The process with its two kinds of reporting problem daemons: log monitors and
    custom plugin monitors side by side in the pipeline of [Pipeline], and a
    sample of it with the fake client on which the theorems of [Pipeline] are
    tried. *)

From S2P Require Import Prelude GoStrings GoTime Regexp Types LogBuffer Options ProblemClient ConditionManager Metrics ProblemMetrics LogMonitor MonitorInterface LogMonitorLoop CustomPluginConfig CustomPluginMonitor CustomMonitorLoop K8sExporter ProblemDetector Transitions Pipeline.
Import Cpm CustomPluginMonitor.

Abbreviation daemon := (lmon + cpmon)%type.
Abbreviation dinput := (Log + Result)%type.
Abbreviation PInit i now := (PMon i (OStart now)).
Abbreviation PLog i log := (PMon i (OInput (inl log) Time_zero)).
Abbreviation PResult i r now := (PMon i (OInput (inr r) now)).
Abbreviation PRule i := (PMon i OTurn).

Definition log_daemon (l : logMonitor) : daemon := inl (lm_new l).
Definition plugin_daemon (c : customPluginMonitor) : daemon := inr (cp_new c).

Section Process.
Context `{UC : !Unicode} {M : Type} `{MI : !Int64MetricInterface M}.

(** What either kind of monitor should make of its inputs. *)
Lemma expects_log ds (tr : list (paction dinput)) i conds ss l :
  ds !! i = Some (log_daemon l) -> expects (M := M) ds tr i conds ss ->
  exists start ref, PInit i start ∈ tr /\ log_expected l ref start (lefts (inputs_of i tr)) = (conds, ss).
Proof. intros Hl (d & start & ref & Hd & Hin & He). exists start, ref. rewrite Hl in Hd. by injection Hd as <-. Qed.

Lemma expects_plugin ds (tr : list (paction dinput)) i conds ss c :
  ds !! i = Some (plugin_daemon c) -> expects (M := M) ds tr i conds ss ->
  exists start ref, PInit i start ∈ tr /\ plugin_expected c ref start (rights (inputs_of i tr)) = (conds, ss).
Proof. intros Hl (d & start & ref & Hd & Hin & He). exists start, ref. rewrite Hl in Hd. by injection Hd as <-. Qed.

(** The constructors make monitors as the pipeline expects them. *)
Lemma log_daemon_fresh l : created l -> mon_fresh (log_daemon l).
Proof. intros H. by exists l. Qed.

Lemma plugin_daemon_fresh c timeout interval : runnable (cConfig c) timeout interval -> mon_fresh (plugin_daemon c).
Proof. intros H. by exists c, timeout, interval. Qed.
End Process.

(** ** A sample: two log monitors and a plugin monitor, with the fake client *)
#[local] Existing Instance AsciiUnicode.

(* @ pkg/exporters/k8sexporter/problemclient/fake_problem_client.go:93-95 Eventf *)
#[export, refine] Instance FakeProblemClient_EventClient : EventClient FakeProblemClient :=
  {| send_event := fun f _ _ => f |}.
Proof. done. Defined.

Definition new_monitor (conds : list Condition) (rules : list Rule) : logMonitor :=
  mkLogMonitor
    (ApplyDefaultConfiguration
       (mkMonitorConfig (mkWatcherConfig "kmsg" ∅ [] "" "" "") 0 "kernel-monitor" conds rules None))
    ((fun _ => mkPattern oom_anchored true) <$> rules)
    (match NewLogBuffer 10 with Ret b => b | Panic _ => oom_buffer end) 0.

Lemma new_monitor_created conds rules : created (new_monitor conds rules).
Proof.
  split_and!; [|apply length_fmap|by eexists]. apply NewLogBuffer_Ret; [reflexivity|done|done].
Qed.

Definition readonly_condition : Condition :=
  mkCondition "ReadonlyFilesystem" CFalse 0 "FilesystemIsNotReadOnly" "Filesystem is not read-only".
Definition three_monitors : list daemon :=
  [log_daemon (new_monitor [kernel_condition] [docker_hung; oom_rule]); log_daemon (new_monitor [readonly_condition] []);
   plugin_daemon (mkMonitor ntp_applied 0)].

Lemma three_monitors_fresh : Forall (mon_fresh (M := FakeInt64Metric)) three_monitors.
Proof.
  constructor; [|constructor; [|constructor; [|constructor]]]; try apply log_daemon_fresh, new_monitor_created.
  destruct (ApplyConfiguration_runnable ntp_config ntp_applied eq_refl) as (t & i & HR). by eapply plugin_daemon_fresh.
Qed.

Lemma three_monitors_distinct : NoDup (mjoin (all_types (M := FakeInt64Metric) three_monitors)).
Proof. apply (bool_decide_unpack _). vm_compute. exact Logic.I. Qed.

(** All monitors start; a log matches both rules of the first while the exporter
    works on the second; the plugin reports a problem. *)
Definition export_one (i : nat) (events : nat) : list (paction dinput) :=
  [PTake i; PReceive i] ++ replicate (events + 1) PEvent ++ [PCond; PCond].
Definition oom_run : list (paction dinput) :=
  [PInit 0 1; PInit 1 2; PSend 0; PRule 0; PSend 1; PRule 1; PLog 0 (mkLog 5 "oom"); PTake 1; PReceive 1; PRule 0; PEvent;
   PCond; PSend 0; PRule 0; PCond] ++ export_one 0 0 ++ [PSend 0; PRule 0] ++ export_one 0 1 ++ export_one 0 1.
Definition ntp_down : Result := mkResult ntp_rule NonOK "down".
Definition ntp_run : list (paction dinput) :=
  oom_run ++ [PInit 2 3; PSend 2; PResult 2 ntp_down 9] ++ export_one 2 0 ++ [PSend 2] ++ export_one 2 1.
Definition sample_types : list string := ["KernelDeadlock"; "NTPProblem"; "ReadonlyFilesystem"].
Definition sync_run : list (paction dinput) :=
  ntp_run ++ [PManager (ATick sample_types); PManager (ADecide year2024 year2024)].

Abbreviation sample_pipeline := (pipeline FakeInt64Metric daemon FakeProblemClient).
Definition sample_world : world FakeInt64Metric := mkWorld ∅ NewProblemMetricsManagerStub.
Definition sample_start : sample_pipeline := start_pipeline hb5 three_monitors sample_world NewFakeProblemClient.
Definition after (tr : list (paction dinput)) : sample_pipeline :=
  default sample_start (run_from (pexec true true) sample_start tr).

Lemma after_runs tr :
  is_Some (run_from (pexec true true) sample_start tr) -> runs (pexec true true) sample_start tr (after tr).
Proof. intros [p Hp]. apply run_from_runs. unfold after. by rewrite Hp. Qed.

Lemma after_split n tr :
  is_Some (run_from (pexec true true) sample_start tr) ->
  runs (pexec true true) (after (take n tr)) (drop n tr) (after tr).
Proof.
  intros [p Hp]. apply run_from_runs. unfold after. rewrite Hp. rewrite <- (take_drop n tr), run_from_app in Hp.
  by destruct (run_from _ _ (take n tr)).
Qed.

Ltac run_after := apply after_runs; vm_compute; eexists; reflexivity.

Lemma inputs_of_length i (tr : list (paction dinput)) : length (inputs_of (M := FakeInt64Metric) i tr) <= length tr.
Proof.
  unfold inputs_of. induction tr as [|a tr IH]; [done|]. cbn [omap list_omap length].
  match goal with |- context [match ?x with Some _ => _ | None => _ end] => destruct x end; cbn [length]; lia.
Qed.

(** A sample can count any input that a run can hold. *)
Lemma three_count i d n : three_monitors !! i = Some d -> n <= 1000 -> mon_bound (M := FakeInt64Metric) d n.
Proof.
  intros Hd Hn. destruct i as [|[|[|i]]]; cbn in Hd; simplify_eq; cbn; [..|done];
    unfold log_bound; change (mcBufferSize _) with 10%Z; unfold int64_max; lia.
Qed.

Lemma three_bound tr : length tr <= 1000 -> tr_bound (M := FakeInt64Metric) three_monitors tr.
Proof. intros H i d Hd. eapply three_count; [done|]. pose proof (inputs_of_length i tr). lia. Qed.

(** The only start of monitor [i] is at time [t]. *)
Lemma starts_at_spec (tr : list (paction dinput)) i t start :
  forallb (fun a => match a with PInit j t' => negb (j =? i) || Z.eqb t' t | _ => true end) tr = true ->
  PInit i start ∈ tr -> start = t.
Proof.
  intros H Hin. rewrite forallb_forall in H. apply list_elem_of_In in Hin. specialize (H _ Hin). cbn in H.
  rewrite Nat.eqb_refl in H. by apply Z.eqb_eq in H.
Qed.

Definition ntp_problem : Condition := mkCondition "NTPProblem" CTrue 9 "NTPIsDown" "down".

Lemma pipeline_delivers_witness :
  default (read_map (conditions (mgr (pSys (after ntp_run)))) "NTPProblem")
    (updates (mgr (pSys (after ntp_run))) !! "NTPProblem") = ntp_problem /\
  length (events_of 2 (pEvents (after ntp_run))) = 1.
Proof.
  destruct (pipeline_delivers true true hb5 eq_refl eq_refl three_monitors sample_world
    NewFakeProblemClient three_monitors_fresh three_monitors_distinct ntp_run (after ntp_run) 2)
    as (conds & ss & Hex & Hc & Hev).
  - run_after.
  - apply three_bound. vm_compute. lia.
  - vm_compute. reflexivity.
  - destruct (expects_plugin three_monitors ntp_run 2 conds ss _ eq_refl Hex) as (start & ref & Hin & He).
    assert (start = 3%Z) as ->. { eapply starts_at_spec; [|exact Hin]. reflexivity. }
    vm_compute in He. injection He as <- <-. split; [|by rewrite Hev]. apply (Hc ltac:(done) ntp_problem). by left.
Defined.

Lemma pipeline_publishes_witness :
  exists p', pexec true true (after sync_run) (PManager (ASync year2024 sample_types)) = Some p' /\
    (resyncNeeded (mgr (pSys p')) = false ->
     option_nc_equiv (published (cli (pSys p')) "KernelDeadlock")
       (Some (api_condition (mkCondition "KernelDeadlock" CTrue 5 "DockerHung" "oom")))).
Proof.
  destruct (pipeline_publishes true true hb5 eq_refl eq_refl three_monitors sample_world
    NewFakeProblemClient three_monitors_fresh three_monitors_distinct sync_run (after sync_run) 0 year2024 sample_types)
    as (p' & conds & ss & Hp & Hex & Hc).
  - run_after.
  - apply three_bound. vm_compute. lia.
  - vm_compute. reflexivity.
  - vm_compute. reflexivity.
  - vm_compute. reflexivity.
  - apply (bool_decide_unpack _). vm_compute. exact Logic.I.
  - done.
  - exists p'. split; [done|].
    destruct (expects_log three_monitors sync_run 0 conds ss _ eq_refl Hex) as (start & ref & Hin & He).
    assert (start = 1%Z) as ->. { eapply starts_at_spec; [|exact Hin]. reflexivity. }
    vm_compute in He. injection He as <- <-. intros Hr.
    apply (Hc ltac:(done) Hr (mkCondition "KernelDeadlock" CTrue 5 "DockerHung" "oom")). by left.
Defined.

(** The first status of the first monitor is exported after the log changed the
    shared slice: with it, the new condition arrives, before the event of the
    change. *)
Example early_status_carries_later_condition :
  let p := after (take 22 oom_run) in
  updates (mgr (pSys p)) !! "KernelDeadlock" = Some (mkCondition "KernelDeadlock" CTrue 5 "DockerHung" "oom") /\
  events_of 0 (pEvents p) = [].
Proof. vm_compute. done. Qed.
