(* ===== verification/PipelineDrain.v ===== *)
(** The pipeline of [Pipeline] empties: without new inputs it makes a bounded
    number of steps, and as long as something is on the way one of them can be
    made.  The bound counts, for every status on its way, the channel hops, the
    events and the conditions left. *)

From S2P Require Import Prelude GoStrings GoTime Regexp Types Options ProblemClient ConditionManager Metrics ProblemMetrics LogMonitor MonitorInterface LogMonitorLoop CustomMonitorLoop K8sExporter ProblemDetector Transitions Pipeline Process.

Section Drain.
Context {M D X I : Type} {MO : MonitorOps M D X I} {MM : Monitor M D X I}.
Context {C : Type} {CL : Client C} {EC : EventClient C}.
Variables (writeEv updateCond : bool) (hb : Duration).
Hypothesis write_on : writeEv = true.
Hypothesis update_on : updateCond = true.
Variables (ds : list D) (w0 : world M) (cl0 : C).
Hypothesis ds_fresh : Forall mon_fresh ds.
Hypothesis types_distinct : NoDup (mjoin (all_types ds)).
Local Abbreviation pexec := (pexec writeEv updateCond).
Local Abbreviation start := (start_pipeline hb ds w0 cl0).
Local Abbreviation pinv := (pinv hb (all_types ds)).

(** The conditions of all monitors. *)
Definition nconds : nat := length (mjoin (all_types ds)).

(** What is left to do for a status: its receipt, its events, its conditions. *)
Definition status_work (s : Status) : nat := length (sEvents s) + nconds + 3.
Definition lane_work (l : lane) : nat :=
  sum_list_with status_work (option_list (held l)) + sum_list_with (fun s => S (status_work s)) (queue l).
Definition exp_work (x : export_pc) : nat :=
  match x with
  | XIdle => 0
  | XEvents _ _ todo => length todo + nconds + 2
  | XConds _ _ k => 1 + (nconds - k)
  end.
(** A monitor: its turns, each with at most one status of at most one event. *)
Definition mon_work (m : D) : nat :=
  mon_left m * (nconds + 7) + sum_list_with (fun s => status_work s + 2) (in_hand m).
Definition work (p : pipeline M D C) : nat :=
  sum_list_with mon_work (pMons p) + sum_list_with lane_work (pLanes p) + exp_work (pExp p).

(** The steps that the pipeline makes by itself. *)
Definition is_in (a : paction X) : bool := match a with PMon _ op => is_input op | _ => false end.
Definition internal (a : paction X) : bool :=
  match a with PMon _ op => negb (is_input op) | PManager _ => false | _ => true end.

Lemma mon_work_exec w m op m' w' :
  mon_inv w m -> mon_exec m w op = Some (m', w') -> is_input op = false ->
  mon_bound m (length (mon_inputs m ++ op_inputs op)) -> mon_work m' < mon_work m.
Proof.
  intros HI H Hop Hb. destruct (exec_law _ _ _ _ _ HI H Hb) as (o & _ & Hh & _ & Hev & Hw). destruct (Hw Hop) as [Hl _].
  unfold mon_work. rewrite (exec_hand _ _ _ _ _ H), Hh.
  assert (S (mon_left m') * (nconds + 7) <= mon_left m * (nconds + 7)) by (apply Nat.mul_le_mono_r; lia).
  assert (sum_list_with (fun s => status_work s + 2) (option_list o) <= nconds + 6).
  { destruct o as [s|]; cbn; [|lia]. apply Forall_inv in Hev. unfold status_work. lia. }
  cbn [sum_list_with]. lia.
Qed.

Lemma mon_work_send w m s m' :
  mon_inv w m -> mon_send m = Some (s, m') -> mon_work m' + status_work s + 2 <= mon_work m.
Proof.
  intros HI H. destruct (send_law _ _ _ _ HI H) as (_ & _ & Hh & _ & Hl & _).
  unfold mon_work. rewrite Hh. unfold in_hand. rewrite (send_guard _ _ _ H). cbn.
  assert (mon_left m' * (nconds + 7) <= mon_left m * (nconds + 7)) by (by apply Nat.mul_le_mono_r). lia.
Qed.

Lemma conds_le (p : pipeline M D C) i m conds :
  pinv p -> pMons p !! i = Some m -> mon_state m <> SInit -> wStore (pWorld p) !! mon_ref m = Some conds ->
  length conds <= nconds.
Proof.
  intros Hv Hi Hp Hc. destruct (pv_mons _ _ _ Hv) as [H1 _ H3].
  destruct (conds_law _ _ (H1 i m Hi) Hp) as (conds' & Hc' & _ & Ht & _). simplify_eq.
  unfold nconds. rewrite <- H3, <- (length_fmap cType), Ht.
  clear -Hi. revert i Hi. generalize (pMons p) as ms. induction ms as [|m' ms IH]; intros [|i] Hi; try done; simpl in *.
  - simplify_eq. rewrite length_app. lia.
  - rewrite length_app. specialize (IH i Hi). unfold fmap in IH. lia.
Qed.

Lemma lane_work_snoc l s : lane_work (mkLane (queue l ++ [s]) (held l)) = lane_work l + S (status_work s).
Proof. unfold lane_work. cbn [queue held]. rewrite sum_list_with_app. simpl. lia. Qed.

Lemma lane_work_held q s : lane_work (mkLane q (Some s)) = lane_work (mkLane q None) + status_work s.
Proof. unfold lane_work. simpl. lia. Qed.

Lemma lane_work_queue q s : lane_work (mkLane (s :: q) None) = lane_work (mkLane q None) + S (status_work s).
Proof. unfold lane_work. simpl. lia. Qed.

Lemma work_step (p : pipeline M D C) a p' :
  pinv p -> pexec p a = Some p' -> is_in a = false ->
  (forall i op m, a = PMon i op -> pMons p !! i = Some m -> mon_bound m (length (mon_inputs m ++ op_inputs op))) ->
  if internal a then work p' < work p else work p' = work p.
Proof.
  intros Hv He Hin Hb. pose proof (mv_inv _ _ _ (pv_mons _ _ _ Hv)) as HI.
  destruct (pexec_mons _ _ _ _ _ He) as [_ Ha|i op m m' w' -> Hi Em ->|i m l s m' -> Hi Hl Es _ ->].
  2: { cbn in *. rewrite Hin. pose proof (mon_work_exec _ _ _ _ _ (HI i m Hi) Em Hin (Hb i op m eq_refl Hi)).
       unfold work. cbn. pose proof (sum_list_insert mon_work _ _ _ m' Hi). lia. }
  2: { cbn [internal]. unfold work. cbn. pose proof (sum_list_insert mon_work _ _ _ m' Hi).
       pose proof (sum_list_insert lane_work _ _ _ (mkLane (queue l ++ [s]) (held l)) Hl) as H2.
       rewrite lane_work_snoc in H2. pose proof (mon_work_send _ _ _ _ (HI i m Hi) Es). lia. }
  destruct a as [i op|i|i|i| | |a]; [done|done|..]; cbn [Pipeline.pexec] in He; cbn [internal].
  - destruct (pLanes p !! i) as [[[|s q] [|]]|] eqn:El; try done. injection He as <-. unfold work. cbn.
    pose proof (sum_list_insert lane_work _ _ _ (mkLane q (Some s)) El) as H2.
    rewrite lane_work_held, lane_work_queue in H2. lia.
  - cbn [export_turn] in He. destruct (pExp p) eqn:Ex; try done.
    destruct (pLanes p !! i) as [[q [s|]]|] eqn:El; try done. injection He as <-. rewrite write_on. unfold work. cbn. rewrite Ex.
    pose proof (sum_list_insert lane_work _ _ _ (mkLane q None) El) as H2.
    rewrite lane_work_held in H2. unfold status_work in H2. cbn [exp_work]. lia.
  - cbn [export_turn] in He. destruct (pExp p) as [|j s [|e todo]|] eqn:Ex; try done; injection He as <-;
      unfold work; cbn; rewrite Ex; rewrite ?update_on; cbn; lia.
  - cbn [export_turn] in He. destruct (pExp p) as [| |j s k] eqn:Ex; try done.
    destruct (_ !! k) as [c|] eqn:Ek; injection He as <-; unfold work; cbn; rewrite Ex; cbn; [|lia].
    destruct (exporting_conds hb (all_types ds) p j s Hv) as (m & l & conds & Hi & _ & Hp & Hc & Hrd & _); [by rewrite Ex|].
    pose proof (conds_le p j m conds Hv Hi Hp Hc). rewrite Hrd in Ek. apply lookup_lt_Some in Ek. lia.
  - destruct a; try done; (destruct (exec _ _) as [s'|] eqn:Es; [|done]); by injection He as <-.
Qed.

(** Along a run without inputs, every internal step is paid for. *)
Lemma work_run (p : pipeline M D C) tr p' :
  (forall p1 tr1 a, runs pexec p tr1 p1 -> Forall (fun a => is_in a = false) (tr1 ++ [a]) -> pinv p1 /\
     forall i op m, a = PMon i op -> pMons p1 !! i = Some m -> mon_bound m (length (mon_inputs m ++ op_inputs op))) ->
  runs pexec p tr p' -> Forall (fun a => is_in a = false) tr ->
  length (filter (fun a => internal a = true) tr) + work p' <= work p.
Proof.
  intros Hinv. induction 1 as [|tr p1 a p2 H IH Ha]; intros HF; [cbn; lia|].
  pose proof HF as [HF1 HFa]%Forall_app. specialize (IH HF1). rewrite filter_app, length_app.
  destruct (Hinv _ _ _ H HF) as [Hv Hb].
  pose proof (work_step p1 a p2 Hv Ha (Forall_inv HFa) Hb) as Hw.
  destruct (decide (internal a = true)) as [E|E].
  - rewrite filter_cons_True, filter_nil by done. rewrite E in Hw. cbn. lia.
  - rewrite filter_cons_False, filter_nil by done. destruct (internal a); [done|]. cbn. lia.
Qed.

(** As long as something of a monitor is on the way, the pipeline can go on. *)
Lemma pipeline_progress (p : pipeline M D C) i m :
  pinv p -> pMons p !! i = Some m -> quiet p i = false ->
  exists a p', internal a = true /\ pexec p a = Some p'.
Proof.
  intros Hv Hi Hq. destruct (lane_of _ _ _ _ _ Hv Hi) as [l Hl].
  pose proof (mv_inv _ _ _ (pv_mons _ _ _ Hv) i m Hi) as HI.
  destruct (pExp p) as [|j s [|e todo]|j s k] eqn:Ex.
  2,3: exists PEvent; cbn; rewrite Ex; by eexists.
  2: exists PCond; cbn; rewrite Ex; destruct (_ !! k); by eexists.
  destruct l as [q [s|]].
  { exists (PReceive i). cbn. rewrite Ex, Hl. by eexists. }
  destruct q as [|s q].
  2: { exists (PTake i). cbn. rewrite Hl. by eexists. }
  unfold quiet in Hq. rewrite Hi, Hl, Ex in Hq. cbn in Hq.
  destruct (mon_state m) as [| | |s] eqn:Ep; try done.
  - destruct (start_enabled (pWorld p) m Time_zero Ep) as [[m' w'] E]. exists (PMon i (OStart Time_zero)).
    cbn. rewrite Hi. cbn. rewrite E. by eexists.
  - destruct (turn_enabled (pWorld p) m HI Ep) as [[m' w'] E]. exists (PMon i OTurn).
    cbn. rewrite Hi. cbn. rewrite E. by eexists.
  - destruct (send_enabled m s Ep) as [m' E]. exists (PSend i). cbn. rewrite Hi, Hl. cbn. rewrite E. cbn. by eexists.
Qed.

(** Without inputs the bound of a run stays. *)
Lemma inputs_of_none i (tr : list (paction X)) : Forall (fun a => is_in a = false) tr -> inputs_of i tr = [].
Proof. induction 1 as [|a tr Ha HF IH]; [done|]. unfold inputs_of in *. cbn. by destruct a as [j []| | | | | |]. Qed.

Lemma tr_bound_no_inputs tr tr' :
  Forall (fun a => is_in a = false) tr' -> tr_bound ds tr -> tr_bound ds (tr ++ tr').
Proof.
  intros HF Hb i d Hd. specialize (Hb i d Hd). unfold inputs_of in *. rewrite omap_app.
  pose proof (inputs_of_none i tr' HF) as E. unfold inputs_of in E. by rewrite E, app_nil_r.
Qed.

(** C10.  The pipeline empties.  From any state that the process can reach, as
    long as no further log or result arrives: however monitors, forwarders,
    exporter and sync goroutine interleave, the steps between the monitors and the
    condition manager are at most [work] of that state; and in every state reached
    where something of a monitor is still on the way, one of these steps can be
    taken.  So no full channel or busy exporter blocks the others for ever. *)
Theorem pipeline_drains tr (p : pipeline M D C) tr' p' :
  runs pexec start tr p -> tr_bound ds tr ->
  runs pexec p tr' p' -> Forall (fun a => is_in a = false) tr' ->
  length (filter (fun a => internal a = true) tr') <= work p /\
  ((exists a p'', internal a = true /\ pexec p' a = Some p'') \/
   forall i m, pMons p' !! i = Some m -> quiet p' i = true).
Proof.
  intros Hr Hb Hr' HF.
  assert (Hinv : forall p1 tr1, runs pexec p tr1 p1 -> Forall (fun a => is_in a = false) tr1 -> hist_ok ds (tr ++ tr1) p1 /\ pinv p1).
  { intros p1 tr1 H1 HF1. eapply (pipeline_inv writeEv updateCond hb write_on update_on ds w0 cl0 ds_fresh types_distinct).
    - by eapply runs_app.
    - by apply tr_bound_no_inputs. }
  split.
  - assert (Hw : length (filter (fun a => internal a = true) tr') + work p' <= work p); [|lia].
    apply work_run; [|done|done]. intros p1 tr1 a H1 HFa. pose proof HFa as [HF1 _]%Forall_app.
    destruct (Hinv p1 tr1 H1 HF1) as [Hh Hv]. split; [done|]. intros i op m -> Hi. eapply step_bound; [exact Hh| |done].
    rewrite <- app_assoc. by apply tr_bound_no_inputs.
  - destruct (Hinv _ _ Hr' HF) as [_ Hv].
    destruct (decide (Forall (fun i => quiet p' i = true) (seq 0 (length (pMons p'))))) as [Ha|Hn].
    + right. intros i m Hi. rewrite Forall_forall in Ha. apply Ha, elem_of_seq. apply lookup_lt_Some in Hi. lia.
    + left. apply not_Forall_Exists in Hn; [|apply _]. apply Exists_exists in Hn as (i & Hin & Hq).
      apply elem_of_seq in Hin. destruct (lookup_lt_is_Some_2 (pMons p') i ltac:(lia)) as [m Hm].
      eapply (pipeline_progress p' i m); [done|done|]. cbn in Hq. by destruct (quiet p' i).
Qed.
End Drain.

(** ** Witness *)
#[local] Existing Instance AsciiUnicode.

Lemma pipeline_drains_witness :
  length (filter (fun a => internal a = true) (drop 7 oom_run)) <= work three_monitors (after (take 7 oom_run)) /\
  ((exists a p'', internal a = true /\ Pipeline.pexec true true (after oom_run) a = Some p'') \/
   forall i m, pMons (after oom_run) !! i = Some m -> quiet (after oom_run) i = true).
Proof.
  apply (pipeline_drains true true hb5 eq_refl eq_refl three_monitors sample_world
    NewFakeProblemClient three_monitors_fresh three_monitors_distinct (take 7 oom_run)).
  - run_after.
  - apply three_bound. vm_compute. lia.
  - apply after_split. vm_compute. eexists. reflexivity.
  - apply (bool_decide_unpack _). vm_compute. exact Logic.I.
Defined.
