(* ===== verification/FilelogWatcher.v ===== *)
(** The file log watcher ([pkg/systemlogmonitor/logwatchers/filelog]): the
    translator of log lines, and the watch loop with the log monitor that
    receives from it, as a transition system.

    The regular expressions and [time.ParseInLocation] are parameters (the zone
    is that of the machine), as is the file: each read answers what
    [bufio.Reader.ReadString] may answer. *)

From S2P Require Import Prelude GoStrings GoTime GoConv Types LogMonitor StartTime ProblemDetector Transitions.

(** ** The translator *)

(** A compiled expression is its [FindStringSubmatch]: the match and its
    submatches, or nothing. *)
(* @ pkg/systemlogmonitor/logwatchers/filelog/translator.go:29-33 translator *)
Record translator : Type := mkTranslator {
  timestampRegexp : string -> list string;
  messageRegexp : string -> list string;
  timestampFormat : string
}.

(* @ pkg/systemlogmonitor/logwatchers/filelog/translator.go:40-40 timestampKey *)
Definition timestampKey : string := "timestamp".
(* @ pkg/systemlogmonitor/logwatchers/filelog/translator.go:42-42 messageKey *)
Definition messageKey : string := "message".
(* @ pkg/systemlogmonitor/logwatchers/filelog/translator.go:44-44 timestampFormatKey *)
Definition timestampFormatKey : string := "timestampFormat".

(** A missing key of a map of strings reads as the empty string. *)
Definition cfg_get (cfg : gmap string string) (k : string) : string := default "" (cfg !! k).

(* @ pkg/systemlogmonitor/logwatchers/filelog/translator.go:84-95 validatePluginConfig *)
Definition validatePluginConfig (cfg : gmap string string) : result unit :=
  if String.eqb (cfg_get cfg timestampKey) "" then Err "unexpected empty timestamp regular expression"
  else if String.eqb (cfg_get cfg messageKey) "" then Err "unexpected empty message regular expression"
  else if String.eqb (cfg_get cfg timestampFormatKey) "" then Err "unexpected empty timestamp format string"
  else Ok tt.

Section Filelog.
Variable regexp_MustCompile : string -> outcome (string -> list string).
Variable time_ParseInLocation : string -> string -> result Time.
Variable Time_Year : Time -> Z.
Variable Time_AddYears : Time -> Z -> Time.

(** An invalid configuration is only logged; an expression that does not
    compile is fatal. *)
(* @ pkg/systemlogmonitor/logwatchers/filelog/translator.go:47-56 newTranslatorOrDie *)
Definition newTranslatorOrDie (pluginConfig : gmap string string) : outcome translator :=
  t ← regexp_MustCompile (cfg_get pluginConfig timestampKey);
  m ← regexp_MustCompile (cfg_get pluginConfig messageKey);
  Ret (mkTranslator t m (cfg_get pluginConfig timestampFormatKey)).

(* @ pkg/systemlogmonitor/logwatchers/filelog/translator.go:97-104 formalizeTimestamp *)
Definition formalizeTimestamp (now t : Time) : Time :=
  if (Time_Year t =? 0)%Z then Time_AddYears t (Time_Year now) else t.

(** The last submatch is used; [matches[len(matches)-1]]. *)
(* @ pkg/systemlogmonitor/logwatchers/filelog/translator.go:58-82 translate *)
Definition translate (t : translator) (now : Time) (line : string) : result Log :=
  match last (timestampRegexp t line) with
  | None => Err "no timestamp found in line"
  | Some ts =>
    match time_ParseInLocation (timestampFormat t) ts with
    | Err _ => Err "failed to parse timestamp"
    | Ok timestamp =>
      let timestamp := formalizeTimestamp now timestamp in
      match last (messageRegexp t line) with
      | None => Err "no message found in line"
      | Some message => Ok (mkLog timestamp message)
      end
    end
  end.

(** ** The watcher *)

(** The control points of the watch loop: its select, the read, the send on the
    log channel, and the two ends. *)
Inductive fpc : Type := FSelect | FRead | FSend (log : Log) | FExited | FCrashed.

(* @ pkg/systemlogmonitor/logwatchers/filelog/log_watcher.go:34-42 filelogWatcher *)
Record filelogWatcher : Type := mkFW {
  fCfg : WatcherConfig;
  fReaderOpen : bool;
  fTranslator : translator;
  fLogCh : list Log;
  fChClosed : bool;
  fStartTime : Time;
  fTomb : Tomb;
  fBuffer : string;
  fPc : fpc
}.

Definition logChCapacity : nat := 1000.

(* @ pkg/systemlogmonitor/logwatchers/filelog/log_watcher.go:44-64 NewSyslogWatcherOrDie *)
Definition NewSyslogWatcherOrDie (sysinfo : result Z) (now : Time) (cfg : WatcherConfig)
    : outcome filelogWatcher :=
  match GetUptimeDuration sysinfo with
  | Err _ => Panic "failed to get uptime"
  | Ok uptime =>
    match GetStartTime now uptime (wcLookback cfg) (wcDelay cfg) with
    | Err _ => Panic "failed to get start time"
    | Ok startTime =>
      t ← newTranslatorOrDie (wcPluginConfig cfg);
      Ret (mkFW cfg false t [] false startTime NewTomb "" FSelect)
    end
  end.

(** The reader of a path, on Linux: an error, or an open reader. *)
(* @ pkg/systemlogmonitor/logwatchers/filelog/log_watcher_linux.go:29-48 getLogReader *)
Definition getLogReader (stat newTail : string -> result unit) (path : string) : result unit :=
  if String.eqb path "" then Err "unexpected empty log path"
  else
    match stat path with
    | Err _ => Err "failed to stat the file"
    | Ok _ =>
      match newTail path with
      | Err _ => Err "failed to tail the file"
      | Ok _ => Ok tt
      end
    end.

(** [Watch] opens the reader; the loop then runs from its select. *)
(* @ pkg/systemlogmonitor/logwatchers/filelog/log_watcher.go:69-80 Watch *)
Definition filelog_Watch (stat newTail : string -> result unit) (s : filelogWatcher)
    : result filelogWatcher :=
  match getLogReader stat newTail (wcLogPath (fCfg s)) with
  | Err e => Err e
  | Ok _ => Ok (mkFW (fCfg s) true (fTranslator s) (fLogCh s) (fChClosed s) (fStartTime s)
                  (fTomb s) "" FSelect)
  end.

(* @ pkg/systemlogmonitor/logwatchers/filelog/log_watcher.go:138-145 filterSkipList *)
Definition filterSkipList (cfg : WatcherConfig) (line : string) : bool :=
  existsb (fun skipItem => strings_Contains line skipItem) (wcSkipList cfg).

(** What one complete line, with its newline, turns into. *)
Definition process (cfg : WatcherConfig) (t : translator) (startTime now : Time) (line : string)
    : option Log :=
  if filterSkipList cfg line then None
  else
    match translate t now (strings_TrimSuffix line newline) with
    | Err _ => None
    | Ok log => if Time_Before (lTimestamp log) startTime then None else Some log
    end.

(** What [ReadString] returned besides the text. *)
Inductive read_err : Type := NoErr | EOF | ReadErr.

(** The watcher with the log monitor that receives; [frReceived], [frText] and
    [frLines] record what was received, the text read so far, and the complete
    lines with the time each was translated at. *)
Record fsys : Type := mkFSys {
  fw : filelogWatcher;
  frReceived : list Log;
  frText : string;
  frLines : list (string * Time)
}.

Definition with_pc (w : filelogWatcher) (pc : fpc) : filelogWatcher :=
  mkFW (fCfg w) (fReaderOpen w) (fTranslator w) (fLogCh w) (fChClosed w) (fStartTime w)
    (fTomb w) (fBuffer w) pc.

Definition with_buffer (w : filelogWatcher) (b : string) (pc : fpc) : filelogWatcher :=
  mkFW (fCfg w) (fReaderOpen w) (fTranslator w) (fLogCh w) (fChClosed w) (fStartTime w)
    (fTomb w) b pc.

Definition with_ch (w : filelogWatcher) (ch : list Log) (pc : fpc) : filelogWatcher :=
  mkFW (fCfg w) (fReaderOpen w) (fTranslator w) ch (fChClosed w) (fStartTime w)
    (fTomb w) (fBuffer w) pc.

Definition with_tomb (w : filelogWatcher) (t : Tomb) : filelogWatcher :=
  mkFW (fCfg w) (fReaderOpen w) (fTranslator w) (fLogCh w) (fChClosed w) (fStartTime w)
    t (fBuffer w) (fPc w).

(** The deferred function: close the reader, close the channel, [Done]. *)
Definition leave (w : filelogWatcher) : filelogWatcher :=
  if fChClosed w then with_pc w FCrashed
  else
    match Tomb_Done (fTomb w) with
    | Ret t => mkFW (fCfg w) false (fTranslator w) (fLogCh w) true (fStartTime w) t (fBuffer w) FExited
    | Panic _ => with_pc w FCrashed
    end.

(** One turn of the loop after the select: what a read leads to. *)
Definition afterRead (w : filelogWatcher) (now : Time) (line : string) (err : read_err)
    : filelogWatcher :=
  match err with
  | ReadErr => leave w
  | EOF => with_buffer w (fBuffer w +:+ line) FSelect
  | NoErr =>
    match process (fCfg w) (fTranslator w) (fStartTime w) now (fBuffer w +:+ line) with
    | Some log => with_buffer w "" (FSend log)
    | None => with_buffer w "" FSelect
    end
  end.

Inductive faction : Type :=
| FaSelect                                             (* the select of the loop *)
| FaRead (line : string) (err : read_err) (now : Time) (* a read and what follows *)
| FaSend                                               (* the send on the log channel *)
| FaRecv                                               (* the log monitor receives *)
| FaStop.                                              (* the log monitor stops the watcher *)

(** A read that ends without an error ends with the first newline; one that ends
    with an error returns the text read before it. *)
Definition read_ok (line : string) (err : read_err) : bool :=
  match err with
  | NoErr => strings_HasSuffix line newline && free_of 10 (strings_TrimSuffix line newline)
  | _ => free_of 10 line
  end.

(** The log monitor receives until it stops the watcher, in one goroutine: once
    [Stop] was called nobody receives any more. *)
(* @ pkg/systemlogmonitor/logwatchers/filelog/log_watcher.go:82-136 watchLoop *)
Definition fexec (s : fsys) (a : faction) : option fsys :=
  let w := fw s in
  match a, fPc w with
  | FaSelect, FSelect =>
    Some (mkFSys (if Tomb_Stopping (fTomb w) then leave w else with_pc w FRead)
            (frReceived s) (frText s) (frLines s))
  | FaRead line err now, FRead =>
    if read_ok line err then
      let w' := afterRead w now line err in
      Some (match err with
            | ReadErr => mkFSys w' (frReceived s) (frText s) (frLines s)
            | EOF => mkFSys w' (frReceived s) (frText s +:+ line) (frLines s)
            | NoErr => mkFSys w' (frReceived s) (frText s +:+ line)
                         (frLines s ++ [(fBuffer w +:+ line, now)])
            end)
    else None
  | FaSend, FSend log =>
    if length (fLogCh w) <? logChCapacity
    then Some (mkFSys (with_ch w (fLogCh w ++ [log]) FSelect) (frReceived s) (frText s) (frLines s))
    else None
  | FaRecv, pc =>
    if Tomb_Stopping (fTomb w) then None
    else
      match fLogCh w with
      | log :: ch => Some (mkFSys (with_ch w ch pc) (frReceived s ++ [log]) (frText s) (frLines s))
      | [] => None
      end
  | FaStop, _ =>
    match Tomb_Stop_close (fTomb w) with
    | Ret t => Some (mkFSys (with_tomb w t) (frReceived s) (frText s) (frLines s))
    | Panic _ => None
    end
  | _, _ => None
  end.

(** The system after [Watch]. *)
Definition watching (w : filelogWatcher) : fsys := mkFSys w [] "" [].

(** ** What the loop delivers *)

Definition in_flight (w : filelogWatcher) : list Log :=
  fLogCh w ++ match fPc w with FSend log => [log] | _ => [] end.

(** The fields that never change. *)
Definition same_setup (w0 w : filelogWatcher) : Prop :=
  fCfg w = fCfg w0 /\ fTranslator w = fTranslator w0 /\ fStartTime w = fStartTime w0.

Definition processed (w0 : filelogWatcher) (lines : list (string * Time)) : list Log :=
  omap (fun p => process (fCfg w0) (fTranslator w0) (fStartTime w0) p.2 p.1) lines.

Record finv (w0 : filelogWatcher) (s : fsys) : Prop := mkFinv {
  finv_setup : same_setup w0 (fw s);
  finv_text : exists ls, split_byte 10 (frText s) = ls ++ [fBuffer (fw s)] /\
                (frLines s).*1 = (fun l => l +:+ newline) <$> ls;
  finv_logs : frReceived s ++ in_flight (fw s) = processed w0 (frLines s);
  finv_pc : fPc (fw s) <> FCrashed;
  finv_done : tDoneClosed (fTomb (fw s)) = true <-> fPc (fw s) = FExited;
  finv_closed : fChClosed (fw s) = true <-> fPc (fw s) = FExited;
  finv_cap : length (fLogCh (fw s)) <= logChCapacity
}.

Lemma leave_running w :
  fChClosed w = false -> tDoneClosed (fTomb w) = false ->
  leave w = mkFW (fCfg w) false (fTranslator w) (fLogCh w) true (fStartTime w)
              (mkTomb (tStopClosed (fTomb w)) true) (fBuffer w) FExited.
Proof. intros Hc Hd. unfold leave, Tomb_Done. by rewrite Hc, Hd. Qed.

(** Leaving keeps the invariant at a control point with no log in hand. *)
Lemma finv_leave w0 s r t ls pc :
  finv w0 (mkFSys s r t ls) -> fPc s = pc -> (pc = FSelect \/ pc = FRead) ->
  finv w0 (mkFSys (leave s) r t ls).
Proof.
  clear regexp_MustCompile. intros [[Hs1 [Hs2 Hs3]] Ht Hl Hp Hd Hc Hcap] Epc Hpc; simpl in *.
  assert (Hne : fPc s <> FExited) by (rewrite Epc; by destruct Hpc as [-> | ->]).
  rewrite leave_running.
  - split; simpl; try done. rewrite <- Hl. unfold in_flight. simpl. rewrite Epc.
    by destruct Hpc as [-> | ->].
  - destruct (fChClosed s); [|done]. exfalso. by apply Hne, Hc.
  - destruct (tDoneClosed (fTomb s)); [|done]. exfalso. by apply Hne, Hd.
Qed.

Lemma HasSuffix_split line :
  strings_HasSuffix line newline = true -> line = strings_TrimSuffix line newline +:+ newline.
Proof.
  intros H. unfold strings_TrimSuffix. rewrite H. unfold strings_HasSuffix in H.
  apply andb_true_iff in H as [_ H]. apply String.eqb_eq in H.
  rewrite <- (stake_sdrop (String.length line - String.length newline) line) at 1. by rewrite H.
Qed.

(** A read of a complete line keeps the invariant. *)
Lemma finv_read_line w0 s line now :
  finv w0 s -> fPc (fw s) = FRead -> read_ok line NoErr = true ->
  finv w0 (mkFSys (afterRead (fw s) now line NoErr) (frReceived s) (frText s +:+ line)
             (frLines s ++ [(fBuffer (fw s) +:+ line, now)])).
Proof.
  clear regexp_MustCompile. intros [[Hs1 [Hs2 Hs3]] (ls & Ht & Hls) Hl Hp Hd Hc Hcap] Epc Hr.
  unfold read_ok in Hr. apply andb_true_iff in Hr as [Hsuf Hfree].
  pose proof (HasSuffix_split line Hsuf) as El. set (body := strings_TrimSuffix line newline) in *.
  assert (Htext : split_byte 10 (frText s +:+ line) = (ls ++ [fBuffer (fw s) +:+ body]) ++ [""]).
  { rewrite El, append_assoc, <- app_assoc. apply split_byte_snoc_sep; [|done].
    by apply split_byte_snoc. }
  assert (Hlines : (frLines s ++ [(fBuffer (fw s) +:+ line, now)]).*1 =
                   (fun l => l +:+ newline) <$> (ls ++ [fBuffer (fw s) +:+ body])).
  { rewrite !fmap_app, Hls. simpl. by rewrite <- append_assoc, <- El. }
  assert (Hproc : processed w0 (frLines s ++ [(fBuffer (fw s) +:+ line, now)]) =
    frReceived s ++ fLogCh (fw s) ++
      option_list (process (fCfg (fw s)) (fTranslator (fw s)) (fStartTime (fw s)) now
                     (fBuffer (fw s) +:+ line))).
  { unfold processed. rewrite omap_app. fold (processed w0 (frLines s)). rewrite <- Hl.
    unfold in_flight. rewrite Epc, app_nil_r, <- app_assoc, Hs1, Hs2, Hs3. simpl. by case_match. }
  assert (Hdn : tDoneClosed (fTomb (fw s)) = true <-> False) by (rewrite Hd, Epc; done).
  assert (Hcn : fChClosed (fw s) = true <-> False) by (rewrite Hc, Epc; done).
  unfold afterRead. destruct (process _ _ _ _ _) as [log|]; simpl in Hproc;
    split; simpl; eauto; try (rewrite Hdn; naive_solver); try (rewrite Hcn; naive_solver);
    try done; by unfold in_flight; simpl.
Qed.

Lemma finv_step w0 s a s' : finv w0 s -> fexec s a = Some s' -> finv w0 s'.
Proof.
  clear regexp_MustCompile. intros Hi He. pose proof Hi as [[Hs1 [Hs2 Hs3]] (ls & Ht & Hls) Hl Hp Hd Hc Hcap].
  destruct s as [w rc tx li]; simpl in *.
  destruct a as [|line err now| | |]; simpl in He.
  - destruct (fPc w) eqn:Epc; try done. destruct (Tomb_Stopping (fTomb w)); simplify_eq.
    + by eapply finv_leave; eauto.
    + split; simpl; rewrite ?Epc in *; eauto; try done; try (rewrite Hd; done); try (rewrite Hc; done).
      rewrite <- Hl. unfold in_flight. simpl. by rewrite Epc.
  - destruct (fPc w) eqn:Epc; try done. destruct (read_ok line err) eqn:Er; [|done]. simplify_eq.
    destruct err.
    + exact (finv_read_line w0 (mkFSys w rc tx li) line now Hi Epc Er).
    + split; simpl; eauto; try done; try (rewrite Hd; done); try (rewrite Hc; done).
      * exists ls. split; [|done]. by apply split_byte_snoc.
      * rewrite <- Hl. unfold in_flight. simpl. by rewrite Epc.
    + by eapply finv_leave; eauto.
  - destruct (fPc w) eqn:Epc; try done. destruct (Nat.ltb_spec (length (fLogCh w)) logChCapacity); [|done].
    simplify_eq. split; simpl; eauto; try done; try (rewrite Hd; done); try (rewrite Hc; done).
    + rewrite <- Hl. unfold in_flight. simpl. by rewrite Epc, app_nil_r.
    + rewrite length_app. simpl. lia.
  - destruct (Tomb_Stopping (fTomb w)); [done|]. destruct (fLogCh w) as [|log ch] eqn:Ech; [done|].
    simplify_eq. split; simpl; eauto; try done.
    + rewrite <- Hl. unfold in_flight. simpl. by rewrite Ech, <- app_assoc.
    + simpl in Hcap. lia.
  - unfold Tomb_Stop_close in He. destruct (tStopClosed (fTomb w)); [done|]. simplify_eq.
    split; simpl; eauto; done.
Qed.

(** The watcher that [Watch] starts satisfies the invariant. *)
Lemma finv_watching sysinfo now cfg stat newTail w0 w :
  NewSyslogWatcherOrDie sysinfo now cfg = Ret w0 -> filelog_Watch stat newTail w0 = Ok w ->
  finv w (watching w) /\ fCfg w = cfg /\
  exists uptime, GetUptimeDuration sysinfo = Ok uptime /\
    GetStartTime now uptime (wcLookback cfg) (wcDelay cfg) = Ok (fStartTime w).
Proof.
  unfold NewSyslogWatcherOrDie. destruct (GetUptimeDuration sysinfo) as [uptime|]; [|done].
  destruct (GetStartTime _ _ _ _) as [t|] eqn:Et; [|done].
  destruct (newTranslatorOrDie _) as [tr|]; [|done]. intros [= <-].
  unfold filelog_Watch. destruct (getLogReader _ _ _); [|done]. intros [= <-]. simpl.
  split; [|eauto]. split; simpl; try done; [by exists [] | lia].
Qed.

(** Which lines become logs. *)
Lemma process_spec cfg t start now line log :
  process cfg t start now line = Some log <->
  (forall k, k ∈ wcSkipList cfg -> ~ exists a b, line = a +:+ (k +:+ b)) /\
  translate t now (strings_TrimSuffix line newline) = Ok log /\ (start <= lTimestamp log)%Z.
Proof.
  unfold process, filterSkipList. destruct (existsb _ _) eqn:E.
  - split; [done|]. intros [Hk _]. apply existsb_exists in E as (k & Hin & Hc).
    exfalso. apply (Hk k); [by apply list_elem_of_In | by apply strings_Contains_spec].
  - assert (Hk : forall k, k ∈ wcSkipList cfg -> ~ exists a b, line = a +:+ (k +:+ b)).
    { intros k Hin Hex. apply strings_Contains_spec in Hex. apply list_elem_of_In in Hin.
      apply Bool.not_true_iff_false in E. apply E, existsb_exists. eauto. }
    destruct (translate t now _) as [l|e]; [|split; [done | by intros (_ & ? & _)]].
    unfold Time_Before. destruct (Z.ltb_spec (lTimestamp l) start) as [Hlt|Hge].
    + split; [done|]. intros (_ & [= <-] & H). lia.
    + split; [intros [= <-]; eauto | by intros (_ & [= <-] & _)].
Qed.

(** No line of the file is lost, split or reordered, however the writes to the
    file and the reads interleave.  In every state the watcher can reach, the
    lines it has completed are the newline-terminated lines of the text read so
    far and its buffer is the rest; what the log monitor received, what is in
    the channel and the log in hand are, in order, the logs of those lines: the
    lines that no skip item occurs in, that translate, and that are not older
    than the start time.  The loop never panics, and the channel holds at most
    1000 logs. *)
Theorem filelog_delivers_lines sysinfo now cfg stat newTail w0 w tr s :
  NewSyslogWatcherOrDie sysinfo now cfg = Ret w0 -> filelog_Watch stat newTail w0 = Ok w ->
  runs fexec (watching w) tr s ->
  fPc (fw s) <> FCrashed /\ length (fLogCh (fw s)) <= logChCapacity /\
  exists lines, split_byte 10 (frText s) = lines ++ [fBuffer (fw s)] /\
    (frLines s).*1 = (fun l => l +:+ newline) <$> lines /\
    frReceived s ++ in_flight (fw s) =
      omap (fun p => process cfg (fTranslator w) (fStartTime w) p.2 p.1) (frLines s) /\
    forall line now log, process cfg (fTranslator w) (fStartTime w) now line = Some log <->
      (forall k, k ∈ wcSkipList cfg -> ~ exists a b, line = a +:+ (k +:+ b)) /\
      translate (fTranslator w) now (strings_TrimSuffix line newline) = Ok log /\
      (fStartTime w <= lTimestamp log)%Z.
Proof.
  intros Hn Hw Hr. destruct (finv_watching _ _ _ _ _ _ _ Hn Hw) as (H0 & Hcfg & _).
  assert (Hi : finv w s) by (eapply runs_invariant; [apply finv_step | exact H0 | exact Hr]).
  destruct Hi as [_ (ls & Ht & Hls) Hl Hp _ _ Hcap]. unfold processed in Hl. rewrite Hcfg in Hl.
  split_and!; [done | done|]. exists ls. split_and!; [done | done | done|]. intros. apply process_spec.
Qed.

(** Stopping a watcher whose channel is full never completes: the loop waits to
    send, the log monitor that would receive waits in [Stop], and from there
    [Stop] returns in no reachable state. *)
Theorem filelog_stop_blocks sysinfo now cfg stat newTail w0 w tr s log :
  NewSyslogWatcherOrDie sysinfo now cfg = Ret w0 -> filelog_Watch stat newTail w0 = Ok w ->
  runs fexec (watching w) tr s ->
  fPc (fw s) = FSend log -> length (fLogCh (fw s)) = logChCapacity ->
  Tomb_Stopping (fTomb (fw s)) = true ->
  forall tr' s', runs fexec s tr' s' -> Tomb_Stop_returns (fTomb (fw s')) = false.
Proof.
  intros Hn Hw Hr Hpc Hlen Hstop tr' s' Hr'.
  destruct (finv_watching _ _ _ _ _ _ _ Hn Hw) as (H0 & _ & _).
  assert (Hi : finv w s) by (eapply runs_invariant; [apply finv_step | exact H0 | exact Hr]).
  assert (Hdead : forall a, fexec s a = None).
  { intros [|line err n| | |]; simpl; rewrite ?Hpc; try done.
    - by rewrite Hlen, Nat.ltb_irrefl.
    - by rewrite Hstop.
    - unfold Tomb_Stop_close. unfold Tomb_Stopping in Hstop. by rewrite Hstop. }
  rewrite (runs_dead _ _ _ _ Hdead Hr'). unfold Tomb_Stop_returns. destruct Hi as [_ _ _ _ Hd _ _].
  destruct (tDoneClosed _); [|done]. rewrite (proj1 Hd eq_refl) in Hpc. done.
Qed.
End Filelog.

(** ** Witnesses *)
Definition demo_watcher : WatcherConfig :=
  mkWatcherConfig "filelog" {[ "timestamp" := "t"; "message" := "m" ]} ["DEBUG"] "/var/log/syslog" "1h" "".

(** Expressions that match every line as a whole, and a parser for which every
    time is the eighth hour. *)
Definition demo_compile : string -> outcome (string -> list string) := fun _ => Ret (fun l => [l]).
Definition demo_parse : string -> string -> result Time := fun _ _ => Ok (8 * Hour)%Z.
Definition demo_year (t : Time) : Z := 2024.
Definition demo_add (t : Time) (y : Z) : Time := t.
Definition demo_open : string -> result unit := fun _ => Ok tt.

Definition demo_started : filelogWatcher :=
  match NewSyslogWatcherOrDie demo_compile (Ok 7200%Z) (9 * Hour)%Z demo_watcher with
  | Ret w0 => match filelog_Watch demo_open demo_open w0 with Ok w => w | Err _ => w0 end
  | Panic _ => mkFW demo_watcher false (mkTranslator (fun _ => []) (fun _ => []) "") [] false 0%Z NewTomb "" FSelect
  end.

Definition demo_exec := fexec demo_parse demo_year demo_add.

(** A line that arrives in two pieces, a line to skip, and the start of a third. *)
Definition demo_reads : list faction :=
  [FaSelect; FaRead "kernel: o" EOF 1%Z; FaSelect; FaRead ("ops" +:+ newline) NoErr 2%Z; FaSend;
   FaSelect; FaRead ("DEBUG x" +:+ newline) NoErr 3%Z; FaRecv; FaSelect; FaRead "ker" EOF 4%Z].

Lemma filelog_delivers_lines_witness :
  exists s, runs demo_exec (watching demo_started) demo_reads s /\
    frReceived s ++ in_flight (fw s) = [mkLog (8 * Hour) "kernel: oops"] /\ fPc (fw s) <> FCrashed.
Proof.
  destruct (run_from demo_exec (watching demo_started) demo_reads) as [s|] eqn:E;
    [|vm_compute in E; discriminate E].
  pose proof (run_from_runs _ _ _ _ E) as Hr.
  destruct (filelog_delivers_lines demo_compile demo_parse demo_year demo_add (Ok 7200%Z) (9 * Hour)%Z
    demo_watcher demo_open demo_open _ demo_started demo_reads s eq_refl eq_refl Hr) as (Hp & _ & ls & Ht & Hl & Hd & _).
  exists s. split; [exact Hr|]. split; [|exact Hp]. rewrite Hd. clear -E. vm_compute in E.
  injection E as <-. vm_compute. reflexivity.
Defined.

(** 1001 lines while the log monitor receives nothing, then [Stop]. *)
Definition flood : list faction :=
  concat (replicate 1000 [FaSelect; FaRead ("kernel: oops" +:+ newline) NoErr 1%Z; FaSend]) ++
  [FaSelect; FaRead ("kernel: oops" +:+ newline) NoErr 1%Z; FaStop].

Lemma filelog_stop_blocks_witness :
  exists s, runs demo_exec (watching demo_started) flood s /\
    forall tr' s', runs demo_exec s tr' s' -> Tomb_Stop_returns (fTomb (fw s')) = false.
Proof.
  assert (E : match run_from demo_exec (watching demo_started) flood with
              | Some s => match fPc (fw s) with FSend _ => true | _ => false end
                          && (length (fLogCh (fw s)) =? logChCapacity) && Tomb_Stopping (fTomb (fw s))
              | None => false end = true) by (vm_compute; reflexivity).
  destruct (run_from demo_exec (watching demo_started) flood) as [s|] eqn:Er; [|discriminate E].
  pose proof (run_from_runs _ _ _ _ Er) as Hr. exists s. split; [exact Hr|].
  destruct (fPc (fw s)) as [| |log| |] eqn:Epc; try discriminate E.
  apply andb_true_iff in E as [El Es]. apply Nat.eqb_eq in El.
  exact (filelog_stop_blocks demo_compile demo_parse demo_year demo_add (Ok 7200%Z) (9 * Hour)%Z
    demo_watcher demo_open demo_open _ demo_started flood s log eq_refl eq_refl Hr Epc El Es).
Defined.
