(* ===== verification/KmsgWatcher.v ===== *)
(** The kernel log watcher ([pkg/systemlogmonitor/logwatchers/kmsg]): the watch
    loop, the restart of the parser when its channel closes, and the log monitor
    that receives, as a transition system.

    The parser of /dev/kmsg is a library; its answers (messages, the close of its
    channel, the results of [NewParser] and [SeekEnd]) are the inputs of the
    steps.  Parsers are numbered in the order they are created. *)

From S2P Require Import Prelude GoStrings GoTime Types LogMonitor StartTime ProblemDetector Transitions.

(** The fields of the library's message that the watcher reads. *)
Record kmsgMessage : Type := mkKmsg { kmMessage : string; kmTimestamp : Time }.

(* @ pkg/systemlogmonitor/logwatchers/kmsg/log_watcher_linux.go:35-35 retryDelay *)
Definition retryDelay : Duration := (5 * Second)%Z.
Definition kmsgCapacity : nat := 100.

(** The control points: the select of the loop, the send, and in
    [retryCreateParser] the first wait, the attempt, and the wait after a failed
    attempt. *)
Inductive kpc : Type :=
| KSelect
| KSend (log : Log)
| KWait (until : Time)
| KCreate
| KDelay (until : Time)
| KExited
| KCrashed.

(* @ pkg/systemlogmonitor/logwatchers/kmsg/log_watcher_linux.go:38-49 kernelLogWatcher *)
Record kernelLogWatcher : Type := mkKW {
  kCfg : WatcherConfig;
  kStartTime : Time;
  kLogCh : list Log;
  kChClosed : bool;
  kTomb : Tomb;
  kmsgParser : option nat;
  kLastRestart : Time;
  kPc : kpc
}.

(* @ pkg/systemlogmonitor/logwatchers/kmsg/log_watcher_linux.go:52-70 NewKmsgWatcher *)
Definition NewKmsgWatcher (sysinfo : result Z) (now : Time) (cfg : WatcherConfig)
    : outcome kernelLogWatcher :=
  match GetUptimeDuration sysinfo with
  | Err _ => Panic "failed to get uptime"
  | Ok uptime =>
    match GetStartTime now uptime (wcLookback cfg) (wcDelay cfg) with
    | Err _ => Panic "failed to get start time"
    | Ok startTime => Ret (mkKW cfg startTime [] false NewTomb None Time_zero KSelect)
    end
  end.

(** The watcher, the log monitor and the library: what was received, the
    messages read, the number of parsers created, those closed, the times of the
    restarts, and the clock. *)
Record ksys : Type := mkKSys {
  kw : kernelLogWatcher;
  krReceived : list Log;
  krMessages : list kmsgMessage;
  krCreated : nat;
  krClosed : list nat;
  krRestarts : list Time;
  krClock : Time
}.

(** [newParser] answers a new parser or an error. *)
(* @ pkg/systemlogmonitor/logwatchers/kmsg/log_watcher_linux.go:74-86 Watch *)
Definition kmsg_Watch (newParser : bool) (now : Time) (k : kernelLogWatcher) : result ksys :=
  let start created parser :=
    mkKSys (mkKW (kCfg k) (kStartTime k) (kLogCh k) (kChClosed k) (kTomb k) parser
              (kLastRestart k) KSelect) [] [] created [] [] now in
  match kmsgParser k with
  | None => if newParser then Ok (start 1 (Some 0)) else Err "failed to create kmsg parser"
  | Some p => Ok (start (S p) (Some p))
  end.

(** ** Updates *)
Definition kset_pc (s : ksys) (pc : kpc) : ksys :=
  let k := kw s in
  mkKSys (mkKW (kCfg k) (kStartTime k) (kLogCh k) (kChClosed k) (kTomb k) (kmsgParser k)
            (kLastRestart k) pc)
    (krReceived s) (krMessages s) (krCreated s) (krClosed s) (krRestarts s) (krClock s).

Definition kset_ch (s : ksys) (ch : list Log) (received : list Log) (pc : kpc) : ksys :=
  let k := kw s in
  mkKSys (mkKW (kCfg k) (kStartTime k) ch (kChClosed k) (kTomb k) (kmsgParser k)
            (kLastRestart k) pc)
    received (krMessages s) (krCreated s) (krClosed s) (krRestarts s) (krClock s).

Definition kset_tomb (s : ksys) (t : Tomb) (closed : bool) (pc : kpc) : ksys :=
  let k := kw s in
  mkKSys (mkKW (kCfg k) (kStartTime k) (kLogCh k) closed t (kmsgParser k) (kLastRestart k) pc)
    (krReceived s) (krMessages s) (krCreated s) (krClosed s) (krRestarts s) (krClock s).

Definition kadd_msg (s : ksys) (m : kmsgMessage) : ksys :=
  mkKSys (kw s) (krReceived s) (krMessages s ++ [m]) (krCreated s) (krClosed s) (krRestarts s)
    (krClock s).

Definition kset_clock (s : ksys) (now : Time) : ksys :=
  mkKSys (kw s) (krReceived s) (krMessages s) (krCreated s) (krClosed s) (krRestarts s) now.

(** The state of the parsers: the watcher's own, created and closed ones. *)
Definition kset_parser (s : ksys) (parser : option nat) (created : nat) (closed : list nat) : ksys :=
  let k := kw s in
  mkKSys (mkKW (kCfg k) (kStartTime k) (kLogCh k) (kChClosed k) (kTomb k) parser
            (kLastRestart k) (kPc k))
    (krReceived s) (krMessages s) created closed (krRestarts s) (krClock s).

Definition krestarted (s : ksys) (now : Time) : ksys :=
  let k := kw s in
  mkKSys (mkKW (kCfg k) (kStartTime k) (kLogCh k) (kChClosed k) (kTomb k) (kmsgParser k) now
            (kPc k))
    (krReceived s) (krMessages s) (krCreated s) (krClosed s) (krRestarts s ++ [now]) (krClock s).

(** ** The loop *)

(** The deferred function. *)
Definition kleave (s : ksys) : ksys :=
  let s := match kmsgParser (kw s) with
           | Some p => kset_parser s (Some p) (krCreated s) (krClosed s ++ [p])
           | None => s
           end in
  if kChClosed (kw s) then kset_pc s KCrashed
  else
    match Tomb_Done (kTomb (kw s)) with
    | Ret t => kset_tomb s t true KExited
    | Panic _ => kset_pc s KCrashed
    end.

(** What becomes of a message. *)
Definition kprocess (startTime : Time) (m : kmsgMessage) : option Log :=
  if String.eqb (kmMessage m) "" then None
  else if Time_Before (kmTimestamp m) startTime then None
  else Some (mkLog (kmTimestamp m) (strings_TrimSpace (kmMessage m))).

(** The wait before the first attempt to restart. *)
(* @ pkg/systemlogmonitor/logwatchers/kmsg/log_watcher_linux.go:170-178 retryCreateParser *)
Definition retry_start (s : ksys) (now : Time) : ksys :=
  let since := Time_Sub now (kLastRestart (kw s)) in
  if (since <? retryDelay)%Z then kset_pc s (KWait (Time_Add now (retryDelay - since)))
  else kset_pc s KCreate.

(** The channel of the parser was closed. *)
Definition onClosed (s : ksys) (now : Time) : ksys :=
  match kmsgParser (kw s) with
  | None => kset_pc s KCrashed
  | Some p => retry_start (kset_parser s None (krCreated s) (krClosed s ++ [p])) now
  end.

(** What [NewParser] and then [SeekEnd] answer. *)
Inductive attempt : Type := NewFails | SeekFails | Restarted.

(** One turn of the loop of attempts. *)
(* @ pkg/systemlogmonitor/logwatchers/kmsg/log_watcher_linux.go:180-203 retryCreateParser *)
Definition retryCreateParser (s : ksys) (r : attempt) (now : Time) : ksys :=
  let p := krCreated s in
  match r with
  | NewFails => kset_pc s (KDelay (Time_Add now retryDelay))
  | SeekFails =>
    kset_pc (kset_parser s (kmsgParser (kw s)) (S p) (krClosed s ++ [p])) (KDelay (Time_Add now retryDelay))
  | Restarted => kset_pc (krestarted (kset_parser s (Some p) (S p) (krClosed s)) now) KSelect
  end.

Inductive kaction : Type :=
| KaStopping                               (* a select takes its stopping case *)
| KaMsg (m : kmsgMessage)                  (* the loop receives a message *)
| KaClosed (now : Time)                    (* the loop sees the channel closed *)
| KaSend                                   (* the send on the log channel *)
| KaTimer (now : Time)                     (* a timer fires *)
| KaCreate (r : attempt) (now : Time)      (* an attempt to restart *)
| KaRecv                                   (* the log monitor receives *)
| KaStop.                                  (* the log monitor stops the watcher *)

(** The clock does not go back. *)
Definition tick (s : ksys) (now : Time) (f : ksys -> ksys) : option ksys :=
  if (krClock s <=? now)%Z then Some (f (kset_clock s now)) else None.

(* @ pkg/systemlogmonitor/logwatchers/kmsg/log_watcher_linux.go:94-156 watchLoop *)
Definition kexec (s : ksys) (a : kaction) : option ksys :=
  let k := kw s in
  match a, kPc k with
  | KaStopping, (KSelect | KSend _ | KWait _ | KDelay _) =>
    if Tomb_Stopping (kTomb k) then Some (kleave s) else None
  | KaMsg m, KSelect =>
    let s := kadd_msg s m in
    Some (match kprocess (kStartTime k) m with
          | None => s
          | Some log => kset_pc s (KSend log)
          end)
  | KaClosed now, KSelect => tick s now (fun s => onClosed s now)
  | KaSend, KSend log =>
    if length (kLogCh k) <? kmsgCapacity
    then Some (kset_ch s (kLogCh k ++ [log]) (krReceived s) KSelect) else None
  | KaTimer now, (KWait until | KDelay until) =>
    if (until <=? now)%Z then tick s now (fun s => kset_pc s KCreate) else None
  | KaCreate r now, KCreate => tick s now (fun s => retryCreateParser s r now)
  | KaRecv, pc =>
    if Tomb_Stopping (kTomb k) then None
    else
      match kLogCh k with
      | log :: ch => Some (kset_ch s ch (krReceived s ++ [log]) pc)
      | [] => None
      end
  | KaStop, pc =>
    match Tomb_Stop_close (kTomb k) with
    | Ret t => Some (kset_tomb s t (kChClosed k) pc)
    | Panic _ => None
    end
  | _, _ => None
  end.

(** ** Invariants *)

Definition kin_flight (k : kernelLogWatcher) : list Log :=
  kLogCh k ++ match kPc k with KSend log => [log] | _ => [] end.

(** The log in hand when a stop interrupted the send, if any. *)
Definition kmay_drop (pc : kpc) (dropped : list Log) : Prop :=
  dropped = [] \/ (pc = KExited /\ length dropped = 1).

(** The parser the watcher holds, by control point. *)
Definition kparser_ok (s : ksys) : Prop :=
  match kPc (kw s) with
  | KSelect | KSend _ =>
    kmsgParser (kw s) = Some (length (krClosed s)) /\ krCreated s = S (length (krClosed s))
  | KWait _ | KCreate | KDelay _ => kmsgParser (kw s) = None /\ krCreated s = length (krClosed s)
  | KExited => krCreated s = length (krClosed s)
  | KCrashed => False
  end.

(** The clock has passed the last restart by the delay, or will have. *)
Definition krate_ok (s : ksys) : Prop :=
  match last (krRestarts s) with
  | None => True
  | Some t =>
    kLastRestart (kw s) = t /\ (t <= krClock s)%Z /\
    match kPc (kw s) with
    | KWait until => (t + retryDelay <= until)%Z
    | KCreate | KDelay _ => (t + retryDelay <= krClock s)%Z
    | _ => True
    end
  end.

(** Neighbouring restarts are at least the delay apart. *)
Definition spaced (l : list Time) : Prop :=
  forall i (t t' : Time), l !! i = Some t -> l !! S i = Some t' -> (t + retryDelay <= t')%Z.

Record kinv (start : Time) (s : ksys) : Prop := mkKinv {
  kinv_start : kStartTime (kw s) = start;
  kinv_closed : krClosed s = seq 0 (length (krClosed s));
  kinv_parser : kparser_ok s;
  kinv_done : tDoneClosed (kTomb (kw s)) = true <-> kPc (kw s) = KExited;
  kinv_ch : kChClosed (kw s) = true <-> kPc (kw s) = KExited;
  kinv_logs : exists dropped, kmay_drop (kPc (kw s)) dropped /\
    krReceived s ++ kin_flight (kw s) ++ dropped = omap (kprocess start) (krMessages s);
  kinv_rate : krate_ok s;
  kinv_spaced : spaced (krRestarts s)
}.

Lemma seq_closed_snoc l : l = seq 0 (length l) -> l ++ [length l] = seq 0 (length (l ++ [length l])).
Proof. intros H. rewrite length_app, Nat.add_comm. cbn [length Nat.add]. by rewrite seq_S, <- H. Qed.

Lemma spaced_snoc (l : list Time) (t : Time) :
  spaced l -> (forall t0, last l = Some t0 -> (t0 + retryDelay <= t)%Z) -> spaced (l ++ [t]).
Proof.
  intros Hl Hlast i a b Ha Hb. destruct (decide (S i < length l)) as [Hlt|Hge].
  - rewrite lookup_app_l in Ha by lia. rewrite lookup_app_l in Hb by lia. by apply (Hl i).
  - apply lookup_snoc_Some in Hb as [[Hlt _] | [Hi ->]]; [lia|].
    rewrite lookup_app_l in Ha by lia. apply Hlast. by rewrite last_lookup, <- Hi.
Qed.

Lemma kinv_running start s :
  kinv start s -> kPc (kw s) <> KExited ->
  tDoneClosed (kTomb (kw s)) = false /\ kChClosed (kw s) = false.
Proof.
  intros H Hpc. split.
  - destruct (tDoneClosed _) eqn:E; [|done]. by apply (kinv_done _ _ H) in E.
  - destruct (kChClosed _) eqn:E; [|done]. by apply (kinv_ch _ _ H) in E.
Qed.

(** The parts of the invariant that a step which does not end the loop keeps. *)
Ltac kfin Hdn Hch := try done; try (rewrite Hdn; done); try (rewrite Hch; done).

(** Leaving ends the wait of [Stop]. *)
Lemma kleave_returns s :
  kChClosed (kw s) = false -> tDoneClosed (kTomb (kw s)) = false ->
  Tomb_Stop_returns (kTomb (kw (kleave s))) = true.
Proof. intros Hc Hd. unfold kleave, Tomb_Done. by destruct (kmsgParser (kw s)); simpl; rewrite Hc, Hd. Qed.

(** Leaving keeps the invariant. *)
Lemma kinv_leave start s :
  kinv start s ->
  match kPc (kw s) with KSelect | KSend _ | KWait _ | KDelay _ => True | _ => False end ->
  kinv start (kleave s).
Proof.
  intros Hi Hpc.
  destruct (kinv_running start s Hi) as [Hd Hc]; [by intros E; rewrite E in Hpc|].
  destruct Hi as [Hs Hcl Hp Hdn Hch (dropped & Hdr & Hl) Hr Hsp].
  destruct s as [[cfg st ch chc tb pr lr pc] rc ms cr cls rs ck]; simpl in *. subst st chc.
  assert (Hd0 : dropped = []) by (destruct Hdr as [->|[-> _]]; done). subst dropped.
  assert (Hout : exists d, kmay_drop KExited d /\ rc ++ (ch ++ []) ++ d = omap (kprocess start) ms).
  { unfold kin_flight in Hl. simpl in Hl.
    destruct pc; try done; try (exists []; split; [by left | exact Hl]).
    exists [log]. split; [by right|]. rewrite <- Hl. by rewrite !app_nil_r. }
  unfold kparser_ok in Hp. unfold krate_ok in Hr. simpl in Hp, Hr.
  unfold kleave, Tomb_Done. simpl. destruct pr as [p|]; simpl; rewrite Hd; simpl.
  - assert (Hp' : p = length cls /\ cr = S (length cls)).
    { destruct pc; try done; destruct Hp as [Hp1 Hp2]; by simplify_eq. }
    destruct Hp' as [-> ->]. split; simpl; try done.
    + by apply seq_closed_snoc.
    + unfold kparser_ok. simpl. rewrite length_app. simpl. lia.
    + unfold krate_ok. simpl. destruct (last rs); [|done]. by destruct Hr as (? & ? & _).
  - assert (Hp' : cr = length cls) by (destruct pc; try done; by destruct Hp).
    split; simpl; try done.
    unfold krate_ok. simpl. destruct (last rs); [|done]. by destruct Hr as (? & ? & _).
Qed.

(** Restarting keeps the invariant, whatever the attempt answers. *)
Lemma kinv_attempt start s r now :
  kinv start s -> kPc (kw s) = KCreate -> (krClock s <= now)%Z ->
  kinv start (retryCreateParser (kset_clock s now) r now).
Proof.
  intros [Hs Hcl Hp Hdn Hch (dropped & Hdr & Hl) Hr Hsp] Epc Hnow.
  destruct s as [[cfg st ch chc tb pr lr pc] rc ms cr cls rs ck]; simpl in *. subst pc st.
  unfold kparser_ok, krate_ok in *. simpl in *. destruct Hp as [-> ->].
  unfold kin_flight in Hl. simpl in Hl.
  assert (Hd0 : dropped = []) by (destruct Hdr as [->|[? _]]; done). subst dropped.
  assert (Hout : exists d, kmay_drop KSelect d /\ rc ++ (ch ++ []) ++ d = omap (kprocess start) ms)
    by (exists []; split; [by left | done]).
  assert (Hout' : forall u, exists d, kmay_drop (KDelay u) d /\ rc ++ (ch ++ []) ++ d = omap (kprocess start) ms)
    by (exists []; split; [by left | done]).
  destruct r; split; simpl; kfin Hdn Hch; unfold kparser_ok, krate_ok; simpl;
    try (destruct (last rs) eqn:El; [destruct Hr as (? & ? & ?); split_and!; try done; lia | done]).
  - by apply seq_closed_snoc.
  - rewrite length_app. simpl. split; [done | lia].
  - rewrite last_snoc. split_and!; [done | lia | done].
  - apply spaced_snoc; [done|]. intros t0 E. rewrite E in Hr. destruct Hr as (_ & _ & Hr). lia.
Qed.

(** So does seeing the parser's channel closed. *)
Lemma kinv_onClosed start s now :
  kinv start s -> kPc (kw s) = KSelect -> (krClock s <= now)%Z ->
  kinv start (onClosed (kset_clock s now) now).
Proof.
  intros [Hs Hcl Hp Hdn Hch (dropped & Hdr & Hl) Hr Hsp] Epc Hnow.
  destruct s as [[cfg st ch chc tb pr lr pc] rc ms cr cls rs ck]; simpl in *. subst pc st.
  unfold kparser_ok, krate_ok in *. simpl in *. destruct Hp as [-> ->].
  assert (Hd0 : dropped = []) by (destruct Hdr as [->|[? _]]; done). subst dropped.
  unfold kin_flight in Hl. simpl in Hl.
  unfold onClosed, retry_start. simpl.
  destruct (Z.ltb_spec (Time_Sub now lr) retryDelay) as [Hlt|Hge];
    split; simpl; kfin Hdn Hch; unfold kparser_ok, krate_ok; simpl;
    try (by apply seq_closed_snoc); try (rewrite length_app; simpl; split; [done | lia]);
    try (exists []; split; [by left | done]);
    (destruct (last rs) eqn:El; [|done]); destruct Hr as (-> & Hle & _); split_and!; try done; try lia;
    unfold Time_Add, Time_Sub, retryDelay, Second, int64_min, int64_max in *; lia.
Qed.

Lemma kinv_step start s a s' : kinv start s -> kexec s a = Some s' -> kinv start s'.
Proof.
  intros Hi He. pose proof Hi as [Hs Hcl Hp Hdn Hch (dropped & Hdr & Hl) Hr Hsp].
  destruct a as [|m|now| |now|r now| |]; simpl in He.
  - destruct (kPc (kw s)) eqn:Epc; try done; destruct (Tomb_Stopping _); try done; simplify_eq;
      apply kinv_leave; rewrite ?Epc; done.
  - destruct (kPc (kw s)) eqn:Epc; try done. simplify_eq.
    assert (Hd0 : dropped = []) by (destruct Hdr as [->|[? _]]; done). subst dropped.
    unfold kparser_ok, krate_ok, kin_flight in *. rewrite Epc in *.
    destruct (kprocess (kStartTime (kw s)) m) as [log|] eqn:Em; split; simpl; kfin Hdn Hch;
      unfold kparser_ok, krate_ok, kin_flight; simpl; rewrite ?Epc; try done;
      exists []; (split; [by left|]); rewrite omap_app, <- Hl; simpl; rewrite Em, !app_nil_r;
      by rewrite ?app_assoc.
  - destruct (kPc (kw s)) eqn:Epc; try done. unfold tick in He.
    destruct (Z.leb_spec (krClock s) now); [|done]. simplify_eq. by apply kinv_onClosed.
  - destruct (kPc (kw s)) eqn:Epc; try done. destruct (_ <? _); [|done]. simplify_eq.
    assert (Hd0 : dropped = []) by (destruct Hdr as [->|[? _]]; done). subst dropped.
    unfold kparser_ok, krate_ok, kin_flight in *. rewrite Epc in *.
    split; simpl; kfin Hdn Hch. exists []. split; [by left|]. rewrite <- Hl. unfold kin_flight. simpl. by rewrite !app_nil_r.
  - unfold tick in He. destruct (kPc (kw s)) as [| |u| |u| |] eqn:Epc; try done;
      (destruct (Z.leb_spec u now); [|done]); (destruct (Z.leb_spec (krClock s) now); [|done]); simplify_eq;
      (assert (Hd0 : dropped = []) by (destruct Hdr as [->|[? _]]; done)); subst dropped;
      unfold kparser_ok, krate_ok, kin_flight in *; rewrite Epc in *; split; simpl; kfin Hdn Hch;
      try (by exists []; split; [by left|]); unfold krate_ok; simpl;
      (destruct (last (krRestarts s)); [|done]); destruct Hr as (? & ? & ?); split_and!; try done; lia.
  - destruct (kPc (kw s)) eqn:Epc; try done. unfold tick in He.
    destruct (Z.leb_spec (krClock s) now); [|done]. simplify_eq. by apply kinv_attempt.
  - destruct (Tomb_Stopping _); [done|]. destruct (kLogCh (kw s)) as [|log ch] eqn:Ech; [done|].
    simplify_eq. split; simpl; kfin Hdn Hch. exists dropped. split; [done|]. rewrite <- Hl.
    unfold kin_flight. simpl. rewrite Ech. by rewrite <- !app_assoc.
  - unfold Tomb_Stop_close in He. destruct (tStopClosed _); [done|]. simplify_eq.
    split; simpl; kfin Hdn Hch. by exists dropped.
Qed.

(** ** Theorems *)
Section Watching.
Variables (sysinfo : result Z) (now0 now1 : Time) (cfg : WatcherConfig) (k : kernelLogWatcher) (s0 : ksys).
Hypothesis Hnew : NewKmsgWatcher sysinfo now0 cfg = Ret k.
Hypothesis Hwatch : kmsg_Watch true now1 k = Ok s0.

Lemma kinv_watching : kinv (kStartTime k) s0.
Proof.
  unfold NewKmsgWatcher in Hnew. destruct (GetUptimeDuration sysinfo); [|done].
  destruct (GetStartTime _ _ _ _); [|done]. injection Hnew as <-.
  unfold kmsg_Watch in Hwatch. simpl in Hwatch. injection Hwatch as <-.
  split; simpl; try done. exists []. split; [by left | done].
Qed.

Lemma kinv_reachable tr s : runs kexec s0 tr s -> kinv (kStartTime k) s.
Proof. apply runs_invariant; [apply kinv_step | apply kinv_watching]. Qed.

(** Kernel messages reach the log monitor complete and in order: in every state
    the watcher can reach, what was received, what is in the channel and the log
    in hand are the logs of the messages read, those that are not empty and not
    older than the start time, trimmed.  Only a stop can drop a log, and then
    one, the log in hand.  The loop never dereferences a nil parser or closes a
    channel twice. *)
Theorem kmsg_delivers_messages tr s :
  runs kexec s0 tr s ->
  kPc (kw s) <> KCrashed /\
  exists dropped, (dropped = [] \/ (kPc (kw s) = KExited /\ length dropped = 1)) /\
    krReceived s ++ kin_flight (kw s) ++ dropped = omap (kprocess (kStartTime k)) (krMessages s).
Proof.
  intros Hr. destruct (kinv_reachable _ _ Hr) as [_ _ Hp _ _ Hl _ _]. split; [|exact Hl].
  intros E. unfold kparser_ok in Hp. by rewrite E in Hp.
Qed.

(** No parser leaks and none is closed twice: the parsers are closed in the
    order they were created; in any state at most one is open, the one the
    watcher holds, and when the loop has ended all are closed. *)
Theorem kmsg_parsers_closed_once tr s :
  runs kexec s0 tr s ->
  krClosed s = seq 0 (length (krClosed s)) /\
  (krCreated s = length (krClosed s) \/
   (krCreated s = S (length (krClosed s)) /\ kmsgParser (kw s) = Some (length (krClosed s)))) /\
  (Tomb_Stop_returns (kTomb (kw s)) = true -> krCreated s = length (krClosed s)).
Proof.
  intros Hr. destruct (kinv_reachable _ _ Hr) as [_ Hc Hp Hd _ _ _ _]. split; [exact Hc|].
  unfold kparser_ok, Tomb_Stop_returns in *. split.
  - destruct (kPc (kw s)); naive_solver.
  - intros E. apply Hd in E. by rewrite E in Hp.
Qed.

(** A parser that keeps failing cannot drive a hot restart loop: successful
    restarts are at least five seconds apart, provided the clock does not go
    back. *)
Theorem kmsg_restarts_rate_limited tr s i (t t' : Time) :
  runs kexec s0 tr s ->
  krRestarts s !! i = Some t -> krRestarts s !! S i = Some t' -> (t + 5 * Second <= t')%Z.
Proof. intros Hr. destruct (kinv_reachable _ _ Hr) as [_ _ _ _ _ _ _ Hsp]. exact (Hsp i t t'). Qed.

(** C21.  Stopping the watcher never deadlocks, even with a full channel and a parser
    that cannot be restarted: whenever a stop was requested and the loop has not
    ended, the select it is in can take its stopping case, which ends the loop;
    or it is in an attempt to restart, after which, however that ends, the next
    select can. *)
Theorem kmsg_stop_completes tr s :
  runs kexec s0 tr s -> Tomb_Stopping (kTomb (kw s)) = true ->
  Tomb_Stop_returns (kTomb (kw s)) = false ->
  (exists s', kexec s KaStopping = Some s' /\ Tomb_Stop_returns (kTomb (kw s')) = true) \/
  (kPc (kw s) = KCreate /\ forall r now, (krClock s <= now)%Z -> exists s1 s2,
     kexec s (KaCreate r now) = Some s1 /\ kexec s1 KaStopping = Some s2 /\
     Tomb_Stop_returns (kTomb (kw s2)) = true).
Proof.
  intros Hr Hstop Hnot. pose proof (kinv_reachable _ _ Hr) as Hi.
  assert (Hne : kPc (kw s) <> KExited).
  { intros E. apply (kinv_done _ _ Hi) in E. unfold Tomb_Stop_returns in Hnot. congruence. }
  destruct (kinv_running _ _ Hi Hne) as [Hd Hc].
  destruct (kPc (kw s)) eqn:Epc; try done;
    try (left; exists (kleave s); unfold kexec; rewrite Epc, Hstop; split; [done | by apply kleave_returns]).
  - right. split; [done|]. intros r now Hnow.
    exists (retryCreateParser (kset_clock s now) r now),
      (kleave (retryCreateParser (kset_clock s now) r now)).
    split; [|split].
    + unfold kexec, tick. rewrite Epc, (proj2 (Z.leb_le _ _)) by done. done.
    + destruct r; simpl; by rewrite Hstop.
    + destruct r; by apply kleave_returns.
  - destruct Hi as [_ _ Hp _ _ _ _ _]. unfold kparser_ok in Hp. by rewrite Epc in Hp.
Qed.
End Watching.

(** ** Witnesses *)
Definition kmsg_cfg : WatcherConfig := mkWatcherConfig "kmsg" ∅ [] "/dev/kmsg" "5m" "".
Definition kmsg_new : kernelLogWatcher :=
  match NewKmsgWatcher (Ok 3600%Z) (9 * Hour)%Z kmsg_cfg with
  | Ret k => k
  | Panic _ => mkKW kmsg_cfg 0%Z [] false NewTomb None 0%Z KSelect
  end.
Definition kmsg_s0 : ksys :=
  match kmsg_Watch true (9 * Hour)%Z kmsg_new with
  | Ok s => s
  | Err _ => mkKSys kmsg_new [] [] 0 [] [] 0%Z
  end.

(** An oops, an old message, then a parser that dies, is restarted, dies again
    at once and is restarted after the delay. *)
Definition kmsg_demo : list kaction :=
  [KaMsg (mkKmsg " oops " (9 * Hour)%Z); KaSend; KaMsg (mkKmsg "old" (1 * Hour)%Z); KaRecv;
   KaClosed (9 * Hour + 1 * Second)%Z; KaCreate Restarted (9 * Hour + 1 * Second)%Z;
   KaClosed (9 * Hour + 2 * Second)%Z; KaTimer (9 * Hour + 6 * Second)%Z;
   KaCreate SeekFails (9 * Hour + 6 * Second)%Z; KaTimer (9 * Hour + 11 * Second)%Z;
   KaCreate Restarted (9 * Hour + 11 * Second)%Z; KaMsg (mkKmsg "BUG" (10 * Hour)%Z); KaStop].

Definition kmsg_end : ksys := default kmsg_s0 (run_from kexec kmsg_s0 kmsg_demo).

Lemma kmsg_demo_runs : runs kexec kmsg_s0 kmsg_demo kmsg_end.
Proof.
  apply run_from_runs. unfold kmsg_end.
  destruct (run_from kexec kmsg_s0 kmsg_demo) eqn:E; [done|]. vm_compute in E. discriminate E.
Qed.

Lemma kmsg_delivers_messages_witness :
  kPc (kw kmsg_end) <> KCrashed /\
  krReceived kmsg_end ++ kin_flight (kw kmsg_end) = [mkLog (9 * Hour) "oops"; mkLog (10 * Hour) "BUG"].
Proof.
  destruct (kmsg_delivers_messages (Ok 3600%Z) (9 * Hour)%Z (9 * Hour)%Z kmsg_cfg kmsg_new kmsg_s0
    eq_refl eq_refl kmsg_demo kmsg_end kmsg_demo_runs) as (Hp & dropped & _ & _).
  split; [exact Hp | vm_compute; reflexivity].
Defined.

Lemma kmsg_parsers_closed_once_witness :
  krCreated kmsg_end = 4 /\ krClosed kmsg_end = [0; 1; 2] /\
  krClosed kmsg_end = seq 0 (length (krClosed kmsg_end)).
Proof.
  split; [reflexivity|]. split; [reflexivity|].
  exact (proj1 (kmsg_parsers_closed_once (Ok 3600%Z) (9 * Hour)%Z (9 * Hour)%Z kmsg_cfg kmsg_new kmsg_s0
    eq_refl eq_refl kmsg_demo kmsg_end kmsg_demo_runs)).
Defined.

Lemma kmsg_restarts_rate_limited_witness :
  (9 * Hour + 1 * Second + 5 * Second <= 9 * Hour + 11 * Second)%Z.
Proof.
  apply (kmsg_restarts_rate_limited (Ok 3600%Z) (9 * Hour)%Z (9 * Hour)%Z kmsg_cfg kmsg_new kmsg_s0
    eq_refl eq_refl kmsg_demo kmsg_end 0 _ _ kmsg_demo_runs); vm_compute; reflexivity.
Defined.

Lemma kmsg_stop_completes_witness :
  exists s', kexec kmsg_end KaStopping = Some s' /\ Tomb_Stop_returns (kTomb (kw s')) = true.
Proof.
  destruct (kmsg_stop_completes (Ok 3600%Z) (9 * Hour)%Z (9 * Hour)%Z kmsg_cfg kmsg_new kmsg_s0
    eq_refl eq_refl kmsg_demo kmsg_end kmsg_demo_runs eq_refl eq_refl) as [H | [E _]]; [exact H|].
  vm_compute in E. discriminate E.
Defined.
