(* ===== verification/JournaldWatcher.v ===== *)
(** The journald watcher ([pkg/systemlogmonitor/logwatchers/journald]): opening
    the journal, timestamps, and the watch loop with its receiver, as a
    transition system.

    The journal client is a library; its answers are parameters and inputs. *)

From S2P Require Import Prelude GoStrings GoTime Types LogMonitor StartTime ProblemDetector FilelogWatcher Transitions.

(** ** Timestamps *)

(** Microseconds since the epoch. *)
(* @ pkg/systemlogmonitor/logwatchers/journald/log_watcher.go:201-203 timeToJournalTimestamp *)
Definition timeToJournalTimestamp (t : Time) : Z := uint64 (Z.quot (Time_UnixNano t) 1000).

(** The fields of an entry that the watcher reads: the timestamp is a uint64. *)
Record JournalEntry : Type := mkEntry {
  RealtimeTimestamp : Z;
  Fields : gmap string string
}.

Definition entry_time (ts : Z) : Time := time_Unix_ns (int64 (int64 ts * Microsecond)).

(* @ pkg/systemlogmonitor/logwatchers/journald/log_watcher.go:192-199 translate *)
Definition journal_translate (entry : JournalEntry) : Log :=
  mkLog (entry_time (RealtimeTimestamp entry))
    (strings_TrimSpace (default "" (Fields entry !! "MESSAGE"))).

(** ** Opening the journal *)
(* @ pkg/systemlogmonitor/logwatchers/journald/log_watcher.go:139-139 configSourceKey *)
Definition configSourceKey : string := "source".

Section Open.
Variable NewJournal : result unit.
Variable os_Stat : string -> result unit.
Variable NewJournalFromDir : string -> result unit.
Variable SeekRealtimeUsec : Z -> result unit.
Variable AddMatch : string -> result unit.

(** The journal, named by where it was sought to and the match that filters it. *)
(* @ pkg/systemlogmonitor/logwatchers/journald/log_watcher.go:143-189 getJournal *)
Definition getJournal (cfg : WatcherConfig) (startTime now : Time) : result (Z * string) :=
  let opened :=
    if String.eqb (wcLogPath cfg) "" then
      match NewJournal with
      | Err _ => Err "failed to create journal client from default log path"
      | Ok _ => Ok tt
      end
    else
      match os_Stat (wcLogPath cfg) with
      | Err _ => Err "failed to stat the log path"
      | Ok _ =>
        match NewJournalFromDir (wcLogPath cfg) with
        | Err _ => Err "failed to create journal client from path"
        | Ok _ => Ok tt
        end
      end in
  match opened with
  | Err e => Err e
  | Ok _ =>
    let seekTime := if Time_Before now startTime then now else startTime in
    match SeekRealtimeUsec (timeToJournalTimestamp seekTime) with
    | Err _ => Err "failed to seek journal"
    | Ok _ =>
      let source := cfg_get (wcPluginConfig cfg) configSourceKey in
      if String.eqb source "" then Err "failed to filter journal log, empty source is not allowed"
      else
        let m := "SYSLOG_IDENTIFIER=" +:+ source in
        match AddMatch m with
        | Err _ => Err "failed to add log filter"
        | Ok _ => Ok (timeToJournalTimestamp seekTime, m)
        end
    end
  end.
End Open.

(** ** The loop *)
Inductive jpc : Type := JSelect | JNext | JSend (log : Log) | JExited | JCrashed.

(** The channel is not closed when the loop ends. *)
(* @ pkg/systemlogmonitor/logwatchers/journald/log_watcher.go:43-49 journaldWatcher *)
Record journaldWatcher : Type := mkJW {
  jJournal : option (Z * string);
  jCfg : WatcherConfig;
  jStartTime : Time;
  jLogCh : list Log;
  jTomb : Tomb;
  jPc : jpc
}.

(* @ pkg/systemlogmonitor/logwatchers/journald/log_watcher.go:52-69 NewJournaldWatcher *)
Definition NewJournaldWatcher (sysinfo : result Z) (now : Time) (cfg : WatcherConfig)
    : outcome journaldWatcher :=
  match GetUptimeDuration sysinfo with
  | Err _ => Panic "failed to get uptime"
  | Ok uptime =>
    match GetStartTime now uptime (wcLookback cfg) (wcDelay cfg) with
    | Err _ => Panic "failed to get start time"
    | Ok startTime => Ret (mkJW None cfg startTime [] NewTomb JSelect)
    end
  end.

(** The journal is the result of [getJournal]. *)
(* @ pkg/systemlogmonitor/logwatchers/journald/log_watcher.go:75-83 Watch *)
Definition journald_Watch (journal : result (Z * string)) (j : journaldWatcher)
    : result journaldWatcher :=
  match journal with
  | Err e => Err e
  | Ok jr => Ok (mkJW (Some jr) (jCfg j) (jStartTime j) (jLogCh j) (jTomb j) JSelect)
  end.

(** What [Next] and then [GetEntry] answer. *)
Inductive next_result : Type := NextErr | NextEnd | EntryErr | NextEntry (e : JournalEntry).

Definition jprocess (startTime : Time) (e : JournalEntry) : option Log :=
  if (RealtimeTimestamp e <? timeToJournalTimestamp startTime)%Z then None
  else Some (journal_translate e).

Record jsys : Type := mkJSys {
  jw : journaldWatcher;
  jrReceived : list Log;
  jrEntries : list JournalEntry
}.

Definition jset (s : jsys) (pc : jpc) : jsys :=
  let j := jw s in
  mkJSys (mkJW (jJournal j) (jCfg j) (jStartTime j) (jLogCh j) (jTomb j) pc) (jrReceived s) (jrEntries s).

Definition jset_ch (s : jsys) (ch received : list Log) (pc : jpc) : jsys :=
  let j := jw s in
  mkJSys (mkJW (jJournal j) (jCfg j) (jStartTime j) ch (jTomb j) pc) received (jrEntries s).

Definition jset_tomb (s : jsys) (t : Tomb) (pc : jpc) : jsys :=
  let j := jw s in
  mkJSys (mkJW (jJournal j) (jCfg j) (jStartTime j) (jLogCh j) t pc) (jrReceived s) (jrEntries s).

(** The deferred function. *)
Definition jleave (s : jsys) : jsys :=
  match Tomb_Done (jTomb (jw s)) with
  | Ret t => jset_tomb s t JExited
  | Panic _ => jset s JCrashed
  end.

Inductive jaction : Type :=
| JaSelect | JaNext (r : next_result) | JaSend | JaRecv | JaStop.

(** As with the file log watcher, nobody receives once [Stop] was called. *)
(* @ pkg/systemlogmonitor/logwatchers/journald/log_watcher.go:94-135 watchLoop *)
Definition jexec (s : jsys) (a : jaction) : option jsys :=
  let j := jw s in
  match a, jPc j with
  | JaSelect, JSelect =>
    Some (if Tomb_Stopping (jTomb j) then jleave s else jset s JNext)
  | JaNext r, JNext =>
    Some (match r with
          | NextErr | NextEnd | EntryErr => jset s JSelect
          | NextEntry e =>
            let s := mkJSys j (jrReceived s) (jrEntries s ++ [e]) in
            match jprocess (jStartTime j) e with
            | None => jset s JSelect
            | Some log => jset s (JSend log)
            end
          end)
  | JaSend, JSend log =>
    if length (jLogCh j) <? logChCapacity
    then Some (jset_ch s (jLogCh j ++ [log]) (jrReceived s) JSelect) else None
  | JaRecv, pc =>
    if Tomb_Stopping (jTomb j) then None
    else
      match jLogCh j with
      | log :: ch => Some (jset_ch s ch (jrReceived s ++ [log]) pc)
      | [] => None
      end
  | JaStop, pc =>
    match Tomb_Stop_close (jTomb j) with
    | Ret t => Some (jset_tomb s t pc)
    | Panic _ => None
    end
  | _, _ => None
  end.

(** ** Timestamps, both ways *)

(** A time after the epoch that fits, in microseconds. *)
Lemma journal_timestamp_value t :
  (unixEpoch <= t)%Z -> (t - unixEpoch <= int64_max)%Z ->
  timeToJournalTimestamp t = ((t - unixEpoch) / 1000)%Z.
Proof.
  intros H1 H2. unfold timeToJournalTimestamp, Time_UnixNano.
  rewrite int64_id by (unfold in_int64, int64_min, int64_max in *; lia).
  rewrite Z.quot_div_nonneg by lia. unfold uint64. apply Z.mod_small.
  unfold int64_max in *. Z.to_euclidean_division_equations. lia.
Qed.

Lemma entry_time_value ts :
  (0 <= ts)%Z -> (ts * 1000 <= int64_max)%Z -> entry_time ts = (unixEpoch + ts * 1000)%Z.
Proof.
  intros H1 H2. unfold entry_time, time_Unix_ns, Microsecond.
  rewrite (int64_id ts), int64_id; [done | |]; unfold in_int64, int64_min, int64_max in *; lia.
Qed.

(** The journal's clock ticks in microseconds.  A time between 1970 and 2262
    that is converted to a journal timestamp and back loses less than a
    microsecond and never moves forward; and an entry is discarded by the watch
    loop exactly when its time is at least a microsecond before the start time,
    up to that rounding: it is kept if and only if its time is later than the
    start time less one microsecond. *)
Theorem journal_timestamps t :
  (unixEpoch <= t)%Z -> (t - unixEpoch <= int64_max)%Z ->
  (t - Microsecond < entry_time (timeToJournalTimestamp t) <= t)%Z /\
  (forall e, (0 <= RealtimeTimestamp e)%Z -> (RealtimeTimestamp e * 1000 <= int64_max)%Z ->
     is_Some (jprocess t e) <-> (t - Microsecond < entry_time (RealtimeTimestamp e))%Z).
Proof.
  intros H1 H2. unfold jprocess. rewrite journal_timestamp_value by done. split.
  - rewrite entry_time_value; unfold Microsecond, int64_max in *; Z.to_euclidean_division_equations; lia.
  - intros e He1 He2. rewrite entry_time_value by done. unfold Microsecond.
    destruct (Z.ltb_spec (RealtimeTimestamp e) ((t - unixEpoch) / 1000)) as [Hlt|Hge].
    + split; [by intros [? [=]]|]. Z.to_euclidean_division_equations. lia.
    + split; [|eauto]. intros _. Z.to_euclidean_division_equations. lia.
Qed.

Lemma journal_timestamps_witness :
  is_Some (jprocess (unixEpoch + 1700000000000000999) (mkEntry 1700000000000000 ∅)).
Proof.
  apply (journal_timestamps (unixEpoch + 1700000000000000999));
    vm_compute; try reflexivity; intros [=].
Defined.

(** ** What the loop delivers *)
Definition jin_flight (j : journaldWatcher) : list Log :=
  jLogCh j ++ match jPc j with JSend log => [log] | _ => [] end.

Record jinv (start : Time) (s : jsys) : Prop := mkJinv {
  jinv_start : jStartTime (jw s) = start;
  jinv_pc : jPc (jw s) <> JCrashed;
  jinv_done : tDoneClosed (jTomb (jw s)) = true <-> jPc (jw s) = JExited;
  jinv_logs : jrReceived s ++ jin_flight (jw s) = omap (jprocess start) (jrEntries s)
}.

Lemma jinv_step start s a s' : jinv start s -> jexec s a = Some s' -> jinv start s'.
Proof.
  intros [Hs Hp Hd Hl] He.
  destruct s as [[jr cfg st ch tb pc] rc es]; unfold jin_flight in Hl; simpl in *. subst st.
  destruct a as [|r| | |]; simpl in He.
  - destruct pc; try done. simplify_eq. unfold jleave, Tomb_Done. simpl.
    destruct (Tomb_Stopping tb); [|split; simpl; try done; rewrite Hd; done].
    destruct (tDoneClosed tb); [discriminate (proj1 Hd eq_refl)|]. split; simpl; done.
  - destruct pc; try done. simplify_eq. rewrite app_nil_r in Hl.
    destruct r as [| | |e];
      try (split; simpl; try done; try (rewrite Hd; done); unfold jin_flight; simpl; by rewrite app_nil_r).
    destruct (jprocess start e) as [log|] eqn:E; split; simpl; try done; try (rewrite Hd; done);
      unfold jin_flight; simpl; rewrite omap_app, <- Hl, <- ?app_assoc; simpl; by rewrite E, ?app_nil_r.
  - destruct pc; try done. destruct (_ <? _); [|done]. simplify_eq.
    split; simpl; try done; try (rewrite Hd; done). rewrite <- Hl. unfold jin_flight. simpl. by rewrite app_nil_r.
  - destruct (Tomb_Stopping tb); [done|]. destruct ch as [|log ch]; [done|]. simplify_eq.
    split; simpl; try done. rewrite <- Hl. by rewrite <- app_assoc.
  - unfold Tomb_Stop_close in He. destruct (tStopClosed tb); [done|]. simplify_eq. by split.
Qed.

(** *** Stopping *)

(** The loop is not in a send, nor about to be in one, that nobody makes room for. *)
Definition junblocked (j : journaldWatcher) : bool :=
  match jPc j with
  | JNext | JSend _ => length (jLogCh j) <? logChCapacity
  | _ => true
  end.

Definition jown (a : jaction) : bool := match a with JaRecv | JaStop => false | _ => true end.

Lemma jleave_returns s : tDoneClosed (jTomb (jw s)) = false -> Tomb_Stop_returns (jTomb (jw (jleave s))) = true.
Proof. intros H. unfold jleave, Tomb_Done. by rewrite H. Qed.

(** Then the loop gets to its end, once it was told to stop. *)
Lemma junblocked_stops start s :
  jinv start s -> Tomb_Stopping (jTomb (jw s)) = true -> junblocked (jw s) = true ->
  exists tr s', Forall (fun a => jown a = true) tr /\ runs jexec s tr s' /\ Tomb_Stop_returns (jTomb (jw s')) = true.
Proof.
  intros [_ Hp Hd _] Hs Hu. unfold junblocked in Hu.
  assert (Hnd : jPc (jw s) <> JExited -> tDoneClosed (jTomb (jw s)) = false).
  { intros Hne. destruct (tDoneClosed _); [|done]. by destruct Hne; apply Hd. }
  assert (Hrun : forall tr s', run_from jexec s tr = Some s' -> Forall (fun a => jown a = true) tr ->
    Tomb_Stop_returns (jTomb (jw s')) = true ->
    exists tr s', Forall (fun a => jown a = true) tr /\ runs jexec s tr s' /\ Tomb_Stop_returns (jTomb (jw s')) = true).
  { intros tr s' Hr HF Ht. exists tr, s'. split_and!; [done|by apply run_from_runs|done]. }
  destruct (jPc (jw s)) as [| |log| |] eqn:Epc; [..|done].
  - eapply (Hrun [JaSelect]); [cbn; rewrite Epc, Hs; reflexivity|by repeat constructor|].
    apply jleave_returns. by apply Hnd.
  - eapply (Hrun [JaNext NextEnd; JaSelect]); [cbn; rewrite Epc; cbn; rewrite Hs; reflexivity|by repeat constructor|].
    apply jleave_returns. by apply Hnd.
  - eapply (Hrun [JaSend; JaSelect]);
      [cbn [run_from jexec]; rewrite Epc, Hu; cbn; rewrite Hs; reflexivity|by repeat constructor|].
    apply jleave_returns. by apply Hnd.
  - apply (Hrun [] s); [done|constructor|]. by apply Hd.
Qed.

Section Watching.
Variables (sysinfo : result Z) (now0 : Time) (cfg : WatcherConfig) (journal : result (Z * string))
  (j0 j : journaldWatcher).
Hypothesis Hnew : NewJournaldWatcher sysinfo now0 cfg = Ret j0.
Hypothesis Hwatch : journald_Watch journal j0 = Ok j.

Lemma jinv_reachable tr s : runs jexec (mkJSys j [] []) tr s -> jinv (jStartTime j) s.
Proof.
  apply runs_invariant; [apply jinv_step|]. unfold NewJournaldWatcher in Hnew.
  destruct (GetUptimeDuration sysinfo); [|done]. destruct (GetStartTime _ _ _ _); [|done].
  injection Hnew as <-. unfold journald_Watch in Hwatch. destruct journal; [|done].
  injection Hwatch as <-. by split.
Qed.

(** C35.  Journal entries reach the receiver complete and in order, whatever errors
    occur between them: what was received, what is in the channel and the log in
    hand are the logs of the entries read that are not older than the start
    time.  Stopping the watcher can complete when its channel has room or the loop
    is at its select; but once the loop is in the send on a full channel and a stop
    was requested, [Stop] returns in no reachable state. *)
Theorem journald_delivers_entries tr s :
  runs jexec (mkJSys j [] []) tr s ->
  jPc (jw s) <> JCrashed /\
  jrReceived s ++ jin_flight (jw s) = omap (jprocess (jStartTime j)) (jrEntries s) /\
  (Tomb_Stopping (jTomb (jw s)) = true -> length (jLogCh (jw s)) < logChCapacity \/ jPc (jw s) = JSelect ->
     exists tr' s', runs jexec s tr' s' /\ Tomb_Stop_returns (jTomb (jw s')) = true) /\
  (forall log, jPc (jw s) = JSend log -> length (jLogCh (jw s)) = logChCapacity ->
     Tomb_Stopping (jTomb (jw s)) = true ->
     forall tr' s', runs jexec s tr' s' -> Tomb_Stop_returns (jTomb (jw s')) = false).
Proof.
  intros Hr. pose proof (jinv_reachable _ _ Hr) as Hi. pose proof Hi as [_ Hp Hd Hl]. split_and!; [done|done| |].
  { intros Hs Hu. destruct (junblocked_stops _ _ Hi Hs) as (tr' & s' & _ & Hr' & Ht); [|by exists tr', s'].
    unfold junblocked. destruct Hu as [Hu| ->]; [|done]. rewrite (proj2 (Nat.ltb_lt _ _) Hu). by destruct (jPc _). }
  intros log Hpc Hlen Hstop tr' s' Hr'.
  assert (Hdead : forall a, jexec s a = None).
  { intros [|r| | |]; simpl; rewrite ?Hpc; try done.
    - by rewrite Hlen, Nat.ltb_irrefl.
    - by rewrite Hstop.
    - unfold Tomb_Stop_close. unfold Tomb_Stopping in Hstop. by rewrite Hstop. }
  rewrite (runs_dead _ _ _ _ Hdead Hr'). unfold Tomb_Stop_returns. destruct (tDoneClosed _); [|done].
  rewrite (proj1 Hd eq_refl) in Hpc. done.
Qed.
End Watching.

(** A kubelet journal with an error between two entries, the first too old. *)
Definition kubelet_cfg : WatcherConfig := mkWatcherConfig "journald" {[ "source" := "kubelet" ]} [] "" "5m" "".
Definition kubelet_now : Time := (unixEpoch + 1000 * Hour)%Z.
Definition kubelet_entries : list jaction :=
  [JaSelect; JaNext (NextEntry (mkEntry 7000000 {[ "MESSAGE" := "old" ]})); JaSelect; JaNext NextErr; JaSelect;
   JaNext (NextEntry (mkEntry 3600000000000 {[ "MESSAGE" := "PLEG is not healthy " ]})); JaSend].

Definition kubelet_new : journaldWatcher :=
  match NewJournaldWatcher (Ok 7200%Z) kubelet_now kubelet_cfg with
  | Ret j => j
  | Panic _ => mkJW None kubelet_cfg 0%Z [] NewTomb JSelect
  end.
Definition kubelet_journal : result (Z * string) := Ok (0%Z, "SYSLOG_IDENTIFIER=kubelet").
Definition kubelet_watching : journaldWatcher :=
  match journald_Watch kubelet_journal kubelet_new with Ok j => j | Err _ => kubelet_new end.
Definition kubelet_end : jsys :=
  default (mkJSys kubelet_watching [] []) (run_from jexec (mkJSys kubelet_watching [] []) kubelet_entries).

(** 1001 entries while the log monitor receives nothing, then [Stop]. *)
Definition kubelet_entry : list jaction :=
  [JaSelect; JaNext (NextEntry (mkEntry 3600000000000 {[ "MESSAGE" := "PLEG is not healthy" ]})); JaSend].
Definition kubelet_flood : list jaction := concat (replicate 1000 kubelet_entry) ++ take 2 kubelet_entry ++ [JaStop].

Definition in_full_send (s : jsys) : bool :=
  match jPc (jw s) with JSend _ => true | _ => false end && (length (jLogCh (jw s)) =? logChCapacity) &&
  Tomb_Stopping (jTomb (jw s)).

Lemma journald_delivers_entries_witness :
  (jrReceived kubelet_end ++ jin_flight (jw kubelet_end) = [mkLog (unixEpoch + 1000 * Hour) "PLEG is not healthy"] /\
   jPc (jw kubelet_end) <> JCrashed) /\
  (exists s, runs jexec (mkJSys kubelet_watching [] []) kubelet_flood s /\
     forall tr' s', runs jexec s tr' s' -> Tomb_Stop_returns (jTomb (jw s')) = false).
Proof.
  pose proof (journald_delivers_entries (Ok 7200%Z) kubelet_now kubelet_cfg kubelet_journal kubelet_new
    kubelet_watching eq_refl eq_refl) as Hthm. split.
  - assert (Hr : runs jexec (mkJSys kubelet_watching [] []) kubelet_entries kubelet_end).
    { apply run_from_runs. unfold kubelet_end. destruct (run_from _ _ _) eqn:E; [reflexivity|].
      vm_compute in E. discriminate E. }
    destruct (Hthm kubelet_entries kubelet_end Hr) as (Hp & Hl & _).
    split; [rewrite Hl; vm_compute; reflexivity | exact Hp].
  - assert (E : match run_from jexec (mkJSys kubelet_watching [] []) kubelet_flood with
                | Some s => in_full_send s | None => false end = true) by (vm_compute; reflexivity).
    destruct (run_from jexec (mkJSys kubelet_watching [] []) kubelet_flood) as [s|] eqn:Er; [|discriminate E].
    pose proof (run_from_runs _ _ _ _ Er) as Hr. exists s. split; [exact Hr|].
    destruct (Hthm kubelet_flood s Hr) as (_ & _ & _ & Hb). unfold in_full_send in E.
    apply andb_true_iff in E as [E Es]. apply andb_true_iff in E as [Ep El]. apply Nat.eqb_eq in El.
    destruct (jPc (jw s)) as [| |log| |] eqn:Epc; try discriminate Ep.
    exact (Hb log eq_refl El Es).
Defined.
