(* ===== verification/LogSources.v ===== *)
(** What the goroutines that feed a monitor promise to it, as a class: [Source],
    and [LogWatcher] for the sources of logs ([types.LogWatcher] of
    [pkg/systemlogmonitor/logwatchers/types]), of which the three watchers and the
    fake are instances.

    A source is a transition system; the receive of the monitor is kept apart from
    its other steps.  Its promise: when nothing is between the source and the
    monitor, the monitor has received exactly what the source makes of what it
    read, in order. *)

From S2P Require Import Prelude GoStrings GoTime Types LogMonitor ProblemDetector Transitions FilelogWatcher KmsgWatcher JournaldWatcher.

(* @ pkg/systemlogmonitor/logwatchers/types/log_watcher.go:23-29 LogWatcher *)
Class Source (X W A : Type) : Type := {
  watch_step : W -> A -> option W;           (* the steps of its goroutine and of its source *)
  watch_recv : W -> option (X * W);          (* the monitor receives *)
  watch_inv : W -> Prop;
  received : W -> list X;
  produced : W -> list X;                    (* what it made of what it read *)
  settled : W -> bool;                       (* nothing in between *)
  watch_step_inv : forall w a w', watch_inv w -> watch_step w a = Some w' ->
    watch_inv w' /\ received w' = received w;
  watch_recv_inv : forall w x w', watch_inv w -> watch_recv w = Some (x, w') ->
    watch_inv w' /\ received w' = received w ++ [x];
  settled_received : forall w, watch_inv w -> settled w = true -> received w = produced w
}.
Abbreviation LogWatcher := (Source Log).

(** ** The file log watcher *)
Section Filelog.
Variable time_ParseInLocation : string -> string -> result Time.
Variable Time_Year : Time -> Z.
Variable Time_AddYears : Time -> Z -> Time.
Local Abbreviation fexec := (fexec time_ParseInLocation Time_Year Time_AddYears).
Local Abbreviation finv := (finv time_ParseInLocation Time_Year Time_AddYears).

Definition file_step (s : fsys) (a : faction) : option fsys :=
  match a with FaRecv => None | _ => fexec s a end.
Definition file_recv (s : fsys) : option (Log * fsys) :=
  log ← head (fLogCh (fw s)); s' ← fexec s FaRecv; Some (log, s').
Definition file_produced (s : fsys) : list Log :=
  processed time_ParseInLocation Time_Year Time_AddYears (fw s) (frLines s).

Lemma file_step_received s a s' : a <> FaRecv -> fexec s a = Some s' -> frReceived s' = frReceived s.
Proof.
  intros Ha. unfold FilelogWatcher.fexec, Tomb_Stop_close. repeat case_match; try done; by intros [= <-].
Qed.

Definition filelog_LogWatcher : LogWatcher fsys faction.
Proof.
  refine {| watch_step := file_step; watch_recv := file_recv; watch_inv := fun s => exists w0, finv w0 s;
            received := frReceived; produced := file_produced;
            settled := fun s => match in_flight (fw s) with [] => true | _ => false end |}.
  - intros s a s' [w0 Hi] He. destruct a; try done;
      (split; [exists w0; exact (finv_step _ _ _ _ _ _ _ Hi He)|by apply (fun H => file_step_received _ _ _ H He)]).
  - intros s log s' [w0 Hi]. unfold file_recv. destruct (fLogCh (fw s)) as [|lg ch] eqn:E; [done|].
    cbn [head mbind option_bind]. destruct (fexec s FaRecv) as [s1|] eqn:Er; [|done]. intros [= <- <-].
    split; [exists w0; exact (finv_step _ _ _ _ _ _ _ Hi Er)|]. cbn in Er. rewrite E in Er. destruct (Tomb_Stopping _); [done|].
    by injection Er as <-.
  - intros s [w0 [(Hc & Ht & Hs) _ Hl _ _ _ _]] Hset. unfold file_produced, processed. rewrite Hc, Ht, Hs.
    destruct (in_flight (fw s)); [|done]. by rewrite app_nil_r in Hl.
Defined.
End Filelog.

(** ** The kernel log watcher *)
Definition kmsg_step (s : ksys) (a : kaction) : option ksys :=
  match a with KaRecv => None | _ => kexec s a end.
Definition kmsg_recv (s : ksys) : option (Log * ksys) :=
  log ← head (kLogCh (kw s)); s' ← kexec s KaRecv; Some (log, s').
Definition kmsg_settled (s : ksys) : bool :=
  match kPc (kw s), kin_flight (kw s) with KExited, _ => false | _, [] => true | _, _ => false end.

Lemma kleave_received s : krReceived (kleave s) = krReceived s.
Proof. unfold kleave. repeat case_match; done. Qed.

Lemma kmsg_step_received s a s' : a <> KaRecv -> kexec s a = Some s' -> krReceived s' = krReceived s.
Proof.
  intros Ha. destruct a as [|m|now| |now|r now| |]; cbn; try done; unfold tick, Tomb_Stop_close.
  all: destruct (kPc (kw s)); repeat case_match; try done; intros [= <-]; rewrite ?kleave_received; try done.
  all: unfold onClosed, retryCreateParser, retry_start; repeat case_match; done.
Qed.

#[export] Instance kmsg_LogWatcher : LogWatcher ksys kaction.
Proof.
  refine {| watch_step := kmsg_step; watch_recv := kmsg_recv; watch_inv := fun s => exists t, kinv t s;
            received := krReceived; produced := fun s => omap (kprocess (kStartTime (kw s))) (krMessages s);
            settled := kmsg_settled |}.
  - intros s a s' [w0 Hi] He. destruct a; try done;
      (split; [exists w0; exact (kinv_step _ _ _ _ Hi He)|by apply (fun H => kmsg_step_received _ _ _ H He)]).
  - intros s log s' [w0 Hi]. unfold kmsg_recv. destruct (kLogCh (kw s)) as [|lg ch] eqn:E; [done|].
    cbn [head mbind option_bind]. destruct (kexec s KaRecv) as [s1|] eqn:Er; [|done]. intros [= <- <-].
    split; [exists w0; exact (kinv_step _ _ _ _ Hi Er)|]. unfold kexec in Er. rewrite E in Er.
    destruct (Tomb_Stopping _), (kPc (kw s)); try done; by injection Er as <-.
  - intros s [t Hi] Hset. destruct (kinv_logs _ _ Hi) as (dr & Hdr & Hl). rewrite (kinv_start _ _ Hi), <- Hl.
    unfold kmsg_settled in Hset. destruct (kin_flight (kw s)); [|by destruct (kPc (kw s))].
    destruct Hdr as [->|[Hp _]]; [by rewrite app_nil_r|]. by rewrite Hp in Hset.
Defined.

(** ** The journald watcher *)
Definition journal_step (s : jsys) (a : jaction) : option jsys :=
  match a with JaRecv => None | _ => jexec s a end.
Definition journal_recv (s : jsys) : option (Log * jsys) :=
  log ← head (jLogCh (jw s)); s' ← jexec s JaRecv; Some (log, s').

Lemma journal_step_received s a s' : a <> JaRecv -> jexec s a = Some s' -> jrReceived s' = jrReceived s.
Proof.
  intros Ha. destruct a as [|r| | |]; cbn; try done; unfold Tomb_Stop_close, jleave;
    destruct (jPc (jw s)); repeat case_match; try done; by intros [= <-].
Qed.

#[export] Instance journald_LogWatcher : LogWatcher jsys jaction.
Proof.
  refine {| watch_step := journal_step; watch_recv := journal_recv; watch_inv := fun s => exists t, jinv t s;
            received := jrReceived; produced := fun s => omap (jprocess (jStartTime (jw s))) (jrEntries s);
            settled := fun s => match jin_flight (jw s) with [] => true | _ => false end |}.
  - intros s a s' [w0 Hi] He. destruct a; try done;
      (split; [exists w0; exact (jinv_step _ _ _ _ Hi He)|by apply (fun H => journal_step_received _ _ _ H He)]).
  - intros s log s' [w0 Hi]. unfold journal_recv. destruct (jLogCh (jw s)) as [|lg ch] eqn:E; [done|].
    cbn [head mbind option_bind]. destruct (jexec s JaRecv) as [s1|] eqn:Er; [|done]. intros [= <- <-].
    split; [exists w0; exact (jinv_step _ _ _ _ Hi Er)|]. unfold jexec in Er. rewrite E in Er.
    destruct (Tomb_Stopping _), (jPc (jw s)); try done; by injection Er as <-.
  - intros s [t [Hs _ _ Hl]] Hset. rewrite Hs, <- Hl. destruct (jin_flight (jw s)); [|done]. by rewrite app_nil_r.
Defined.

(** ** The watcher of the tests *)

(** The channel, what was received of it, all that was injected, and the error of
    [Watch]. *)
(* @ pkg/systemlogmonitor/logwatchers/testing/fake_log_watcher.go:26-31 FakeLogWatcher *)
Record FakeLogWatcher : Type := mkFakeWatcher {
  fkCap : nat; fkBuf : list Log; fkClosed : bool; fkErr : option string;
  fkReceived : list Log; fkInjected : list Log
}.

(* @ pkg/systemlogmonitor/logwatchers/testing/fake_log_watcher.go:35-37 NewFakeLogWatcher *)
Definition NewFakeLogWatcher (bufferSize : nat) : FakeLogWatcher := mkFakeWatcher bufferSize [] false None [] [].

(** The send blocks ([None]) while the channel is full, and panics when it is closed. *)
(* @ pkg/systemlogmonitor/logwatchers/testing/fake_log_watcher.go:39-42 InjectLog *)
Definition InjectLog (f : FakeLogWatcher) (log : Log) : option (outcome FakeLogWatcher) :=
  if fkClosed f then Some (Panic "send on closed channel")
  else if length (fkBuf f) <? fkCap f
  then Some (Ret (mkFakeWatcher (fkCap f) (fkBuf f ++ [log]) false (fkErr f) (fkReceived f) (fkInjected f ++ [log])))
  else None.

(* @ pkg/systemlogmonitor/logwatchers/testing/fake_log_watcher.go:44-49 InjectError *)
Definition InjectWatchError (f : FakeLogWatcher) (err : string) : FakeLogWatcher :=
  mkFakeWatcher (fkCap f) (fkBuf f) (fkClosed f) (Some err) (fkReceived f) (fkInjected f).

(* @ pkg/systemlogmonitor/logwatchers/testing/fake_log_watcher.go:51-54 Watch *)
Definition fake_Watch (f : FakeLogWatcher) : result unit := match fkErr f with None => Ok tt | Some e => Err e end.

(* @ pkg/systemlogmonitor/logwatchers/testing/fake_log_watcher.go:56-59 Stop *)
Definition fake_Stop (f : FakeLogWatcher) : outcome FakeLogWatcher :=
  if fkClosed f then Panic "close of closed channel"
  else Ret (mkFakeWatcher (fkCap f) (fkBuf f) true (fkErr f) (fkReceived f) (fkInjected f)).

Inductive fake_action : Type := FkInject (log : Log) | FkError (err : string) | FkStop.

Definition fake_step (f : FakeLogWatcher) (a : fake_action) : option FakeLogWatcher :=
  match a with
  | FkInject log => match InjectLog f log with Some (Ret f) => Some f | _ => None end
  | FkError err => Some (InjectWatchError f err)
  | FkStop => match fake_Stop f with Ret f => Some f | Panic _ => None end
  end.

(** The fake keeps the promise too. *)
#[export] Instance fake_LogWatcher : LogWatcher FakeLogWatcher fake_action.
Proof.
  refine {| watch_step := fake_step;
            watch_recv := fun f =>
              match fkBuf f with
              | log :: buf => Some (log, mkFakeWatcher (fkCap f) buf (fkClosed f) (fkErr f) (fkReceived f ++ [log]) (fkInjected f))
              | [] => None
              end;
            watch_inv := fun f => fkReceived f ++ fkBuf f = fkInjected f;
            received := fkReceived; produced := fkInjected;
            settled := fun f => match fkBuf f with [] => true | _ => false end |}.
  - intros f [log|err|] f' Hi; cbn; unfold InjectLog, fake_Stop; repeat case_match; try done; intros [= <-]; simplify_eq/=;
      (split; [|done]); cbn; by rewrite ?app_assoc, ?Hi.
  - intros f log f' Hi. destruct (fkBuf f) as [|lg buf]; [done|]. intros [= <- <-]. cbn. split; [|done]. by rewrite <- app_assoc.
  - intros f Hi. destruct (fkBuf f); [|done]. by rewrite app_nil_r in Hi.
Defined.

(** ** Watchers of two kinds *)
#[export] Instance sum_LogWatcher {W1 A1 W2 A2} (I1 : LogWatcher W1 A1) (I2 : LogWatcher W2 A2) :
  LogWatcher (W1 + W2) (A1 + A2).
Proof.
  refine {|
    watch_step := fun w a =>
      match w, a with
      | inl w, inl a => inl <$> watch_step w a
      | inr w, inr a => inr <$> watch_step w a
      | _, _ => None
      end;
    watch_recv := fun w =>
      match w with
      | inl w => '(log, w) ← watch_recv w; Some (log, inl w)
      | inr w => '(log, w) ← watch_recv w; Some (log, inr w)
      end;
    watch_inv := fun w => match w with inl w => watch_inv w | inr w => watch_inv w end;
    received := fun w => match w with inl w => received w | inr w => received w end;
    produced := fun w => match w with inl w => produced w | inr w => produced w end;
    settled := fun w => match w with inl w => settled w | inr w => settled w end |}.
  - intros [w|w] [a|a] w' Hi He; try done; destruct (watch_step w a) as [w1|] eqn:E; try done;
      injection He as <-; by eapply watch_step_inv.
  - intros [w|w] log w' Hi He; destruct (watch_recv w) as [[lg w1]|] eqn:E; try done;
      injection He as <- <-; by eapply watch_recv_inv.
  - intros [w|w] Hi Hs; by apply settled_received.
Defined.

(** ** Sources of two kinds of inputs *)
#[export] Instance either_Source {X1 W1 A1 X2 W2 A2} (I1 : Source X1 W1 A1) (I2 : Source X2 W2 A2) :
  Source (X1 + X2) (W1 + W2) (A1 + A2).
Proof.
  refine {|
    watch_step := fun w a =>
      match w, a with
      | inl w, inl a => inl <$> watch_step w a
      | inr w, inr a => inr <$> watch_step w a
      | _, _ => None
      end;
    watch_recv := fun w =>
      match w with
      | inl w => '(x, w) ← watch_recv w; Some (inl x, inl w)
      | inr w => '(x, w) ← watch_recv w; Some (inr x, inr w)
      end;
    watch_inv := fun w => match w with inl w => watch_inv w | inr w => watch_inv w end;
    received := fun w => match w with inl w => inl <$> received w | inr w => inr <$> received w end;
    produced := fun w => match w with inl w => inl <$> produced w | inr w => inr <$> produced w end;
    settled := fun w => match w with inl w => settled w | inr w => settled w end |}.
  - intros [w|w] [a|a] w' Hi He; try done; destruct (watch_step w a) as [w1|] eqn:E; try done;
      injection He as <-; destruct (watch_step_inv _ _ _ Hi E) as [H1 ->]; done.
  - intros [w|w] x w' Hi He; destruct (watch_recv w) as [[lg w1]|] eqn:E; try done;
      injection He as <- <-; destruct (watch_recv_inv _ _ _ Hi E) as [H1 ->]; by rewrite fmap_app.
  - intros [w|w] Hi Hs; by rewrite (settled_received w Hi Hs).
Defined.
