(* ===== verification/PluginSource.v ===== *)
(** The plugin of a custom plugin monitor as a [Source] of results
    ([pkg/custompluginmonitor/plugin/plugin.go]): the life cycle of
    [PluginLifecycle] as an executable step, proved to be the same steps, and with
    the contents of the results on their way to the monitor. *)

From S2P Require Import Prelude GoStrings GoTime GoConv Types LogMonitor ProblemDetector Transitions FilelogWatcher KmsgWatcher JournaldWatcher LogSources CustomPluginConfig Plugin PluginLifecycle.
Import Cpm Plugin.

(** A step of a batch: its launcher, which [BStop]s where its select finds the
    tomb stopping, or worker [j], which may give up instead of sending ([BDrop]). *)
Inductive bact : Type := BAcquire | BStop | BLaunch | BLoopEnd | BReturn | BWorker (j : nat) | BDrop (j : nat).

(** A step of the plugin: of batch [k], of [Run] or of group [g]. *)
Inductive lact : Type :=
| LaBatch (k : nat) (a : bact)
| LaBoot
| LaTick (g : nat)
| LaReturn (g : nat)
| LaGroupStop (g : nat)
| LaExit
| LaIdle
| LaStop.

Definition is_returned_with (p : pool) (k : nat) : option bool :=
  b ← batches p !! k; match bPhase b with LReturned ok => Some ok | _ => None end.

Section Exec.
Variable cap : nat.
Variable groups : list intervalGroup.

(* @ pkg/custompluginmonitor/plugin/plugin.go:152-209 runRules *)
Definition bexec (b : batch) (n : nat) (st : bool) (a : bact) : option (batch * nat) :=
  let '(mkBatch rs todo ph fl sent) := b in
  match a with
  | BAcquire =>
    match todo, ph with
    | _ :: _, LLoop => if n <? cap then Some (mkBatch rs todo LHolding fl sent, S n) else None
    | _, _ => None
    end
  | BStop =>
    match st, todo, ph, n with
    | true, _ :: _, LLoop, _ => Some (mkBatch rs todo (LWait false) fl sent, n)
    | true, _, LHolding, S n => Some (mkBatch rs todo (LWait false) fl sent, n)
    | _, _, _, _ => None
    end
  | BLaunch =>
    match st, todo, ph with
    | false, r :: todo, LHolding => Some (mkBatch rs todo LLoop (fl ++ [(r, WStarted)]) sent, n)
    | _, _, _ => None
    end
  | BLoopEnd => match todo, ph with [], LLoop => Some (mkBatch rs [] (LWait true) fl sent, n) | _, _ => None end
  | BReturn => match ph, fl with LWait ok, [] => Some (mkBatch rs todo (LReturned ok) [] sent, n) | _, _ => None end
  | BWorker j =>
    match fl !! j, st, n with
    | Some (r, WStarted), true, S n => Some (mkBatch rs todo ph (take j fl ++ drop (S j) fl) sent, n)
    | Some (r, WStarted), false, n => Some (mkBatch rs todo ph (take j fl ++ (r, WRunning) :: drop (S j) fl) sent, n)
    | Some (r, WRunning), _, n => Some (mkBatch rs todo ph (take j fl ++ (r, WDone) :: drop (S j) fl) sent, n)
    | Some (r, WDone), _, S n => Some (mkBatch rs todo ph (take j fl ++ drop (S j) fl) (sent ++ [r]), n)
    | _, _, _ => None
    end
  | BDrop j =>
    match fl !! j, st, n with
    | Some (r, WDone), true, S n => Some (mkBatch rs todo ph (take j fl ++ drop (S j) fl) sent, n)
    | _, _, _ => None
    end
  end.

Lemma bexec_sound b n st a b' n' : bexec b n st a = Some (b', n') -> bstep cap b n st b' n'.
Proof.
  destruct b as [rs todo ph fl sent]. destruct a as [| | | | |j|j]; cbn [bexec].
  - destruct todo, ph; try done. destruct (Nat.ltb_spec n cap); [|done]. intros [= <- <-]. by constructor.
  - destruct st; [|done]. destruct todo, ph, n; try done; intros [= <- <-]; constructor.
  - destruct st; [done|]. destruct todo, ph; try done. intros [= <- <-]. constructor.
  - destruct todo, ph; try done. intros [= <- <-]. constructor.
  - destruct ph, fl; try done. intros [= <- <-]. constructor.
  - destruct (fl !! j) as [[r wp]|] eqn:Ej; [|done]. pose proof (take_drop_middle _ _ _ Ej) as E. clear Ej.
    revert E. generalize (take j fl) (drop (S j) fl). intros l1 l2 <-.
    destruct wp, st, n; try done; intros [= <- <-]; constructor.
  - destruct (fl !! j) as [[r wp]|] eqn:Ej; [|done]. pose proof (take_drop_middle _ _ _ Ej) as E. clear Ej.
    revert E. generalize (take j fl) (drop (S j) fl). intros l1 l2 <-.
    destruct wp, st, n; try done; intros [= <- <-]; constructor.
Qed.

Lemma bexec_complete b n st b' n' : bstep cap b n st b' n' -> exists a, bexec b n st a = Some (b', n').
Proof.
  assert (Hmid : forall l1 x (l2 : list (CustomRule * wphase)), (l1 ++ x :: l2) !! length l1 = Some x /\
    take (length l1) (l1 ++ x :: l2) = l1 /\ drop (S (length l1)) (l1 ++ x :: l2) = l2).
  { intros l1 x l2. rewrite lookup_app_r, Nat.sub_diag, take_app_length by done. split_and!; try done.
    replace (l1 ++ x :: l2) with ((l1 ++ [x]) ++ l2) by (by rewrite <- app_assoc).
    rewrite drop_app_length'; [done|]. rewrite length_app. cbn. lia. }
  destruct 1 as [rs r todo fl sent n st Hn|rs r todo fl sent n|rs todo fl sent n|rs r todo fl sent n|rs fl sent n st
    |rs todo ok sent n st|rs todo ph l1 r l2 sent n|rs todo ph l1 r l2 sent n|rs todo ph l1 r l2 sent n st
    |rs todo ph l1 r l2 sent n st|rs todo ph l1 r l2 sent n].
  - exists BAcquire. cbn [bexec]. by rewrite (proj2 (Nat.ltb_lt _ _) Hn).
  - by exists BStop.
  - exists BStop. cbn. by destruct todo.
  - by exists BLaunch.
  - by exists BLoopEnd.
  - by exists BReturn.
  - exists (BWorker (length l1)). cbn. destruct (Hmid l1 (r, WStarted) l2) as (-> & -> & ->). done.
  - exists (BWorker (length l1)). cbn. destruct (Hmid l1 (r, WStarted) l2) as (-> & -> & ->). done.
  - exists (BWorker (length l1)). cbn. destruct (Hmid l1 (r, WRunning) l2) as (-> & -> & ->). by destruct st.
  - exists (BWorker (length l1)). cbn. destruct (Hmid l1 (r, WDone) l2) as (-> & -> & ->). by destruct st.
  - exists (BDrop (length l1)). cbn. destruct (Hmid l1 (r, WDone) l2) as (-> & -> & ->). done.
Qed.

Definition set_group (s : life) (gs : list group_pc) (g : nat) (pc : group_pc) (p : pool) : life :=
  mkLife p (RGroups (<[g := pc]> gs)) (lfResults s) (lfClosed s) (lfPanic s).
Definition finish (s : life) : life := mkLife (lfPool s) RExited (lfResults s) true (lfPanic s || lfClosed s).

(* @ pkg/custompluginmonitor/plugin/plugin.go:74-143 Run *)
Definition lexec (s : life) (a : lact) : option life :=
  let p := lfPool s in
  match a, lfRun s with
  | LaBatch k a, _ =>
    b ← batches p !! k; bn ← bexec b (tokens p) (stopping p) a;
    let new := new_results b bn.1 in
    if (length (lfResults s ++ new) <=? resultCap) || (length new =? 0)
    then Some (mkLife (mkPool (<[k := bn.1]> (batches p)) bn.2 (stopping p)) (lfRun s) (lfResults s ++ new) (lfClosed s)
                 (lfPanic s || (lfClosed s && negb (bool_decide (new = [])))))
    else None
  | LaBoot, RBoot k =>
    ok ← is_returned_with p k;
    Some (if ok : bool
          then mkLife p (RGroups ((fun _ => GSelect) <$> groups)) (lfResults s) (lfClosed s) (lfPanic s)
          else finish s)
  | LaTick g, RGroups gs =>
    gr ← groups !! g;
    match gs !! g with
    | Some GSelect =>
      Some (set_group s gs g (GBatch (length (batches p)))
              (mkPool (batches p ++ [new_batch (giRules gr)]) (tokens p) (stopping p)))
    | _ => None
    end
  | LaReturn g, RGroups gs =>
    match gs !! g with
    | Some (GBatch k) => ok ← is_returned_with p k; Some (set_group s gs g (if ok : bool then GSelect else GExited) p)
    | _ => None
    end
  | LaGroupStop g, RGroups gs =>
    match gs !! g with
    | Some GSelect => if stopping p then Some (set_group s gs g GExited p) else None
    | _ => None
    end
  | LaExit, RGroups gs => if bool_decide (Forall (fun pc => pc = GExited) gs) then Some (finish s) else None
  | LaIdle, RIdle => if stopping p then Some (finish s) else None
  | LaStop, _ =>
    match Plugin_Stop p with
    | Ret p => Some (mkLife p (lfRun s) (lfResults s) (lfClosed s) (lfPanic s))
    | Panic _ => None
    end
  | _, _ => None
  end.

Lemma is_returned_with_spec p k ok : is_returned_with p k = Some ok <-> returned p k ok.
Proof.
  unfold is_returned_with, returned. destruct (batches p !! k) as [b|]; cbn; [|split; [done|by intros (? & ? & _)]].
  split; [destruct (bPhase b) eqn:E; try done; intros [= ->]; eauto|]. intros (b' & [= <-] & ->). done.
Qed.

(** The executable steps are those of the relation. *)
Lemma lexec_sound s a s' : lexec s a = Some s' -> lcstep cap groups s s'.
Proof.
  destruct s as [[bs n st] run q cl pn]. destruct a as [k a| |g|g|g| | |]; cbn.
  - destruct (bs !! k) as [b|] eqn:Ek; [|by destruct run]. cbn. destruct (bexec b n st a) as [[b' n']|] eqn:Eb; [|by destruct run]. cbn.
    destruct ((length (q ++ new_results b b') <=? resultCap) || (length (new_results b b') =? 0)) eqn:Ec; [|by destruct run].
    assert (Hc : length (q ++ new_results b b') <= resultCap \/ new_results b b' = []).
    { apply orb_true_iff in Ec as [Ec|Ec]; [left; by apply Nat.leb_le|right; by apply nil_length_inv, Nat.eqb_eq]. }
    destruct run; intros [= <-]; (apply lc_batch; [done|by eapply bexec_sound|done]).
  - destruct run as [|k|gs|]; try done. destruct (is_returned_with _ k) as [ok|] eqn:E; [|done]. cbn.
    apply is_returned_with_spec in E. intros [= <-]. pose proof (lc_boot cap groups _ q cl pn k ok E) as H. by destruct ok.
  - destruct run as [|k|gs|]; try done. destruct (groups !! g) as [gr|] eqn:Eg; [|done]. cbn.
    destruct (gs !! g) as [[]|] eqn:E; try done. intros [= <-]. eapply lc_group; [done|by apply g_tick].
  - destruct run as [|k|gs|]; try done. destruct (gs !! g) as [[|k|]|] eqn:E; try done.
    destruct (is_returned_with _ k) as [ok|] eqn:Er; [|done]. cbn. apply is_returned_with_spec in Er.
    intros [= <-]. eapply lc_group; [done|by apply g_return].
  - destruct run as [|k|gs|]; try done. destruct (gs !! g) as [[]|] eqn:E; try done. destruct st; [|done].
    intros [= <-]. eapply lc_group; [done|by apply g_stop].
  - destruct run as [|k|gs|]; try done. case_bool_decide; [|done]. intros [= <-]. by apply lc_exit.
  - destruct run as [|k|gs|]; try done. destruct st; [|done]. intros [= <-]. by apply lc_idle.
  - destruct (Plugin_Stop _) as [p'|] eqn:E; [|by destruct run]. destruct run; intros [= <-]; by apply lc_stop.
Qed.

(** And the other way round: every step of the relation but the receive of the
    monitor can be executed. *)
Lemma lexec_complete s s' :
  lcstep cap groups s s' ->
  (exists a, lexec s a = Some s') \/
  (exists r, stopping (lfPool s) = false /\ lfResults s = r :: lfResults s' /\
     s' = mkLife (lfPool s) (lfRun s) (lfResults s') (lfClosed s) (lfPanic s)).
Proof.
  destruct 1 as [bs n st run q cl pn k b b' n' Hk Hb Hc|p q cl pn k ok Hret|p p' gs q cl pn g pc pc' Hg Hs
    |p gs q cl pn HF|p q cl pn Hs|p p' run q cl pn Hs|p run r q cl pn Hs]; [left..|right; by exists r].
  - destruct (bexec_complete _ _ _ _ _ Hb) as [a Ha]. exists (LaBatch k a). cbn. rewrite Hk. cbn. rewrite Ha. cbn.
    assert ((length (q ++ new_results b b') <=? resultCap) || (length (new_results b b') =? 0) = true) as ->.
    { apply orb_true_iff. destruct Hc as [Hc| ->]; [left; by apply Nat.leb_le|by right]. }
    by destruct run.
  - exists LaBoot. cbn. rewrite (proj2 (is_returned_with_spec _ _ _) Hret). cbn. by destruct ok.
  - destruct Hs as [bs n st g gr Hgr|p g k ok Hret|p g Hs].
    + exists (LaTick g). cbn. rewrite Hgr. cbn. by rewrite Hg.
    + exists (LaReturn g). cbn. rewrite Hg, (proj2 (is_returned_with_spec _ _ _) Hret). done.
    + exists (LaGroupStop g). cbn. by rewrite Hg, Hs.
  - exists LaExit. cbn. by rewrite bool_decide_true.
  - exists LaIdle. cbn. by rewrite Hs.
  - exists LaStop. cbn. rewrite Hs. by destruct run.
Qed.

(** ** The results on their way *)

(** The channel with the contents of its results, what the monitor received of
    it, and all that was sent. *)
Record psource : Type := mkPSource {
  psLife : life;
  psQueue : list Result;
  psReceived : list Result;
  psSent : list Result
}.

(** A step, with what [run] returned to the worker that sends in it, if any does. *)
Definition plugin_step (s : psource) (a : lact * (Status * string)) : option psource :=
  let '(a, (exit, msg)) := a in
  l ← lexec (psLife s) a;
  let new := (fun r => mkResult r exit msg) <$> drop (length (lfResults (psLife s))) (lfResults l) in
  Some (mkPSource l (psQueue s ++ new) (psReceived s) (psSent s ++ new)).

(** The select of [monitorLoop] receives, until it stops the plugin. *)
Definition plugin_recv (s : psource) : option (Result * psource) :=
  let '(mkLife p run q cl pn) := psLife s in
  match stopping p, q, psQueue s with
  | false, _ :: q, r :: rs => Some (r, mkPSource (mkLife p run q cl pn) rs (psReceived s ++ [r]) (psSent s))
  | _, _, _ => None
  end.

Record psinv (s : psource) : Prop := mkPsInv {
  ps_life : linv cap groups (psLife s);
  ps_queue : resRule <$> psQueue s = lfResults (psLife s);
  ps_sent : psReceived s ++ psQueue s = psSent s
}.

(** A step appends to the channel. *)
Lemma lexec_results s a s' : lexec s a = Some s' -> exists new, lfResults s' = lfResults s ++ new.
Proof.
  unfold lexec, finish, set_group, Plugin_Stop.
  destruct a as [k a| |g|g|g| | |], (lfRun s) as [|j|gs|]; try done.
  1-4: destruct (batches (lfPool s) !! k) as [b|]; [|done]; cbn [mbind option_bind];
    destruct (bexec b _ _ a) as [[b' n']|]; [|done]; cbn [mbind option_bind fst snd]; destruct (_ || _); [|done];
    intros [= <-]; by exists (new_results b b').
  all: intros He; exists []; rewrite app_nil_r; revert He; unfold mbind, option_bind; repeat case_match; try done; by intros [= <-].
Qed.

Definition plugin_Source : Source Result psource (lact * (Status * string)).
Proof.
  refine {| watch_step := plugin_step; watch_recv := plugin_recv; watch_inv := psinv;
            received := psReceived; produced := psSent;
            settled := fun s => match psQueue s with [] => true | _ => false end |}.
  - intros s [a [exit msg]] s' [H1 H2 H3]. cbn. destruct (lexec (psLife s) a) as [l|] eqn:E; [|done]. cbn. intros [= <-].
    destruct (lexec_results _ _ _ E) as [new Hnew]. split; [|done]. constructor; cbn.
    + by eapply linv_step, lexec_sound.
    + rewrite Hnew, drop_app_length, fmap_app, H2, <- list_fmap_compose. f_equal. apply list_fmap_id.
    + by rewrite app_assoc, H3.
  - intros [[p run q cl pn] rq rc st] x s' [H1 H2 H3]. cbn in *. destruct (stopping p) eqn:Es; [done|].
    destruct q as [|r0 q]; [done|]. destruct rq as [|r rq]; [done|]. intros [= <- <-]. injection H2 as _ H2.
    split; [|done]. constructor; cbn; [|done|by rewrite <- app_assoc].
    eapply linv_step; [exact H1|]. by apply lc_recv.
  - intros s [H1 H2 H3] Hs. cbn in *. destruct (psQueue s); [|done]. by rewrite app_nil_r in H3.
Defined.
End Exec.

(** The plugin that [Start] runs. *)
Definition plugin_start (plan : run_plan) : psource := mkPSource (life_start plan) [] [] [].

Lemma plugin_start_inv cap cfg plan : Run cfg = Ret plan -> psinv cap (plan_groups plan) (plugin_start plan).
Proof. intros H. constructor; [by eapply linv_start|by destruct plan|done]. Qed.
