(* ===== verification/StopSources.v ===== *)
(** What the sources promise to a monitor that stops them: the class [Stoppable]
    over [Source], with the watchers, the fake and the plugin as instances.

    A monitor that leaves its loop calls [Stop] of its source, which closes a
    channel and then waits for the goroutine of the source to end.  The promise is
    that the wait can end when the source is [unblocked]: the plugin and the kernel
    log watcher always are, for their sends have a stopping case; the journald and
    the file log watcher are not when they are in, or on the way to, a send to a
    full channel. *)

From S2P Require Import Prelude GoStrings GoTime Types LogMonitor ProblemDetector Transitions FilelogWatcher KmsgWatcher JournaldWatcher LogSources CustomPluginConfig Plugin PluginLifecycle PluginSource.
Import Cpm Plugin.

(* @ pkg/systemlogmonitor/logwatchers/types/log_watcher.go:23-29 LogWatcher *)
Class Stoppable (X W A : Type) {SW : Source X W A} : Type := {
  watch_stop : W -> option W;          (* [Stop] is called; [None]: it panics *)
  stop_asked : W -> bool;              (* it was *)
  watch_stopped : W -> bool;           (* it returns *)
  watch_ended : W -> bool;             (* the monitor finds the channel closed *)
  is_stop : A -> bool;                 (* the steps that are calls of [Stop] *)
  unblocked : W -> bool;
  watch_stop_law : forall w, watch_inv w -> stop_asked w = false ->
    exists w', watch_stop w = Some w' /\ watch_inv w' /\ stop_asked w' = true /\ unblocked w' = unblocked w;
  step_asked : forall w a w', is_stop a = false -> watch_step w a = Some w' -> stop_asked w' = stop_asked w;
  stop_completes : forall w, watch_inv w -> stop_asked w = true -> unblocked w = true ->
    exists tr w', Forall (fun a => is_stop a = false) tr /\ runs watch_step w tr w' /\ watch_stopped w' = true
}.

(** A run is enough, computed. *)
Lemma completes_by {X W A} {SW : Source X W A} (own : A -> bool) (done : W -> bool) w tr w' :
  run_from watch_step w tr = Some w' -> Forall (fun a => own a = false) tr -> done w' = true ->
  exists tr w', Forall (fun a => own a = false) tr /\ runs watch_step w tr w' /\ done w' = true.
Proof. intros Hr HF Hd. exists tr, w'. split_and!; [done|by apply run_from_runs|done]. Qed.

(** ** The file log watcher *)
Section Filelog.
Variable time_ParseInLocation : string -> string -> result Time.
Variable Time_Year : Time -> Z.
Variable Time_AddYears : Time -> Z -> Time.
Local Abbreviation fexec := (fexec time_ParseInLocation Time_Year Time_AddYears).

Definition funblocked (w : filelogWatcher) : bool :=
  match fPc w with FRead | FSend _ => length (fLogCh w) <? logChCapacity | _ => true end.
Definition file_is_stop (a : faction) : bool := match a with FaStop => true | _ => false end.

Lemma leave_returns w :
  fChClosed w = false -> tDoneClosed (fTomb w) = false -> Tomb_Stop_returns (fTomb (leave w)) = true.
Proof. intros Hc Hd. by rewrite leave_running. Qed.

Lemma leave_stopping w : Tomb_Stopping (fTomb (leave w)) = Tomb_Stopping (fTomb w).
Proof. unfold leave, Tomb_Done. repeat case_match; by simplify_eq. Qed.

Definition filelog_Stoppable :
  @Stoppable Log fsys faction (filelog_LogWatcher time_ParseInLocation Time_Year Time_AddYears).
Proof.
  unshelve refine {| watch_stop := fun s => fexec s FaStop; stop_asked := fun s => Tomb_Stopping (fTomb (fw s));
            watch_stopped := fun s => Tomb_Stop_returns (fTomb (fw s));
            watch_ended := fun s => match fLogCh (fw s) with [] => fChClosed (fw s) | _ => false end;
            is_stop := file_is_stop; unblocked := fun s => funblocked (fw s) |}.
  - intros s [w0 Hi] Hs. unfold FilelogWatcher.fexec, Tomb_Stop_close. unfold Tomb_Stopping in Hs. rewrite Hs.
    eexists. split; [reflexivity|]. split; [|done]. exists w0.
    by apply (finv_step _ _ _ w0 s FaStop _ Hi); cbn; unfold Tomb_Stop_close; rewrite Hs.
  - intros s a s' Ha. cbn. unfold file_step, FilelogWatcher.fexec. destruct a as [|line err now| | |]; try done.
    + destruct (fPc (fw s)); try done. intros [= <-]. cbn.
      destruct (Tomb_Stopping (fTomb (fw s))) eqn:E; [by rewrite leave_stopping|done].
    + destruct (fPc (fw s)); try done. destruct (read_ok line err); [|done]. intros [= <-].
      destruct err; cbn; [by destruct (FilelogWatcher.process _ _ _ _ _ _ _ _)|done|apply leave_stopping].
    + destruct (fPc (fw s)); try done. destruct (_ <? _); [|done]. by intros [= <-].
  - intros s [w0 [_ _ _ Hp Hd Hc _]] Hs Hu. unfold funblocked in Hu.
    assert (Hrun : fPc (fw s) <> FExited -> fChClosed (fw s) = false /\ tDoneClosed (fTomb (fw s)) = false).
    { intros Hne. split; apply not_true_is_false; intros E; apply Hne; [by apply Hc|by apply Hd]. }
    destruct (fPc (fw s)) as [| |log| |] eqn:Epc; [..|done].
    + eapply (completes_by file_is_stop _ _ [FaSelect]); [cbn; rewrite Epc, Hs; reflexivity|by repeat constructor|].
      apply leave_returns; by apply Hrun.
    + eapply (completes_by file_is_stop _ _ [FaRead "" EOF 0%Z; FaSelect]);
        [cbn; rewrite Epc; cbn; rewrite Hs; reflexivity|by repeat constructor|].
      apply leave_returns; by apply Hrun.
    + eapply (completes_by file_is_stop _ _ [FaSend; FaSelect]);
        [cbn [run_from watch_step filelog_LogWatcher file_step FilelogWatcher.fexec]; rewrite Epc, Hu; cbn; rewrite Hs; reflexivity
        |by repeat constructor|].
      apply leave_returns; by apply Hrun.
    + apply (completes_by file_is_stop _ s [] s); [done|constructor|]. by apply Hd.
Defined.
End Filelog.

(** ** The kernel log watcher *)
Definition kmsg_is_stop (a : kaction) : bool := match a with KaStop => true | _ => false end.

Lemma kleave_stopping s : Tomb_Stopping (kTomb (kw (kleave s))) = Tomb_Stopping (kTomb (kw s)).
Proof. unfold kleave, Tomb_Done. repeat case_match; by simplify_eq. Qed.

#[export] Instance kmsg_Stoppable : Stoppable Log ksys kaction.
Proof.
  unshelve refine {| watch_stop := fun s => kexec s KaStop; stop_asked := fun s => Tomb_Stopping (kTomb (kw s));
            watch_stopped := fun s => Tomb_Stop_returns (kTomb (kw s));
            watch_ended := fun s => match kLogCh (kw s) with [] => kChClosed (kw s) | _ => false end;
            is_stop := kmsg_is_stop; unblocked := fun _ => true |}.
  - intros s [t Hi] Hs.
    assert (He : exists s', kexec s KaStop = Some s' /\ Tomb_Stopping (kTomb (kw s')) = true).
    { unfold kexec, Tomb_Stop_close. unfold Tomb_Stopping in Hs. rewrite Hs. destruct (kPc (kw s)); by eexists. }
    destruct He as (s' & He & Ha). exists s'. split_and!; [done|exists t; by eapply kinv_step|done|done].
  - intros s a s' Ha. cbn. destruct a as [|m|now| |now|r now| |]; try done; cbn; unfold tick.
    all: destruct (kPc (kw s)); repeat case_match; try done; intros [= <-]; rewrite ?kleave_stopping; try done.
    all: unfold onClosed, retryCreateParser, retry_start; repeat case_match; done.
  - intros s [t Hi] Hs _. destruct (decide (tDoneClosed (kTomb (kw s)) = true)) as [Hd|Hd].
    { by apply (completes_by kmsg_is_stop _ s [] s). }
    assert (Hne : kPc (kw s) <> KExited) by (by intros E; apply (kinv_done _ _ Hi) in E).
    destruct (kinv_running _ _ Hi Hne) as [Hd' Hc].
    destruct (kPc (kw s)) eqn:Epc; try done.
    6: { by pose proof (kinv_parser _ _ Hi) as Hp; unfold kparser_ok in Hp; rewrite Epc in Hp. }
    4: { eapply (completes_by kmsg_is_stop _ _ [KaCreate NewFails (krClock s); KaStopping]); [|by repeat constructor|].
         - cbn. rewrite Epc. unfold tick. rewrite Z.leb_refl. cbn. rewrite Hs. reflexivity.
         - by apply kleave_returns. }
    all: eapply (completes_by kmsg_is_stop _ _ [KaStopping]); [cbn; rewrite Epc, Hs; reflexivity|by repeat constructor|].
    all: by apply kleave_returns.
Defined.

(** ** The journald watcher *)
#[export] Instance journald_Stoppable : Stoppable Log jsys jaction.
Proof.
  unshelve refine {| watch_stop := fun s => jexec s JaStop; stop_asked := fun s => Tomb_Stopping (jTomb (jw s));
            watch_stopped := fun s => Tomb_Stop_returns (jTomb (jw s)); watch_ended := fun _ => false;
            is_stop := fun a => match a with JaStop => true | _ => false end; unblocked := fun s => junblocked (jw s) |}.
  - intros s [t Hi] Hs.
    assert (He : exists s', jexec s JaStop = Some s' /\ Tomb_Stopping (jTomb (jw s')) = true /\ junblocked (jw s') = junblocked (jw s)).
    { unfold jexec, Tomb_Stop_close. unfold Tomb_Stopping in Hs. rewrite Hs. destruct (jPc (jw s)) eqn:E; eexists;
        (split; [done|]); unfold junblocked; cbn; by rewrite E. }
    destruct He as (s' & He & Ha & Hu). exists s'. split_and!; [done|exists t; by eapply jinv_step|done|done].
  - intros s a s' Ha. cbn. destruct a as [|r| | |]; try done; cbn; unfold jleave, Tomb_Done;
      destruct (jPc (jw s)); repeat case_match; try done; intros [= <-]; try done; by simplify_eq/=.
  - intros s [t Hi] Hs Hu. destruct (junblocked_stops t s Hi Hs Hu) as (tr & s' & HF & Hr & Hd).
    exists tr, s'. split_and!; [|clear Hu Hs Hd|done].
    + eapply Forall_impl; [exact HF|]. by intros [].
    + induction Hr as [|tr s1 a s2 Hr IH Ha]; [constructor|]. apply Forall_app in HF as [HF Ho]. apply Forall_inv in Ho.
      econstructor; [by apply IH|]. cbn. by destruct a.
Defined.

(** ** The watcher of the tests, whose [Stop] does not wait *)
#[export] Instance fake_Stoppable : Stoppable Log FakeLogWatcher fake_action.
Proof.
  unshelve refine {| watch_stop := fun f => fake_step f FkStop; stop_asked := fkClosed; watch_stopped := fkClosed;
            watch_ended := fun f => match fkBuf f with [] => fkClosed f | _ => false end;
            is_stop := fun a => match a with FkStop => true | _ => false end; unblocked := fun _ => true |}.
  - intros f Hi Hs. cbn. unfold fake_Stop. rewrite Hs. by eexists.
  - intros f [log|err|] f' Ha; cbn; unfold InjectLog; repeat case_match; try done; intros [= <-]; simplify_eq/=; try done.
  - intros f _ Hs _. by apply (completes_by _ _ f [] f).
Defined.

(** ** The plugin *)
Section Exec.
Variables (cap : nat) (groups : list intervalGroup).
Hypothesis groups_nonempty : Forall (fun gr => giRules gr <> []) groups.
Local Abbreviation lexec := (lexec cap groups).

Definition plugin_is_stop (a : lact * (Status * string)) : bool := match a.1 with LaStop => true | _ => false end.

(** Only a [Stop] stops. *)
Lemma lexec_stopping l a l' : a <> LaStop -> lexec l a = Some l' -> stopping (lfPool l') = stopping (lfPool l).
Proof.
  intros Ha. unfold PluginSource.lexec, finish, set_group, mbind, option_bind.
  destruct a as [k a| |g|g|g| | |], (lfRun l) as [|j|gs|]; try done; repeat case_match; try done; by intros [= <-].
Qed.

(** A stopped plugin runs to its end. *)
Lemma plugin_runs_out n s :
  life_work groups (psLife s) <= n -> psinv cap groups s -> stopping (lfPool (psLife s)) = true ->
  exists tr s', Forall (fun a => plugin_is_stop a = false) tr /\ runs (plugin_step cap groups) s tr s' /\
    lfClosed (psLife s') = true.
Proof.
  revert s. induction n as [n IH] using lt_wf_ind. intros s Hn Hi Hs. pose proof (ps_life _ _ _ Hi) as Hl.
  destruct (lfClosed (psLife s)) eqn:Ec; [exists [], s; by split_and!; [constructor|constructor|]|].
  destruct (life_progress cap groups _ Hl Hs) as [l' Hst]; [by intros E; apply (li_closed _ _ _ Hl) in E; congruence|].
  destruct (life_work_step cap groups groups_nonempty _ _ Hl Hs Hst) as [Hlt Hs'].
  destruct (lexec_complete cap groups _ _ Hst) as [[a Ha]|(r & Hf & _)]; [|congruence].
  assert (Hstep : exists s', plugin_step cap groups s (a, (OK, "")) = Some s' /\ psLife s' = l').
  { unfold plugin_step. rewrite Ha. cbn. by eexists. }
  destruct Hstep as (s' & Hstep & El).
  destruct (IH (life_work groups l') ltac:(lia) s') as (tr & s2 & HF & Hr & Hc).
  { by rewrite El. }
  { exact (proj1 (@watch_step_inv _ _ _ (plugin_Source cap groups) _ _ _ Hi Hstep)). }
  { by rewrite El. }
  exists ((a, (OK, "")) :: tr), s2. split_and!; [|by eapply (runs_app _ _ [_]); [apply runs_one|]|done].
  constructor; [|done]. unfold plugin_is_stop. destruct a; try done. cbn in Ha. unfold Plugin_Stop in Ha. rewrite Hs in Ha.
  by destruct (lfRun (psLife s)).
Qed.

(** The channel of results is closed only when the monitor has stopped the plugin,
    and does not receive any more. *)
Definition plugin_Stoppable : @Stoppable Result psource (lact * (Status * string)) (plugin_Source cap groups).
Proof.
  unshelve refine {| watch_stop := fun s => plugin_step cap groups s (LaStop, (OK, ""));
            stop_asked := fun s => stopping (lfPool (psLife s)); watch_stopped := fun s => lfClosed (psLife s);
            watch_ended := fun _ => false; is_stop := plugin_is_stop; unblocked := fun _ => true |}.
  - intros s Hi Hs.
    assert (He : exists s', plugin_step cap groups s (LaStop, (OK, "")) = Some s' /\ stopping (lfPool (psLife s')) = true).
    { unfold plugin_step, PluginSource.lexec, Plugin_Stop. rewrite Hs. cbn. destruct (lfRun (psLife s)); by eexists. }
    destruct He as (s' & He & Ha). exists s'. split_and!; [done| |done|done].
    exact (proj1 (@watch_step_inv _ _ _ (plugin_Source cap groups) _ _ _ Hi He)).
  - intros s [a [exit msg]] s' Ha. cbn. destruct (lexec (psLife s) a) as [l|] eqn:E; [|done]. intros [= <-]. cbn.
    eapply lexec_stopping; [|exact E]. by intros ->.
  - intros s Hi Hs _. exact (plugin_runs_out _ s (le_n _) Hi Hs).
Defined.
End Exec.

(** ** Sources of two kinds *)

(** A run of one of two systems is a run of their sum. *)
Lemma runs_map {W A W' A'} (exec : W -> A -> option W) (exec' : W' -> A' -> option W') (f : W -> W') (g : A -> A') w tr w' :
  (forall w a w', exec w a = Some w' -> exec' (f w) (g a) = Some (f w')) ->
  runs exec w tr w' -> runs exec' (f w) (g <$> tr) (f w').
Proof.
  intros H Hr. induction Hr as [|tr w1 a w2 Hr IH Ha]; [constructor|]. rewrite fmap_app. econstructor; [exact IH|by apply H].
Qed.

Section Sum.
Context {X1 W1 A1 X2 W2 A2 : Type} {I1 : Source X1 W1 A1} {I2 : Source X2 W2 A2}.
Context {S1 : Stoppable X1 W1 A1} {S2 : Stoppable X2 W2 A2}.

Definition sum_stop (w : W1 + W2) : option (W1 + W2) :=
  match w with inl w => inl <$> watch_stop w | inr w => inr <$> watch_stop w end.
Definition sum_is_stop (a : A1 + A2) : bool := match a with inl a => is_stop a | inr a => is_stop a end.
Definition sum_asked (w : W1 + W2) : bool := match w with inl w => stop_asked w | inr w => stop_asked w end.
Definition sum_stopped (w : W1 + W2) : bool := match w with inl w => watch_stopped w | inr w => watch_stopped w end.
Definition sum_ended (w : W1 + W2) : bool := match w with inl w => watch_ended w | inr w => watch_ended w end.
Definition sum_unblocked (w : W1 + W2) : bool := match w with inl w => unblocked w | inr w => unblocked w end.

(** With any step that is the two steps side by side. *)
Variables (step : W1 + W2 -> A1 + A2 -> option (W1 + W2)) (inv : W1 + W2 -> Prop).
Hypothesis step_sum : forall w a, step w a =
  match w, a with inl w, inl a => inl <$> watch_step w a | inr w, inr a => inr <$> watch_step w a | _, _ => None end.
Hypothesis inv_sum : forall w, inv w <-> match w with inl w => watch_inv w | inr w => watch_inv w end.

Lemma sum_stop_law w : inv w -> sum_asked w = false ->
  exists w', sum_stop w = Some w' /\ inv w' /\ sum_asked w' = true /\ sum_unblocked w' = sum_unblocked w.
Proof.
  rewrite inv_sum. destruct w as [w|w]; cbn; intros Hi Hs; destruct (watch_stop_law w Hi Hs) as (w' & -> & Hi' & Ha & Hu);
    (eexists; split_and!; [reflexivity|by apply inv_sum|done|done]).
Qed.

Lemma sum_step_asked w a w' : sum_is_stop a = false -> step w a = Some w' -> sum_asked w' = sum_asked w.
Proof.
  rewrite step_sum. destruct w as [w|w], a as [a|a]; cbn; try done; intros Ha; destruct (watch_step w a) as [w1|] eqn:E; try done;
    intros [= <-]; by eapply step_asked.
Qed.

Lemma sum_stop_completes w : inv w -> sum_asked w = true -> sum_unblocked w = true ->
  exists tr w', Forall (fun a => sum_is_stop a = false) tr /\ runs step w tr w' /\ sum_stopped w' = true.
Proof.
  rewrite inv_sum. destruct w as [w|w]; cbn; intros Hi Hs Hu; destruct (stop_completes w Hi Hs Hu) as (tr & w' & HF & Hr & Hd).
  - exists (inl <$> tr), (inl w'). split_and!; [by apply Forall_fmap| |done].
    eapply runs_map; [|exact Hr]. intros w1 a w2 E. by rewrite step_sum, E.
  - exists (inr <$> tr), (inr w'). split_and!; [by apply Forall_fmap| |done].
    eapply runs_map; [|exact Hr]. intros w1 a w2 E. by rewrite step_sum, E.
Qed.
End Sum.

#[export] Instance sum_Stoppable {W1 A1 W2 A2} (I1 : LogWatcher W1 A1) (I2 : LogWatcher W2 A2)
  (S1 : Stoppable Log W1 A1) (S2 : Stoppable Log W2 A2) : Stoppable Log (W1 + W2) (A1 + A2).
Proof.
  unshelve refine {| watch_stop := sum_stop; stop_asked := sum_asked; watch_stopped := sum_stopped; watch_ended := sum_ended;
            is_stop := sum_is_stop; unblocked := sum_unblocked |};
    [by apply sum_stop_law|by apply sum_step_asked|by apply sum_stop_completes].
Defined.

#[export] Instance either_Stoppable {X1 W1 A1 X2 W2 A2} (I1 : Source X1 W1 A1) (I2 : Source X2 W2 A2)
  (S1 : Stoppable X1 W1 A1) (S2 : Stoppable X2 W2 A2) : Stoppable (X1 + X2) (W1 + W2) (A1 + A2).
Proof.
  unshelve refine {| watch_stop := sum_stop; stop_asked := sum_asked; watch_stopped := sum_stopped; watch_ended := sum_ended;
            is_stop := sum_is_stop; unblocked := sum_unblocked |};
    [by apply sum_stop_law|by apply sum_step_asked|by apply sum_stop_completes].
Defined.
