(* ===== verification/EndToEnd.v ===== *)
(** The whole way: log watchers and plugins, their monitors, detector, Kubernetes
    exporter, condition manager and API client, running together.

    The sources are any instance of [Source], one per monitor; their receive is the
    [OInput] of the pipeline of [Pipeline].  The theorems lead from what the sources
    read or ran to what the API server is told. *)

From S2P Require Import Prelude GoStrings GoTime Regexp Types LogBuffer Options ProblemClient ConditionManager Metrics ProblemMetrics LogMonitor MonitorInterface LogMonitorLoop CustomPluginConfig CustomPluginMonitor CustomMonitorLoop Plugin PluginLifecycle K8sExporter ProblemDetector Transitions Pipeline Process FilelogWatcher KmsgWatcher JournaldWatcher LogSources PluginSource.
Import Cpm CustomPluginMonitor.

Section EndToEnd.
Context {M D X I : Type} {MO : MonitorOps M D X I} {MM : Monitor M D X I}.
Context {C : Type} {CL : Client C} {EC : EventClient C}.
Context {W A : Type} {SW : Source X W A}.
Variables (writeEv updateCond : bool) (hb : Duration).
Hypothesis write_on : writeEv = true.
Hypothesis update_on : updateCond = true.
Local Abbreviation pexec := (pexec writeEv updateCond).

Record esys : Type := mkESys { eWatch : list W; ePipe : pipeline M D C }.

Inductive eaction : Type :=
| EWatch (i : nat) (a : A)              (* source i reads, runs, or sends to its channel *)
| EInput (i : nat) (now : Time)         (* monitor i receives from source i *)
| EPipe (a : paction X).                (* the rest *)

(** The selects of the loops of the monitors: the receive is a step of both. *)
(* @ pkg/systemlogmonitor/log_monitor.go:129-149 monitorLoop *)
Definition eexec (s : esys) (a : eaction) : option esys :=
  match a with
  | EWatch i a =>
    w ← eWatch s !! i; w' ← watch_step w a; Some (mkESys (<[i := w']> (eWatch s)) (ePipe s))
  | EInput i now =>
    w ← eWatch s !! i; xw ← watch_recv w; p ← pexec (ePipe s) (PMon i (OInput xw.1 now));
    Some (mkESys (<[i := xw.2]> (eWatch s)) p)
  | EPipe (PMon _ (OInput _ _)) => None
  | EPipe a => p ← pexec (ePipe s) a; Some (mkESys (eWatch s) p)
  end.

Variables (ds : list D) (w0 : world M) (cl0 : C) (ws : list W).
Hypothesis ds_fresh : Forall mon_fresh ds.
Hypothesis types_distinct : NoDup (mjoin (all_types ds)).
Hypothesis one_source_each : length ws = length ds.
Hypothesis sources_fresh : Forall (fun w => watch_inv w /\ received w = []) ws.
Local Abbreviation pstart := (start_pipeline hb ds w0 cl0).

Definition estart : esys := mkESys ws pstart.

(** The pipeline of a run is a run of the pipeline, with the inputs that the
    sources handed over. *)
Definition einv (etr : list eaction) (s : esys) : Prop :=
  length (eWatch s) = length ds /\
  exists tr, runs pexec pstart tr (ePipe s) /\
    (forall i w, eWatch s !! i = Some w -> watch_inv w /\ received w = mon_source <$> inputs_of i tr) /\
    (forall i t, PMon i (OStart t) ∈ tr -> EPipe (PMon i (OStart t)) ∈ etr).

Lemma einv_start : einv [] estart.
Proof.
  split; [done|]. exists []. split_and!; [constructor| |intros i t H; by apply elem_of_nil in H].
  intros i w Hi. exact (Forall_lookup_1 _ _ _ _ sources_fresh Hi).
Qed.

Lemma einv_step etr s a s' : einv etr s -> eexec s a = Some s' -> einv (etr ++ [a]) s'.
Proof.
  intros (Hlen & tr & Hr & Hw & Hin) He.
  assert (Hin' : forall x, (forall i t, x = PMon i (OStart t) -> a = EPipe x) ->
    forall i t, PMon i (OStart t) ∈ tr ++ [x] -> EPipe (PMon i (OStart t)) ∈ etr ++ [a]).
  { intros x Hx i t [H|H]%elem_of_app; apply elem_of_app; [left; by apply Hin|right].
    apply list_elem_of_singleton in H as <-. apply list_elem_of_singleton. symmetry. by eapply Hx. }
  destruct a as [i a|i now|a]; cbn [eexec] in He.
  - destruct (eWatch s !! i) as [w|] eqn:Ei; [|done]. cbn [mbind option_bind] in He.
    destruct (watch_step w a) as [w'|] eqn:Es; [|done]. injection He as <-.
    destruct (Hw i w Ei) as [Hi Hrc]. destruct (watch_step_inv _ _ _ Hi Es) as [Hi' Hrc'].
    split; [by cbn; rewrite length_insert|]. exists tr.
    split_and!; [done| |intros j t Hj; apply elem_of_app; left; by apply Hin]. cbn. intros j wj Hj.
    apply list_lookup_insert_Some in Hj as [(<- & <- & _)|[_ Hj]]; [|by apply Hw]. by rewrite Hrc'.
  - destruct (eWatch s !! i) as [w|] eqn:Ei; [|done]. cbn [mbind option_bind] in He.
    destruct (watch_recv w) as [[x w']|] eqn:Es; [|done]. cbn [mbind option_bind fst snd] in He.
    destruct (pexec (ePipe s) (PMon i (OInput x now))) as [p|] eqn:Ep; [|done]. injection He as <-.
    destruct (Hw i w Ei) as [Hi Hrc]. destruct (watch_recv_inv _ _ _ Hi Es) as [Hi' Hrc'].
    split; [by cbn; rewrite length_insert|]. exists (tr ++ [PMon i (OInput x now)]).
    split_and!; [by econstructor| |by apply Hin'].
    cbn. intros j wj Hj. rewrite inputs_of_snoc. cbn [act_inputs].
    apply list_lookup_insert_Some in Hj as [(<- & <- & _)|[Hne Hj]].
    + rewrite decide_True, Hrc', Hrc, fmap_app by done. cbn. by rewrite source_item.
    + rewrite decide_False, app_nil_r by done. by apply Hw.
  - assert (Hp : exists p, pexec (ePipe s) a = Some p /\ s' = mkESys (eWatch s) p /\ forall j, act_inputs j a = []).
    { destruct a as [j []| | | | | |]; try done; (destruct (pexec _ _) as [p|]; [|done]); injection He as <-; eexists;
        (split; [done|split; [done|]]); intros k; cbn; try done; by destruct (decide _). }
    destruct Hp as (p & Ep & -> & Hn). split; [done|]. exists (tr ++ [a]). split_and!; [by econstructor| |by apply Hin'; intros ? ? ->].
    cbn. intros j wj Hj. rewrite inputs_of_snoc, Hn, app_nil_r. by apply Hw.
Qed.

(** Enough room for the counters of the monitors. *)
Definition ebound (s : esys) : Prop :=
  forall i d w, ds !! i = Some d -> eWatch s !! i = Some w -> mon_bound d (length (received w)).

Lemma reached tr s :
  runs eexec estart tr s ->
  exists ptr, runs pexec pstart ptr (ePipe s) /\ (ebound s -> tr_bound ds ptr) /\
    (forall i w, eWatch s !! i = Some w -> watch_inv w /\ received w = mon_source <$> inputs_of i ptr) /\
    (forall i t, PMon i (OStart t) ∈ ptr -> EPipe (PMon i (OStart t)) ∈ tr).
Proof.
  intros Hr. assert (einv tr s) as (Hlen & ptr & Hp & Hw & Hin).
  { induction Hr as [|tr s1 a s2 Hr IH Ha]; [apply einv_start|by eapply einv_step]. }
  exists ptr. split_and!; [done| |done|done]. intros Hb i d Hd.
  destruct (lookup_lt_is_Some_2 (eWatch s) i) as [w Ew]; [rewrite Hlen; by eapply lookup_lt_Some|].
  destruct (Hw i w Ew) as [_ E]. specialize (Hb i d w Hd Ew). by rewrite E, length_fmap in Hb.
Qed.

(** Everything that source [i] made has been dealt with. *)
Definition all_handled (s : esys) (i : nat) (w : W) : Prop :=
  eWatch s !! i = Some w /\ settled w = true /\ quiet (ePipe s) i = true.

(** What the monitor should make of the inputs that its source produced. *)
Definition source_expects (tr : list eaction) (i : nat) (w : W) (conds : list Condition) (ss : list Types.Status) : Prop :=
  exists d start ref items, ds !! i = Some d /\ EPipe (PMon i (OStart start)) ∈ tr /\
    mon_source <$> items = produced w /\ mon_spec d ref start items = (conds, ss).

Lemma source_expects_of tr ptr i w conds ss :
  watch_inv w -> settled w = true -> received w = mon_source <$> inputs_of i ptr ->
  (forall i t, PMon i (OStart t) ∈ ptr -> EPipe (PMon i (OStart t)) ∈ tr) ->
  expects ds ptr i conds ss -> source_expects tr i w conds ss.
Proof.
  intros Hi Hs Hrc Hin (d & start & ref & Hd & Hst & He). exists d, start, ref, (inputs_of i ptr).
  rewrite <- (settled_received w Hi Hs), Hrc. split_and!; auto.
Qed.

(** From the sources to the condition manager. *)
Lemma node_state tr s i w :
  runs eexec estart tr s -> ebound s -> all_handled s i w ->
  exists conds ss, source_expects tr i w conds ss /\
    (ss <> [] -> forall c, c ∈ conds ->
       default (read_map (conditions (mgr (pSys (ePipe s)))) (cType c))
         (updates (mgr (pSys (ePipe s))) !! cType c) = c) /\
    events_of i (pEvents (ePipe s)) = concat_events ss.
Proof.
  intros Hr Hb (Hw & Hs & Hq). destruct (reached _ _ Hr) as (ptr & Hp & Hbd & Hws & Hin).
  destruct (Hws i w Hw) as [Hi Hrc].
  destruct (pipeline_delivers writeEv updateCond hb write_on update_on ds w0 cl0 ds_fresh types_distinct
    ptr (ePipe s) i Hp (Hbd Hb) Hq) as (conds & ss & Hex & Hc & Hev).
  exists conds, ss. split_and!; [|done|done]. by eapply source_expects_of.
Qed.

(** And on to the API server. *)
Lemma node_published tr s i w now order :
  runs eexec estart tr s -> ebound s -> all_handled s i w ->
  pc (pSys (ePipe s)) = Syncing -> updates (mgr (pSys (ePipe s))) = ∅ ->
  visits (conditions (mgr (pSys (ePipe s)))) order ->
  (forall c, AUpdate c ∈ pTrace (ePipe s) -> ncType (encode (api_condition c)) = cType c) ->
  exists s' conds ss, eexec s (EPipe (PManager (ASync now order))) = Some s' /\ source_expects tr i w conds ss /\
    (ss <> [] -> resyncNeeded (mgr (pSys (ePipe s'))) = false -> forall c, c ∈ conds ->
       option_nc_equiv (published (cli (pSys (ePipe s'))) (cType c)) (Some (encode (api_condition c)))).
Proof.
  intros Hr Hb (Hw & Hs & Hq) Hpc Hup Hv Henc. destruct (reached _ _ Hr) as (ptr & Hp & Hbd & Hws & Hin).
  destruct (Hws i w Hw) as [Hi Hrc].
  destruct (pipeline_publishes writeEv updateCond hb write_on update_on ds w0 cl0 ds_fresh types_distinct
    ptr (ePipe s) i now order Hp (Hbd Hb) Hq Hpc Hup Hv Henc) as (p' & conds & ss & Hx & Hex & Hc).
  exists (mkESys (eWatch s) p'), conds, ss. split_and!; [cbn [eexec]; by rewrite Hx| |done].
  by eapply source_expects_of.
Qed.
End EndToEnd.
Arguments esys M D C W : clear implicits.
Arguments eaction X A : clear implicits.

(** ** Log monitors and custom plugin monitors *)
Section Node.
Context `{UC : !Unicode} {M : Type} `{MI : !Int64MetricInterface M}.
Context {C : Type} {CL : Client C} {EC : EventClient C}.
(** The log watchers, of any kinds, and what runs the plugins. *)
Context {WL AL WP AP : Type} {LW : LogWatcher WL AL} {PS : Source Result WP AP}.
Variables (writeEv updateCond : bool) (hb : Duration).
Hypothesis write_on : writeEv = true.
Hypothesis update_on : updateCond = true.
Variables (ds : list daemon) (w0 : world M) (cl0 : C) (ws : list (WL + WP)).
Hypothesis ds_fresh : Forall (mon_fresh (M := M)) ds.
Hypothesis types_distinct : NoDup (mjoin (all_types (M := M) ds)).
Hypothesis one_source_each : length ws = length ds.
Hypothesis sources_fresh : Forall (fun w => watch_inv w /\ received w = []) ws.
Local Abbreviation eexec := (eexec (M := M) (C := C) writeEv updateCond).
Local Abbreviation estart := (estart hb ds w0 cl0 ws).
Local Abbreviation held s c :=
  (default (read_map (conditions (mgr (pSys (ePipe s)))) (cType c)) (updates (mgr (pSys (ePipe s))) !! cType c)).

Lemma items_logs (items : list (Log + Result * Time)) (logs : list Log) :
  mon_source (M := M) <$> items = inl <$> logs -> items = inl <$> logs.
Proof.
  revert logs. induction items as [|[x|x] items IH]; intros [|lg logs] H; try done; injection H as E H; simplify_eq/=.
  by rewrite <- (IH logs H).
Qed.

Lemma items_results (items : list (Log + Result * Time)) (rs : list Result) :
  mon_source (M := M) <$> items = inr <$> rs -> exists its, items = inr <$> its /\ its.*1 = rs.
Proof.
  revert rs. induction items as [|[x|x] items IH]; intros [|r rs] H; try done; [by exists []|].
  injection H as E H. simplify_eq/=. destruct (IH rs H) as (its & -> & <-). by exists (x :: its).
Qed.

Lemma source_log tr i l (w : WL) conds ss :
  ds !! i = Some (log_daemon l) -> source_expects (M := M) ds tr i (inl w) conds ss ->
  exists start ref, EPipe (PInit i start) ∈ tr /\ log_expected l ref start (produced w) = (conds, ss) /\ ss <> [].
Proof.
  intros Hl (d & start & ref & items & Hd & Hin & Hit & He). rewrite Hl in Hd. injection Hd as <-.
  exists start, ref. split; [done|]. apply items_logs in Hit. subst items.
  cbn in He. rewrite lefts_inl in He. split; [done|]. unfold log_expected in He.
  destruct (spec_logs _ _ _ _ _ _ _). by injection He as _ <-.
Qed.

Lemma source_plugin tr i c (w : WP) conds ss :
  ds !! i = Some (plugin_daemon c) -> source_expects (M := M) ds tr i (inr w) conds ss ->
  exists start ref rs, EPipe (PInit i start) ∈ tr /\ rs.*1 = produced w /\ plugin_expected c ref start rs = (conds, ss).
Proof.
  intros Hl (d & start & ref & items & Hd & Hin & Hit & He). rewrite Hl in Hd. injection Hd as <-.
  destruct (items_results _ _ Hit) as (rs & -> & Hrs). cbn in He. rewrite rights_inr in He.
  by exists start, ref, rs.
Qed.

(** C2.  From what is read to what is reported, for any of the log watchers.  In
    every run of watchers, plugins, monitors of both kinds, detector, exporter,
    condition manager and its sync goroutine, under any interleaving: when
    everything that a watcher read has been dealt with, the condition manager
    holds exactly the conditions that the rules of its monitor make of the logs of
    what was read, and the events sent for it are exactly those of the
    corresponding statuses, each once and in order.  No log, status or condition
    is lost, duplicated or overtaken on the way. *)
Theorem node_state_follows_logs tr s i l w :
  runs eexec estart tr s -> ebound ds s -> ds !! i = Some (log_daemon l) -> all_handled s i (inl w) ->
  exists start ref conds ss, EPipe (PInit i start) ∈ tr /\
    log_expected l ref start (produced w) = (conds, ss) /\
    (forall c, c ∈ conds -> held s c = c) /\
    events_of i (pEvents (ePipe s)) = concat_events ss.
Proof.
  intros Hr Hb Hl Hh.
  destruct (node_state writeEv updateCond hb write_on update_on ds w0 cl0 ws ds_fresh types_distinct one_source_each
    sources_fresh tr s i (inl w) Hr Hb Hh) as (conds & ss & Hex & Hc & Hev).
  destruct (source_log tr i l w conds ss Hl Hex) as (start & ref & Hin & He & Hss).
  exists start, ref, conds, ss. split_and!; auto.
Qed.

(** C1.  And on to the node.  When moreover the sync goroutine has applied the
    pending updates and is about to sync: the sync returns whatever the client
    answers, and when the client accepts, the node carries exactly the
    conditions that the rules make of the logs of what was read, up to the
    client's encoding. *)
Theorem node_published_follows_logs tr s i l w now order :
  runs eexec estart tr s -> ebound ds s -> ds !! i = Some (log_daemon l) -> all_handled s i (inl w) ->
  pc (pSys (ePipe s)) = Syncing -> updates (mgr (pSys (ePipe s))) = ∅ ->
  visits (conditions (mgr (pSys (ePipe s)))) order ->
  (forall c, AUpdate c ∈ pTrace (ePipe s) -> ncType (encode (api_condition c)) = cType c) ->
  exists s' start ref conds ss, eexec s (EPipe (PManager (ASync now order))) = Some s' /\
    EPipe (PInit i start) ∈ tr /\ log_expected l ref start (produced w) = (conds, ss) /\
    (resyncNeeded (mgr (pSys (ePipe s'))) = false -> forall c, c ∈ conds ->
       option_nc_equiv (published (cli (pSys (ePipe s'))) (cType c)) (Some (encode (api_condition c)))).
Proof.
  intros Hr Hb Hl Hh Hpc Hup Hv Henc.
  destruct (node_published writeEv updateCond hb write_on update_on ds w0 cl0 ws ds_fresh types_distinct one_source_each
    sources_fresh tr s i (inl w) now order Hr Hb Hh Hpc Hup Hv Henc) as (s' & conds & ss & Hs & Hex & Hc).
  destruct (source_log tr i l w conds ss Hl Hex) as (start & ref & Hin & He & Hss).
  exists s', start, ref, conds, ss. split_and!; auto.
Qed.

(** C3.  The same for plugins.  When every result that the plugin of a monitor
    sent has been dealt with, the condition manager holds exactly the conditions
    that the results, in the order in which they were sent, make of the configured
    defaults, and the events sent are those of the corresponding statuses.  A
    monitor that was told to skip its initial status reports its conditions from
    its first result on. *)
Theorem node_state_follows_plugins tr s i c w :
  runs eexec estart tr s -> ebound ds s -> ds !! i = Some (plugin_daemon c) -> all_handled s i (inr w) ->
  exists start ref rs conds ss, EPipe (PInit i start) ∈ tr /\ rs.*1 = produced w /\
    plugin_expected c ref start rs = (conds, ss) /\
    (produced w <> [] \/ skips_initial (cConfig c) = false -> forall cd, cd ∈ conds -> held s cd = cd) /\
    events_of i (pEvents (ePipe s)) = concat_events ss.
Proof.
  intros Hr Hb Hl Hh.
  destruct (node_state writeEv updateCond hb write_on update_on ds w0 cl0 ws ds_fresh types_distinct one_source_each
    sources_fresh tr s i (inr w) Hr Hb Hh) as (conds & ss & Hex & Hc & Hev).
  destruct (source_plugin tr i c w conds ss Hl Hex) as (start & ref & rs & Hin & Hrs & He).
  exists start, ref, rs, conds, ss. split_and!; auto. intros Hne. apply Hc. rewrite <- Hrs in Hne.
  by eapply plugin_expected_sent.
Qed.

(** C4.  And on to the node, as for logs: the sync returns whatever the client
    answers, and when the client accepts, the node carries exactly the conditions
    that the results of the plugin make, up to the client's encoding. *)
Theorem node_published_follows_plugins tr s i c w now order :
  runs eexec estart tr s -> ebound ds s -> ds !! i = Some (plugin_daemon c) -> all_handled s i (inr w) ->
  pc (pSys (ePipe s)) = Syncing -> updates (mgr (pSys (ePipe s))) = ∅ ->
  visits (conditions (mgr (pSys (ePipe s)))) order ->
  (forall cd, AUpdate cd ∈ pTrace (ePipe s) -> ncType (encode (api_condition cd)) = cType cd) ->
  exists s' start ref rs conds ss, eexec s (EPipe (PManager (ASync now order))) = Some s' /\
    EPipe (PInit i start) ∈ tr /\ rs.*1 = produced w /\ plugin_expected c ref start rs = (conds, ss) /\
    (produced w <> [] \/ skips_initial (cConfig c) = false ->
     resyncNeeded (mgr (pSys (ePipe s'))) = false -> forall cd, cd ∈ conds ->
       option_nc_equiv (published (cli (pSys (ePipe s'))) (cType cd)) (Some (encode (api_condition cd)))).
Proof.
  intros Hr Hb Hl Hh Hpc Hup Hv Henc.
  destruct (node_published writeEv updateCond hb write_on update_on ds w0 cl0 ws ds_fresh types_distinct one_source_each
    sources_fresh tr s i (inr w) now order Hr Hb Hh Hpc Hup Hv Henc) as (s' & conds & ss & Hs & Hex & Hc).
  destruct (source_plugin tr i c w conds ss Hl Hex) as (start & ref & rs & Hin & Hrs & He).
  exists s', start, ref, rs, conds, ss. split_and!; auto. intros Hne. apply Hc. rewrite <- Hrs in Hne.
  by eapply plugin_expected_sent.
Qed.
End Node.

(** ** Witnesses: a syslog file for the first monitor, the journal of the kubelet
    for the second, a plugin for the third *)
#[local] Existing Instance AsciiUnicode.
#[local] Instance demo_filelog : LogWatcher fsys faction := filelog_LogWatcher demo_parse demo_year demo_add.
#[local] Instance demo_plugin : Source Result psource (lact * (Cpm.Status * string)) :=
  plugin_Source 1 (plan_groups ntp_plan).

Abbreviation demo_source := ((fsys + jsys) + psource)%type.
Abbreviation demo_action := (eaction dinput ((faction + jaction) + lact * (Cpm.Status * string))).
Abbreviation demo_sys := (esys FakeInt64Metric daemon FakeProblemClient demo_source).

Definition three_sources : list demo_source :=
  [inl (inl (watching demo_started)); inl (inr (mkJSys kubelet_watching [] [])); inr (plugin_start ntp_plan)].

Lemma three_sources_fresh : Forall (fun w => watch_inv (X := dinput) w /\ received (X := dinput) w = []) three_sources.
Proof.
  constructor; [|constructor; [|constructor; [|constructor]]]; (split; [|reflexivity]).
  - exists demo_started.
    apply (finv_watching demo_compile demo_parse demo_year demo_add (Ok 7200%Z) (9 * Hour)%Z demo_watcher demo_open demo_open
      (match NewSyslogWatcherOrDie demo_compile (Ok 7200%Z) (9 * Hour)%Z demo_watcher with Ret w => w | Panic _ => demo_started end));
      reflexivity.
  - exists (jStartTime kubelet_watching).
    eapply (jinv_reachable (Ok 7200%Z) kubelet_now kubelet_cfg kubelet_journal kubelet_new kubelet_watching eq_refl eq_refl []).
    constructor.
  - by apply (plugin_start_inv 1 ntp_applied).
Qed.

Definition syslog_read (text : string) (err : read_err) : list demo_action :=
  [EWatch 0 (inl (inl FaSelect)); EWatch 0 (inl (inl (FaRead text err 1)))].

(** A line that arrives in two pieces while the monitors start; the log is
    received, and its statuses are exported. *)
Definition syslog_run : list demo_action :=
  syslog_read "oo" EOF ++ [EPipe (PInit 0 1); EPipe (PInit 1 2); EPipe (PSend 0); EPipe (PRule 0)] ++
  syslog_read ("m" +:+ newline) NoErr ++ [EWatch 0 (inl (inl FaSend)); EInput 0 0; EPipe (PRule 0)] ++
  (EPipe <$> export_one 0 0) ++ [EPipe (PSend 0); EPipe (PRule 0)] ++ (EPipe <$> export_one 0 1) ++
  [EPipe (PSend 0); EPipe (PRule 0); EWatch 1 (inl (inr JaSelect)); EPipe (PSend 1)] ++
  (EPipe <$> (export_one 0 1 ++ export_one 1 0)) ++ [EPipe (PRule 1)].

(** Meanwhile the plugin runs for the first time and finds a problem. *)
Definition plugin_turn (a : bact) : demo_action := EWatch 2 (inr (LaBatch 0 a, (NonOK, "down"))).
Definition plugin_run : list demo_action :=
  [plugin_turn BAcquire; EPipe (PInit 2 3); plugin_turn BLaunch; plugin_turn (BWorker 0); EPipe (PSend 2);
   plugin_turn (BWorker 0); plugin_turn (BWorker 0); EInput 2 9] ++
  (EPipe <$> export_one 2 0) ++ [EPipe (PSend 2); plugin_turn BLoopEnd] ++ (EPipe <$> export_one 2 1).
Definition node_run : list demo_action := syslog_run ++ plugin_run.
Definition node_sync_run : list demo_action :=
  node_run ++ [EPipe (PManager (ATick sample_types)); EPipe (PManager (ADecide year2024 year2024))].

Definition node_start : demo_sys := estart hb5 three_monitors sample_world NewFakeProblemClient three_sources.
Definition node_after (tr : list demo_action) : demo_sys :=
  default node_start (run_from (eexec true true) node_start tr).

Lemma node_runs tr :
  is_Some (run_from (eexec true true) node_start tr) -> runs (eexec true true) node_start tr (node_after tr).
Proof. intros [s Hs]. apply run_from_runs. unfold node_after. by rewrite Hs. Qed.

Lemma node_bound tr :
  forallb (fun w => length (received (X := dinput) w) <=? 1000) (eWatch (node_after tr)) = true ->
  ebound three_monitors (node_after tr).
Proof.
  intros H i l w Hl Hw. rewrite forallb_forall in H.
  specialize (H w (proj1 (list_elem_of_In _ _) (list_elem_of_lookup_2 _ _ _ Hw))). apply Nat.leb_le in H.
  exact (three_count i l _ Hl H).
Qed.

Definition hung : Condition := mkCondition "KernelDeadlock" CTrue (8 * Hour) "DockerHung" "oom".
Definition file_of (s : demo_sys) : fsys + jsys :=
  match eWatch s !! 0 with Some (inl w) => w | _ => inl (watching demo_started) end.
Definition plugin_of (s : demo_sys) : psource :=
  match eWatch s !! 2 with Some (inr w) => w | _ => plugin_start ntp_plan end.

Ltac handled := split_and!; vm_compute; reflexivity.
Ltac ran := apply node_runs; vm_compute; eexists; reflexivity.
Ltac counted := apply node_bound; vm_compute; reflexivity.

Lemma node_state_follows_logs_witness :
  default (read_map (conditions (mgr (pSys (ePipe (node_after node_run))))) "KernelDeadlock")
    (updates (mgr (pSys (ePipe (node_after node_run)))) !! "KernelDeadlock") = hung /\
  length (events_of 0 (pEvents (ePipe (node_after node_run)))) = 2.
Proof.
  destruct (node_state_follows_logs true true hb5 eq_refl eq_refl three_monitors sample_world
    NewFakeProblemClient three_sources three_monitors_fresh three_monitors_distinct eq_refl three_sources_fresh
    node_run (node_after node_run) 0 (new_monitor [kernel_condition] [docker_hung; oom_rule]) (file_of (node_after node_run)))
    as (start & ref & conds & ss & Hin & He & Hc & Hev).
  - ran.
  - counted.
  - reflexivity.
  - handled.
  - vm_compute in He. injection He as <- <-. split; [apply (Hc hung); by left|by rewrite Hev].
Defined.

Lemma node_published_follows_logs_witness :
  exists s', eexec true true (node_after node_sync_run) (EPipe (PManager (ASync year2024 sample_types))) = Some s' /\
    (resyncNeeded (mgr (pSys (ePipe s'))) = false ->
     option_nc_equiv (published (cli (pSys (ePipe s'))) "KernelDeadlock") (Some (api_condition hung))).
Proof.
  destruct (node_published_follows_logs true true hb5 eq_refl eq_refl three_monitors sample_world
    NewFakeProblemClient three_sources three_monitors_fresh three_monitors_distinct eq_refl three_sources_fresh
    node_sync_run (node_after node_sync_run) 0 (new_monitor [kernel_condition] [docker_hung; oom_rule])
    (file_of (node_after node_sync_run)) year2024 sample_types)
    as (s' & start & ref & conds & ss & Hs & Hin & He & Hc).
  - ran.
  - counted.
  - reflexivity.
  - handled.
  - vm_compute. reflexivity.
  - vm_compute. reflexivity.
  - apply (bool_decide_unpack _). vm_compute. exact Logic.I.
  - done.
  - exists s'. split; [done|]. vm_compute in He. injection He as <- <-. intros Hr. apply (Hc Hr hung). by left.
Defined.

(** The condition after the result, whatever the time of its handling. *)
Definition ntp_condition_of (rs : list (Result * Time)) : Condition :=
  mkCondition "NTPProblem" CTrue (default Time_zero (snd <$> head rs)) "NTPIsDown" "down".

Lemma one_result (rs : list (Result * Time)) r : rs.*1 = [r] -> exists t, rs = [(r, t)].
Proof. destruct rs as [|[r0 t] [|]]; try done. intros [= ->]. by exists t. Qed.

Lemma node_state_follows_plugins_witness :
  exists t, default (read_map (conditions (mgr (pSys (ePipe (node_after node_run))))) "NTPProblem")
    (updates (mgr (pSys (ePipe (node_after node_run)))) !! "NTPProblem") = ntp_condition_of [(ntp_down, t)] /\
  length (events_of 2 (pEvents (ePipe (node_after node_run)))) = 1.
Proof.
  destruct (node_state_follows_plugins true true hb5 eq_refl eq_refl three_monitors sample_world
    NewFakeProblemClient three_sources three_monitors_fresh three_monitors_distinct eq_refl three_sources_fresh
    node_run (node_after node_run) 2 (mkMonitor ntp_applied 0) (plugin_of (node_after node_run)))
    as (start & ref & rs & conds & ss & Hin & Hrs & He & Hc & Hev).
  - ran.
  - counted.
  - reflexivity.
  - handled.
  - vm_compute in Hrs. apply one_result in Hrs as [t ->]. exists t. vm_compute in He. injection He as <- <-.
    split; [apply (Hc (or_intror eq_refl) (ntp_condition_of [(ntp_down, t)])); by left|by rewrite Hev].
Defined.

Lemma node_published_follows_plugins_witness :
  exists s' t, eexec true true (node_after node_sync_run) (EPipe (PManager (ASync year2024 sample_types))) = Some s' /\
    (resyncNeeded (mgr (pSys (ePipe s'))) = false ->
     option_nc_equiv (published (cli (pSys (ePipe s'))) "NTPProblem") (Some (api_condition (ntp_condition_of [(ntp_down, t)])))).
Proof.
  destruct (node_published_follows_plugins true true hb5 eq_refl eq_refl three_monitors sample_world
    NewFakeProblemClient three_sources three_monitors_fresh three_monitors_distinct eq_refl three_sources_fresh
    node_sync_run (node_after node_sync_run) 2 (mkMonitor ntp_applied 0) (plugin_of (node_after node_sync_run))
    year2024 sample_types)
    as (s' & start & ref & rs & conds & ss & Hs & Hin & Hrs & He & Hc).
  - ran.
  - counted.
  - reflexivity.
  - handled.
  - vm_compute. reflexivity.
  - vm_compute. reflexivity.
  - apply (bool_decide_unpack _). vm_compute. exact Logic.I.
  - done.
  - vm_compute in Hrs. apply one_result in Hrs as [t ->]. exists s', t. split; [done|].
    vm_compute in He. injection He as <- <-. intros Hr.
    apply (Hc (or_intror eq_refl) Hr (ntp_condition_of [(ntp_down, t)])). by left.
Defined.
