(* ===== verification/Shutdown.v ===== *)
(** Shutdown of the running process: the deferred function of [Run]
    ([pkg/problemdetector/problem_detector.go]) against the goroutines of the
    monitors, of their sources and of the forwarders, which go on.

    [ProblemDetector] treats the end of a monitor's loop as one step.  Here a
    monitor is stopped where the code can stop it, in the select of its loop; it
    may be at a rule or in a send instead, and since the loop of [Run] has ended,
    nobody receives what the forwarders hold.  In its stopping case the monitor
    calls [Stop] of its watcher or plugin, and is done only when that returns
    ([StopSources]). *)

From S2P Require Import Prelude GoStrings GoTime Regexp Types Options ProblemClient ConditionManager Metrics ProblemMetrics LogMonitor MonitorInterface LogMonitorLoop CustomMonitorLoop K8sExporter ProblemDetector Transitions Pipeline Process PipelineDrain FilelogWatcher KmsgWatcher JournaldWatcher LogSources CustomPluginConfig Plugin PluginLifecycle PluginSource StopSources EndToEnd.

(** The loop of a monitor runs, waits for the [Stop] of its watcher or plugin, or
    has ended. *)
Inductive mode : Type := MRun | MStopping | MGone.

Section Shutdown.
Context {M D X I : Type} {MO : MonitorOps M D X I} {MM : Monitor M D X I}.
Context {C : Type} {CL : Client C} {EC : EventClient C}.
Context {W A : Type} {SW : Source X W A} {ST : Stoppable X W A}.
Variables (writeEv updateCond : bool) (hb : Duration).
Local Abbreviation pexec := (pexec writeEv updateCond).

(** The monitors that are still to be stopped are those from [shNext] on;
    [shWaiting] when the stop of that one was requested.  Each has its source. *)
Record shsys : Type := mkSh {
  shPipe : pipeline M D C;
  shSources : list W;
  shTombs : list Tomb;
  shModes : list mode;
  shNext : nat;
  shWaiting : bool
}.

Definition sh_pipe (s : shsys) (p : pipeline M D C) : shsys :=
  mkSh p (shSources s) (shTombs s) (shModes s) (shNext s) (shWaiting s).
Definition sh_source (s : shsys) (i : nat) (w : W) : shsys :=
  mkSh (shPipe s) (<[i := w]> (shSources s)) (shTombs s) (shModes s) (shNext s) (shWaiting s).
Definition sh_tomb (s : shsys) (i : nat) (t : Tomb) : shsys :=
  mkSh (shPipe s) (shSources s) (<[i := t]> (shTombs s)) (shModes s) (shNext s) (shWaiting s).
Definition sh_mode (s : shsys) (i : nat) (md : mode) : shsys :=
  mkSh (shPipe s) (shSources s) (shTombs s) (<[i := md]> (shModes s)) (shNext s) (shWaiting s).
Definition sh_main (s : shsys) (next : nat) (waiting : bool) : shsys :=
  mkSh (shPipe s) (shSources s) (shTombs s) (shModes s) next waiting.

Inductive shaction : Type :=
| ShMain                      (* the deferred function of Run *)
| ShStep (a : paction X)      (* a goroutine that goes on *)
| ShInput (i : nat) (now : Time)  (* the select of monitor i receives from its source *)
| ShSource (i : nat) (a : A)  (* source i goes on *)
| ShStop (i : nat)            (* the select of monitor i takes its stopping case *)
| ShClosed (i : nat)          (* or finds the channel of its source closed *)
| ShDone (i : nat).           (* the [Stop] of its watcher or plugin has returned *)

(** The goroutines that go on; the loop of [Run] does not. *)
Definition goes_on (s : shsys) (a : paction X) : bool :=
  match a with
  | PMon _ (OInput _ _) => false
  | PMon i _ | PSend i => match shModes s !! i with Some MRun => true | _ => false end
  | PTake _ | PManager _ => true
  | PReceive _ | PEvent | PCond => false
  end.

(** The loop of the monitor ends, and its tomb is done. *)
Definition sh_leave (s : shsys) (i : nat) : option shsys :=
  t ← shTombs s !! i;
  match Tomb_Done t with Ret t => Some (sh_tomb (sh_mode s i MGone) i t) | Panic _ => None end.

(** The deferred function of [Run], and the ways out of [monitorLoop]. *)
(* @ pkg/problemdetector/problem_detector.go:70-74 Run.func1 *)
Definition shexec (s : shsys) (a : shaction) : option shsys :=
  match a with
  | ShMain =>
    t ← shTombs s !! shNext s;
    if shWaiting s then
      if Tomb_Stop_returns t then Some (sh_main s (S (shNext s)) false) else None
    else
      match Tomb_Stop_close t with
      | Ret t => Some (sh_main (sh_tomb s (shNext s) t) (shNext s) true)
      | Panic _ => None
      end
  | ShStep a => if goes_on s a then p ← pexec (shPipe s) a; Some (sh_pipe s p) else None
  | ShInput i now =>
    w ← shSources s !! i; xw ← watch_recv w;
    match shModes s !! i with
    | Some MRun => p ← pexec (shPipe s) (PMon i (OInput xw.1 now)); Some (sh_source (sh_pipe s p) i xw.2)
    | _ => None
    end
  | ShSource i a =>
    w ← shSources s !! i;
    if is_stop a then None else w ← watch_step w a; Some (sh_source s i w)
  | ShStop i =>
    t ← shTombs s !! i; m ← pMons (shPipe s) !! i; w ← shSources s !! i;
    match shModes s !! i, mon_state m with
    | Some MRun, SSelect =>
      if Tomb_Stopping t then w ← watch_stop w; Some (sh_source (sh_mode s i MStopping) i w) else None
    | _, _ => None
    end
  | ShClosed i =>
    m ← pMons (shPipe s) !! i; w ← shSources s !! i;
    match shModes s !! i, mon_state m with
    | Some MRun, SSelect => if watch_ended w then sh_leave s i else None
    | _, _ => None
    end
  | ShDone i =>
    w ← shSources s !! i;
    match shModes s !! i with
    | Some MStopping => if watch_stopped w then sh_leave s i else None
    | _ => None
    end
  end.

Definition sh_start (e : esys M D C W) : shsys :=
  mkSh (ePipe e) (eWatch e) ((fun _ => NewTomb) <$> pMons (ePipe e)) ((fun _ => MRun) <$> pMons (ePipe e)) 0 false.

Definition sh_finished (s : shsys) : Prop := shNext s = length (shTombs s) /\ shWaiting s = false.

(** What a step changes, by action. *)
Inductive sh_change (s : shsys) : shaction -> shsys -> Prop :=
| sc_close t :
    shTombs s !! shNext s = Some t -> shWaiting s = false -> tStopClosed t = false ->
    sh_change s ShMain (sh_main (sh_tomb s (shNext s) (mkTomb true (tDoneClosed t))) (shNext s) true)
| sc_next t :
    shTombs s !! shNext s = Some t -> shWaiting s = true -> tDoneClosed t = true ->
    sh_change s ShMain (sh_main s (S (shNext s)) false)
| sc_step a p :
    goes_on s a = true -> pexec (shPipe s) a = Some p -> sh_change s (ShStep a) (sh_pipe s p)
| sc_input i now w x w' p :
    shSources s !! i = Some w -> watch_recv w = Some (x, w') -> shModes s !! i = Some MRun ->
    pexec (shPipe s) (PMon i (OInput x now)) = Some p -> sh_change s (ShInput i now) (sh_source (sh_pipe s p) i w')
| sc_source i a w w' :
    shSources s !! i = Some w -> is_stop a = false -> watch_step w a = Some w' ->
    sh_change s (ShSource i a) (sh_source s i w')
| sc_stop i m w w' :
    pMons (shPipe s) !! i = Some m -> mon_state m = SSelect -> shSources s !! i = Some w -> shModes s !! i = Some MRun ->
    watch_stop w = Some w' -> sh_change s (ShStop i) (sh_source (sh_mode s i MStopping) i w')
| sc_leave a i t md :
    a = ShClosed i \/ a = ShDone i -> shTombs s !! i = Some t -> tDoneClosed t = false -> shModes s !! i = Some md ->
    md = MStopping \/ (md = MRun /\ exists m, pMons (shPipe s) !! i = Some m /\ mon_state m = SSelect) ->
    sh_change s a (sh_tomb (sh_mode s i MGone) i (mkTomb (tStopClosed t) true)).

Lemma sh_leave_Some s i s' : sh_leave s i = Some s' ->
  exists t, shTombs s !! i = Some t /\ tDoneClosed t = false /\
    s' = sh_tomb (sh_mode s i MGone) i (mkTomb (tStopClosed t) true).
Proof.
  unfold sh_leave, Tomb_Done. destruct (shTombs s !! i) as [t|]; [|done]. cbn [mbind option_bind].
  destruct (tDoneClosed t) eqn:E; [done|]. intros [= <-]. by exists t.
Qed.

Lemma shexec_change s a s' : shexec s a = Some s' -> sh_change s a s'.
Proof.
  destruct a as [|a|i now|i a|i|i|i]; cbn [shexec]; unfold mbind, option_bind.
  - destruct (shTombs s !! shNext s) as [t|] eqn:Et; [|done]. unfold Tomb_Stop_returns, Tomb_Stop_close.
    destruct (shWaiting s) eqn:Ew.
    + destruct (tDoneClosed t) eqn:E; [|done]. intros [= <-]. by eapply sc_next.
    + destruct (tStopClosed t) eqn:E; [done|]. intros [= <-]. by apply sc_close.
  - destruct (goes_on s a) eqn:Eg; [|done]. destruct (pexec _ a) eqn:Ep; [|done]. intros [= <-]. by constructor.
  - destruct (shSources s !! i) as [w|] eqn:Ew; [|done]. destruct (watch_recv w) as [[x w']|] eqn:Er; [|done].
    destruct (shModes s !! i) as [[]|] eqn:Em; try done. destruct (pexec _ _) as [p|] eqn:Ep; [|done].
    intros [= <-]. by eapply sc_input.
  - destruct (shSources s !! i) as [w|] eqn:Ew; [|done]. destruct (is_stop a) eqn:Es; [done|].
    destruct (watch_step w a) as [w'|] eqn:E; [|done]. intros [= <-]. by eapply sc_source.
  - destruct (shTombs s !! i) as [t|]; [|done]. destruct (pMons _ !! i) as [m|] eqn:Em; [|done].
    destruct (shSources s !! i) as [w|] eqn:Ew; [|done]. destruct (shModes s !! i) as [[]|] eqn:Ed; try done.
    destruct (mon_state m) eqn:Es; try done. destruct (Tomb_Stopping t); [|done].
    destruct (watch_stop w) as [w'|] eqn:E; [|done]. intros [= <-]. by eapply sc_stop.
  - destruct (pMons _ !! i) as [m|] eqn:Em; [|done]. destruct (shSources s !! i) as [w|]; [|done].
    destruct (shModes s !! i) as [[]|] eqn:Ed; try done. destruct (mon_state m) eqn:Es; try done.
    destruct (watch_ended w); [|done]. intros (t & Ht & Hd & ->)%sh_leave_Some. eapply sc_leave; eauto.
  - destruct (shSources s !! i) as [w|]; [|done]. destruct (shModes s !! i) as [[]|] eqn:Ed; try done.
    destruct (watch_stopped w); [|done]. intros (t & Ht & Hd & ->)%sh_leave_Some. eapply sc_leave; eauto.
Qed.

(** ** A full channel *)

(** The monitor is in a send that nobody makes room for. *)
Definition stuck_send (s : shsys) (i : nat) : Prop :=
  shNext s <= i < length (shTombs s) /\ shModes s !! i = Some MRun /\
  (exists t, shTombs s !! i = Some t /\ tDoneClosed t = false) /\
  (exists m st, pMons (shPipe s) !! i = Some m /\ mon_state m = SSending st) /\
  (exists q h, pLanes (shPipe s) !! i = Some (mkLane q (Some h)) /\ outputCap <= length q).

(** What the steps of the pipeline leave of a monitor in a send, and of a lane. *)
Lemma goes_on_stuck (p p' : pipeline M D C) a i m st q h :
  pexec p a = Some p' -> match a with PReceive _ | PEvent | PCond => False | _ => True end ->
  pMons p !! i = Some m -> mon_state m = SSending st ->
  pLanes p !! i = Some (mkLane q (Some h)) -> outputCap <= length q ->
  pMons p' !! i = Some m /\ pLanes p' !! i = Some (mkLane q (Some h)).
Proof.
  intros He Ha Hm Hp Hl Hq.
  destruct (pexec_mons _ _ _ _ _ He) as [E Ha'|j op mj m' w' -> Hj Em ->|j mj l s m' -> Hj Hlj Es Hlt ->].
  - destruct a as [j op|j|j|j| | |a]; try done; cbn [Pipeline.pexec] in He.
    + destruct (decide (j = i)) as [->|Hne]; [by rewrite Hl in He; destruct q|].
      destruct (pLanes p !! j) as [[[|s0 q0] [|]]|]; try done. injection He as <-. cbn. by rewrite list_lookup_insert_ne.
    + destruct a; try done; (destruct (exec _ _); [|done]); by injection He as <-.
  - cbn. rewrite list_lookup_insert_ne; [done|]. intros ->. simplify_eq. apply exec_guard in Em. destruct op; congruence.
  - cbn. assert (j <> i) by (intros ->; simplify_eq; cbn in Hlt; lia). by rewrite !list_lookup_insert_ne.
Qed.

Lemma stuck_send_step s a s' i : stuck_send s i -> shexec s a = Some s' -> stuck_send s' i.
Proof.
  intros (Hi & Hmd & (t & Ht & Hd) & (m & st & Hm & Hp) & (q & h & Hl & Hq)) He.
  destruct (shexec_change _ _ _ He) as [tn Et Ew Ec|tn Et Ew Ec|a p' Eg Ep|j now w x w' p' Ew Er Ej Ep|j a w w' Ew Es E
    |j mj w w' Em Epj Ew Ej E|a j tj md Ea Et Ed Ej Hj].
  - split_and!; cbn; [lia|by rewrite length_insert; lia|done| |eauto 10|eauto 10].
    destruct (decide (shNext s = i)) as [<-|Hne]; [|rewrite list_lookup_insert_ne by done; eauto].
    rewrite list_lookup_insert_eq by lia. eexists. split; [done|]. cbn. congruence.
  - assert (shNext s <> i) by (intros <-; congruence).
    split_and!; cbn; [lia|lia|done|eauto|eauto 10|eauto 10].
  - destruct (goes_on_stuck (shPipe s) p' a i m st q h Ep) as [Hm' Hl']; try done; [by destruct a as [? []| | | | | |]|].
    split_and!; cbn; [lia|lia|done|eauto|eauto 10|eauto 10].
  - destruct (goes_on_stuck (shPipe s) p' _ i m st q h Ep) as [Hm' Hl']; try done.
    split_and!; cbn; [lia|lia|done|eauto|eauto 10|eauto 10].
  - split_and!; cbn; [lia|lia|done|eauto|eauto 10|eauto 10].
  - assert (j <> i) by congruence.
    split_and!; cbn; [lia|lia|by rewrite list_lookup_insert_ne|eauto|eauto 10|eauto 10].
  - assert (j <> i) by (intros ->; destruct Hj as [->|(_ & mj & Hmj & Hpj)]; congruence).
    split_and!; cbn; [lia|by rewrite length_insert; lia|by rewrite list_lookup_insert_ne| |eauto 10|eauto 10].
    rewrite list_lookup_insert_ne by done. eauto.
Qed.


(** ** Enough room *)

(** The sends that a monitor may still make without a new input, and the statuses
    that its channel and its forwarder still take. *)
Definition need (m : D) : nat := mon_more m + length (in_hand m).
Definition room (l : lane) : nat := S outputCap - length (pending l).

Definition fits (p : pipeline M D C) : Prop :=
  forall i m l, pMons p !! i = Some m -> pLanes p !! i = Some l -> need m <= room l.

Lemma need_exec w m op m' w' :
  mon_inv w m -> mon_exec m w op = Some (m', w') -> is_input op = false ->
  mon_bound m (length (mon_inputs m ++ op_inputs op)) -> need m' <= need m.
Proof.
  intros HI H Hop Hb. destruct (exec_law _ _ _ _ _ HI H Hb) as (o & _ & Hh & _ & _ & Hw). destruct (Hw Hop) as [_ Hl].
  unfold need. rewrite Hh. lia.
Qed.

(** The monitors are in order, and can count their inputs. *)
Definition sane (p : pipeline M D C) : Prop :=
  forall i m, pMons p !! i = Some m -> mon_inv (pWorld p) m /\ mon_bound m (length (mon_inputs m)).

Lemma sane_bound p i m op :
  sane p -> pMons p !! i = Some m -> is_input op = false -> mon_bound m (length (mon_inputs m ++ op_inputs op)).
Proof. intros H Hi Hop. destruct (H i m Hi) as [_ Hb]. destruct op; try done; cbn; by rewrite app_nil_r. Qed.

Lemma fits_step (p p' : pipeline M D C) a :
  sane p -> fits p -> pexec p a = Some p' -> is_in a = false ->
  match a with PReceive _ | PEvent | PCond => False | _ => True end -> fits p'.
Proof.
  intros Hs Hf He Hin Ha.
  destruct (pexec_mons _ _ _ _ _ He) as [E Ha'|i op m m' w' -> Hi Em ->|i m l s m' -> Hi Hl Es Hlt ->].
  - destruct a as [i op|i|i|i| | |a]; try done; cbn [Pipeline.pexec] in He.
    + destruct (pLanes p !! i) as [[[|st q] [|]]|] eqn:El; try done. injection He as <-.
      intros j mj lj Hj Hl. cbn in Hj, Hl. apply list_lookup_insert_Some in Hl as [(<- & <- & _)|[_ Hl]]; [|by apply (Hf j)].
      exact (Hf i mj _ Hj El).
    + destruct a; try done; (destruct (exec _ _); [|done]); by injection He as <-.
  - intros j mj lj Hj Hl. cbn in Hj, Hl. apply list_lookup_insert_Some in Hj as [(<- & <- & _)|[_ Hj]]; [|by apply (Hf j)].
    specialize (Hf i m lj Hi Hl).
    pose proof (need_exec _ _ _ _ _ (proj1 (Hs i m Hi)) Em Hin (sane_bound _ _ _ _ Hs Hi Hin)). lia.
  - destruct (send_law _ _ _ _ (proj1 (Hs i m Hi)) Es) as (_ & _ & Hh & _ & _ & Hl').
    intros j mj lj Hj Hlj. cbn in Hj, Hlj. apply list_lookup_insert_Some in Hj as [(<- & <- & _)|[Hne Hj]].
    + apply list_lookup_insert_Some in Hlj as [(_ & <- & _)|[? _]]; [|done].
      specialize (Hf i m l Hi Hl). unfold need, room, pending in *. rewrite Hh. unfold in_hand in Hf.
      rewrite (send_guard _ _ _ Es) in Hf. cbn [queue held] in *. rewrite app_assoc, length_app. cbn [length] in *. lia.
    + rewrite list_lookup_insert_ne in Hlj by done. by apply (Hf j).
Qed.

(** What is left to do. *)
Definition stop_work (md : mode) : nat := match md with MRun => 2 | MStopping => 1 | MGone => 0 end.
Definition loop_work (m : D) : nat := 2 * mon_left m + length (in_hand m).
Definition take_work (l : lane) : nat := match held l with None => 1 | Some _ => 0 end.
Definition sh_work (s : shsys) : nat :=
  sum_list_with stop_work (shModes s) + sum_list_with loop_work (pMons (shPipe s)) +
  sum_list_with take_work (pLanes (shPipe s)) +
  (2 * (length (shTombs s) - shNext s) - (if shWaiting s then 1 else 0)).

(** The steps that are counted: all but those of the sync goroutine and of the
    sources, which may go on for ever. *)
Definition counted (a : shaction) : bool :=
  match a with ShStep (PManager _) | ShSource _ _ => false | _ => true end.
Definition no_input (a : shaction) : bool := match a with ShInput _ _ => false | _ => true end.

Lemma goes_on_no_input s a : goes_on s a = true -> is_in a = false.
Proof. by destruct a as [i []| | | | | |]. Qed.

Lemma goes_on_not_run s a : goes_on s a = true -> match a with PReceive _ | PEvent | PCond => False | _ => True end.
Proof. by destruct a. Qed.

Definition pipe_work (p : pipeline M D C) : nat :=
  sum_list_with loop_work (pMons p) + sum_list_with take_work (pLanes p).

Lemma pipe_work_step (p p' : pipeline M D C) a :
  sane p -> pexec p a = Some p' -> is_in a = false ->
  match a with PReceive _ | PEvent | PCond => False | _ => True end ->
  match a with PManager _ => pipe_work p' = pipe_work p | _ => pipe_work p' < pipe_work p end.
Proof.
  intros Hs He Hin Ha. unfold pipe_work.
  destruct (pexec_mons _ _ _ _ _ He) as [E Ha'|i op m m' w' -> Hi Em ->|i m l s m' -> Hi Hl Es Hlt ->].
  - destruct a as [i op|i|i|i| | |a]; try done; cbn [Pipeline.pexec] in He.
    + destruct (pLanes p !! i) as [[[|st q] [|]]|] eqn:El; try done. injection He as <-. cbn [set_lane pMons pLanes].
      pose proof (sum_list_insert take_work _ _ _ (mkLane q (Some st)) El) as H2. cbn in H2. lia.
    + destruct a; try done; (destruct (exec _ _); [|done]); by injection He as <-.
  - cbn. pose proof (sum_list_insert loop_work _ _ _ m' Hi) as H1.
    destruct (exec_law _ _ _ _ _ (proj1 (Hs i m Hi)) Em (sane_bound _ _ _ _ Hs Hi Hin)) as (o & _ & Hh & _ & _ & Hw).
    destruct (Hw Hin) as [Hlt _]. unfold loop_work in *. rewrite Hh, (exec_hand _ _ _ _ _ Em) in H1.
    assert (length (option_list o) <= 1) by (destruct o; cbn; lia). cbn [length] in H1. lia.
  - cbn. pose proof (sum_list_insert loop_work _ _ _ m' Hi) as H1.
    pose proof (sum_list_insert take_work _ _ _ (mkLane (queue l ++ [s]) (held l)) Hl) as H2.
    destruct (send_law _ _ _ _ (proj1 (Hs i m Hi)) Es) as (_ & _ & Hh & _ & Hl' & _).
    assert (E3 : take_work (mkLane (queue l ++ [s]) (held l)) = take_work l) by done.
    unfold loop_work at 2 4 in H1. rewrite Hh in H1. unfold in_hand at 1 in H1. rewrite (send_guard _ _ _ Es) in H1.
    cbn [length] in H1. lia.
Qed.

Lemma sh_work_step s a s' :
  sane (shPipe s) -> shexec s a = Some s' -> no_input a = true ->
  if counted a then sh_work s' < sh_work s else sh_work s' = sh_work s.
Proof.
  intros Hs He Hl. unfold sh_work.
  destruct (shexec_change _ _ _ He) as [t Et Ew Ec|t Et Ew Ec|a p' Eg Ep|i now w x w' p' Ew Er Ei Ep|i a w w' Ew Es E
    |i m w w' Em Epi Ew Ei E|a i t md Ea Et Ed Ei Hi]; cbn.
  - apply lookup_lt_Some in Et. rewrite length_insert, Ew. lia.
  - apply lookup_lt_Some in Et. rewrite Ew. lia.
  - pose proof (pipe_work_step _ _ _ Hs Ep (goes_on_no_input _ _ Eg) (goes_on_not_run _ _ Eg)) as Hw.
    unfold pipe_work in Hw. destruct a; cbn; lia.
  - done.
  - done.
  - pose proof (sum_list_insert stop_work _ _ _ MStopping Ei) as H. cbn [stop_work] in H. lia.
  - pose proof (sum_list_insert stop_work _ _ _ MGone Ei) as H. cbn [stop_work] in H. rewrite length_insert.
    destruct Ea as [-> | ->], Hi as [->|[-> _]]; cbn in *; lia.
Qed.

(** ** Completion *)
Hypothesis write_on : writeEv = true.
Hypothesis update_on : updateCond = true.
Variables (ds : list D) (w0 : world M) (cl0 : C).
Hypothesis ds_fresh : Forall mon_fresh ds.
Hypothesis types_distinct : NoDup (mjoin (all_types ds)).
Local Abbreviation pinv := (pinv hb (all_types ds)).

Definition stop_sent (s : shsys) (i : nat) : Prop := i < shNext s \/ (i = shNext s /\ shWaiting s = true).

(** The [Stop] of the source was called when the monitor left its select. *)
Definition asked_in (md : mode) (asked : bool) : Prop :=
  match md with MRun => asked = false | MStopping => asked = true | MGone => True end.

Record shinv (s : shsys) : Prop := mkShInv {
  sv_pipe : pinv (shPipe s);
  sv_bound : forall i m, pMons (shPipe s) !! i = Some m -> mon_bound m (length (mon_inputs m));
  sv_fits : fits (shPipe s);
  sv_tombs : length (shTombs s) = length (pMons (shPipe s));
  sv_modes : length (shModes s) = length (pMons (shPipe s));
  sv_next : shNext s <= length (shTombs s);
  sv_stop : forall i t, shTombs s !! i = Some t -> tStopClosed t = true <-> stop_sent s i;
  sv_done : forall i t, shTombs s !! i = Some t -> tDoneClosed t = true <-> shModes s !! i = Some MGone;
  sv_wait : shWaiting s = true -> shNext s < length (shTombs s);
  sv_sources : length (shSources s) = length (pMons (shPipe s));
  sv_source : forall i w, shSources s !! i = Some w ->
    watch_inv w /\ forall md, shModes s !! i = Some md -> asked_in md (stop_asked w)
}.

Lemma shinv_sane s : shinv s -> sane (shPipe s).
Proof. intros H i m Hi. split; [by apply (mv_inv _ _ _ (pv_mons _ _ _ (sv_pipe _ H)) i)|by eapply sv_bound]. Qed.

(** Without a new input nothing grows. *)
Lemma bound_step (p p' : pipeline M D C) a :
  sane p -> pexec p a = Some p' -> is_in a = false ->
  length (pMons p') = length (pMons p) /\
  forall i m, pMons p' !! i = Some m -> mon_bound m (length (mon_inputs m)).
Proof.
  intros Hs He Hin.
  assert (Hstep : forall i m m' w' out, pMons p !! i = Some m -> mon_step mon_inv (pWorld p) m w' m' out [] ->
    forall j mj, <[i := m']> (pMons p) !! j = Some mj -> mon_bound mj (length (mon_inputs mj))).
  { intros i m m' w' out Hi Hst j mj Hj. apply list_lookup_insert_Some in Hj as [(<- & <- & _)|[_ Hj]]; [|by apply (Hs j)].
    rewrite (ms_inputs _ _ _ _ _ _ _ Hst), app_nil_r. apply (same_bound _ _ (ms_same _ _ _ _ _ _ _ Hst)). by apply (Hs i). }
  destruct (pexec_mons _ _ _ _ _ He) as [E Ha'|i op m m' w' -> Hi Em ->|i m l s m' -> Hi Hl Es Hlt ->].
  - rewrite E. split; [done|]. intros i m Hi. by apply (Hs i).
  - split; [by cbn; rewrite length_insert|].
    destruct (exec_law _ _ _ _ _ (proj1 (Hs i m Hi)) Em (sane_bound _ _ _ _ Hs Hi Hin)) as (o & Hst & _).
    replace (op_inputs op) with (@nil I) in Hst by (by destruct op). by eapply Hstep.
  - split; [by cbn; rewrite length_insert|].
    destruct (send_law _ _ _ _ (proj1 (Hs i m Hi)) Es) as (Hst & _). by eapply Hstep.
Qed.

Lemma shinv_main s a s' :
  shinv s -> shexec s a = Some s' -> a = ShMain -> shinv s'.
Proof.
  intros [H1 H2 H3 H4 H5 H6 H7 H8 H9 Hl Hw] He Ha.
  destruct (shexec_change _ _ _ He) as [t Et Ew Ec|t Et Ew Ec| | | | |a i t md [Ea|Ea]]; try done; try congruence.
  - pose proof (lookup_lt_Some _ _ _ Et). constructor; cbn; rewrite ?length_insert; try done.
    + intros i ti Hi. unfold stop_sent. cbn. apply list_lookup_insert_Some in Hi as [(<- & <- & _)|[Hne Hi]].
      { split; [intros _; by right|done]. }
      rewrite (H7 i ti Hi). unfold stop_sent. rewrite Ew. naive_solver lia.
    + intros i ti Hi. apply list_lookup_insert_Some in Hi as [(<- & <- & _)|[Hne Hi]]; [by apply (H8 _ t Et)|by apply H8].
  - pose proof (lookup_lt_Some _ _ _ Et). constructor; cbn; try done; try lia.
    intros i ti Hi. rewrite (H7 i ti Hi). unfold stop_sent. cbn. rewrite Ew. split; [lia|].
    intros [Hlt|[_ ?]]; [|done]. destruct (decide (i = shNext s)); [by right|left; lia].
Qed.

Lemma shinv_step s a s' : shinv s -> shexec s a = Some s' -> no_input a = true -> shinv s'.
Proof.
  intros Hv He Hl. pose proof (shinv_sane _ Hv) as Hsn. pose proof (shinv_main s a s' Hv He) as Hmain.
  destruct Hv as [H1 H2 H3 H4 H5 H6 H7 H8 H9 Hsl Hw].
  destruct (shexec_change _ _ _ He) as [t Et Ew Ec|t Et Ew Ec|a p' Eg Ep|i now w x w' p' Ew Er Ei Ep|i a w w' Ew Es E
    |i m w w' Em Epi Ew Ei E|a i t md Ea Et Ed Ei Hi]; try by apply Hmain.
  - pose proof (goes_on_no_input _ _ Eg) as Hin. destruct (bound_step _ _ _ Hsn Ep Hin) as [Hlen Hb].
    constructor; cbn; rewrite ?Hlen; try done.
    + eapply (pinv_step writeEv updateCond hb write_on update_on); [done|done|done|].
      intros i op m -> Hi. by apply (sane_bound (shPipe s) i).
    + eapply fits_step; [exact Hsn|exact H3|exact Ep|done|by eapply goes_on_not_run].
  - destruct (Hw i w Ew) as [Hi Ha]. constructor; cbn; rewrite ?length_insert; try done.
    intros j wj Hj. apply list_lookup_insert_Some in Hj as [(<- & <- & _)|[Hne Hj]]; [|by apply Hw].
    split; [by eapply watch_step_inv|]. by rewrite (step_asked _ _ _ Es E).
  - pose proof (lookup_lt_Some _ _ _ Ei). destruct (Hw i w Ew) as [Hi Ha].
    destruct (watch_stop_law w Hi (Ha _ Ei)) as (w1 & E1 & Hi1 & Ha1 & _). rewrite E in E1. injection E1 as <-.
    constructor; cbn; rewrite ?length_insert; try done.
    + intros j tj Hj. rewrite (H8 j tj Hj). destruct (decide (i = j)) as [<-|Hne]; [|by rewrite list_lookup_insert_ne].
      by rewrite Ei, list_lookup_insert_eq.
    + intros j wj Hj. apply list_lookup_insert_Some in Hj as [(<- & <- & _)|[Hne Hj]].
      * rewrite list_lookup_insert_eq by done. split; [done|]. by intros md [= <-].
      * rewrite list_lookup_insert_ne by done. by apply Hw.
  - pose proof (lookup_lt_Some _ _ _ Ei). pose proof (lookup_lt_Some _ _ _ Et).
    constructor; cbn; rewrite ?length_insert; try done.
    + intros j tj Hj. apply list_lookup_insert_Some in Hj as [(<- & <- & _)|[Hne Hj]]; [by apply (H7 _ t Et)|by apply H7].
    + intros j tj Hj. apply list_lookup_insert_Some in Hj as [(<- & <- & _)|[Hne Hj]].
      * by rewrite list_lookup_insert_eq.
      * rewrite list_lookup_insert_ne by done. by apply H8.
    + intros j wj Hj. destruct (Hw j wj Hj) as [Hi' Ha]. split; [done|]. intros md' Hmd.
      apply list_lookup_insert_Some in Hmd as [(_ & <- & _)|[_ Hmd]]; [done|by apply Ha].
Qed.

(** The deferred function waits for a monitor whose source has not stopped yet. *)
Definition waits_for_source (s : shsys) : Prop :=
  exists w, shModes s !! shNext s = Some MStopping /\ shSources s !! shNext s = Some w /\ watch_stopped w = false.

(** A monitor that was told to stop gets to its select, and then stops. *)
Lemma running_monitor_progress s m t w l :
  shinv s -> shModes s !! shNext s = Some MRun -> shTombs s !! shNext s = Some t -> tStopClosed t = true ->
  pMons (shPipe s) !! shNext s = Some m -> shSources s !! shNext s = Some w -> pLanes (shPipe s) !! shNext s = Some l ->
  exists a s', no_input a = true /\ counted a = true /\ shexec s a = Some s'.
Proof.
  intros Hv Hmd Ht Hst Hm Hw Hl. pose proof (mv_inv _ _ _ (pv_mons _ _ _ (sv_pipe _ Hv)) _ m Hm) as HI.
  pose proof (sv_fits _ Hv _ m l Hm Hl) as Hroom. unfold need, in_hand in Hroom.
  destruct (mon_state m) as [| | |st] eqn:Ep.
  - destruct (start_enabled (pWorld (shPipe s)) m Time_zero Ep) as [[m' w'] E].
    exists (ShStep (PMon (shNext s) (OStart Time_zero))). cbn. rewrite Hmd, Hm. cbn. rewrite E. by eexists.
  - destruct (sv_source _ Hv _ w Hw) as [Hi Ha]. destruct (watch_stop_law w Hi (Ha _ Hmd)) as (w' & E & _).
    exists (ShStop (shNext s)). cbn. rewrite Ht, Hm, Hw. cbn. rewrite Hmd, Ep. unfold Tomb_Stopping. rewrite Hst, E. by eexists.
  - destruct (turn_enabled _ m HI Ep) as [[m' w'] E].
    exists (ShStep (PMon (shNext s) OTurn)). cbn. rewrite Hmd, Hm. cbn. rewrite E. by eexists.
  - destruct l as [q h]. unfold room, pending in Hroom. cbn [queue held length] in Hroom. rewrite length_app in Hroom.
    destruct (Nat.ltb_spec (length q) outputCap) as [Hq|Hq].
    + destruct (send_enabled m st Ep) as [m' E].
      exists (ShStep (PSend (shNext s))). cbn [shexec goes_on]. rewrite Hmd. cbn [Pipeline.pexec]. rewrite Hm, Hl.
      cbn [mbind option_bind]. rewrite E. cbn [mbind option_bind queue].
      rewrite (proj2 (Nat.ltb_lt _ _) Hq). by eexists.
    + destruct h as [h|]; [change (length (option_list (Some h))) with 1 in Hroom; lia|].
      destruct q as [|st0 q]; [cbn in Hq; unfold outputCap in Hq; lia|].
      exists (ShStep (PTake (shNext s))). cbn. rewrite Hl. by eexists.
Qed.

Lemma sh_progress s : shinv s ->
  sh_finished s \/ (exists a s', no_input a = true /\ counted a = true /\ shexec s a = Some s') \/ waits_for_source s.
Proof.
  intros Hv. pose proof Hv as [H1 H2 H3 H4 H5 H6 H7 H8 H9 Hsl Hw].
  destruct (decide (shNext s < length (shTombs s))) as [Hlt|Hge].
  2: { left. split; [lia|]. destruct (shWaiting s); [|done]. specialize (H9 eq_refl). lia. }
  right. destruct (lookup_lt_is_Some_2 (shTombs s) (shNext s) Hlt) as [t Ht].
  destruct (lookup_lt_is_Some_2 (pMons (shPipe s)) (shNext s) ltac:(lia)) as [m Hm].
  destruct (lookup_lt_is_Some_2 (shModes s) (shNext s) ltac:(lia)) as [md Hmd].
  destruct (lookup_lt_is_Some_2 (shSources s) (shNext s) ltac:(lia)) as [w Ew].
  destruct (lane_of _ _ _ _ _ H1 Hm) as [l Hl].
  destruct (shWaiting s) eqn:Ewt.
  2: { left. exists ShMain. cbn [shexec]. rewrite Ht. cbn [mbind option_bind]. rewrite Ewt. unfold Tomb_Stop_close.
       destruct (tStopClosed t) eqn:Ec; [|by eexists].
       exfalso. apply (H7 _ _ Ht) in Ec. unfold stop_sent in Ec. rewrite Ewt in Ec. naive_solver lia. }
  assert (Hst : tStopClosed t = true) by (apply (H7 _ _ Ht); by right).
  destruct md.
  - left. by eapply running_monitor_progress.
  - destruct (watch_stopped w) eqn:Es; [left|right; by exists w].
    exists (ShDone (shNext s)). cbn. rewrite Ew. cbn. rewrite Hmd, Es. unfold sh_leave, Tomb_Done. rewrite Ht. cbn.
    destruct (tDoneClosed t) eqn:Ed; [|by eexists]. apply (H8 _ _ Ht) in Ed. congruence.
  - left. exists ShMain. cbn. rewrite Ht. cbn. rewrite Ewt. unfold Tomb_Stop_returns.
    rewrite (proj2 (H8 _ _ Ht) Hmd). by eexists.
Qed.

(** *** With sources that can stop *)
Definition all_unblocked (s : shsys) : Prop :=
  forall i w, shSources s !! i = Some w -> shModes s !! i <> Some MGone -> unblocked w = true.

Lemma all_unblocked_step s a s' :
  shinv s -> shexec s a = Some s' -> no_input a = true -> counted a = true -> all_unblocked s -> all_unblocked s'.
Proof.
  intros Hv He Hl Hc Hu.
  destruct (shexec_change _ _ _ He) as [t Et Ew Ec|t Et Ew Ec|a p' Eg Ep|i now w x w' p' Ew Er Ei Ep|i a w w' Ew Es E
    |i m w w' Em Epi Ew Ei E|a i t md Ea Et Ed Ei Hi]; try done.
  - destruct (sv_source _ Hv i w Ew) as [Hi Ha]. destruct (watch_stop_law w Hi (Ha _ Ei)) as (w1 & E1 & _ & _ & Hu1).
    rewrite E in E1. injection E1 as <-. intros j wj Hj Hg. cbn in Hj, Hg.
    apply list_lookup_insert_Some in Hj as [(<- & <- & _)|[Hne Hj]].
    + rewrite Hu1. apply (Hu i w Ew). by rewrite Ei.
    + apply (Hu j wj Hj). by rewrite list_lookup_insert_ne in Hg.
  - intros j wj Hj Hg. apply (Hu j wj Hj). cbn in Hg. intros Eg. apply Hg.
    destruct (decide (i = j)) as [<-|Hne]; [|by rewrite list_lookup_insert_ne].
    rewrite list_lookup_insert_eq; [done|by eapply lookup_lt_Some].
Qed.

(** The own steps of a source, in the process. *)
Lemma source_runs s i w tr w' :
  shinv s -> shSources s !! i = Some w -> Forall (fun a => is_stop a = false) tr -> runs watch_step w tr w' ->
  runs shexec s (ShSource i <$> tr) (sh_source s i w') /\ shinv (sh_source s i w').
Proof.
  intros Hv Hw HF Hr. induction Hr as [|tr w1 a w2 Hr IH Ha].
  - assert (E : sh_source s i w = s) by (destruct s; unfold sh_source; cbn in *; by rewrite list_insert_id).
    rewrite E. split; [constructor|done].
  - apply Forall_app in HF as [HF Hs]. apply Forall_inv in Hs. destruct (IH HF) as [IH1 IH2].
    assert (He : shexec (sh_source s i w1) (ShSource i a) = Some (sh_source s i w2)).
    { cbn. rewrite list_lookup_insert_eq by (by eapply lookup_lt_Some). cbn. rewrite Hs, Ha. cbn.
      unfold sh_source. cbn. by rewrite list_insert_insert_eq. }
    rewrite fmap_app. split; [by econstructor|by eapply shinv_step].
Qed.

(** They end the wait of the deferred function. *)
Lemma source_stops s :
  shinv s -> all_unblocked s -> waits_for_source s ->
  exists tr s', Forall (fun a => no_input a = true) tr /\ runs shexec s tr s' /\ shinv s' /\ all_unblocked s' /\
    sh_work s' < sh_work s.
Proof.
  intros Hv Hu (w & Hmd & Hw & Hns). destruct (sv_source _ Hv _ w Hw) as [Hi Ha].
  destruct (stop_completes w Hi (Ha _ Hmd)) as (tr & w' & HF & Hr & Hst); [by eapply Hu; [|rewrite Hmd]|].
  destruct (source_runs s _ w tr w' Hv Hw HF Hr) as [Hrs Hvs].
  set (s1 := sh_source s (shNext s) w') in *. pose proof (lookup_lt_Some _ _ _ Hmd) as Hlt.
  destruct (lookup_lt_is_Some_2 (shTombs s) (shNext s)) as [t Ht]; [by rewrite (sv_tombs _ Hv), <- (sv_modes _ Hv)|].
  assert (Hd : tDoneClosed t = false).
  { apply not_true_is_false. intros E. apply (sv_done _ Hv _ _ Ht) in E. congruence. }
  assert (He : shexec s1 (ShDone (shNext s)) =
    Some (sh_tomb (sh_mode s1 (shNext s) MGone) (shNext s) (mkTomb (tStopClosed t) true))).
  { cbn. rewrite list_lookup_insert_eq by (by eapply lookup_lt_Some). cbn. rewrite Hmd, Hst. unfold sh_leave, Tomb_Done. cbn.
    rewrite Ht. cbn. by rewrite Hd. }
  eexists ((ShSource (shNext s) <$> tr) ++ [ShDone (shNext s)]), _. split_and!.
  - apply Forall_app. split; [|by repeat constructor]. apply Forall_fmap. by apply Forall_true.
  - eapply runs_app; [exact Hrs|apply runs_one, He].
  - by eapply shinv_step.
  - intros j wj Hj Hg. cbn in Hj, Hg. destruct (decide (shNext s = j)) as [<-|Hne].
    + by rewrite list_lookup_insert_eq in Hg.
    + rewrite list_lookup_insert_ne in Hj by done. rewrite list_lookup_insert_ne in Hg by done. by eapply Hu.
  - exact (sh_work_step s1 _ _ (shinv_sane _ Hvs) He eq_refl).
Qed.

(** So everything can be run to the end. *)
Lemma sh_completes n s :
  sh_work s <= n -> shinv s -> all_unblocked s ->
  exists tr s', Forall (fun a => no_input a = true) tr /\ runs shexec s tr s' /\ sh_finished s'.
Proof.
  revert s. induction n as [n IH] using lt_wf_ind. intros s Hn Hv Hu.
  assert (Hgo : forall tr s1, Forall (fun a => no_input a = true) tr -> runs shexec s tr s1 -> shinv s1 -> all_unblocked s1 ->
    sh_work s1 < sh_work s -> exists tr s', Forall (fun a => no_input a = true) tr /\ runs shexec s tr s' /\ sh_finished s').
  { intros tr s1 HF Hr Hv1 Hu1 Hlt. destruct (IH (sh_work s1) ltac:(lia) s1 (le_n _) Hv1 Hu1) as (tr2 & s2 & HF2 & Hr2 & Hf).
    exists (tr ++ tr2), s2. split_and!; [by apply Forall_app|by eapply runs_app|done]. }
  destruct (sh_progress s Hv) as [Hf|[(a & s1 & Hn1 & Hc & He)|Hwt]].
  - exists [], s. by split_and!; [constructor|constructor|].
  - pose proof (sh_work_step _ _ _ (shinv_sane _ Hv) He Hn1) as Hw. rewrite Hc in Hw.
    apply (Hgo [a] s1); [by repeat constructor|by apply runs_one|by eapply shinv_step|by eapply all_unblocked_step|done].
  - destruct (source_stops s Hv Hu Hwt) as (tr & s1 & HF & Hr & Hv1 & Hu1 & Hlt). by apply (Hgo tr s1).
Qed.

(** *** From a run of the process *)
Variable ws : list W.
Hypothesis one_source_each : length ws = length ds.
Hypothesis sources_fresh : Forall (fun w => watch_inv w /\ received w = []) ws.
Local Abbreviation eexec := (eexec writeEv updateCond).

Lemma pexec_length (p p' : pipeline M D C) a : pexec p a = Some p' -> length (pMons p') = length (pMons p).
Proof. intros He. destruct (pexec_mons _ _ _ _ _ He) as [E _|i op m m' w' _ _ _ ->|i m l s m' _ _ _ _ _ ->]; cbn; by rewrite ?E, ?length_insert. Qed.

Lemma sources_length tr e :
  runs eexec (estart hb ds w0 cl0 ws) tr e -> length (eWatch e) = length (pMons (ePipe e)).
Proof.
  apply (runs_invariant eexec (fun s => length (eWatch s) = length (pMons (ePipe s)))); [|done].
  intros s a s' H He. destruct a as [i a|i now|a]; cbn [EndToEnd.eexec] in He; unfold mbind, option_bind in He.
  - destruct (eWatch s !! i) as [w|]; [|done]. destruct (watch_step w a); [|done]. injection He as <-. cbn. by rewrite length_insert.
  - destruct (eWatch s !! i) as [w|]; [|done]. destruct (watch_recv w) as [[x w']|]; [|done].
    destruct (pexec _ _) as [p|] eqn:Ep; [|done]. injection He as <-. cbn. by rewrite length_insert, (pexec_length _ _ _ Ep).
  - assert (Hp : exists p, pexec (ePipe s) a = Some p /\ s' = mkESys (eWatch s) p).
    { destruct a as [j []| | | | | |]; try done; (destruct (pexec _ _) as [p|]; [|done]); injection He as <-; by eexists. }
    destruct Hp as (p & Ep & ->). cbn. by rewrite (pexec_length _ _ _ Ep).
Qed.

(** No monitor has stopped its source yet. *)
Definition sources_running (e : esys M D C W) : Prop := Forall (fun w => stop_asked w = false) (eWatch e).

Lemma shinv_start tr e :
  runs eexec (estart hb ds w0 cl0 ws) tr e -> ebound ds e -> fits (ePipe e) -> sources_running e -> shinv (sh_start e).
Proof.
  intros Hr Hb Hf Hrun. pose proof (sources_length _ _ Hr) as Hlen.
  destruct (reached writeEv updateCond hb ds w0 cl0 ws one_source_each sources_fresh tr e Hr) as (ptr & Hp & Htb & Hsrc & _).
  specialize (Htb Hb).
  destruct (pipeline_inv writeEv updateCond hb write_on update_on ds w0 cl0 ds_fresh types_distinct ptr _ Hp Htb) as [Hh Hv].
  constructor; cbn; rewrite ?length_fmap; try done; [|lia|..].
  - intros i m Hi. destruct (Hh i m Hi) as (d & Hd & Hs & -> & _). apply (same_bound _ _ Hs). by apply Htb.
  - intros i t Hi. apply list_lookup_fmap_Some in Hi as (m & -> & _). unfold stop_sent. cbn. naive_solver lia.
  - intros i t Hi. apply list_lookup_fmap_Some in Hi as (m & -> & Hm). rewrite list_lookup_fmap, Hm. done.
  - intros i w Hi. split; [by apply (Hsrc i w)|]. intros md Hmd. apply list_lookup_fmap_Some in Hmd as (m & -> & _). cbn.
    exact (Forall_lookup_1 _ _ _ _ Hrun Hi).
Qed.

(** C13.  Otherwise shutdown completes, when the sources do stop.  From every state
    that the running process can reach, with monitors and sources of either kind,
    when what the monitors may still send fits into their channels and no further
    log or result is received: however the deferred stops, the monitors, their
    sources and the forwarders interleave, the steps of all but the sources and the
    sync goroutine are bounded in number; in every state reached all monitors are
    stopped, or one of those steps is possible, or the deferred stop waits for a
    monitor whose call of the [Stop] of its watcher or plugin has not returned.
    And as long as no source of a monitor still to be stopped is blocked in a send
    to a full channel (the plugin and the kernel log watcher never are), there is a
    continuation that stops all of them. *)
Theorem running_shutdown_completes tr e tr' s :
  runs eexec (estart hb ds w0 cl0 ws) tr e -> ebound ds e -> fits (ePipe e) -> sources_running e ->
  runs shexec (sh_start e) tr' s -> Forall (fun a => no_input a = true) tr' ->
  length (filter (fun a => counted a = true) tr') <= sh_work (sh_start e) /\
  (sh_finished s \/ (exists a s', no_input a = true /\ counted a = true /\ shexec s a = Some s') \/ waits_for_source s) /\
  (all_unblocked s -> exists tr'' s', Forall (fun a => no_input a = true) tr'' /\ runs shexec s tr'' s' /\ sh_finished s').
Proof.
  intros Hr Hb Hf Hrun Hr' HF.
  assert (Hinv : shinv s /\ length (filter (fun a => counted a = true) tr') + sh_work s <= sh_work (sh_start e)).
  { induction Hr' as [|tr1 s1 a s2 Hr1 IH Ha]; [split; [by eapply shinv_start|exact (le_n _)]|].
    apply Forall_app in HF as [HF1 HFa]. destruct (IH HF1) as [IH1 IH2]. apply Forall_inv in HFa.
    split; [by eapply shinv_step|]. rewrite filter_app, length_app.
    pose proof (sh_work_step _ _ _ (shinv_sane _ IH1) Ha HFa) as Hw.
    destruct (decide (counted a = true)) as [E|E].
    - rewrite filter_cons_True, filter_nil by done. rewrite E in Hw. cbn [length]. lia.
    - rewrite filter_cons_False, filter_nil by done. destruct (counted a); [done|]. cbn [length]. lia. }
  destruct Hinv as [Hinv Hle]. split_and!; [lia|by apply sh_progress|by apply (sh_completes (sh_work s))].
Qed.
End Shutdown.

(** ** Witnesses: the monitors and sources of [EndToEnd] *)
#[local] Existing Instance AsciiUnicode.
#[local] Existing Instance demo_filelog.
#[local] Existing Instance demo_plugin.
#[local] Instance demo_filelog_stop : Stoppable Log fsys faction := filelog_Stoppable demo_parse demo_year demo_add.
#[local] Instance demo_plugin_stop : Stoppable Cpm.Result psource (lact * (Cpm.Status * string)) :=
  plugin_Stoppable 1 (plan_groups ntp_plan) (plan_nonempty Cpm.ntp_applied ntp_plan eq_refl).

Abbreviation demo_shsys := (@shsys FakeInt64Metric daemon FakeProblemClient demo_source).
Abbreviation demo_shaction := (shaction (X := dinput) (A := (faction + jaction) + lact * (Cpm.Status * string))).
Abbreviation demo_shexec := (shexec (M := FakeInt64Metric) (X := dinput) true true).

Lemma fits_after tr :
  forallb (fun p => need (M := FakeInt64Metric) p.1 <=? room p.2)
    (zip (pMons (ePipe (node_after tr))) (pLanes (ePipe (node_after tr)))) = true ->
  fits (M := FakeInt64Metric) (ePipe (node_after tr)).
Proof.
  intros H i m l Hm Hl. rewrite forallb_forall in H. apply Nat.leb_le. apply (H (m, l)), list_elem_of_In.
  apply (list_elem_of_lookup_2 _ i). by rewrite lookup_zip_Some.
Qed.

Lemma unblocked_test (s : demo_shsys) :
  forallb (unblocked (X := dinput)) (shSources s) = true -> all_unblocked (X := dinput) s.
Proof.
  intros H i w Hw _. rewrite forallb_forall in H. apply H, list_elem_of_In. by eapply list_elem_of_lookup_2.
Qed.

(** The file log watcher has read a line, the journald watcher is about to read and
    the plugin runs when the process is told to end; the first monitor has told its
    watcher to stop. *)
Definition demo_end : demo_sys := node_after (node_run ++ syslog_read ("oom" +:+ newline) NoErr).
Definition demo_stops : list demo_shaction := [ShMain; ShStop 0].
Definition demo_stopping : demo_shsys := default (sh_start demo_end) (run_from demo_shexec (sh_start demo_end) demo_stops).

Lemma running_shutdown_completes_witness :
  waits_for_source (X := dinput) demo_stopping /\
  exists tr s', runs demo_shexec demo_stopping tr s' /\ sh_finished s'.
Proof.
  destruct (running_shutdown_completes true true hb5 eq_refl eq_refl three_monitors sample_world
    NewFakeProblemClient three_monitors_fresh three_monitors_distinct three_sources eq_refl three_sources_fresh
    (node_run ++ syslog_read ("oom" +:+ newline) NoErr) demo_end demo_stops demo_stopping) as (_ & _ & Hc).
  - ran.
  - counted.
  - apply fits_after. vm_compute. reflexivity.
  - unfold sources_running. apply (bool_decide_unpack _). vm_compute. exact Logic.I.
  - apply run_from_runs. unfold demo_stopping.
    destruct (run_from demo_shexec (sh_start demo_end) demo_stops) eqn:E; [reflexivity|]. vm_compute in E. discriminate E.
  - repeat constructor.
  - split; [eexists; split_and!; vm_compute; reflexivity|].
    destruct Hc as (tr & s' & _ & Hr & Hf); [|by exists tr, s'].
    apply unblocked_test. vm_compute. reflexivity.
Defined.

(** The exporter is busy with the first status while 501 lines match both rules;
    then the process is told to end. *)
Definition flood_line : list demo_action :=
  syslog_read ("oom" +:+ newline) NoErr ++
  [EWatch 0 (inl (inl FaSend)); EInput 0 0; EPipe (PRule 0); EPipe (PSend 0); EPipe (PRule 0); EPipe (PSend 0); EPipe (PRule 0)].
Definition flood_run : list demo_action :=
  (EPipe <$> [PInit 0 1; PInit 1 2; PSend 0; PRule 0; PTake 0; PReceive 0]) ++ flood_line ++ [EPipe (PTake 0)] ++
  concat (replicate 499 flood_line) ++ take 7 flood_line ++ (EPipe <$> [PEvent; PCond; PCond]).

Definition stuck_test (s : demo_shsys) (i : nat) : bool :=
  match shModes s !! i, shTombs s !! i, pMons (shPipe s) !! i, pLanes (shPipe s) !! i with
  | Some MRun, Some t, Some m, Some (mkLane q (Some _)) =>
    match mon_state (M := FakeInt64Metric) m with
    | SSending _ => (shNext s <=? i) && negb (tDoneClosed t) && (outputCap <=? length q)
    | _ => false
    end
  | _, _, _, _ => false
  end.

Lemma stuck_test_spec s i : stuck_test s i = true -> stuck_send (M := FakeInt64Metric) s i.
Proof.
  unfold stuck_test. destruct (shModes s !! i) as [[]|] eqn:E1; try done.
  destruct (shTombs s !! i) as [t|] eqn:E2; [|done]. destruct (pMons (shPipe s) !! i) as [m|] eqn:E3; [|done].
  destruct (pLanes (shPipe s) !! i) as [[q [h|]]|] eqn:E4; try done. destruct (mon_state m) as [| | |st] eqn:E5; try done.
  rewrite !andb_true_iff, negb_true_iff, !Nat.leb_le. intros [[Hn Hd] Hq].
  split_and!; [done|by eapply lookup_lt_Some|done|by exists t|by exists m, st|by exists q, h].
Qed.

