(* ===== verification/LogCounter.v ===== *)
(** The log counter ([cmd/logcounter], [pkg/logcounter]): a custom plugin that
    counts the journal entries of the past that match a pattern and reports
    through its exit code. *)

From S2P Require Import Prelude GoStrings Regexp GoTime Types LogBuffer LogMonitor CustomPluginConfig JournaldWatcher.

(* @ pkg/logcounter/log_counter.go:37-37 bufferSize *)
Definition bufferSize : nat := 1000.

(* @ cmd/logcounter/options/options.go:30-39 LogCounterOptions *)
Record LogCounterOptions : Type := mkLCO {
  lcoJournaldSource : string;
  lcoLogPath : string;
  lcoLookback : string;
  lcoDelay : string;
  lcoPattern : string;
  lcoRevertPattern : string;
  lcoCount : Z
}.

(** The options after the flags were defined, and the names of the flags. *)
(* @ cmd/logcounter/options/options.go:42-54 AddFlags *)
Definition lco_AddFlags : LogCounterOptions * list string :=
  (mkLCO "" "" "" "" "" "" 1%Z,
   ["journald-source"; "log-path"; "lookback"; "delay"; "pattern"; "revert-pattern"; "count"]).

(** The log channel and the clock are the inputs of [Count]. *)
(* @ pkg/logcounter/log_counter.go:42-48 logCounter *)
Record logCounter : Type := mkLC {
  lcBuffer : logBuffer;
  lcPattern : Pattern;
  lcRevertPattern : option Pattern
}.

Section Counter.
Context `{UC : !Unicode}.
Variable parse : string -> result Regexp.
(** Creating the journald watcher and watching: a failed start time is fatal. *)
Variable watch : WatcherConfig -> outcome (result unit).

(* @ pkg/logcounter/log_counter.go:50-81 NewJournaldLogCounter *)
Definition NewJournaldLogCounter (o : LogCounterOptions) : outcome (result logCounter) :=
  match CompilePattern parse (lcoPattern o) with
  | Err _ => Ret (Err "invalid pattern")
  | Ok pattern =>
    match
      (if negb (String.eqb (lcoRevertPattern o) "") then
         match CompilePattern parse (lcoRevertPattern o) with
         | Err _ => Err "invalid revert pattern"
         | Ok rp => Ok (Some rp)
         end
       else Ok None)
    with
    | Err e => Ret (Err e)
    | Ok revertPattern =>
      r ← watch (mkWatcherConfig "journald" {[ "source" := lcoJournaldSource o ]} [] (lcoLogPath o)
                   (lcoLookback o) (lcoDelay o));
      match r with
      | Err _ => Ret (Err "error watching journald")
      | Ok _ =>
        b ← NewLogBuffer (Z.of_nat bufferSize);
        Ret (Ok (mkLC b pattern revertPattern))
      end
    end
  end.

(** What the select of [Count] receives: a log, the close of the channel, or the
    timer. *)
Inductive count_input : Type := CLog (log : Log) | CClosed | CTimeout.

(** One match of the buffer, with its change of the count. *)
Definition count_match (b : logBuffer) (p : Pattern) (count delta : Z) : outcome (logBuffer * Z) :=
  r ← Match b p;
  let '(b, matched) := r : logBuffer * list Log in
  Ret (b, if negb (length matched =? 0) then int64 (count + delta) else count).

(** The count and the error; [None] while the loop waits for input. *)
(* @ pkg/logcounter/log_counter.go:83-109 Count *)
Fixpoint Count (e : logCounter) (start : Time) (count : Z) (inputs : list count_input)
    : outcome (option (Z * result unit)) :=
  match inputs with
  | [] => Ret None
  | CTimeout :: _ => Ret (Some (count, Ok tt))
  | CClosed :: _ => Ret (Some (count, Err "log channel closed unexpectedly"))
  | CLog log :: inputs =>
    if Time_Before start (lTimestamp log) then Ret (Some (count, Ok tt))
    else
      b ← Push (lcBuffer e) log;
      r ← count_match b (lcPattern e) count 1;
      let '(b, count) := r : logBuffer * Z in
      r ← match lcRevertPattern e with
          | None => Ret (b, count)
          | Some rp => count_match b rp count (-1)
          end;
      let '(b, count) := r : logBuffer * Z in
      Count (mkLC b (lcPattern e) (lcRevertPattern e)) start count inputs
  end.

(** The exit code of the program, from the parsed options on. *)
(* @ cmd/logcounter/log_counter.go:48-67 main *)
Definition counter_main (o : LogCounterOptions) (start : Time) (inputs : list count_input)
    : outcome (option Z) :=
  c ← NewJournaldLogCounter o;
  match c with
  | Err _ => Ret (Some Cpm.Unknown)
  | Ok e =>
    r ← Count e start 0 inputs;
    match r with
    | None => Ret None
    | Some (_, Err _) => Ret (Some Cpm.Unknown)
    | Some (actual, Ok _) =>
      if (lcoCount o <=? actual)%Z then Ret (Some Cpm.NonOK) else Ret (Some Cpm.OK)
    end
  end.

(** ** What is counted *)

Definition hit (p : Pattern) (hist : list Log) : Z :=
  if negb (length (match_result p bufferSize hist) =? 0) then 1 else 0.

(** The number of logs at which the window of the last 1000 messages matches. *)
Fixpoint hits (p : Pattern) (hist logs : list Log) : Z :=
  match logs with
  | [] => 0
  | l :: logs => hit p (hist ++ [l]) + hits p (hist ++ [l]) logs
  end.

Definition net (p : Pattern) (rp : option Pattern) (hist logs : list Log) : Z :=
  hits p hist logs - match rp with None => 0 | Some rp => hits rp hist logs end.

Lemma hit_range p hist : (0 <= hit p hist <= 1)%Z.
Proof. unfold hit. case_match; lia. Qed.

Lemma hits_range p hist logs : (0 <= hits p hist logs <= Z.of_nat (length logs))%Z.
Proof.
  revert hist. induction logs as [|l logs IH]; intros hist; simpl; [lia|].
  pose proof (hit_range p (hist ++ [l])). specialize (IH (hist ++ [l])). lia.
Qed.

Lemma count_match_spec b p count delta hist :
  Repr b bufferSize hist -> in_int64 (count + delta) -> delta = 1%Z \/ delta = (-1)%Z ->
  exists b', count_match b p count delta = Ret (b', (count + delta * hit p hist)%Z) /\
    Repr b' bufferSize hist.
Proof.
  intros HR Hc Hd. destruct (Match_result b bufferSize hist p HR) as (b' & HM & HR').
  exists b'. split; [|done]. unfold count_match, hit. rewrite HM. simpl.
  destruct (length _ =? 0); simpl; [by rewrite Z.mul_0_r, Z.add_0_r|].
  by rewrite int64_id, Z.mul_1_r by done.
Qed.

(** Counting a run of logs of the past. *)
Lemma Count_logs p rp start b hist logs count rest :
  Repr b bufferSize hist ->
  (Z.of_nat (length hist) + Z.of_nat (length logs) + Z.of_nat bufferSize <= int64_max)%Z ->
  (Z.abs count + Z.of_nat (length logs) < int64_max)%Z ->
  Forall (fun l => Time_Before start (lTimestamp l) = false) logs ->
  exists b', Count (mkLC b p rp) start count ((CLog <$> logs) ++ rest) =
    Count (mkLC b' p rp) start (count + net p rp hist logs)%Z rest.
Proof.
  revert b hist count. induction logs as [|l logs IH]; intros b hist count HR Hb Hc Hl.
  { exists b. unfold net. simpl. do 2 f_equal. destruct rp; lia. }
  apply Forall_cons in Hl as [Hl Hls]. cbn [length] in Hb, Hc.
  destruct (Push_Repr b bufferSize hist l HR ltac:(lia)) as (b1 & HP & HR1).
  pose proof (hit_range p (hist ++ [l])) as Hh.
  destruct (count_match_spec b1 p count 1 _ HR1 ltac:(unfold in_int64, int64_min, int64_max in *; lia)
    ltac:(by left)) as (b2 & HM & HR2).
  set (c1 := (count + 1 * hit p (hist ++ [l]))%Z) in *.
  assert (Hrev : exists b3 c2, match rp with None => Ret (b2, c1) | Some rp => count_match b2 rp c1 (-1) end
      = Ret (b3, c2) /\ Repr b3 bufferSize (hist ++ [l]) /\
      c2 = (count + hit p (hist ++ [l]) - match rp with None => 0 | Some rp => hit rp (hist ++ [l]) end)%Z).
  { destruct rp as [rp|]; [|exists b2, c1; split_and!; [done | done | lia]].
    destruct (count_match_spec b2 rp c1 (-1) _ HR2
      ltac:(unfold in_int64, int64_min, int64_max in *; lia) ltac:(by right)) as (b3 & HM3 & HR3).
    exists b3, (c1 + -1 * hit rp (hist ++ [l]))%Z. split_and!; [done | done | lia]. }
  destruct Hrev as (b3 & c2 & Hm & HR3 & Hc2).
  assert (Hr' : (0 <= match rp with None => 0 | Some rp => hit rp (hist ++ [l]) end <= 1)%Z).
  { destruct rp; [apply hit_range | lia]. }
  destruct (IH b3 (hist ++ [l]) c2 HR3) as (b' & E);
    [rewrite length_app; simpl; lia | lia | done |].
  exists b'. cbn [fmap list_fmap app Count]. rewrite Hl. cbn [lcBuffer lcPattern lcRevertPattern].
  rewrite HP. ret_step. rewrite HM. ret_step. rewrite Hm.
  ret_step. etrans; [exact E|]. f_equal. unfold net. simpl. destruct rp; lia.
Qed.

(** The exit code of the counter.  Given the logs up to the moment it started,
    and then a log from after that moment or no log for the timeout, the counter
    returns, and its exit code is NonOK exactly when the number of logs at which
    the pattern matched the window of the last 1000 messages, less the number at
    which the revert pattern did, reaches the threshold; when the channel closes
    instead the code is Unknown.  Nothing panics and the count does not
    overflow. *)
Theorem counter_exit_code o start logs fin rest e :
  NewJournaldLogCounter o = Ret (Ok e) ->
  (Z.of_nat (length logs) + Z.of_nat bufferSize < int64_max)%Z ->
  Forall (fun l => (lTimestamp l <= start)%Z) logs ->
  (fin = CTimeout \/ fin = CClosed \/ exists l, fin = CLog l /\ (start < lTimestamp l)%Z) ->
  counter_main o start ((CLog <$> logs) ++ fin :: rest) =
  Ret (Some (match fin with
             | CClosed => Cpm.Unknown
             | _ => if (lcoCount o <=? net (lcPattern e) (lcRevertPattern e) [] logs)%Z
                    then Cpm.NonOK else Cpm.OK
             end)).
Proof.
  intros Hnew Hlen Hpast Hfin. unfold counter_main. rewrite Hnew. ret_step.
  assert (HR : exists b p rp, e = mkLC b p rp /\ Repr b bufferSize []).
  { unfold NewJournaldLogCounter in Hnew. destruct (CompilePattern parse (lcoPattern o)) as [p|]; [|done].
    destruct (if negb _ then _ else _) as [rp|]; [|done].
    destruct (watch _) as [[|]|]; try done. ret_step in Hnew.
    destruct (NewLogBuffer_Repr bufferSize) as (b & Hb & HR); [unfold bufferSize; lia | lia |].
    rewrite Hb in Hnew. ret_step in Hnew. injection Hnew as <-. eauto 10. }
  destruct HR as (b & p & rp & -> & HR).
  destruct (Count_logs p rp start b [] logs 0 (fin :: rest) HR) as (b' & ->);
    [simpl; lia | lia | |].
  { eapply Forall_impl; [exact Hpast|]. intros l Hl. unfold Time_Before. simpl in Hl. lia. }
  rewrite Z.add_0_l.
  destruct Hfin as [-> | [-> | (l & -> & Hl)]]; cbn [Count].
  - cbn [mbind outcome_bind lcPattern lcRevertPattern]. by destruct (_ <=? _)%Z.
  - done.
  - assert (Hb : Time_Before start (lTimestamp l) = true) by (unfold Time_Before; lia).
    rewrite Hb. cbn [mbind outcome_bind lcPattern lcRevertPattern]. by destruct (_ <=? _)%Z.
Qed.
End Counter.

(** Three logs, of which two end in [oom], with a threshold of two. *)
Definition oom_options : LogCounterOptions := mkLCO "kernel" "" "5m" "" "oom" "" 2%Z.
Definition oom_watch (_ : WatcherConfig) : outcome (result unit) := Ret (Ok tt).
Definition oom_counter : logCounter :=
  match NewJournaldLogCounter oom_parse oom_watch oom_options with
  | Ret (Ok e) => e
  | _ => mkLC oom_buffer (mkPattern oom_tree false) None
  end.

Lemma counter_exit_code_witness :
  counter_main oom_parse oom_watch oom_options 5%Z
    [CLog (mkLog 1%Z "boom"); CLog (mkLog 2%Z "quiet"); CLog (mkLog 3%Z "xoom"); CTimeout] =
  Ret (Some Cpm.NonOK).
Proof.
  assert (Hl : Forall (fun l => (lTimestamp l <= 5)%Z) [mkLog 1%Z "boom"; mkLog 2%Z "quiet"; mkLog 3%Z "xoom"])
    by (repeat constructor; simpl; lia).
  exact (counter_exit_code oom_parse oom_watch oom_options 5%Z
    [mkLog 1%Z "boom"; mkLog 2%Z "quiet"; mkLog 3%Z "xoom"] CTimeout [] oom_counter eq_refl
    ltac:(vm_compute; reflexivity) Hl (or_introl eq_refl)).
Defined.
