(* ===== verification/SystemFiles.v ===== *)
(** The readers of /proc ([pkg/util/metrics/system]) and the collector of
    operating system features that uses them
    ([pkg/systemstatsmonitor/osfeature_collector.go]).

    [CmdlineArgs] keeps a package variable, whether it is within quotes, from one
    call to the next; it is an argument and a result here.  A collection returns
    the calls of [Record] it makes, in order; their errors are only logged. *)

From S2P Require Import Prelude GoStrings GoConv.

(** ** Strings *)

(** [strings.FieldsFunc] with a function that has state: the parts between the
    characters it answers true for, without empty ones.  Only ASCII characters
    concern the function used here, so the bytes can stand for the runes. *)
Section FieldsFunc.
Context {S : Type}.
Variable f : S -> ascii -> S * bool.

Definition flush (cur : string) (l : list string) : list string :=
  if String.eqb cur "" then l else cur :: l.

Fixpoint FieldsFunc (st : S) (cur s : string) : S * list string :=
  match s with
  | EmptyString => (st, flush cur [])
  | String c t =>
    let '(st, sep) := f st c in
    if sep then let '(st, l) := FieldsFunc st "" t in (st, flush cur l)
    else FieldsFunc st (cur +:+ String c "") t
  end.
End FieldsFunc.

(** [strings.Fields]: the parts between white space.  [skip] bytes still belong
    to the rune last decoded, which was white space or not. *)
Fixpoint Fields_from (skip : nat) (space : bool) (cur s : string) : list string :=
  match s with
  | EmptyString => flush cur []
  | String c t =>
    match skip with
    | S k => Fields_from k space (if space then cur else cur +:+ String c "") t
    | O =>
      let rw := DecodeRuneInString s in
      if unicode_IsSpace rw.1 then flush cur (Fields_from (pred rw.2) true "" t)
      else Fields_from (pred rw.2) false (cur +:+ String c "") t
    end
  end.
Definition strings_Fields (s : string) : list string := Fields_from 0 false "" s.

(** [strings.Trim] of a set of ASCII characters. *)
Fixpoint drop_while_end (f : ascii -> bool) (s : string) : string :=
  match s with
  | EmptyString => ""
  | String c t =>
    match drop_while_end f t with
    | EmptyString => if f c then "" else String c ""
    | t' => String c t'
    end
  end.
Definition strings_Trim (f : ascii -> bool) (s : string) : string := drop_while_end f (drop_while f s).

(** [strconv.ParseUint(s, 10, 64)], zero on an error of syntax or range. *)
Definition ParseUint_or_0 (s : string) : Z :=
  match s with
  | EmptyString => 0
  | _ => match parse_digits 0 s with
         | Some x => if (x <? 2 ^ 64)%Z then x else 0
         | None => 0
         end
  end.

(** The value of [strconv.ParseInt(s, 10, 64)] when its error is ignored: zero
    on an error of syntax, the nearest int64 on one of range. *)
Definition ParseInt_value (s : string) : Z :=
  let '(neg, digits) :=
    match s with
    | String c t => if byte_is 45 c then (true, t) else if byte_is 43 c then (false, t) else (false, s)
    | EmptyString => (false, s)
    end in
  match digits with
  | EmptyString => 0
  | _ =>
    match parse_digits 0 digits with
    | None => 0
    | Some x => if neg : bool then Z.max int64_min (- x) else Z.min int64_max x
    end
  end.

(** ** Files *)

(** A scan of an opened file: its lines, and whether it ended with an error. *)
Abbreviation scan := (list string * bool)%type (only parsing).

(** An error of the scan is not returned: the error that is returned is the nil
    one of [os.Open], with no lines. *)
(* @ pkg/util/metrics/system/common.go:24-44 ReadFileIntoLines *)
Definition ReadFileIntoLines (opened : result scan) : result (list string) :=
  match opened with
  | Err e => Err e
  | Ok (lines, failed) => if failed : bool then Ok [] else Ok lines
  end.

(** ** The kernel command line *)

(* @ pkg/util/metrics/system/cmdline_args.go:24-27 CmdlineArg *)
Record CmdlineArg : Type := mkArg { argKey : string; argValue : string }.

Definition is_quote (c : ascii) : bool := byte_is 34 c.
Definition is_any_quote (c : ascii) : bool := byte_is 34 c || byte_is 39 c.

(** The state is [withinQuotes]. *)
(* @ pkg/util/metrics/system/cmdline_args.go:41-56 splitAfterSpace *)
Definition splitAfterSpace (withinQuotes : bool) (c : ascii) : bool * bool :=
  if is_quote c then (negb withinQuotes, false)
  else if withinQuotes then (withinQuotes, false)
  else (withinQuotes, byte_is 32 c).

(** One word: a key with or without a value; [None] for a word that starts with
    a quote. *)
(* @ pkg/util/metrics/system/cmdline_args.go:70-91 CmdlineArgs *)
Definition cmdlineWord (word : string) : option CmdlineArg :=
  match word with
  | String c _ =>
    if is_quote c then None
    else
      match split_byte 61 word with
      | k :: v :: _ => Some (mkArg k (strings_Trim is_any_quote v))
      | [k] => Some (mkArg k "")
      | [] => None
      end
  | EmptyString =>
    match split_byte 61 word with k :: _ => Some (mkArg k "") | [] => None end
  end.

(* @ pkg/util/metrics/system/cmdline_args.go:58-92 CmdlineArgs *)
Definition CmdlineArgs (withinQuotes : bool) (opened : result scan)
    : bool * result (list CmdlineArg) :=
  match ReadFileIntoLines opened with
  | Err _ => (withinQuotes, Err "error reading the file")
  | Ok [] => (withinQuotes, Err "no lines are returned")
  | Ok (line :: _) =>
    let '(withinQuotes, words) := FieldsFunc splitAfterSpace withinQuotes "" line in
    (withinQuotes, Ok (omap cmdlineWord words))
  end.

(** ** The kernel modules *)

(* @ pkg/util/metrics/system/module_stats.go:25-31 Module *)
Record Module_ : Type := mkModule {
  ModuleName : string;
  Instances : Z;
  Proprietary : bool;
  OutOfTree : bool;
  Unsigned : bool
}.

(* @ pkg/util/metrics/system/common.go:46-53 ContainsModule *)
Definition ContainsModule (key : string) (values : list Module_) : bool :=
  existsb (fun val => String.eqb (ModuleName val) key) values.

(** One line of /proc/modules; fields are accessed by index. *)
(* @ pkg/util/metrics/system/module_stats.go:63-82 Modules *)
Definition moduleLine (line : string) : outcome Module_ :=
  let fields := strings_Fields line in
  moduleName ← slice_get fields 0;
  instances ← slice_get fields 2;
  let numberOfInstances := ParseUint_or_0 instances in
  match fields !! 6 with
  | Some taint => Ret (mkModule moduleName numberOfInstances (strings_Contains taint "P")
                         (strings_Contains taint "O") (strings_Contains taint "E"))
  | None => Ret (mkModule moduleName numberOfInstances false false false)
  end.

Fixpoint moduleLines (lines : list string) : outcome (list Module_) :=
  match lines with
  | [] => Ret []
  | line :: lines => m ← moduleLine line; ms ← moduleLines lines; Ret (m :: ms)
  end.

(* @ pkg/util/metrics/system/module_stats.go:42-84 Modules *)
Definition Modules (opened : result scan) : outcome (result (list Module_)) :=
  match ReadFileIntoLines opened with
  | Err _ => Ret (Err "error reading the contents")
  | Ok lines => ms ← moduleLines lines; Ret (Ok ms)
  end.

(** ** The collector *)
(* @ pkg/systemstatsmonitor/labels.go:35-35 featureLabel *)
Definition featureLabel : string := "os_feature".
(* @ pkg/systemstatsmonitor/labels.go:38-38 valueLabel *)
Definition valueLabel : string := "value".

(** One call of [Record]. *)
Abbreviation record_call := (gmap string string * Z)%type (only parsing).
Definition feature (name : string) (v : Z) : record_call := ({[ featureLabel := name ]}, v).

(** The features read from the command line; a later argument wins. *)
Record cmdlineFeatures : Type := mkCF {
  ktd : Z; unifiedCgroupHierarchy : Z; moduleSigned : Z; loadPinEnabled : Z
}.

Definition readFeature (f : cmdlineFeatures) (a : CmdlineArg) : cmdlineFeatures :=
  let v := ParseInt_value (argValue a) in
  mkCF (if String.eqb (argKey a) "csm.enabled" then v else ktd f)
       (if String.eqb (argKey a) "systemd.unified_cgroup_hierarchy" then v else unifiedCgroupHierarchy f)
       (if String.eqb (argKey a) "module.sig_enforce" then v else moduleSigned f)
       (if String.eqb (argKey a) "loadpin.enabled" then v else loadPinEnabled f).

(* @ pkg/systemstatsmonitor/osfeature_collector.go:64-104 recordFeaturesFromCmdline *)
Definition recordFeaturesFromCmdline (args : list CmdlineArg) : list record_call :=
  let f := foldl readFeature (mkCF 0 0 0 0) args in
  [feature "KTD" (ktd f);
   feature "UnifiedCgroupHierarchy" (unifiedCgroupHierarchy f);
   feature "KernelModuleIntegrity"
     (if ((moduleSigned f =? 1) && (loadPinEnabled f =? 1))%Z then 1 else 0)].

(** The loop over the modules: GPU support, and the unknown modules. *)
Definition moduleStep (known : list Module_) (st : Z * list string) (m : Module_) : Z * list string :=
  if strings_Contains (ModuleName m) "nvidia" then (1%Z, st.2)
  else if OutOfTree m || Proprietary m then
    if negb (ContainsModule (ModuleName m) known) then (st.1, st.2 ++ [ModuleName m]) else st
  else st.

(** [known] is what the file of known modules holds, nothing when it cannot be
    read. *)
(* @ pkg/systemstatsmonitor/osfeature_collector.go:111-164 recordFeaturesFromModules *)
Definition recordFeaturesFromModules (known modules : list Module_) : list record_call :=
  let '(hasGPUSupport, unknownModules) := foldl (moduleStep known) (0%Z, []) modules in
  [if negb (length unknownModules =? 0)
   then (<[valueLabel := strings_Join unknownModules ","]> {[ featureLabel := "UnknownModules" ]}, 1%Z)
   else feature "UnknownModules" 0;
   feature "GPUSupport" hasGPUSupport].

(* @ pkg/systemstatsmonitor/osfeature_collector.go:166-180 collect *)
Definition osFeature_collect (enabled withinQuotes : bool) (cmdline modules : result scan)
    (known : list Module_) : outcome (bool * list record_call) :=
  if negb enabled then Ret (withinQuotes, [])
  else
    let '(withinQuotes, args) := CmdlineArgs withinQuotes cmdline in
    match args with
    | Err _ => Panic "Error retrieving cmdline args"
    | Ok args =>
      ms ← Modules modules;
      match ms with
      | Err _ => Panic "Error retrieving kernel modules"
      | Ok ms => Ret (withinQuotes, recordFeaturesFromCmdline args ++ recordFeaturesFromModules known ms)
      end
    end.

(** ** Reading the command line *)

(** The words of the kernel's syntax: a bare key, a key with a value, with the
    value in quotes, and a word that is quoted as a whole. *)
Inductive cmd_word : Type :=
| Bare (k : string)
| Plain (k v : string)
| Quoted (k v : string)
| QuotedWord (text : string).

Definition quoted (s : string) : string := String dquote (s +:+ String dquote "").
Definition print_word (w : cmd_word) : string :=
  match w with
  | Bare k => k
  | Plain k v => k +:+ String "=" v
  | Quoted k v => k +:+ String "=" (quoted v)
  | QuotedWord text => quoted text
  end.

(** What a word means, and what is read of it: the value up to its first equals
    sign, and nothing of a word that is quoted as a whole. *)
Definition word_arg (w : cmd_word) : option CmdlineArg :=
  match w with
  | Bare k => Some (mkArg k "")
  | Plain k v | Quoted k v => Some (mkArg k v)
  | QuotedWord _ => None
  end.
Fixpoint up_to_eq (s : string) : string :=
  match s with
  | EmptyString => ""
  | String c t => if byte_is 61 c then "" else String c (up_to_eq t)
  end.
Definition read_arg (a : CmdlineArg) : CmdlineArg := mkArg (argKey a) (up_to_eq (argValue a)).

(** A key without separators and quotes; a value without quotes, and without
    spaces unless it is quoted. *)
Definition word_char (c : ascii) : bool := negb (is_any_quote c) && negb (byte_is 32 c).
Definition key_ok (k : string) : Prop :=
  k <> "" /\ all_chars word_char k = true /\ free_of 61 k = true.
Definition word_ok (w : cmd_word) : Prop :=
  match w with
  | Bare k => key_ok k
  | Plain k v => key_ok k /\ all_chars word_char v = true
  | Quoted k v => key_ok k /\ all_chars (fun c => negb (is_any_quote c)) v = true
  | QuotedWord text => all_chars (fun c => negb (is_quote c)) text = true
  end.

Abbreviation cmdline_fields := (FieldsFunc splitAfterSpace).

(** Outside quotes, text without quotes and spaces is part of the word. *)
Lemma fields_outside cur s t :
  all_chars word_char s = true ->
  cmdline_fields false cur (s +:+ t) = cmdline_fields false (cur +:+ s) t.
Proof.
  revert cur. induction s as [|c s IH]; intros cur H; simpl in *; [by rewrite append_nil_r|].
  unfold word_char in H at 1. unfold is_any_quote in H. apply andb_true_iff in H as [[Hq Hs]%andb_true_iff H].
  apply negb_true_iff in Hq, Hs. apply orb_false_iff in Hq as [Hq _].
  unfold splitAfterSpace at 1, is_quote. rewrite Hq, Hs, IH by done. by rewrite <- append_assoc.
Qed.

(** Within quotes, so is all text without quotes. *)
Lemma fields_inside cur s t :
  all_chars (fun c => negb (is_quote c)) s = true ->
  cmdline_fields true cur (s +:+ t) = cmdline_fields true (cur +:+ s) t.
Proof.
  revert cur. induction s as [|c s IH]; intros cur H; simpl in *; [by rewrite append_nil_r|].
  apply andb_true_iff in H as [Hq H]. apply negb_true_iff in Hq.
  unfold splitAfterSpace at 1. rewrite Hq, IH by done. by rewrite <- append_assoc.
Qed.

Lemma fields_quoted cur s t :
  all_chars (fun c => negb (is_quote c)) s = true ->
  cmdline_fields false cur (quoted s +:+ t) = cmdline_fields false (cur +:+ quoted s) t.
Proof.
  intros H. unfold quoted. simpl. rewrite <- (append_assoc s), fields_inside by done. simpl.
  f_equal. rewrite <- !append_assoc. done.
Qed.

Lemma no_quotes v :
  all_chars (fun c => negb (is_any_quote c)) v = true -> all_chars (fun c => negb (is_quote c)) v = true.
Proof.
  apply all_chars_impl. intros c. unfold is_any_quote, is_quote. by destruct (byte_is 34 c).
Qed.

Lemma fields_word w t :
  word_ok w -> cmdline_fields false "" (print_word w +:+ t) = cmdline_fields false (print_word w) t.
Proof.
  destruct w as [k|k v|k v|text]; cbn [word_ok print_word].
  - intros (_ & Hk & _). by apply (fields_outside "").
  - intros [(_ & Hk & _) Hv]. rewrite fields_outside; [done|]. rewrite all_chars_app, Hk. cbn [all_chars]. by rewrite Hv.
  - intros [(_ & Hk & _) Hv]. rewrite <- append_assoc, fields_outside by done.
    change (String "=" (quoted v) +:+ t) with ("=" +:+ (quoted v +:+ t)). rewrite fields_outside by done.
    rewrite fields_quoted by (by apply no_quotes). f_equal. simpl. by rewrite <- append_assoc.
  - by apply (fields_quoted "").
Qed.

Lemma print_word_nonempty w : word_ok w -> String.eqb (print_word w) "" = false.
Proof.
  intros H. apply String.eqb_neq. destruct w as [k|k v|k v|text]; cbn in *; [by destruct H|..|done];
    destruct H as [[Hk _] _]; by destruct k.
Qed.

Lemma fields_words ws :
  Forall word_ok ws ->
  cmdline_fields false "" (strings_Join (print_word <$> ws) " ") = (false, print_word <$> ws).
Proof.
  induction 1 as [|a args Ha Hargs IH]; [done|].
  destruct args as [|b args].
  - cbn [fmap list_fmap strings_Join]. rewrite <- (append_nil_r (print_word a)) at 1.
    rewrite fields_word by done. cbn [FieldsFunc]. unfold flush. by rewrite print_word_nonempty.
  - rewrite fmap_cons, strings_Join_cons by done.
    rewrite fields_word by done. change (" " +:+ ?x) with (String " " x).
    cbn [FieldsFunc]. change (splitAfterSpace false " ") with (false, true). cbn match.
    rewrite IH. unfold flush. by rewrite print_word_nonempty.
Qed.

(** Trimming: quotes around text without quotes, on either or both sides. *)
Lemma drop_while_end_free v :
  all_chars (fun c => negb (is_any_quote c)) v = true -> drop_while_end is_any_quote v = v.
Proof.
  induction v as [|c v IH]; intros H; simpl in *; [done|].
  apply andb_true_iff in H as [Hc H]. apply negb_true_iff in Hc. rewrite (IH H).
  destruct v; [by rewrite Hc | done].
Qed.

Lemma drop_while_end_quoted v :
  all_chars (fun c => negb (is_any_quote c)) v = true ->
  drop_while_end is_any_quote (v +:+ String dquote "") = v.
Proof.
  induction v as [|c v IH]; intros H; simpl in *; [done|].
  apply andb_true_iff in H as [Hc H]. apply negb_true_iff in Hc. rewrite (IH H).
  destruct v; [by rewrite Hc | done].
Qed.

Lemma drop_while_free v t :
  all_chars (fun c => negb (is_any_quote c)) v = true -> v <> "" -> drop_while is_any_quote (v +:+ t) = v +:+ t.
Proof.
  destruct v as [|c v]; [done|]. intros H _. simpl in H. apply andb_true_iff in H as [Hc _]. apply negb_true_iff in Hc.
  simpl. by rewrite Hc.
Qed.

Lemma Trim_free v :
  all_chars (fun c => negb (is_any_quote c)) v = true -> strings_Trim is_any_quote v = v.
Proof.
  intros H. unfold strings_Trim. destruct v as [|c v]; [done|].
  rewrite <- (append_nil_r (String c v)), drop_while_free, append_nil_r by done. by apply drop_while_end_free.
Qed.

Lemma Trim_open v :
  all_chars (fun c => negb (is_any_quote c)) v = true -> strings_Trim is_any_quote (String dquote v) = v.
Proof. intros H. exact (Trim_free v H). Qed.

Lemma Trim_quoted v :
  all_chars (fun c => negb (is_any_quote c)) v = true -> strings_Trim is_any_quote (quoted v) = v.
Proof.
  intros H. unfold strings_Trim, quoted. cbn [drop_while]. change (is_any_quote dquote) with true. cbn match.
  destruct v as [|c v]; [done|]. rewrite drop_while_free by done. by apply drop_while_end_quoted.
Qed.

(** Splitting at equals signs. *)
Lemma split_up_to_eq s : exists xs, split_byte 61 s = up_to_eq s :: xs.
Proof.
  induction s as [|c s IH]; cbn [split_byte up_to_eq]; [by eexists|]. destruct (byte_is 61 c); [by eexists|].
  destruct IH as [xs ->]. by eexists.
Qed.

Lemma up_to_eq_chars f s : all_chars f s = true -> all_chars f (up_to_eq s) = true.
Proof.
  induction s as [|c s IH]; [done|]. cbn. intros [Hc Hs]%andb_true_iff.
  destruct (byte_is 61 c); [done|]. cbn. by rewrite Hc, IH.
Qed.

Lemma up_to_eq_free s : free_of 61 s = true -> up_to_eq s = s.
Proof.
  unfold free_of. induction s as [|c s IH]; [done|]. cbn. intros [Hc Hs]%andb_true_iff.
  apply negb_true_iff in Hc. by rewrite Hc, IH.
Qed.

Lemma up_to_eq_app s t : up_to_eq (s +:+ t) = if free_of 61 s then s +:+ up_to_eq t else up_to_eq s.
Proof.
  unfold free_of. induction s as [|c s IH]; [done|]. cbn. destruct (byte_is 61 c); [done|]. cbn. rewrite IH.
  by destruct (all_chars _ s).
Qed.

Lemma Trim_value v :
  all_chars (fun c => negb (is_any_quote c)) v = true ->
  strings_Trim is_any_quote (up_to_eq (quoted v)) = up_to_eq v.
Proof.
  intros H. unfold quoted. cbn [up_to_eq]. change (byte_is 61 dquote) with false. cbn match.
  rewrite up_to_eq_app. destruct (free_of 61 v) eqn:E.
  - rewrite (up_to_eq_free v E). exact (Trim_quoted v H).
  - by apply Trim_open, up_to_eq_chars.
Qed.

(** A word that does not start with a quote and has a key. *)
Lemma cmdlineWord_key k rest :
  key_ok k -> cmdlineWord (k +:+ String "=" rest) = Some (mkArg k (strings_Trim is_any_quote (up_to_eq rest))).
Proof.
  intros (Hne & Hk & Hf). pose proof (split_byte_app 61 k "=" rest Hf eq_refl) as Hs.
  destruct (split_up_to_eq rest) as [xs Hx]. rewrite Hx in Hs.
  destruct k as [|c k]; [done|]. cbn [all_chars] in Hk. unfold word_char in Hk at 1. unfold is_any_quote in Hk.
  apply andb_true_iff in Hk as [[Hq _]%andb_true_iff _]. apply negb_true_iff, orb_false_iff in Hq as [Hq _].
  unfold cmdlineWord. cbn [String.append] in Hs |- *. unfold is_quote. by rewrite Hq, Hs.
Qed.

Lemma cmdlineWord_print w : word_ok w -> cmdlineWord (print_word w) = read_arg <$> word_arg w.
Proof.
  assert (Hnq : forall v, all_chars word_char v = true -> all_chars (fun c => negb (is_any_quote c)) v = true).
  { intros v. apply all_chars_impl. intros c. unfold word_char. by destruct (is_any_quote c). }
  destruct w as [k|k v|k v|text]; cbn [word_ok print_word word_arg fmap option_fmap option_map]; unfold read_arg; cbn [argKey argValue].
  - intros (Hne & Hk & Hf). destruct k as [|c k]; [done|]. unfold cmdlineWord.
    rewrite (split_byte_free 61 (String c k)) by done. cbn [all_chars] in Hk. unfold word_char in Hk at 1. unfold is_any_quote in Hk.
    apply andb_true_iff in Hk as [[Hq _]%andb_true_iff _]. apply negb_true_iff, orb_false_iff in Hq as [Hq _].
    unfold is_quote. by rewrite Hq.
  - intros [Hk Hv]. rewrite cmdlineWord_key by done. by rewrite Trim_free by (by apply up_to_eq_chars, Hnq).
  - intros [Hk Hv]. rewrite cmdlineWord_key by done. by rewrite Trim_value.
  - done.
Qed.

(** Whether a line has an odd number of quotes. *)
Fixpoint odd_quotes (s : string) : bool :=
  match s with
  | EmptyString => false
  | String c t => xorb (is_quote c) (odd_quotes t)
  end.

Lemma fields_state q cur s : (cmdline_fields q cur s).1 = xorb q (odd_quotes s).
Proof.
  revert q cur. induction s as [|c s IH]; intros q cur; simpl; [by rewrite xorb_false_r|].
  unfold splitAfterSpace at 1. destruct (is_quote c); cbn.
  - rewrite IH. by destruct q, (odd_quotes s).
  - destruct q; [by rewrite IH|]. destruct (byte_is 32 c); [|by rewrite IH].
    specialize (IH false ""). by destruct (cmdline_fields false "" s).
Qed.

(** C36.  What is read of the kernel command line.  For any sequence of well-formed
    words (bare keys, keys with a value, which may be in quotes and then hold
    spaces, and words quoted as a whole) the line that lists them yields exactly
    the keys, in order, each with its value up to the first equals sign in it, and
    nothing for a word that is quoted as a whole; so, when no value holds an equals
    sign, exactly what was written.  The flag that says whether a quote is open is
    kept between calls; a call flips it exactly when the line has an odd number of
    quotes, so reading a line with matched quotes any number of times gives the
    same answer. *)
Theorem cmdline_round_trip ws more :
  Forall word_ok ws ->
  let line := strings_Join (print_word <$> ws) " " in
  let args := omap word_arg ws in
  CmdlineArgs false (Ok (line :: more, false)) = (false, Ok (read_arg <$> args)) /\
  (Forall (fun a => free_of 61 (argValue a) = true) args ->
     CmdlineArgs false (Ok (line :: more, false)) = (false, Ok args)) /\
  forall q line, (CmdlineArgs q (Ok (line :: more, false))).1 = xorb q (odd_quotes line).
Proof.
  intros Hws line args.
  assert (H : CmdlineArgs false (Ok (line :: more, false)) = (false, Ok (read_arg <$> args))).
  { unfold CmdlineArgs, line, args. cbn [ReadFileIntoLines]. rewrite fields_words by done. do 2 f_equal.
    induction Hws as [|w ws Hw Hws IH]; [done|]. rewrite fmap_cons. cbn [omap list_omap].
    rewrite cmdlineWord_print by done. destruct (word_arg w); cbn; [f_equal|]; exact IH. }
  split_and!; [exact H| |].
  - intros HF. rewrite H. do 2 f_equal. clear -HF. induction HF as [|a l Ha HF IH]; [done|].
    rewrite fmap_cons, IH. unfold read_arg. rewrite up_to_eq_free by done. by destruct a.
  - intros q l. unfold CmdlineArgs. cbn [ReadFileIntoLines].
    pose proof (fields_state q "" l) as Hq. by destruct (cmdline_fields q "" l).
Qed.

(** The value of a key is cut at an equals sign. *)
Example value_cut_at_equals_sign :
  CmdlineArgs false (Ok (["root=PARTUUID=0a1b ro"], false)) = (false, Ok [mkArg "root" "PARTUUID"; mkArg "ro" ""]).
Proof. vm_compute. reflexivity. Qed.

(** A line with a quote that is never closed is read differently every other
    time. *)
Example unmatched_quote_changes_the_next_reading :
  let line := "a=" +:+ String dquote "x b=1 c=2" in
  let '(q, first) := CmdlineArgs false (Ok ([line], false)) in
  let '(_, second) := CmdlineArgs q (Ok ([line], false)) in
  first = Ok [mkArg "a" "x b"] /\ second = Ok [mkArg "a" "x"; mkArg "b" "1"; mkArg "c" "2"].
Proof. vm_compute. split; reflexivity. Qed.

(** As in the test data of the repository. *)
Definition sample_words : list cmd_word :=
  [Plain "boot" "local"; Bare "ro"; Quoted "key3" "value2 value3"; QuotedWord "dm=1 vroot none ro 1,0 verity hashstart=4077568"].

Lemma cmdline_round_trip_witness :
  CmdlineArgs false (Ok ([strings_Join (print_word <$> sample_words) " "], false)) =
  (false, Ok [mkArg "boot" "local"; mkArg "ro" ""; mkArg "key3" "value2 value3"]).
Proof.
  apply (cmdline_round_trip sample_words []); [|vm_compute; by repeat constructor].
  repeat constructor; try (vm_compute; reflexivity); discriminate.
Defined.

(** ** What is recorded *)

(** The modules that are neither part of the kernel's tree (or are proprietary)
    nor known, NVIDIA's apart. *)
Definition is_unknown (known : list Module_) (m : Module_) : bool :=
  negb (strings_Contains (ModuleName m) "nvidia") && (OutOfTree m || Proprietary m)
  && negb (ContainsModule (ModuleName m) known).

Lemma moduleStep_fold known modules gpu unknown :
  foldl (moduleStep known) (gpu, unknown) modules =
  (if existsb (fun m => strings_Contains (ModuleName m) "nvidia") modules then 1%Z else gpu,
   unknown ++ (ModuleName <$> List.filter (is_unknown known) modules)).
Proof.
  revert gpu unknown. induction modules as [|m modules IH]; intros gpu unknown; simpl.
  { by rewrite app_nil_r. }
  unfold moduleStep at 2. unfold is_unknown at 1. simpl.
  destruct (strings_Contains (ModuleName m) "nvidia"); simpl.
  { rewrite IH. by destruct (existsb _ modules). }
  destruct (OutOfTree m || Proprietary m); simpl; [|by rewrite IH].
  destruct (ContainsModule (ModuleName m) known); simpl; rewrite IH; [done|].
  by rewrite <- app_assoc.
Qed.

(** The value of a key on the command line: the last argument with the key. *)
Definition cmdline_value (key : string) (args : list CmdlineArg) : Z :=
  match last (List.filter (fun a => String.eqb (argKey a) key) args) with
  | Some a => ParseInt_value (argValue a)
  | None => 0
  end.

Lemma cmdline_value_snoc key args a :
  cmdline_value key (args ++ [a]) =
  if String.eqb (argKey a) key then ParseInt_value (argValue a) else cmdline_value key args.
Proof.
  unfold cmdline_value. rewrite List.filter_app. simpl. destruct (String.eqb (argKey a) key).
  - by rewrite last_snoc.
  - by rewrite app_nil_r.
Qed.

Lemma readFeature_fold args :
  foldl readFeature (mkCF 0 0 0 0) args =
  mkCF (cmdline_value "csm.enabled" args) (cmdline_value "systemd.unified_cgroup_hierarchy" args)
       (cmdline_value "module.sig_enforce" args) (cmdline_value "loadpin.enabled" args).
Proof.
  induction args as [|a args IH] using rev_ind; [done|].
  rewrite foldl_app, IH, !cmdline_value_snoc. done.
Qed.

Lemma moduleLines_Ret lines :
  (exists ms, moduleLines lines = Ret ms) <-> Forall (fun l => 3 <= length (strings_Fields l)) lines.
Proof.
  assert (Hline : forall l, (exists m, moduleLine l = Ret m) <-> 3 <= length (strings_Fields l)).
  { intros l. unfold moduleLine. destruct (strings_Fields l) as [|a [|b [|c fs]]]; simpl;
      try (split; [by intros [? ?] | lia]). split; [lia|]. intros _. destruct (_ !! _); eauto. }
  induction lines as [|l lines IH]; simpl; [split; eauto|]. rewrite Forall_cons, <- Hline, <- IH.
  destruct (moduleLine l) as [m|]; simpl; [|split; [by intros [? [=]] | by intros [[? [=]] _]]].
  destruct (moduleLines lines) as [ms|]; simpl; [split; eauto|].
  split; [by intros [? [=]] | by intros [_ [? [=]]]].
Qed.

(** What one collection records, and when it dies.  It returns exactly when the
    command line has a line and every line of the module list that was scanned
    has at least three fields; then it records the values of the command line
    (the last argument of a key counts), whether module signing and load pinning
    are both on, the unknown modules by name, and whether an NVIDIA module is
    loaded. *)
Theorem os_features_recorded q cmdline mods known :
  match osFeature_collect true q cmdline mods known with
  | Panic _ =>
    (forall line more, cmdline <> Ok (line :: more, false)) \/ (forall r, mods <> Ok r) \/
    (exists lines, mods = Ok (lines, false) /\ ~ Forall (fun l => 3 <= length (strings_Fields l)) lines)
  | Ret (q', calls) =>
    exists args ms, CmdlineArgs q cmdline = (q', Ok args) /\ Modules mods = Ret (Ok ms) /\
    let unknown := ModuleName <$> List.filter (is_unknown known) ms in
    calls =
      [feature "KTD" (cmdline_value "csm.enabled" args);
       feature "UnifiedCgroupHierarchy" (cmdline_value "systemd.unified_cgroup_hierarchy" args);
       feature "KernelModuleIntegrity"
         (if decide (cmdline_value "module.sig_enforce" args = 1%Z /\
                     cmdline_value "loadpin.enabled" args = 1%Z) then 1 else 0);
       match unknown with
       | [] => feature "UnknownModules" 0
       | _ => (<[valueLabel := strings_Join unknown ","]> {[ featureLabel := "UnknownModules" ]}, 1%Z)
       end;
       feature "GPUSupport"
         (if existsb (fun m => strings_Contains (ModuleName m) "nvidia") ms then 1 else 0)]
  end.
Proof.
  unfold osFeature_collect. simpl. destruct (CmdlineArgs q cmdline) as [q' [args|e]] eqn:Ec.
  2:{ left. intros line more ->. unfold CmdlineArgs in Ec. cbn [ReadFileIntoLines] in Ec.
      by destruct (FieldsFunc _ _ _ _). }
  unfold Modules. destruct mods as [[lines [|]]|e]; simpl.
  3:{ right; left. by intros r [=]. }
  - exists args, []. split_and!; [done | done|]. unfold recordFeaturesFromCmdline.
    rewrite readFeature_fold. simpl. repeat f_equal. case_decide as Hd; destruct_and?; repeat case_match; lia.
  - destruct (moduleLines lines) as [ms|c] eqn:Em; simpl.
    + exists args, ms. split_and!; [done | done|]. unfold recordFeaturesFromCmdline, recordFeaturesFromModules.
      rewrite readFeature_fold, moduleStep_fold. simpl.
      repeat f_equal; [case_decide as Hd; destruct_and?; repeat case_match; lia|].
      by destruct (ModuleName <$> List.filter _ ms).
    + right; right. exists lines. split; [done|]. intros [ms Hms]%moduleLines_Ret. by rewrite Em in Hms.
Qed.
