(* ===== verification/Recording.v ===== *)
(** The identifiers of the metrics ([pkg/util/metrics/metric.go]), their labels
    ([pkg/systemstatsmonitor/labels.go]), and how the collectors of the system
    stats monitor create metrics and record measurements.

    A constructor threads the state of package metrics and may end the process:
    it is a computation of the monad [ST].  A collection returns the calls of
    [Record] it makes, in order, because the code only logs the errors of these
    calls; [exec] performs them.  [call_ok] is what makes a call reach the
    library. *)

From S2P Require Import Prelude GoStrings GoTime Options Metrics.

(** ** Computations with a state that return or end the process *)
Definition ST (S A : Type) : Type := S -> outcome (S * A).

#[export] Instance ST_ret S : MRet (ST S) := fun A a s => Ret (s, a).
#[export] Instance ST_bind S : MBind (ST S) := fun A B f m s =>
  match m s with Ret (s, a) => f a s | Panic c => Panic c end.

Lemma ST_bind_inv {S A B} (m : ST S A) (f : A -> ST S B) s r :
  (m ≫= f) s = Ret r -> exists s1 a, m s = Ret (s1, a) /\ f a s1 = Ret r.
Proof.
  unfold mbind, ST_bind. destruct (m s) as [[s1 a]|]; [|done]. eauto.
Qed.

Lemma list_bind_ext_in {A B} (f g : A -> list B) l :
  (forall x, x ∈ l -> f x = g x) -> l ≫= f = l ≫= g.
Proof.
  induction l as [|x l IH]; intros H; [done|]. rewrite !bind_cons, H, IH; [done | | by left].
  intros y Hy. apply H. by right.
Qed.

(** ** Unsigned differences *)
Lemma int64_uint64 z : int64 (uint64 z) = int64 z.
Proof. unfold int64, uint64. by rewrite Zplus_mod_idemp_l. Qed.

Lemma uint64_int64 z : uint64 (int64 z) = uint64 z.
Proof. unfold int64, uint64. rewrite Zminus_mod_idemp_l. f_equal. lia. Qed.

(** Both conversions change a value by a multiple of 2^64. *)
Lemma int64_eqm z : exists k, (int64 z = z + k * 2 ^ 64)%Z.
Proof.
  unfold int64. exists (- ((z + 2 ^ 63) / 2 ^ 64))%Z. rewrite Z.mod_eq by lia. lia.
Qed.
Lemma uint64_eqm z : exists k, (uint64 z = z + k * 2 ^ 64)%Z.
Proof. unfold uint64. exists (- (z / 2 ^ 64))%Z. rewrite Z.mod_eq by lia. lia. Qed.
Lemma int64_add_eqm z k : int64 (z + k * 2 ^ 64) = int64 z.
Proof.
  unfold int64. replace (z + k * 2 ^ 64 + 2 ^ 63)%Z with (z + 2 ^ 63 + k * 2 ^ 64)%Z by lia.
  by rewrite Z.mod_add by lia.
Qed.

(** Adding the difference to the new value to a sum that agrees with the old one. *)
Lemma uint64_telescope t x :
  (0 <= x < 2 ^ 64)%Z -> uint64 (t + int64 (uint64 (x - uint64 t))) = x.
Proof.
  intros Hx. rewrite int64_uint64. unfold uint64 at 1. rewrite <- Zplus_mod_idemp_r.
  change (int64 ?z mod 2 ^ 64)%Z with (uint64 (int64 z)). rewrite uint64_int64. unfold uint64.
  rewrite Zplus_mod_idemp_r.
  replace (t + (x - t mod 2 ^ 64))%Z with (x + (t - t mod 2 ^ 64))%Z by lia.
  rewrite (Z.mod_eq t (2 ^ 64)) by lia.
  replace (x + (t - (t - 2 ^ 64 * (t / 2 ^ 64))))%Z with (x + t / 2 ^ 64 * 2 ^ 64)%Z by lia.
  rewrite Z.mod_add by lia. by apply Z.mod_small.
Qed.

(** ** Identifiers *)
Definition CPURunnableTaskCountID : string := "cpu/runnable_task_count".
Definition CPUUsageTimeID : string := "cpu/usage_time".
Definition CPULoad1m : string := "cpu/load_1m".
Definition CPULoad5m : string := "cpu/load_5m".
Definition CPULoad15m : string := "cpu/load_15m".
Definition ProblemCounterID : string := "problem_counter".
Definition ProblemGaugeID : string := "problem_gauge".
Definition DiskIOTimeID : string := "disk/io_time".
Definition DiskWeightedIOID : string := "disk/weighted_io".
Definition DiskAvgQueueLenID : string := "disk/avg_queue_len".
Definition DiskOpsCountID : string := "disk/operation_count".
Definition DiskMergedOpsCountID : string := "disk/merged_operation_count".
Definition DiskOpsBytesID : string := "disk/operation_bytes_count".
Definition DiskOpsTimeID : string := "disk/operation_time".
Definition DiskBytesUsedID : string := "disk/bytes_used".
Definition DiskPercentUsedID : string := "disk/percent_used".
Definition HostUptimeID : string := "host/uptime".
Definition MemoryBytesUsedID : string := "memory/bytes_used".
Definition MemoryAnonymousUsedID : string := "memory/anonymous_used".
Definition MemoryPageCacheUsedID : string := "memory/page_cache_used".
Definition MemoryUnevictableUsedID : string := "memory/unevictable_used".
Definition MemoryDirtyUsedID : string := "memory/dirty_used".
Definition MemoryPercentUsedID : string := "memory/percent_used".
Definition OSFeatureID : string := "system/os_feature".
Definition SystemProcessesTotal : string := "system/processes_total".
Definition SystemProcsRunning : string := "system/procs_running".
Definition SystemProcsBlocked : string := "system/procs_blocked".
Definition SystemInterruptsTotal : string := "system/interrupts_total".
Definition SystemCPUStat : string := "system/cpu_stat".
Definition NetDevRxBytes : string := "net/rx_bytes".
Definition NetDevRxPackets : string := "net/rx_packets".
Definition NetDevRxErrors : string := "net/rx_errors".
Definition NetDevRxDropped : string := "net/rx_dropped".
Definition NetDevRxFifo : string := "net/rx_fifo".
Definition NetDevRxFrame : string := "net/rx_frame".
Definition NetDevRxCompressed : string := "net/rx_compressed".
Definition NetDevRxMulticast : string := "net/rx_multicast".
Definition NetDevTxBytes : string := "net/tx_bytes".
Definition NetDevTxPackets : string := "net/tx_packets".
Definition NetDevTxErrors : string := "net/tx_errors".
Definition NetDevTxDropped : string := "net/tx_dropped".
Definition NetDevTxFifo : string := "net/tx_fifo".
Definition NetDevTxCollisions : string := "net/tx_collisions".
Definition NetDevTxCarrier : string := "net/tx_carrier".
Definition NetDevTxCompressed : string := "net/tx_compressed".

(* @ pkg/util/metrics/metric.go:22-68 MetricID *)
Definition MetricIDs : list string :=
  [CPURunnableTaskCountID; CPUUsageTimeID; CPULoad1m; CPULoad5m; CPULoad15m;
   ProblemCounterID; ProblemGaugeID; DiskIOTimeID; DiskWeightedIOID; DiskAvgQueueLenID;
   DiskOpsCountID; DiskMergedOpsCountID; DiskOpsBytesID; DiskOpsTimeID; DiskBytesUsedID;
   DiskPercentUsedID; HostUptimeID; MemoryBytesUsedID; MemoryAnonymousUsedID;
   MemoryPageCacheUsedID; MemoryUnevictableUsedID; MemoryDirtyUsedID;
   MemoryPercentUsedID; OSFeatureID; SystemProcessesTotal; SystemProcsRunning;
   SystemProcsBlocked; SystemInterruptsTotal; SystemCPUStat; NetDevRxBytes;
   NetDevRxPackets; NetDevRxErrors; NetDevRxDropped; NetDevRxFifo; NetDevRxFrame;
   NetDevRxCompressed; NetDevRxMulticast; NetDevTxBytes; NetDevTxPackets;
   NetDevTxErrors; NetDevTxDropped; NetDevTxFifo; NetDevTxCollisions; NetDevTxCarrier;
   NetDevTxCompressed].

Lemma MetricIDs_NoDup : NoDup MetricIDs.
Proof. apply (bool_decide_unpack _). vm_compute. exact I. Qed.

(** ** Labels *)
(* @ pkg/systemstatsmonitor/labels.go:20-20 deviceNameLabel *)
Definition deviceNameLabel : string := "device_name".
(* @ pkg/systemstatsmonitor/labels.go:23-23 directionLabel *)
Definition directionLabel : string := "direction".
(* @ pkg/systemstatsmonitor/labels.go:26-26 stateLabel *)
Definition stateLabel : string := "state".
(* @ pkg/systemstatsmonitor/labels.go:29-29 fsTypeLabel *)
Definition fsTypeLabel : string := "fs_type".
(* @ pkg/systemstatsmonitor/labels.go:32-32 mountOptionLabel *)
Definition mountOptionLabel : string := "mount_option".
(* @ pkg/systemstatsmonitor/labels.go:41-41 interfaceNameLabel *)
Definition interfaceNameLabel : string := "interface_name".
(* @ pkg/systemstatsmonitor/labels.go:44-44 cpuLabel *)
Definition cpuLabel : string := "cpu".
(* @ pkg/systemstatsmonitor/labels.go:47-47 stageLabel *)
Definition stageLabel : string := "stage".

(** ** The library *)

#[export] Instance OCMetric_eq_dec : EqDecision OCMetric.
Proof. solve_decision. Defined.

(** The argument of [Record] on an int64 and on a float64 metric. *)
Inductive measurement : Type := MInt (z : Z) | MFloat (f : float64).

Class OpenCensus : Type := {
  Key : Type;
  OC : Type;
  tag_NewKey : string -> result Key;
  view_Register : OC -> string -> string -> Aggregation -> list Key -> OC * result unit;
  RecordWithTags : OC -> list (Key * string) -> string -> measurement -> OC * result unit
}.

Section Recording.
Context {lib : OpenCensus}.

Abbreviation state := (globals (Key := Key) (OC := OC)).

(** ** Creating metrics *)

(** [metrics.NewInt64Metric] and [metrics.NewFloat64Metric], followed by
    [klog.Fatalf] on an error. *)
Definition or_die (r : state * result (option OCMetric)) : outcome (state * option OCMetric) :=
  match r with
  | (g, Ok m) => Ret (g, m)
  | (_, Err _) => Panic "Error initializing metric"
  end.

Definition newInt64OrDie (metricID viewName description unit_ : string) (aggregation : Aggregation)
    (tagNames : list string) : ST state (option OCMetric) := fun g =>
  or_die (NewInt64Metric tag_NewKey view_Register g metricID viewName description unit_ aggregation tagNames).
Definition newFloat64OrDie (metricID viewName description unit_ : string) (aggregation : Aggregation)
    (tagNames : list string) : ST state (option OCMetric) := fun g =>
  or_die (NewFloat64Metric tag_NewKey view_Register g metricID viewName description unit_ aggregation tagNames).

(** What a metric that was created gives to its users: it is nil, or all its
    tags are known. *)
Definition metric_ok (g : state) (m : option OCMetric) (tagNames : list string) : Prop :=
  m = None \/ forall t, t ∈ tagNames -> is_Some (tagMap g !! t).

Lemma metric_ok_mono g g' m names :
  tagMap g ⊆ tagMap g' -> metric_ok g m names -> metric_ok g' m names.
Proof.
  intros Hg [->|H]; [by left|]. right. intros t Ht.
  destruct (H t Ht) as [k Hk]. exists k. by eapply lookup_weaken.
Qed.

(** A metric exists exactly when it has a name. *)
Definition metric_named (name : string) : option OCMetric :=
  if String.eqb name "" then None else Some (mkOCMetric name).

Lemma metric_named_Some name m : metric_named name = Some m <-> name <> "" /\ m = mkOCMetric name.
Proof. unfold metric_named. destruct (String.eqb_spec name ""); naive_solver. Qed.

Lemma newInt64OrDie_spec id name desc u agg tags g g' m :
  newInt64OrDie id name desc u agg tags g = Ret (g', m) ->
  tagMap g ⊆ tagMap g' /\ metric_ok g' m tags /\
  m = metric_named name.
Proof.
  unfold newInt64OrDie. destruct (NewInt64Metric _ _ _ _ _ _ _ _ _) as [g1 [m1|]] eqn:E; [|done].
  intros [= <- <-]. split; [by eapply NewInt64Metric_mono|]. destruct m1 as [m1|].
  - apply NewInt64Metric_Some in E as (-> & Hn & _ & _ & Hk & _).
    split; [by right|]. symmetry. by apply metric_named_Some.
  - split; [by left|]. unfold metric_named. unfold NewInt64Metric in E. destruct (String.eqb name ""); [done|].
    destruct (getTagKeysFromNames _ _ _) as [tm [ks|]]; [|done]. destruct (_ || _); [|done].
    simpl in E. by destruct (view_Register _ _ _ _ _) as [o [[]|]].
Qed.

Lemma newFloat64OrDie_spec id name desc u agg tags g g' m :
  newFloat64OrDie id name desc u agg tags g = Ret (g', m) ->
  tagMap g ⊆ tagMap g' /\ metric_ok g' m tags /\
  m = metric_named name.
Proof. apply newInt64OrDie_spec. Qed.

(** ** Calls of Record *)
Record call : Type := mkCall {
  callMetric : option OCMetric;
  callTags : gmap string string;
  callValue : measurement
}.

(** [if m != nil { m.Record(tags, v) }] *)
Definition record (m : option OCMetric) (tags : gmap string string) (v : measurement) : list call :=
  match m with
  | None => []
  | Some _ => [mkCall m tags v]
  end.

Lemma record_Forall (P : call -> Prop) m tags v :
  (is_Some m -> P (mkCall m tags v)) -> Forall P (record m tags v).
Proof. intros H. destruct m; [|constructor]. constructor; [eauto | constructor]. Qed.

(** The calls are performed in order; each visits its tags in some order. *)
Fixpoint exec (g : state) (calls : list (call * list string)) : outcome (state * list (result unit)) :=
  match calls with
  | [] => Ret (g, [])
  | (c, order) :: calls =>
    '(g, r) ← Record_Int64 RecordWithTags g (callMetric c) (callTags c) order (callValue c);
    '(g, rs) ← exec g calls;
    Ret (g, r :: rs)
  end.

(** A call that reaches the library. *)
Definition call_ok (g : state) (c : call) : Prop :=
  is_Some (callMetric c) /\ forall t, is_Some (callTags c !! t) -> is_Some (tagMap g !! t).

Lemma call_ok_mono g g' c : tagMap g ⊆ tagMap g' -> call_ok g c -> call_ok g' c.
Proof.
  intros Hg [Hm Ht]. split; [done|]. intros t Hc. destruct (Ht t Hc) as [k Hk].
  exists k. by eapply lookup_weaken.
Qed.

(** What the library is asked to do. *)
Fixpoint library_run (o : OC) (reqs : list (list (Key * string) * string * measurement))
    : OC * list (result unit) :=
  match reqs with
  | [] => (o, [])
  | (ms, name, v) :: reqs =>
    let '(o, r) := RecordWithTags o ms name v in
    let '(o, rs) := library_run o reqs in
    (o, r :: rs)
  end.

Lemma library_run_app o r1 r2 :
  library_run o (r1 ++ r2) =
  ((library_run (library_run o r1).1 r2).1, (library_run o r1).2 ++ (library_run (library_run o r1).1 r2).2).
Proof.
  revert o. induction r1 as [|[[ms name] v] r1 IH]; intros o; simpl; [by destruct (library_run o r2)|].
  destruct (RecordWithTags o ms name v) as [o1 r]. rewrite IH. by destruct (library_run o1 r1).
Qed.

(** A request carries the name, the tags and the value of its call. *)
Definition carries (g : state) (c : call * list string)
    (req : list (Key * string) * string * measurement) : Prop :=
  let '(ms, name, v) := req in
  callMetric c.1 = Some (mkOCMetric name) /\ v = callValue c.1 /\
  Forall2 (fun t kv => tagMap g !! t = Some kv.1 /\ callTags c.1 !! t = Some kv.2) c.2 ms.

Lemma mutators_carry (tm : gmap string Key) (tags : gmap string string) order :
  (forall t, t ∈ order -> is_Some (tm !! t) /\ is_Some (tags !! t)) ->
  exists ms, mutators tm tags order = Ok ms /\
    Forall2 (fun t kv => tm !! t = Some kv.1 /\ tags !! t = Some kv.2) order ms.
Proof.
  induction order as [|t order IH]; intros H; [by exists []|].
  destruct (H t ltac:(by left)) as [[k Hk] [v Hv]].
  destruct IH as (ms & Hms & HF); [intros t' Ht'; apply H; by right|].
  exists ((k, v) :: ms). split; [|by constructor].
  simpl. rewrite Hk, Hms. simpl. by rewrite Hv.
Qed.

(** Calls that are ok are all handed to the library, in order; none panics and
    none is refused because of a tag. *)
Lemma exec_ok g calls :
  Forall (fun c => call_ok g c.1 /\ visits (callTags c.1) c.2) calls ->
  exists reqs, Forall2 (carries g) calls reqs /\
    exec g calls = let '(o, rs) := library_run (oc g) reqs in
                   Ret (mkGlobals (tagMap g) (metricMap g) o, rs).
Proof.
  revert g. induction calls as [|[c order] calls IH]; intros g HF.
  { exists []. split; [done|]. by destruct g. }
  apply Forall_cons in HF as [[[[m Hm] Ht] Hv] HF]. simpl in Hm, Ht, Hv.
  destruct (mutators_carry (tagMap g) (callTags c) order) as (ms & Hms & Hcarry).
  { intros t Ht'. apply (visits_elem (callTags c)) in Ht'; [|done]. auto. }
  destruct (RecordWithTags (oc g) ms (mName m) (callValue c)) as [o r] eqn:Er.
  destruct (IH (mkGlobals (tagMap g) (metricMap g) o) HF) as (reqs & HR & He).
  exists ((ms, mName m, callValue c) :: reqs). split.
  - constructor; [|done]. split_and!; [|done..]. simpl. rewrite Hm. by destruct m.
  - cbn [exec library_run]. unfold Record_Int64. rewrite Hm. cbn [deref].
    ret_step. rewrite Hms, Er. ret_step. rewrite He. cbn [oc tagMap metricMap].
    by destruct (library_run o reqs).
Qed.

(** *** When the calls of a collector are ok *)
Definition tags_within (tags : gmap string string) (names : list string) : Prop :=
  forall t, is_Some (tags !! t) -> t ∈ names.

Lemma tags_within_empty names : tags_within ∅ names.
Proof. intros t [x Hx]. by rewrite lookup_empty in Hx. Qed.

Lemma tags_within_insert t v tags names :
  t ∈ names -> tags_within tags names -> tags_within (<[t := v]> tags) names.
Proof.
  intros Ht H t' [x Hx]. destruct (decide (t = t')) as [->|Hne]; [done|].
  rewrite lookup_insert_ne in Hx by done. apply H. eauto.
Qed.

Lemma tags_within_singleton t v names : t ∈ names -> tags_within {[ t := v ]} names.
Proof. intros Ht. apply tags_within_insert; [done | apply tags_within_empty]. Qed.

Lemma record_ok g m names tags v :
  metric_ok g m names -> tags_within tags names -> Forall (call_ok g) (record m tags v).
Proof.
  intros Hm Ht. destruct m as [m|]; [|constructor]. destruct Hm as [?|Hm]; [done|].
  repeat constructor; [by eexists|]. simpl. auto.
Qed.

(** A call without tags needs its metric only. *)
Lemma record_untagged_ok g m v : Forall (call_ok g) (record m ∅ v).
Proof.
  apply record_Forall. intros Hm. split; [done|]. cbn [callTags]. intros t [x Hx]. by rewrite lookup_empty in Hx.
Qed.

(** *** The values recorded for one time series *)
Definition in_series (name : string) (tags : gmap string string) (c : call) : Prop :=
  callMetric c = Some (mkOCMetric name) /\ callTags c = tags.
#[export] Instance in_series_dec name tags c : Decision (in_series name tags c).
Proof. unfold in_series. apply _. Defined.

Definition values (name : string) (tags : gmap string string) (calls : list call) : list measurement :=
  callValue <$> filter (in_series name tags) calls.

Lemma values_app name tags c1 c2 : values name tags (c1 ++ c2) = values name tags c1 ++ values name tags c2.
Proof. unfold values. by rewrite filter_app, fmap_app. Qed.

Lemma values_record name tags m tags' v :
  values name tags (record m tags' v) = if decide (m = Some (mkOCMetric name) /\ tags' = tags) then [v] else [].
Proof.
  unfold values, record. destruct m as [m|]; [|by rewrite decide_False by naive_solver].
  rewrite filter_cons. unfold in_series. cbn [callMetric callTags]. by destruct (decide _).
Qed.

(** In a loop in which one round only records on the series. *)
Lemma values_bind_once {A} name tags (f : A -> list call) l x :
  NoDup l -> (forall y, y ∈ l -> y <> x -> values name tags (f y) = []) ->
  (x ∈ l -> values name tags (l ≫= f) = values name tags (f x)) /\
  (x ∉ l -> values name tags (l ≫= f) = []).
Proof.
  induction l as [|y l IH]; intros HN Ho.
  { split; [by intros ?%not_elem_of_nil | done]. }
  apply NoDup_cons in HN as [Hy HN]. rewrite bind_cons, values_app.
  destruct IH as [IH1 IH2]; [done | intros z Hz; apply Ho; by right|]. split.
  - intros [->|Hx]%elem_of_cons; [by rewrite IH2, app_nil_r|].
    rewrite (Ho y), IH1; [done | done | by left | by intros ->].
  - intros [Hne Hx]%not_elem_of_cons. rewrite (Ho y), IH2; [done | done | by left | done].
Qed.

Definition series_of (name : string) (tags : gmap string string) (c : call) : option Z :=
  if decide (callMetric c = Some (mkOCMetric name) /\ callTags c = tags) then
    match callValue c with MInt z => Some z | MFloat _ => None end
  else None.

Definition recorded (name : string) (tags : gmap string string) (calls : list call) : list Z :=
  omap (series_of name tags) calls.

Definition total (name : string) (tags : gmap string string) (calls : list call) : Z :=
  foldr Z.add 0%Z (recorded name tags calls).

Lemma total_app name tags c1 c2 :
  total name tags (c1 ++ c2) = (total name tags c1 + total name tags c2)%Z.
Proof.
  unfold total, recorded. rewrite omap_app.
  induction (omap (series_of name tags) c1) as [|z l IH]; simpl; lia.
Qed.

Lemma total_record name tags m tags' z :
  total name tags (record m tags' (MInt z)) =
  if decide (m = Some (mkOCMetric name) /\ tags' = tags) then z else 0%Z.
Proof.
  unfold total, recorded, record. destruct m as [m|]; [|by rewrite decide_False by naive_solver].
  cbn [omap list_omap]. unfold series_of. cbn [callMetric callTags callValue].
  destruct (decide _); simpl; lia.
Qed.

(** Calls of other series, and of float64 metrics, do not count. *)
Lemma total_other name tags calls :
  Forall (fun c => callTags c <> tags \/ exists f, callValue c = MFloat f) calls ->
  total name tags calls = 0%Z.
Proof.
  induction 1 as [|c calls Hc _ IH]; [done|].
  unfold total, recorded in *. cbn [omap list_omap]. unfold series_of at 1.
  destruct (decide _) as [[_ Ht]|_]; [|done]. destruct Hc as [?|[f ->]]; done.
Qed.
End Recording.

#[global] Arguments record m tags v : simpl never.
Create HintDb recording.
#[export] Hint Resolve tags_within_empty tags_within_insert tags_within_singleton : recording.
#[export] Hint Extern 1 (_ ∈ _ :: _) => set_solver : recording.

(** One step of a constructor that is known to have returned. *)
Ltac new_metric H :=
  let g := fresh "g" in let m := fresh "m" in let E := fresh "E" in
  let Hg := fresh "Hg" in let Hok := fresh "Hok" in let Hn := fresh "Hn" in
  apply ST_bind_inv in H as (g & m & E & H);
  first [apply newInt64OrDie_spec in E as (Hg & Hok & Hn) | apply newFloat64OrDie_spec in E as (Hg & Hok & Hn)].

(** The tags known after a step are known after all later ones. *)
Ltac later_tags :=
  repeat first [reflexivity | eassumption | (etrans; [eassumption|])].

(** A library that accepts everything and keeps what it was asked to record. *)
Definition test_library : OpenCensus := {|
  Key := string;
  OC := list (list (string * string) * string * measurement);
  tag_NewKey := Ok;
  view_Register o _ _ _ _ := (o, Ok tt);
  RecordWithTags o ms name v := (o ++ [(ms, name, v)], Ok tt)
|}.
Definition test_globals : globals (Key := @Key test_library) (OC := @OC test_library) :=
  mkGlobals ∅ (mkMapping ∅) [].
