(* ===== verification/SystemStatsConfig.v ===== *)
(** The configuration of the system stats monitor
    ([pkg/systemstatsmonitor/types/config.go], [config_linux.go]): its data, its
    defaults, its validation, and the text form of the interface expression.

    [os.Stat] and the parser of regular expressions are parameters. *)

From S2P Require Import Prelude GoStrings Regexp GoTime.

(* @ pkg/systemstatsmonitor/types/config.go:31-33 MetricConfig *)
Record MetricConfig : Type := mkMetricConfig { DisplayName : string }.

Abbreviation metrics_configs := (gmap string MetricConfig) (only parsing).

(** [configs[id].DisplayName]: the zero value when there is no entry. *)
Definition displayName (configs : metrics_configs) (id : string) : string :=
  match configs !! id with
  | Some c => DisplayName c
  | None => ""
  end.

(* @ pkg/systemstatsmonitor/types/config.go:35-37 CPUStatsConfig *)
Record CPUStatsConfig : Type := mkCPUConfig { cpuMetricsConfigs : metrics_configs }.

(* @ pkg/systemstatsmonitor/types/config.go:39-45 DiskStatsConfig *)
Record DiskStatsConfig : Type := mkDiskConfig {
  diskMetricsConfigs : metrics_configs;
  IncludeRootBlk : bool;
  IncludeAllAttachedBlk : bool;
  LsblkTimeoutString : string;
  LsblkTimeout : Duration
}.

(* @ pkg/systemstatsmonitor/types/config.go:47-49 HostStatsConfig *)
Record HostStatsConfig : Type := mkHostConfig { hostMetricsConfigs : metrics_configs }.

(* @ pkg/systemstatsmonitor/types/config.go:51-53 MemoryStatsConfig *)
Record MemoryStatsConfig : Type := mkMemoryConfig { memoryMetricsConfigs : metrics_configs }.

(* @ pkg/systemstatsmonitor/types/config.go:55-58 OSFeatureStatsConfig *)
Record OSFeatureStatsConfig : Type := mkOSFeatureConfig {
  osFeatureMetricsConfigs : metrics_configs;
  KnownModulesConfigPath : string
}.

(** A compiled expression keeps its text. *)
Record CompiledRegexp : Type := mkCompiled { reText : string; reTree : Regexp }.

(* @ pkg/systemstatsmonitor/types/config.go:62-64 NetStatsInterfaceRegexp *)
Record NetStatsInterfaceRegexp : Type := mkIfaceRegexp { R : option CompiledRegexp }.

(* @ pkg/systemstatsmonitor/types/config.go:86-89 NetStatsConfig *)
Record NetStatsConfig : Type := mkNetConfig {
  netMetricsConfigs : metrics_configs;
  ExcludeInterfaceRegexp : NetStatsInterfaceRegexp
}.

(* @ pkg/systemstatsmonitor/types/config.go:91-101 SystemStatsConfig *)
Record SystemStatsConfig : Type := mkSSConfig {
  CPUConfig : CPUStatsConfig;
  DiskConfig : DiskStatsConfig;
  HostConfig : HostStatsConfig;
  MemoryConfig : MemoryStatsConfig;
  OsFeatureConfig : OSFeatureStatsConfig;
  NetConfig : NetStatsConfig;
  ssInvokeIntervalString : string;
  ssInvokeInterval : Duration;
  ProcPath : string
}.

(** ** The expression of interfaces as text *)
Section InterfaceRegexp.
Variable parse : string -> result Regexp.

Definition regexp_Compile (text : string) : result CompiledRegexp :=
  re ← parse text; Ok (mkCompiled text re).

(* @ pkg/systemstatsmonitor/types/config.go:66-77 UnmarshalText *)
Definition UnmarshalText (r : NetStatsInterfaceRegexp) (data : string)
    : NetStatsInterfaceRegexp * result unit :=
  if String.eqb data "" then (r, Ok tt)
  else
    match regexp_Compile data with
    | Err e => (r, Err e)
    | Ok regex => (mkIfaceRegexp (Some regex), Ok tt)
    end.

(* @ pkg/systemstatsmonitor/types/config.go:79-84 MarshalText *)
Definition MarshalText (r : NetStatsInterfaceRegexp) : string :=
  match R r with
  | None => ""
  | Some regex => reText regex
  end.

(** What is read into a fresh configuration is printed as it was, and printing
    it and reading it back gives the same expression; text that is refused
    leaves no expression behind. *)
Theorem interface_regexp_round_trip data r res :
  UnmarshalText (mkIfaceRegexp None) data = (r, res) ->
  match res with
  | Ok _ => MarshalText r = data /\ UnmarshalText (mkIfaceRegexp None) (MarshalText r) = (r, Ok tt)
  | Err _ => data <> "" /\ is_ok (parse data) = false /\ r = mkIfaceRegexp None
  end.
Proof.
  unfold UnmarshalText at 1. destruct (String.eqb_spec data "") as [->|Hd].
  { by intros [= <- <-]. }
  unfold regexp_Compile. destruct (parse data) as [re|e] eqn:Ep; intros [= <- <-]; [|done].
  split; [done|]. unfold UnmarshalText, MarshalText, regexp_Compile. simpl.
  by rewrite (proj2 (String.eqb_neq _ _)), Ep by done.
Qed.
End InterfaceRegexp.

(** ** Defaults and validation *)
(* @ pkg/systemstatsmonitor/types/config.go:26-26 defaultInvokeIntervalString *)
Definition defaultInvokeIntervalString : string := Duration_String (60 * Second).
(* @ pkg/systemstatsmonitor/types/config.go:27-27 defaultlsblkTimeoutString *)
Definition defaultlsblkTimeoutString : string := Duration_String (5 * Second).
(* @ pkg/systemstatsmonitor/types/config.go:28-28 defaultKnownModulesConfigPath *)
Definition defaultKnownModulesConfigPath : string := "guestosconfig/known-modules.json".
(* @ pkg/systemstatsmonitor/types/config_linux.go:23-23 defaultProcPath *)
Definition defaultProcPath : string := "/proc".

Definition or_default (s d : string) : string := if String.eqb s "" then d else s.

(** The configuration is filled in place, also when an error is returned: a
    duration that does not parse is left zero. *)
(* @ pkg/systemstatsmonitor/types/config.go:103-129 ApplyConfiguration *)
Definition ssc_ApplyConfiguration (c : SystemStatsConfig) : SystemStatsConfig * result unit :=
  let d := DiskConfig c in
  let interval := or_default (ssInvokeIntervalString c) defaultInvokeIntervalString in
  let procPath := or_default (ProcPath c) defaultProcPath in
  let timeout := or_default (LsblkTimeoutString d) defaultlsblkTimeoutString in
  let known := or_default (KnownModulesConfigPath (OsFeatureConfig c)) defaultKnownModulesConfigPath in
  let fill (i t : Duration) :=
    mkSSConfig (CPUConfig c)
      (mkDiskConfig (diskMetricsConfigs d) (IncludeRootBlk d) (IncludeAllAttachedBlk d) timeout t)
      (HostConfig c) (MemoryConfig c)
      (mkOSFeatureConfig (osFeatureMetricsConfigs (OsFeatureConfig c)) known)
      (NetConfig c) interval i procPath in
  match ParseDuration interval with
  | Err _ => (fill 0%Z (LsblkTimeout d), Err "error in parsing InvokeIntervalString")
  | Ok i =>
    match ParseDuration timeout with
    | Err _ => (fill i 0%Z, Err "error in parsing LsblkTimeoutString")
    | Ok t => (fill i t, Ok tt)
    end
  end.

Section Validate.
Variable os_Stat : string -> result unit.

(* @ pkg/systemstatsmonitor/types/config_linux.go:25-28 validateProcPath *)
Definition validateProcPath (c : SystemStatsConfig) : result unit := os_Stat (ProcPath c).

(* @ pkg/systemstatsmonitor/types/config.go:131-147 Validate *)
Definition ssc_Validate (c : SystemStatsConfig) : result unit :=
  if (ssInvokeInterval c <=? 0)%Z then Err "InvokeInterval must be above 0s"
  else
    match validateProcPath c with
    | Err _ => Err "ProcPath check failed"
    | Ok _ =>
      if (LsblkTimeout (DiskConfig c) <=? 0)%Z then Err "LsblkTimeout must be above 0s"
      else if (ssInvokeInterval c <? LsblkTimeout (DiskConfig c))%Z
      then Err "LsblkTimeout must be shorter than ssc.InvokeInterval"
      else Ok tt
    end.

(** What [NewSystemStatsMonitorOrDie] accepts of a configuration. *)
Definition ssc_accepted (c c' : SystemStatsConfig) : Prop :=
  ssc_ApplyConfiguration c = (c', Ok tt) /\ ssc_Validate c' = Ok tt.

(** A configuration is accepted exactly when, with the defaults filled in, both
    durations parse, the path of the proc file system exists, and
    [0 < lsblk timeout <= invoke interval]; nothing else of it changes. *)
Theorem system_stats_config_accepted c c' :
  ssc_accepted c c' <->
  exists i t,
    ParseDuration (or_default (ssInvokeIntervalString c) "1m0s") = Ok i /\
    ParseDuration (or_default (LsblkTimeoutString (DiskConfig c)) "5s") = Ok t /\
    (0 < t <= i)%Z /\ os_Stat (or_default (ProcPath c) "/proc") = Ok tt /\
    c' = mkSSConfig (CPUConfig c)
           (mkDiskConfig (diskMetricsConfigs (DiskConfig c)) (IncludeRootBlk (DiskConfig c))
              (IncludeAllAttachedBlk (DiskConfig c))
              (or_default (LsblkTimeoutString (DiskConfig c)) "5s") t)
           (HostConfig c) (MemoryConfig c)
           (mkOSFeatureConfig (osFeatureMetricsConfigs (OsFeatureConfig c))
              (or_default (KnownModulesConfigPath (OsFeatureConfig c)) "guestosconfig/known-modules.json"))
           (NetConfig c) (or_default (ssInvokeIntervalString c) "1m0s") i
           (or_default (ProcPath c) "/proc").
Proof.
  unfold ssc_accepted, ssc_ApplyConfiguration.
  change defaultInvokeIntervalString with "1m0s". change defaultlsblkTimeoutString with "5s".
  change defaultProcPath with "/proc".
  destruct (ParseDuration (or_default (ssInvokeIntervalString c) "1m0s")) as [i|]; [|naive_solver].
  destruct (ParseDuration (or_default (LsblkTimeoutString (DiskConfig c)) "5s")) as [t|]; [|naive_solver].
  unfold ssc_Validate, validateProcPath. split.
  - intros [[= <-] H]. simpl in H. exists i, t.
    destruct (Z.leb_spec i 0); [done|]. destruct (os_Stat _) as [[]|]; [|done].
    destruct (Z.leb_spec t 0); [done|]. destruct (Z.ltb_spec i t); [done|]. split_and!; done || lia.
  - intros (i' & t' & [= <-] & [= <-] & Ht & Hs & ->). split; [done|]. simpl.
    rewrite (proj2 (Z.leb_gt i 0)) by lia. rewrite Hs, (proj2 (Z.leb_gt t 0)) by lia.
    by rewrite (proj2 (Z.ltb_ge i t)) by lia.
Qed.
End Validate.

(** The empty configuration gets the documented defaults. *)
Example empty_config_accepted :
  let no := (∅ : gmap string MetricConfig) in
  let c := mkSSConfig (mkCPUConfig no) (mkDiskConfig no false false "" 0) (mkHostConfig no)
             (mkMemoryConfig no) (mkOSFeatureConfig no "") (mkNetConfig no (mkIfaceRegexp None)) "" 0 "" in
  let c' := (ssc_ApplyConfiguration c).1 in
  (ssInvokeInterval c', LsblkTimeout (DiskConfig c'), ProcPath c',
   ssc_Validate (fun p => if String.eqb p "/proc" then Ok tt else Err "stat") c')
  = ((60 * Second)%Z, (5 * Second)%Z, "/proc", Ok tt).
Proof. vm_compute. reflexivity. Qed.

Lemma interface_regexp_round_trip_witness :
  MarshalText (mkIfaceRegexp (Some (mkCompiled "lo" (MkRegexp OpLiteral 0 [] [108; 111]%Z 0 0 0 "")))) = "lo".
Proof.
  pose (parse := fun _ : string => Ok (MkRegexp OpLiteral 0 [] [108; 111]%Z 0 0 0 "")).
  pose proof (interface_regexp_round_trip parse "lo" _ _ eq_refl) as H.
  exact (proj1 H).
Defined.
