(* ===== verification/DiskCollector.v ===== *)
(** The collector of disk statistics
    ([pkg/systemstatsmonitor/disk_collector.go]).

    gopsutil and lsblk are inputs of a collection ([diskEnv]).  The ten maps of
    last readings are indexed by [counter], the ten fields of the reading they
    remember. *)

From S2P Require Import Prelude GoStrings GoConv GoTime Options Metrics Recording SystemStatsConfig.

(** ** Readings *)

(** The fields of gopsutil's [disk.IOCountersStat], all uint64, that are used. *)
Inductive counter : Type :=
| IoTime | WeightedIO | ReadCount | WriteCount | MergedReadCount | MergedWriteCount
| ReadBytes | WriteBytes | ReadTime | WriteTime.

#[export] Instance counter_eq_dec : EqDecision counter.
Proof. solve_decision. Defined.

Abbreviation IOCountersStat := (counter -> Z) (only parsing).

Record PartitionStat : Type := mkPartition {
  Device : string; Mountpoint : string; Fstype : string; Opts : list string
}.
Record UsageStat : Type := mkUsage { Free : Z; Used : Z; UsedPercent : float64 }.

(** [d.Seconds()] *)
Definition Duration_Seconds (d : Duration) : float64 :=
  f64_add (f64_of_Z (Z.quot d Second)) (f64_div (f64_of_Z (Z.rem d Second)) (f64_of_Z 1000000000)).

Definition strings_TrimPrefix (s p : string) : string :=
  if strings_HasPrefix s p then sdrop (String.length p) s else s.

(** ** The collector *)

(** [dcLast dc c] is the map of the last readings of [c]: lastIOTime,
    lastWeightedIO, lastReadCount and so on. *)
(* @ pkg/systemstatsmonitor/disk_collector.go:32-57 diskCollector *)
Record diskCollector : Type := mkDisk {
  mIOTime : option OCMetric;
  mWeightedIO : option OCMetric;
  mAvgQueueLen : option OCMetric;
  mOpsCount : option OCMetric;
  mMergedOpsCount : option OCMetric;
  mOpsBytes : option OCMetric;
  mOpsTime : option OCMetric;
  mBytesUsed : option OCMetric;
  mPercentUsed : option OCMetric;
  dcConfig : DiskStatsConfig;
  dcLast : counter -> gmap string Z;
  lastSampleTime : Time
}.

Definition set_last (dc : diskCollector) (c : counter) (deviceName : string) (v : Z) : diskCollector :=
  mkDisk (mIOTime dc) (mWeightedIO dc) (mAvgQueueLen dc) (mOpsCount dc) (mMergedOpsCount dc)
    (mOpsBytes dc) (mOpsTime dc) (mBytesUsed dc) (mPercentUsed dc) (dcConfig dc)
    (fun c' => if decide (c' = c) then <[deviceName := v]> (dcLast dc c) else dcLast dc c')
    (lastSampleTime dc).

Definition set_sampleTime (dc : diskCollector) (t : Time) : diskCollector :=
  mkDisk (mIOTime dc) (mWeightedIO dc) (mAvgQueueLen dc) (mOpsCount dc) (mMergedOpsCount dc)
    (mOpsBytes dc) (mOpsTime dc) (mBytesUsed dc) (mPercentUsed dc) (dcConfig dc) (dcLast dc) t.

Section Construction.
Context {lib : OpenCensus}.

(* @ pkg/systemstatsmonitor/disk_collector.go:59-177 NewDiskCollectorOrDie *)
Definition NewDiskCollectorOrDie (diskConfig : DiskStatsConfig) : ST globals diskCollector :=
  let name := displayName (diskMetricsConfigs diskConfig) in
  ioTime ← newInt64OrDie DiskIOTimeID (name DiskIOTimeID)
    "The IO time spent on the disk, in ms" "ms" Sum [deviceNameLabel];
  weightedIO ← newInt64OrDie DiskWeightedIOID (name DiskWeightedIOID)
    "The weighted IO on the disk, in ms" "ms" Sum [deviceNameLabel];
  avgQueueLen ← newFloat64OrDie DiskAvgQueueLenID (name DiskAvgQueueLenID)
    "The average queue length on the disk" "1" LastValue [deviceNameLabel];
  opsCount ← newInt64OrDie DiskOpsCountID (name DiskOpsCountID)
    "Disk operations count" "1" Sum [deviceNameLabel; directionLabel];
  mergedOpsCount ← newInt64OrDie DiskMergedOpsCountID (name DiskMergedOpsCountID)
    "Disk merged operations count" "1" Sum [deviceNameLabel; directionLabel];
  opsBytes ← newInt64OrDie DiskOpsBytesID (name DiskOpsBytesID)
    "Bytes transferred in disk operations" "1" Sum [deviceNameLabel; directionLabel];
  opsTime ← newInt64OrDie DiskOpsTimeID (name DiskOpsTimeID)
    "Time spent in disk operations, in ms" "ms" Sum [deviceNameLabel; directionLabel];
  bytesUsed ← newInt64OrDie DiskBytesUsedID (name DiskBytesUsedID)
    "Disk bytes used, in Bytes" "Byte" LastValue
    [deviceNameLabel; fsTypeLabel; mountOptionLabel; stateLabel];
  percentUsed ← newFloat64OrDie DiskPercentUsedID (name DiskPercentUsedID)
    "Disk usage in percentage of total space" "%" LastValue [deviceNameLabel];
  mret (mkDisk ioTime weightedIO avgQueueLen opsCount mergedOpsCount opsBytes opsTime
          bytesUsed percentUsed diskConfig (fun _ => ∅) Time_zero).
End Construction.

(** ** Input and output *)

(** [int64(now - last)] of two uint64 values. *)
Definition delta (now last : Z) : measurement := MInt (int64 (uint64 (now - last))).

Definition device_tags (deviceName : string) : gmap string string := {[ deviceNameLabel := deviceName ]}.
Definition direction_tags (deviceName direction : string) : gmap string string :=
  <[directionLabel := direction]> {[ deviceNameLabel := deviceName ]}.

(** A counter is remembered only when its metric exists. *)
Definition remember (dc : diskCollector) (m : option OCMetric) (c : counter) (deviceName : string) (v : Z)
    : diskCollector :=
  match m with
  | None => dc
  | Some _ => set_last dc c deviceName v
  end.

(** [if m != nil { m.Record(tags, int64(stat.C-dc.lastC[deviceName])); dc.lastC[deviceName] = stat.C }] *)
Definition record_delta (m : option OCMetric) (tags : gmap string string) (deviceName : string)
    (stat : IOCountersStat) (dc : diskCollector) (c : counter) : diskCollector * list call :=
  (remember dc m c deviceName (stat c),
   record m tags (delta (stat c) (default 0%Z (dcLast dc c !! deviceName)))).

Definition avg_queue_len (dc : diskCollector) (sampleTime : Time) (weightedIO lastWeightedIO : Z) : float64 :=
  if (lastWeightedIO =? weightedIO)%Z then f64_of_Z 0
  else
    let diffSampleTimeMs :=
      f64_mul (Duration_Seconds (Time_Sub sampleTime (lastSampleTime dc))) (f64_of_Z 1000) in
    f64_div (f64_of_Z (uint64 (weightedIO - lastWeightedIO))) diffSampleTimeMs.

(** The four counters of one direction. *)
Definition record_direction (dc : diskCollector) (deviceName direction : string) (stat : IOCountersStat)
    (ops merged bytes time : counter) : diskCollector * list call :=
  let tags := direction_tags deviceName direction in
  let '(dc, c1) := record_delta (mOpsCount dc) tags deviceName stat dc ops in
  let '(dc, c2) := record_delta (mMergedOpsCount dc) tags deviceName stat dc merged in
  let '(dc, c3) := record_delta (mOpsBytes dc) tags deviceName stat dc bytes in
  let '(dc, c4) := record_delta (mOpsTime dc) tags deviceName stat dc time in
  (dc, c1 ++ c2 ++ c3 ++ c4).

(* @ pkg/systemstatsmonitor/disk_collector.go:181-267 recordIOCounters *)
Definition record_device (dc : diskCollector) (sampleTime : Time) (deviceName : string)
    (stat : IOCountersStat) : diskCollector * list call :=
  let tags := device_tags deviceName in
  let lastIOTime := dcLast dc IoTime !! deviceName in
  let lastWeightedIO := default 0%Z (dcLast dc WeightedIO !! deviceName) in
  let dc := set_last (set_last dc IoTime deviceName (stat IoTime)) WeightedIO deviceName (stat WeightedIO) in
  let c1 := record (mIOTime dc) tags (delta (stat IoTime) (default 0%Z lastIOTime)) in
  let c2 := record (mWeightedIO dc) tags (delta (stat WeightedIO) lastWeightedIO) in
  let c3 :=
    match lastIOTime with
    | Some _ => record (mAvgQueueLen dc) tags (MFloat (avg_queue_len dc sampleTime (stat WeightedIO) lastWeightedIO))
    | None => []
    end in
  let '(dc, c4) := record_direction dc deviceName "read" stat ReadCount MergedReadCount ReadBytes ReadTime in
  let '(dc, c5) := record_direction dc deviceName "write" stat WriteCount MergedWriteCount WriteBytes WriteTime in
  (dc, c1 ++ c2 ++ c3 ++ c4 ++ c5).

(** The devices are visited in some order. *)
(* @ pkg/systemstatsmonitor/disk_collector.go:179-269 recordIOCounters *)
Fixpoint recordIOCounters (dc : diskCollector) (stats : gmap string IOCountersStat) (sampleTime : Time)
    (order : list string) : diskCollector * list call :=
  match order with
  | [] => (dc, [])
  | deviceName :: order =>
    let '(dc, c1) :=
      match stats !! deviceName with
      | Some stat => record_device dc sampleTime deviceName stat
      | None => (dc, [])
      end in
    let '(dc, c2) := recordIOCounters dc stats sampleTime order in
    (dc, c1 ++ c2)
  end.

(** ** Space *)

(** The output of lsblk is used also when the command fails. *)
(* @ pkg/systemstatsmonitor/disk_collector.go:341-354 listRootBlockDevices *)
Definition listRootBlockDevices (stdout : string) : list string :=
  split_byte 10 (strings_TrimSpace stdout).

(* @ pkg/systemstatsmonitor/disk_collector.go:357-364 listAttachedBlockDevices *)
Definition listAttachedBlockDevices (partitions : list PartitionStat) : list string :=
  Device <$> partitions.

Definition usage_tags (p : PartitionStat) (state : string) : gmap string string :=
  <[stateLabel := state]> (<[mountOptionLabel := strings_Join (Opts p) ","]>
    (<[fsTypeLabel := Fstype p]> {[ deviceNameLabel := strings_TrimPrefix (Device p) "/dev/" ]})).

(** The records of one partition; [mBytesUsed] is not nil here. *)
Definition usage_calls (dc : diskCollector) (p : PartitionStat) (usage : result UsageStat) : list call :=
  match usage with
  | Err _ => []
  | Ok u =>
    record (mBytesUsed dc) (usage_tags p "free") (MInt (int64 (Free u))) ++
    record (mBytesUsed dc) (usage_tags p "used") (MInt (int64 (Used u))) ++
    record (mPercentUsed dc) (usage_tags p "used") (MFloat (UsedPercent u))
  end.

(* @ pkg/systemstatsmonitor/disk_collector.go:309-337 collect *)
Fixpoint record_usage (dc : diskCollector) (usage : string -> result UsageStat) (seen : gset string)
    (partitions : list PartitionStat) : list call :=
  match partitions with
  | [] => []
  | p :: partitions =>
    if bool_decide (Device p ∈ seen) then record_usage dc usage seen partitions
    else
      usage_calls dc p (usage (Mountpoint p)) ++
      record_usage dc usage ({[ Device p ]} ∪ seen) partitions
  end.

(** What one collection sees of the system. *)
Record diskEnv : Type := mkDiskEnv {
  lsblk : Duration -> string;
  disk_Partitions : result (list PartitionStat);
  disk_IOCounters : list string -> result (gmap string IOCountersStat);
  io_order : list string;
  disk_Now : Time;
  disk_Usage : string -> result UsageStat
}.

Definition devices_of (cfg : DiskStatsConfig) (env : diskEnv) (partitions : list PartitionStat) : list string :=
  (if IncludeRootBlk cfg then listRootBlockDevices (lsblk env (LsblkTimeout cfg)) else []) ++
  (if IncludeAllAttachedBlk cfg then listAttachedBlockDevices partitions else []).

(* @ pkg/systemstatsmonitor/disk_collector.go:271-338 collect *)
Definition disk_collect (dc : option diskCollector) (env : diskEnv) : option diskCollector * list call :=
  match dc with
  | None => (None, [])
  | Some dc =>
    match disk_Partitions env with
    | Err _ => (Some dc, [])
    | Ok partitions =>
      match disk_IOCounters env (devices_of (dcConfig dc) env partitions) with
      | Err _ => (Some dc, [])
      | Ok ioCountersStats =>
        let sampleTime := disk_Now env in
        let '(dc, c1) := recordIOCounters dc ioCountersStats sampleTime (io_order env) in
        let c2 := match mBytesUsed dc with
                  | None => []
                  | Some _ => record_usage dc (disk_Usage env) ∅ partitions
                  end in
        (Some (set_sampleTime dc sampleTime), c1 ++ c2)
      end
    end
  end.

(** ** The Sum metrics follow the counters of the kernel *)

(** The metric, its identifier and its labels for each counter. *)
Definition metric_of (dc : diskCollector) (c : counter) : option OCMetric :=
  match c with
  | IoTime => mIOTime dc
  | WeightedIO => mWeightedIO dc
  | ReadCount | WriteCount => mOpsCount dc
  | MergedReadCount | MergedWriteCount => mMergedOpsCount dc
  | ReadBytes | WriteBytes => mOpsBytes dc
  | ReadTime | WriteTime => mOpsTime dc
  end.

Definition id_of (c : counter) : string :=
  match c with
  | IoTime => DiskIOTimeID
  | WeightedIO => DiskWeightedIOID
  | ReadCount | WriteCount => DiskOpsCountID
  | MergedReadCount | MergedWriteCount => DiskMergedOpsCountID
  | ReadBytes | WriteBytes => DiskOpsBytesID
  | ReadTime | WriteTime => DiskOpsTimeID
  end.

Definition tags_of (c : counter) (deviceName : string) : gmap string string :=
  match c with
  | IoTime | WeightedIO => device_tags deviceName
  | ReadCount | MergedReadCount | ReadBytes | ReadTime => direction_tags deviceName "read"
  | WriteCount | MergedWriteCount | WriteBytes | WriteTime => direction_tags deviceName "write"
  end.

(** The order in which a device's counters are recorded. *)
Definition first_counters : list counter := [IoTime; WeightedIO].
Definition other_counters : list counter :=
  [ReadCount; MergedReadCount; ReadBytes; ReadTime; WriteCount; MergedWriteCount; WriteBytes; WriteTime].

(** The delta of one counter, if its metric exists. *)
Definition counter_call (dc : diskCollector) (deviceName : string) (stat : IOCountersStat) (c : counter)
    : list call :=
  record (metric_of dc c) (tags_of c deviceName) (delta (stat c) (default 0%Z (dcLast dc c !! deviceName))).

(** What an update of one map leaves alone. *)
Lemma set_last_keeps dc c0 d v :
  (forall c, metric_of (set_last dc c0 d v) c = metric_of dc c) /\
  mBytesUsed (set_last dc c0 d v) = mBytesUsed dc /\ mPercentUsed (set_last dc c0 d v) = mPercentUsed dc /\
  mAvgQueueLen (set_last dc c0 d v) = mAvgQueueLen dc /\ dcConfig (set_last dc c0 d v) = dcConfig dc /\
  lastSampleTime (set_last dc c0 d v) = lastSampleTime dc.
Proof. split; [by intros []|done]. Qed.

Lemma dcLast_set dc c0 d v c d' :
  dcLast (set_last dc c0 d v) c !! d' =
  if decide (c = c0 /\ d' = d) then Some v else dcLast dc c !! d'.
Proof.
  unfold set_last. cbn [dcLast]. destruct (decide (c = c0)) as [->|Hc].
  - destruct (decide (d' = d)) as [->|Hd].
    + by rewrite decide_True, lookup_insert_eq.
    + by rewrite decide_False, lookup_insert_ne by naive_solver.
  - by rewrite decide_False by naive_solver.
Qed.

(** The same for an update that may not happen. *)
Record same_but (dc dc' : diskCollector) : Prop := mkSame {
  same_metrics c : metric_of dc' c = metric_of dc c;
  same_bytes : mBytesUsed dc' = mBytesUsed dc;
  same_percent : mPercentUsed dc' = mPercentUsed dc;
  same_queue : mAvgQueueLen dc' = mAvgQueueLen dc;
  same_config : dcConfig dc' = dcConfig dc
}.

Lemma same_but_trans dc1 dc2 dc3 : same_but dc1 dc2 -> same_but dc2 dc3 -> same_but dc1 dc3.
Proof. intros [] []. constructor; intros; etrans; eauto. Qed.

Lemma set_last_same dc c d v : same_but dc (set_last dc c d v).
Proof. destruct (set_last_keeps dc c d v) as (? & ? & ? & ? & ? & ?). by constructor. Qed.

Lemma remember_same dc m c d v : same_but dc (remember dc m c d v).
Proof. destruct m; [apply set_last_same | by constructor]. Qed.

Lemma dcLast_remember dc m c0 d v c d' :
  is_Some m -> dcLast (remember dc m c0 d v) c !! d' =
  if decide (c = c0 /\ d' = d) then Some v else dcLast dc c !! d'.
Proof. intros [x ->]. apply dcLast_set. Qed.

Lemma dcLast_remember_ne dc m c0 d v c : c <> c0 -> dcLast (remember dc m c0 d v) c = dcLast dc c.
Proof.
  intros Hc. destruct m; [|done]. unfold remember, set_last. cbn [dcLast]. by rewrite decide_False.
Qed.

(** The counters of a list, one after the other. *)
Fixpoint deltas (dc : diskCollector) (d : string) (stat : IOCountersStat) (cs : list counter)
    : diskCollector * list call :=
  match cs with
  | [] => (dc, [])
  | c :: cs =>
    let '(dc, c1) := record_delta (metric_of dc c) (tags_of c d) d stat dc c in
    let '(dc, c2) := deltas dc d stat cs in
    (dc, c1 ++ c2)
  end.

Lemma record_direction_deltas dc d stat :
  record_direction dc d "read" stat ReadCount MergedReadCount ReadBytes ReadTime =
    deltas dc d stat [ReadCount; MergedReadCount; ReadBytes; ReadTime] /\
  record_direction dc d "write" stat WriteCount MergedWriteCount WriteBytes WriteTime =
    deltas dc d stat [WriteCount; MergedWriteCount; WriteBytes; WriteTime].
Proof. split; cbn [deltas]; unfold record_direction, record_delta; cbv beta iota zeta; by rewrite app_nil_r. Qed.

Lemma deltas_spec dc d stat cs :
  NoDup cs ->
  let '(dc', calls) := deltas dc d stat cs in
  same_but dc dc' /\ calls = (cs ≫= counter_call dc d stat) /\
  (forall c, c ∉ cs -> dcLast dc' c = dcLast dc c) /\
  (forall c d', c ∈ cs -> is_Some (metric_of dc c) ->
     dcLast dc' c !! d' = if decide (d' = d) then Some (stat c) else dcLast dc c !! d').
Proof.
  revert dc. induction cs as [|c0 cs IH]; intros dc HN.
  { simpl. split_and!; [by constructor | done | done | by intros c d' ?%not_elem_of_nil]. }
  apply NoDup_cons in HN as [Hc0 HN]. cbn [deltas]. unfold record_delta.
  set (dc1 := remember dc (metric_of dc c0) c0 d (stat c0)).
  assert (Hs : same_but dc dc1) by apply remember_same.
  assert (Hne : forall c, c <> c0 -> dcLast dc1 c = dcLast dc c) by (intros; by apply dcLast_remember_ne).
  specialize (IH dc1 HN). destruct (deltas dc1 d stat cs) as [dc2 calls].
  destruct IH as (Hs2 & -> & Hout & Hin). split_and!.
  - by eapply same_but_trans.
  - rewrite bind_cons. f_equal. apply list_bind_ext_in. intros c Hc.
    unfold counter_call. rewrite (same_metrics _ _ Hs), Hne; [done|]. by intros ->.
  - intros c [Hc Hcs]%not_elem_of_cons. by rewrite Hout, Hne.
  - intros c d' [->|Hc]%elem_of_cons Hm.
    + rewrite Hout by done. unfold dc1. rewrite dcLast_remember by done.
      destruct (decide (d' = d)); [by rewrite decide_True | by rewrite decide_False by naive_solver].
    + rewrite Hin by (rewrite ?(same_metrics _ _ Hs); done).
      by rewrite Hne by (intros ->; done).
Qed.

(** The average queue length is a float64 measurement. *)
Definition queue_call (dc : diskCollector) (d : string) (c : call) : Prop :=
  callMetric c = mAvgQueueLen dc /\ is_Some (callMetric c) /\ callTags c = device_tags d /\
  exists f, callValue c = MFloat f.

Lemma record_device_spec dc t d stat :
  let '(dc', calls) := record_device dc t d stat in
  same_but dc dc' /\
  (exists queue, Forall (queue_call dc d) queue /\
     calls = (first_counters ≫= counter_call dc d stat) ++ queue ++ (other_counters ≫= counter_call dc d stat)) /\
  (forall c d', is_Some (metric_of dc c) ->
     dcLast dc' c !! d' = if decide (d' = d) then Some (stat c) else dcLast dc c !! d').
Proof.
  unfold record_device.
  set (dc1 := set_last (set_last dc IoTime d (stat IoTime)) WeightedIO d (stat WeightedIO)).
  assert (Hs1 : same_but dc dc1) by (eapply same_but_trans; apply set_last_same).
  assert (H1 : forall c, c <> IoTime -> c <> WeightedIO -> dcLast dc1 c = dcLast dc c).
  { intros c ? ?. unfold dc1, set_last. cbn [dcLast]. by rewrite !decide_False. }
  destruct (record_direction_deltas dc1 d stat) as [Er _]. rewrite Er.
  pose proof (deltas_spec dc1 d stat [ReadCount; MergedReadCount; ReadBytes; ReadTime]
    ltac:(apply (bool_decide_unpack _); vm_compute; exact I)) as H2.
  destruct (deltas dc1 d stat _) as [dc2 c4]. destruct H2 as (Hs2 & -> & Hout2 & Hin2).
  destruct (record_direction_deltas dc2 d stat) as [_ Ew]. rewrite Ew.
  pose proof (deltas_spec dc2 d stat [WriteCount; MergedWriteCount; WriteBytes; WriteTime]
    ltac:(apply (bool_decide_unpack _); vm_compute; exact I)) as H3.
  destruct (deltas dc2 d stat _) as [dc3 c5]. destruct H3 as (Hs3 & -> & Hout3 & Hin3).
  assert (Hs12 : same_but dc dc2) by (by eapply same_but_trans).
  assert (Hs13 : same_but dc dc3) by (by eapply same_but_trans).
  assert (Hcall : forall c, c <> IoTime -> c <> WeightedIO -> counter_call dc1 d stat c = counter_call dc d stat c).
  { intros c Hc Hc'. unfold counter_call. by rewrite (same_metrics _ _ Hs1), H1. }
  assert (Hcall2 : forall c, c <> IoTime -> c <> WeightedIO ->
            c ∉ [ReadCount; MergedReadCount; ReadBytes; ReadTime] ->
            counter_call dc2 d stat c = counter_call dc d stat c).
  { intros c ? ? ?. unfold counter_call. by rewrite (same_metrics _ _ Hs12), Hout2, H1. }
  split_and!; [done | |].
  - exists (match dcLast dc IoTime !! d with
            | Some _ => record (mAvgQueueLen dc1) (device_tags d)
                (MFloat (avg_queue_len dc1 t (stat WeightedIO) (default 0%Z (dcLast dc WeightedIO !! d))))
            | None => []
            end). split.
    + destruct (dcLast dc IoTime !! d); [|done]. unfold record.
      rewrite (same_queue _ _ Hs1). destruct (mAvgQueueLen dc) as [m|] eqn:E; [|done].
      repeat constructor; simpl; eauto.
    + unfold first_counters, other_counters. cbn [mbind list_bind]. rewrite !app_nil_r.
      rewrite <- !app_assoc. f_equal. f_equal. f_equal.
      rewrite !Hcall, !Hcall2 by (done || set_solver). done.
  - intros c d' Hm. assert (Hm2 : is_Some (metric_of dc2 c)) by (by rewrite (same_metrics _ _ Hs12)).
    assert (Hm1 : is_Some (metric_of dc1 c)) by (by rewrite (same_metrics _ _ Hs1)).
    destruct c.
    1,2: rewrite Hout3, Hout2 by set_solver; unfold dc1; rewrite !dcLast_set;
      repeat case_decide; naive_solver.
    1,3,5,7: rewrite Hout3, Hin2 by (done || set_solver); by rewrite H1 by done.
    all: rewrite Hin3 by (done || set_solver); by rewrite Hout2, H1 by (done || set_solver).
Qed.

(** *** The series of a counter *)
Definition direction_of (c : counter) : option string :=
  match c with
  | IoTime | WeightedIO => None
  | ReadCount | MergedReadCount | ReadBytes | ReadTime => Some "read"
  | WriteCount | MergedWriteCount | WriteBytes | WriteTime => Some "write"
  end.

Lemma tags_of_lookup c d :
  tags_of c d !! deviceNameLabel = Some d /\ tags_of c d !! directionLabel = direction_of c /\
  tags_of c d !! fsTypeLabel = None.
Proof. by destruct c. Qed.

Lemma series_inj c1 c2 d1 d2 :
  id_of c1 = id_of c2 -> tags_of c1 d1 = tags_of c2 d2 -> c1 = c2 /\ d1 = d2.
Proof.
  intros Hid Ht. destruct (tags_of_lookup c1 d1) as (Hd1 & Hr1 & _).
  rewrite Ht in Hd1, Hr1. destruct (tags_of_lookup c2 d2) as (Hd2 & Hr2 & _).
  split; [|congruence]. rewrite Hr2 in Hr1. by destruct c1, c2.
Qed.

(** No two metrics share a name. *)
Definition distinct (dc : diskCollector) : Prop :=
  forall c1 c2 m, metric_of dc c1 = Some m -> metric_of dc c2 = Some m -> id_of c1 = id_of c2.

Lemma total_counters dc d stat cs c d' m :
  distinct dc -> metric_of dc c = Some m -> NoDup cs ->
  total (mName m) (tags_of c d') (cs ≫= counter_call dc d stat) =
  if decide (c ∈ cs /\ d' = d) then int64 (uint64 (stat c - default 0%Z (dcLast dc c !! d))) else 0%Z.
Proof.
  intros Hd Hm. destruct m as [name]. cbn [mName] in *. induction cs as [|c0 cs IH]; intros HN.
  { rewrite decide_False; [done|]. set_solver. }
  apply NoDup_cons in HN as [Hc0 HN]. rewrite bind_cons, total_app, (IH HN).
  unfold counter_call at 1. unfold delta. rewrite total_record.
  destruct (decide (metric_of dc c0 = _ /\ _)) as [[Hm0 Ht]|Hno].
  - destruct (series_inj c0 c d d' (Hd _ _ _ Hm0 Hm) Ht) as [-> ->].
    rewrite (decide_False (P := c ∈ cs /\ _)) by naive_solver.
    rewrite decide_True by set_solver. lia.
  - assert (~ (c = c0 /\ d' = d)) by naive_solver.
    destruct (decide (c ∈ cs /\ d' = d)) as [[? ?]|?]; [rewrite decide_True | rewrite decide_False];
      set_solver by lia.
Qed.

Lemma total_device dc t d stat c d' m :
  distinct dc -> metric_of dc c = Some m ->
  total (mName m) (tags_of c d') (record_device dc t d stat).2 =
  if decide (d' = d) then int64 (uint64 (stat c - default 0%Z (dcLast dc c !! d))) else 0%Z.
Proof.
  intros Hd Hm. pose proof (record_device_spec dc t d stat) as H.
  destruct (record_device dc t d stat) as [dc' calls]. destruct H as (_ & (queue & HQ & ->) & _).
  cbn [snd]. rewrite !total_app, (total_other _ _ queue).
  2:{ eapply Forall_impl; [exact HQ|]. intros x (_ & _ & _ & Hf). by right. }
  rewrite !(total_counters dc d stat _ c d' m) by (done || apply (bool_decide_unpack _); vm_compute; exact I).
  destruct (decide (d' = d)) as [->|Hne]; [|rewrite !decide_False by naive_solver; lia].
  destruct (decide (c ∈ first_counters /\ d = d)) as [[Hin _]|Hno].
  - rewrite decide_False; [lia|]. destruct c; set_solver.
  - rewrite decide_True; [lia|]. split; [|done]. destruct c; set_solver.
Qed.

(** *** Runs *)

(** The readings of one collection, in the order the devices are visited. *)
Definition samples_of (stats : gmap string IOCountersStat) (order : list string)
    : list (string * IOCountersStat) :=
  omap (fun d => (fun stat => (d, stat)) <$> stats !! d) order.

Definition disk_samples (cfg : DiskStatsConfig) (env : diskEnv) : list (string * IOCountersStat) :=
  match disk_Partitions env with
  | Err _ => []
  | Ok partitions =>
    match disk_IOCounters env (devices_of cfg env partitions) with
    | Err _ => []
    | Ok stats => samples_of stats (io_order env)
    end
  end.

Fixpoint disk_run (dc : option diskCollector) (envs : list diskEnv) : option diskCollector * list call :=
  match envs with
  | [] => (dc, [])
  | env :: envs =>
    let '(dc, c1) := disk_collect dc env in
    let '(dc, c2) := disk_run dc envs in
    (dc, c1 ++ c2)
  end.

(** The last reading of a counter of a device, zero when there is none. *)
Definition latest (c : counter) (d : string) (l : Z) (samples : list (string * IOCountersStat)) : Z :=
  foldl (fun l x => if decide (x.1 = d) then x.2 c else l) l samples.

Fixpoint device_run (dc : diskCollector) (t : Time) (samples : list (string * IOCountersStat))
    : diskCollector * list call :=
  match samples with
  | [] => (dc, [])
  | (d, stat) :: samples =>
    let '(dc, c1) := record_device dc t d stat in
    let '(dc, c2) := device_run dc t samples in
    (dc, c1 ++ c2)
  end.

Lemma recordIOCounters_run dc stats t order :
  recordIOCounters dc stats t order = device_run dc t (samples_of stats order).
Proof.
  revert dc. induction order as [|d order IH]; intros dc; [done|].
  cbn [recordIOCounters]. unfold samples_of. cbn [omap list_omap].
  destruct (stats !! d) as [stat|]; cbn [fmap option_fmap option_map device_run].
  - destruct (record_device dc t d stat) as [dc1 c1]. by rewrite IH.
  - rewrite IH. unfold samples_of. by destruct (device_run dc t _).
Qed.

Section Track.
(** [R total last]: what was recorded so far agrees with the last reading. *)
Variables (ok : Z -> Prop) (R : Z -> Z -> Prop).
Hypothesis R_step : forall total last now,
  ok last -> ok now -> R total last -> R (total + int64 (uint64 (now - last)))%Z now.

Definition tracks (dc : diskCollector) (calls : list call) : Prop :=
  forall c d m, metric_of dc c = Some m ->
    let l := default 0%Z (dcLast dc c !! d) in
    ok l /\ R (total (mName m) (tags_of c d) calls) l.

Definition readings_ok (samples : list (string * IOCountersStat)) : Prop :=
  Forall (fun x => forall c, ok (x.2 c)) samples.

Lemma same_distinct dc dc' : same_but dc dc' -> distinct dc -> distinct dc'.
Proof. intros Hs Hd c1 c2 m. rewrite !(same_metrics _ _ Hs). apply Hd. Qed.

Lemma device_run_spec dc t samples calls0 :
  distinct dc -> readings_ok samples -> tracks dc calls0 ->
  let '(dc', calls) := device_run dc t samples in
  same_but dc dc' /\ tracks dc' (calls0 ++ calls) /\
  forall c d, is_Some (metric_of dc c) ->
    default 0%Z (dcLast dc' c !! d) = latest c d (default 0%Z (dcLast dc c !! d)) samples.
Proof.
  revert dc calls0. induction samples as [|[d0 stat] samples IH]; intros dc calls0 Hd Hok Ht.
  { simpl. rewrite app_nil_r. split_and!; [by constructor | done..]. }
  apply Forall_cons in Hok as [Hok0 Hok]. cbn [device_run].
  pose proof (record_device_spec dc t d0 stat) as Hspec.
  pose proof (total_device dc t d0 stat) as Htot.
  destruct (record_device dc t d0 stat) as [dc1 c1]. destruct Hspec as (Hs1 & _ & Hlast). cbn [snd] in Htot.
  specialize (IH dc1 (calls0 ++ c1) (same_distinct _ _ Hs1 Hd) Hok).
  destruct (device_run dc1 t samples) as [dc2 c2]. destruct IH as (Hs2 & Ht2 & Hl2).
  { intros c d m Hm. rewrite (same_metrics _ _ Hs1) in Hm.
    rewrite Hlast, total_app, (Htot c d m Hd Hm) by eauto. destruct (Ht c d m Hm) as [Hl HR].
    destruct (decide (d = d0)) as [->|Hne]; simpl; [split; auto|]. by rewrite Z.add_0_r. }
  split_and!; [by eapply same_but_trans | by rewrite app_assoc |].
  intros c d Hm. rewrite Hl2 by (by rewrite (same_metrics _ _ Hs1)).
  rewrite Hlast by done. unfold latest. simpl. by destruct (decide (d = d0)), (decide (d0 = d)).
Qed.

Lemma usage_no_counter dc usage seen partitions name c d :
  total name (tags_of c d) (record_usage dc usage seen partitions) = 0%Z.
Proof.
  apply total_other. revert seen. induction partitions as [|p ps IH]; intros seen; [constructor|].
  cbn [record_usage]. case_bool_decide; [apply IH|]. apply Forall_app. split; [|apply IH].
  unfold usage_calls. destruct (usage (Mountpoint p)) as [u|]; [|constructor].
  assert (Ht : forall st, usage_tags p st <> tags_of c d).
  { intros st E. destruct (tags_of_lookup c d) as (_ & _ & Hf). rewrite <- E in Hf. done. }
  rewrite !Forall_app. split_and!; apply record_Forall; intros _; left; apply Ht.
Qed.

Lemma disk_collect_spec dc env calls0 :
  distinct dc -> readings_ok (disk_samples (dcConfig dc) env) -> tracks dc calls0 ->
  exists dc' calls, disk_collect (Some dc) env = (Some dc', calls) /\
  same_but dc dc' /\ tracks dc' (calls0 ++ calls) /\
  forall c d, is_Some (metric_of dc c) ->
    default 0%Z (dcLast dc' c !! d) =
    latest c d (default 0%Z (dcLast dc c !! d)) (disk_samples (dcConfig dc) env).
Proof.
  intros Hd Hok Ht. unfold disk_collect, disk_samples in *.
  destruct (disk_Partitions env) as [partitions|].
  2:{ exists dc, []. rewrite app_nil_r. split_and!; [done | by constructor | done..]. }
  destruct (disk_IOCounters env _) as [stats|].
  2:{ exists dc, []. rewrite app_nil_r. split_and!; [done | by constructor | done..]. }
  rewrite recordIOCounters_run.
  pose proof (device_run_spec dc (disk_Now env) _ calls0 Hd Hok Ht) as H.
  destruct (device_run dc (disk_Now env) _) as [dc1 c1]. destruct H as (Hs & Ht1 & Hl).
  eexists _, _. split; [reflexivity|]. split_and!.
  - destruct Hs. by constructor.
  - intros c d m Hm. change (metric_of dc1 c = Some m) in Hm. destruct (Ht1 c d m Hm) as [Ho HR].
    rewrite app_assoc, total_app.
    replace (total (mName m) (tags_of c d) (match mBytesUsed dc1 with None => _ | Some _ => _ end)) with 0%Z.
    + by rewrite Z.add_0_r.
    + destruct (mBytesUsed dc1); [by rewrite usage_no_counter | done].
  - exact Hl.
Qed.

Lemma disk_run_spec dc envs calls0 :
  distinct dc -> Forall (fun env => readings_ok (disk_samples (dcConfig dc) env)) envs -> tracks dc calls0 ->
  exists dc' calls, disk_run (Some dc) envs = (Some dc', calls) /\
  same_but dc dc' /\ tracks dc' (calls0 ++ calls) /\
  forall c d, is_Some (metric_of dc c) ->
    default 0%Z (dcLast dc' c !! d) =
    latest c d (default 0%Z (dcLast dc c !! d)) (envs ≫= disk_samples (dcConfig dc)).
Proof.
  revert dc calls0. induction envs as [|env envs IH]; intros dc calls0 Hd Hok Ht.
  { exists dc, []. simpl. rewrite app_nil_r. split_and!; [done | by constructor | done..]. }
  apply Forall_cons in Hok as [Hok0 Hok].
  destruct (disk_collect_spec dc env calls0 Hd Hok0 Ht) as (dc1 & c1 & E1 & Hs1 & Ht1 & Hl1).
  destruct (IH dc1 (calls0 ++ c1)) as (dc2 & c2 & E2 & Hs2 & Ht2 & Hl2).
  { by eapply same_distinct. }
  { by rewrite (same_config _ _ Hs1). }
  { done. }
  exists dc2, (c1 ++ c2). cbn [disk_run]. rewrite E1, E2. split_and!; [done | by eapply same_but_trans | |].
  - by rewrite app_assoc.
  - intros c d Hm. rewrite Hl2 by (by rewrite (same_metrics _ _ Hs1)).
    rewrite Hl1, (same_config _ _ Hs1), bind_cons by done. unfold latest. by rewrite foldl_app.
Qed.
End Track.

(** ** What the constructor establishes *)
Definition labels_of (c : counter) : list string :=
  match c with
  | IoTime | WeightedIO => [deviceNameLabel]
  | _ => [deviceNameLabel; directionLabel]
  end.

Section Properties.
Context {lib : OpenCensus}.

(** Every call the collector makes uses tags that are known.  The metric of the
    used space in percent is created with the label of the device only, but it is
    recorded where [mBytesUsed] exists, with the tags of that metric. *)
Record disk_wf (g : globals) (dc : diskCollector) : Prop := mkDiskWf {
  wf_counters c : metric_ok g (metric_of dc c) (labels_of c);
  wf_queue : metric_ok g (mAvgQueueLen dc) [deviceNameLabel];
  wf_bytes : metric_ok g (mBytesUsed dc) [deviceNameLabel; fsTypeLabel; mountOptionLabel; stateLabel]
}.

Lemma NewDiskCollector_spec cfg g g' dc :
  NewDiskCollectorOrDie cfg g = Ret (g', dc) ->
  tagMap g ⊆ tagMap g' /\ disk_wf g' dc /\
  (forall c, metric_of dc c = metric_named (displayName (diskMetricsConfigs cfg) (id_of c))) /\
  (forall c, dcLast dc c = ∅) /\ dcConfig dc = cfg.
Proof.
  unfold NewDiskCollectorOrDie. intros H. do 9 new_metric H. injection H as -> <-.
  split_and!; [later_tags | | by intros [] | done | done].
  constructor.
  - intros []; (eapply metric_ok_mono; [|eassumption]); later_tags.
  - eapply metric_ok_mono; [|eassumption]; later_tags.
  - eapply metric_ok_mono; [|eassumption]; later_tags.
Qed.

(** *** Every call reaches the library *)
Hint Unfold device_tags direction_tags usage_tags : recording.

Lemma counter_calls_ok g dc d stat cs :
  disk_wf g dc -> Forall (call_ok g) (cs ≫= counter_call dc d stat).
Proof.
  intros Hwf. apply Forall_bind, Forall_true. intros c. unfold counter_call.
  eapply record_ok; [apply (wf_counters _ _ Hwf)|]. destruct c; cbn [tags_of labels_of];
    autounfold with recording; auto with recording.
Qed.

Lemma record_device_ok g dc t d stat :
  disk_wf g dc -> let '(dc', calls) := record_device dc t d stat in disk_wf g dc' /\ Forall (call_ok g) calls.
Proof.
  intros Hwf. pose proof (record_device_spec dc t d stat) as H.
  destruct (record_device dc t d stat) as [dc' calls]. destruct H as (Hs & (queue & HQ & ->) & _). split.
  - destruct Hs as [H1 H2 H3 H4 H5], Hwf as [W1 W2 W3].
    constructor; [intros c; rewrite H1; apply W1 | by rewrite H4 | by rewrite H2].
  - rewrite !Forall_app. split_and!; [by apply counter_calls_ok | | by apply counter_calls_ok].
    eapply Forall_impl; [exact HQ|]. intros x (Hm & Hs' & Ht & _). split; [done|].
    rewrite Ht. destruct (wf_queue _ _ Hwf) as [E|Hk]; [rewrite Hm, E in Hs'; by destruct Hs'|].
    intros t' Ht'. apply Hk. revert t' Ht'. apply tags_within_singleton. by left.
Qed.

Lemma device_run_ok g dc t l :
  disk_wf g dc -> let '(dc', calls) := device_run dc t l in disk_wf g dc' /\ Forall (call_ok g) calls.
Proof.
  revert dc. induction l as [|[d stat] l IH]; intros dc Hwf; [done|]. cbn [device_run].
  pose proof (record_device_ok g dc t d stat Hwf) as H. destruct (record_device dc t d stat) as [dc1 c1].
  destruct H as [Hwf1 H1]. specialize (IH dc1 Hwf1). destruct (device_run dc1 t l) as [dc2 c2].
  destruct IH. split; [done|]. by apply Forall_app.
Qed.

Lemma record_usage_ok g dc m usage seen partitions :
  disk_wf g dc -> mBytesUsed dc = Some m -> Forall (call_ok g) (record_usage dc usage seen partitions).
Proof.
  intros Hwf Hm. revert seen. induction partitions as [|p ps IH]; intros seen; [constructor|].
  cbn [record_usage]. case_bool_decide; [apply IH|]. apply Forall_app. split; [|apply IH].
  unfold usage_calls. destruct (usage (Mountpoint p)) as [u|]; [|constructor].
  pose proof (wf_bytes _ _ Hwf) as Hb. rewrite !Forall_app. split_and!.
  1,2: eapply record_ok; [exact Hb|]; autounfold with recording; auto 10 with recording.
  apply (record_ok _ _ [deviceNameLabel; fsTypeLabel; mountOptionLabel; stateLabel]);
    [|unfold usage_tags; auto 10 with recording]. right.
  destruct Hb as [Hb|Hb]; [by rewrite Hb in Hm | exact Hb].
Qed.

Lemma disk_collect_ok g dc env :
  disk_wf g dc ->
  exists dc' calls, disk_collect (Some dc) env = (Some dc', calls) /\ disk_wf g dc' /\ Forall (call_ok g) calls.
Proof.
  intros Hwf. unfold disk_collect. destruct (disk_Partitions env) as [partitions|]; [|eauto 10].
  destruct (disk_IOCounters env _) as [stats|]; [|eauto 10]. rewrite recordIOCounters_run.
  pose proof (device_run_ok g dc (disk_Now env) (samples_of stats (io_order env)) Hwf) as H.
  destruct (device_run dc (disk_Now env) _) as [dc1 c1]. destruct H as [Hwf1 H1].
  eexists _, _. split; [done|]. split; [by destruct Hwf1|]. apply Forall_app. split; [done|].
  destruct (mBytesUsed dc1) eqn:E; [|done]. by eapply record_usage_ok.
Qed.

(** The display names of a configuration are unique. *)
Definition unique_names (configs : gmap string MetricConfig) : Prop :=
  forall id1 id2, displayName configs id1 = displayName configs id2 -> displayName configs id1 <> "" -> id1 = id2.

Definition samples (cfg : DiskStatsConfig) (envs : list diskEnv) : list (string * IOCountersStat) :=
  envs ≫= disk_samples cfg.

(** C16.  Run by run, the deltas that are recorded for a counter of a device add up to
    the last reading of the kernel: modulo 2^64 for any readings, and exactly
    when they are below 2^63.  So the exported counter equals the one of the
    kernel, whatever devices come and go, and in whatever order they are
    visited. *)
Theorem disk_counters_export_readings cfg g g' dc envs dc' calls c d :
  NewDiskCollectorOrDie cfg g = Ret (g', dc) ->
  unique_names (diskMetricsConfigs cfg) ->
  disk_run (Some dc) envs = (dc', calls) ->
  Forall (fun x => forall c, 0 <= x.2 c < 2 ^ 64)%Z (samples cfg envs) ->
  let name := displayName (diskMetricsConfigs cfg) (id_of c) in
  name <> "" ->
  uint64 (total name (tags_of c d) calls) = latest c d 0 (samples cfg envs) /\
  (Forall (fun x => forall c, x.2 c < 2 ^ 63)%Z (samples cfg envs) ->
   total name (tags_of c d) calls = latest c d 0 (samples cfg envs)).
Proof.
  intros HN Hu Hrun Hok name Hname.
  apply NewDiskCollector_spec in HN as (_ & _ & Hm & Hlast & Hcfg).
  assert (Hd : distinct dc).
  { intros c1 c2 m. rewrite !Hm, !metric_named_Some. intros [H1 ->] [_ E]. apply Hu; congruence. }
  assert (Hmc : metric_of dc c = Some (mkOCMetric name)) by (rewrite Hm; by apply metric_named_Some).
  assert (Hrun_ok : forall ok R, (forall t l x, ok l -> ok x -> R t l -> R (t + int64 (uint64 (x - l)))%Z x) ->
    ok 0%Z -> R 0%Z 0%Z -> Forall (fun x => forall c, ok (x.2 c)) (samples cfg envs) ->
    R (total name (tags_of c d) calls) (latest c d 0 (samples cfg envs))).
  { intros ok R Hstep H0 HR HF.
    destruct (disk_run_spec ok R Hstep dc envs [] Hd) as (dc1 & calls1 & E & Hs & Ht & Hl).
    - rewrite Hcfg. unfold samples in HF. by apply Forall_bind in HF.
    - intros c0 d0 m _. simpl. rewrite Hlast. simpl. done.
    - rewrite E in Hrun. injection Hrun as <- <-. specialize (Hl c d ltac:(eauto)).
      rewrite Hcfg, Hlast, lookup_empty in Hl. unfold samples.
      change (default 0%Z None) with 0%Z in Hl. rewrite <- Hl.
      apply (Ht c d (mkOCMetric name)). by rewrite (same_metrics _ _ Hs). }
  split.
  - apply (Hrun_ok (fun z => 0 <= z < 2 ^ 64)%Z (fun t l => uint64 t = l)); [|lia|done|done].
    intros t l x _ Hx <-. by apply uint64_telescope.
  - intros Hs. apply (Hrun_ok (fun z => 0 <= z < 2 ^ 63)%Z (fun t l => t = l)); [|lia|done|].
    + intros t l x Hl Hx ->. rewrite int64_uint64, int64_id by (unfold in_int64, int64_min, int64_max; lia). lia.
    + rewrite Forall_forall in Hok, Hs |- *. intros x Hx c0. specialize (Hok x Hx c0). specialize (Hs x Hx c0). simpl in *. lia.
Qed.
End Properties.

(** ** Space *)

(** One row per device: the records of the used space are those of the first
    mount point of every device, in the order of the partitions, and every device
    has such a row. *)
Theorem usage_one_row_per_device dc usage partitions :
  exists rows,
    record_usage dc usage ∅ partitions = (rows ≫= fun p => usage_calls dc p (usage (Mountpoint p))) /\
    NoDup (Device <$> rows) /\ rows `sublist_of` partitions /\
    forall p, p ∈ partitions -> exists pre q post,
      partitions = pre ++ q :: post /\ q ∈ rows /\ Device q = Device p /\ Device q ∉ Device <$> pre.
Proof.
  assert (H : forall seen, exists rows,
    record_usage dc usage seen partitions = (rows ≫= fun p => usage_calls dc p (usage (Mountpoint p))) /\
    NoDup (Device <$> rows) /\ rows `sublist_of` partitions /\
    (forall q, q ∈ rows -> Device q ∉ seen) /\
    forall p, p ∈ partitions -> Device p ∉ seen -> exists pre q post,
      partitions = pre ++ q :: post /\ q ∈ rows /\ Device q = Device p /\ Device q ∉ Device <$> pre).
  { induction partitions as [|p ps IH]; intros seen.
    { exists []. split_and!; [done | constructor | done | by intros q ?%not_elem_of_nil..]. }
    cbn [record_usage]. case_bool_decide as Hseen.
    - destruct (IH seen) as (rows & -> & HN & Hsub & Hns & Hrow). exists rows.
      split_and!; [done | done | by constructor | done |].
      intros x [->|Hx]%elem_of_cons Hxs; [done|].
      destruct (Hrow x Hx Hxs) as (pre & q & post & -> & Hq & Hd & Hpre). exists (p :: pre), q, post.
      split_and!; [done..|]. rewrite fmap_cons, not_elem_of_cons. split; [|done].
      intros E. apply (Hns q Hq). by rewrite E.
    - destruct (IH ({[ Device p ]} ∪ seen)) as (rows & -> & HN & Hsub & Hns & Hrow). exists (p :: rows).
      split_and!; [done | | by constructor | |].
      + rewrite fmap_cons, NoDup_cons. split; [|done]. intros (q & Hd & Hq)%list_elem_of_fmap.
        apply (Hns q Hq). rewrite <- Hd. set_solver.
      + intros q [->|Hq]%elem_of_cons; [done|]. specialize (Hns q Hq). set_solver.
      + intros x Hx Hxs. destruct (decide (Device x = Device p)) as [E|E].
        { exists [], p, ps. split_and!; [done | by left | done | by apply not_elem_of_nil]. }
        apply elem_of_cons in Hx as [->|Hx]; [done|].
        destruct (Hrow x Hx ltac:(set_solver)) as (pre & q & post & -> & Hq & Hd & Hpre).
        exists (p :: pre), q, post. split_and!; [done | by right | done |].
        rewrite fmap_cons, not_elem_of_cons. split; [|done]. congruence. }
  destruct (H ∅) as (rows & E & HN & Hsub & _ & Hrow). exists rows. split_and!; [done..|].
  intros p Hp. apply (Hrow p Hp). set_solver.
Qed.

Definition sample_disk_config : DiskStatsConfig :=
  mkDiskConfig {[ DiskIOTimeID := mkMetricConfig "io_time" ]} false false "5s" (5 * Second).
Definition sample_disk_env (ioTime : Z) : diskEnv :=
  mkDiskEnv (fun _ => "") (Ok [])
    (fun _ => Ok {[ "sda" := fun c => match c with IoTime => ioTime | _ => 0%Z end ]}) ["sda"] 0
    (fun _ => Err "no usage").

Lemma unique_names_singleton k c : unique_names {[ k := c ]}.
Proof.
  intros id1 id2. unfold displayName.
  destruct (decide (k = id1)), (decide (k = id2)); subst;
    rewrite ?lookup_singleton_eq, ?lookup_singleton_ne by done; done.
Qed.

Definition sample_disk : diskCollector :=
  mkDisk (Some (mkOCMetric "io_time")) None None None None None None None None
    sample_disk_config (fun _ => ∅) Time_zero.

Lemma disk_counters_export_readings_witness :
  total "io_time" (tags_of IoTime "sda")
    (disk_run (Some sample_disk) [sample_disk_env 5; sample_disk_env 9]).2 = 9%Z.
Proof.
  apply (disk_counters_export_readings (lib := test_library) sample_disk_config test_globals
           (mkGlobals {[ deviceNameLabel := deviceNameLabel ]} (mkMapping {[ "io_time" := DiskIOTimeID ]}) [])
           sample_disk [sample_disk_env 5; sample_disk_env 9]
           (disk_run (Some sample_disk) [sample_disk_env 5; sample_disk_env 9]).1 _ IoTime "sda").
  - reflexivity.
  - apply unique_names_singleton.
  - by destruct (disk_run _ _).
  - repeat constructor; destruct c; simpl; lia.
  - done.
  - repeat constructor; intros []; simpl; lia.
Defined.
