(* ===== verification/CPUCollector.v ===== *)
(** The collector of CPU statistics ([pkg/systemstatsmonitor/cpu_collector.go],
    [cpu_collector_unix.go]).

    gopsutil and procfs are inputs of a collection ([cpuEnv]).  Times are float64,
    as the libraries deliver them. *)

From S2P Require Import Prelude GoStrings GoConv GoTime Options Metrics Recording SystemStatsConfig.

(** ** Readings *)
Record AvgStat : Type := mkAvg { Load1 : float64; Load5 : float64; Load15 : float64 }.

Record TimesStat : Type := mkTimes {
  tUser : float64; tSystem : float64; tIdle : float64; tNice : float64; tIowait : float64;
  tIrq : float64; tSoftirq : float64; tSteal : float64; tGuest : float64; tGuestNice : float64
}.

Record CPUStat : Type := mkCPUStat {
  sUser : float64; sNice : float64; sSystem : float64; sIdle : float64; sIowait : float64;
  sIRQ : float64; sSoftIRQ : float64; sSteal : float64; sGuest : float64; sGuestNice : float64
}.

Record ProcStat : Type := mkProcStat {
  CPU : gmap Z CPUStat;
  ProcessCreated : Z; ProcessesRunning : Z; ProcessesBlocked : Z; IRQTotal : Z
}.

(** What one collection sees; [cpu_order] is the order in which the CPUs are
    visited. *)
Record cpuEnv : Type := mkCpuEnv {
  load_Avg : result AvgStat;
  cpu_Times : result (list TimesStat);
  cpu_NewFS : string -> result unit;
  fs_Stat : result ProcStat;
  cpu_order : list Z
}.

(* @ pkg/systemstatsmonitor/cpu_collector.go:27-35 clockTick *)
Definition clockTick : float64 := f64_of_Z 100.

(** ** The collector *)
(* @ pkg/systemstatsmonitor/cpu_collector.go:37-53 cpuCollector *)
Record cpuCollector : Type := mkCpu {
  mRunnableTaskCount : option OCMetric;
  mUsageTime : option OCMetric;
  mCpuLoad1m : option OCMetric;
  mCpuLoad5m : option OCMetric;
  mCpuLoad15m : option OCMetric;
  mSystemProcessesTotal : option OCMetric;
  mSystemProcsRunning : option OCMetric;
  mSystemProcsBlocked : option OCMetric;
  mSystemInterruptsTotal : option OCMetric;
  mSystemCPUStat : option OCMetric;
  ccConfig : CPUStatsConfig;
  ccProcPath : string;
  lastUsageTime : gmap string float64
}.

Definition with_lastUsageTime (cc : cpuCollector) (l : gmap string float64) : cpuCollector :=
  mkCpu (mRunnableTaskCount cc) (mUsageTime cc) (mCpuLoad1m cc) (mCpuLoad5m cc) (mCpuLoad15m cc)
    (mSystemProcessesTotal cc) (mSystemProcsRunning cc) (mSystemProcsBlocked cc)
    (mSystemInterruptsTotal cc) (mSystemCPUStat cc) (ccConfig cc) (ccProcPath cc) l.

Section Construction.
Context {lib : OpenCensus}.

(* @ pkg/systemstatsmonitor/cpu_collector.go:55-175 NewCPUCollectorOrDie *)
Definition NewCPUCollectorOrDie (cpuConfig : CPUStatsConfig) (procPath : string) : ST globals cpuCollector :=
  let name := displayName (cpuMetricsConfigs cpuConfig) in
  runnable ← newFloat64OrDie CPURunnableTaskCountID (name CPURunnableTaskCountID)
    "The average number of runnable tasks in the run-queue during the last minute" "1" LastValue [];
  usage ← newFloat64OrDie CPUUsageTimeID (name CPUUsageTimeID)
    "CPU usage, in seconds" "s" Sum [stateLabel];
  load1 ← newFloat64OrDie CPULoad1m (name CPULoad1m) "CPU average load (1m)" "1" LastValue [];
  load5 ← newFloat64OrDie CPULoad5m (name CPULoad5m) "CPU average load (5m)" "1" LastValue [];
  load15 ← newFloat64OrDie CPULoad15m (name CPULoad15m) "CPU average load (15m)" "1" LastValue [];
  processes ← newInt64OrDie SystemProcessesTotal (name SystemProcessesTotal)
    "Number of forks since boot." "1" Sum [];
  running ← newInt64OrDie SystemProcsRunning (name SystemProcsRunning)
    "Number of processes currently running." "1" LastValue [];
  blocked ← newInt64OrDie SystemProcsBlocked (name SystemProcsBlocked)
    "Number of processes currently blocked." "1" LastValue [];
  interrupts ← newInt64OrDie SystemInterruptsTotal (name SystemInterruptsTotal)
    "Total number of interrupts serviced (cumulative)." "1" Sum [];
  cpuStat ← newFloat64OrDie SystemCPUStat (name SystemCPUStat)
    "Cumulative time each cpu spent in various stages." "ns" Sum [cpuLabel; stageLabel];
  mret (mkCpu runnable usage load1 load5 load15 processes running blocked interrupts cpuStat
          cpuConfig procPath ∅).
End Construction.

(* @ pkg/systemstatsmonitor/cpu_collector_unix.go:29-62 recordLoad *)
Definition recordLoad (cc : cpuCollector) (env : cpuEnv) : list call :=
  match mRunnableTaskCount cc, mCpuLoad15m cc, mCpuLoad1m cc, mCpuLoad5m cc with
  | None, None, None, None => []
  | _, _, _, _ =>
    match load_Avg env with
    | Err _ => []
    | Ok loadAvg =>
      record (mRunnableTaskCount cc) ∅ (MFloat (Load1 loadAvg)) ++
      record (mCpuLoad1m cc) ∅ (MFloat (Load1 loadAvg)) ++
      record (mCpuLoad5m cc) ∅ (MFloat (Load5 loadAvg)) ++
      record (mCpuLoad15m cc) ∅ (MFloat (Load15 loadAvg))
    end
  end.

(** The states of the usage time, in the order they are recorded. *)
Definition usage_states : list (string * (TimesStat -> float64)) :=
  [("user", tUser); ("system", tSystem); ("idle", tIdle); ("nice", tNice); ("iowait", tIowait);
   ("irq", tIrq); ("softirq", tSoftirq); ("steal", tSteal); ("guest", tGuest); ("guest_nice", tGuestNice)].

(** One state: the difference to the last value, which is zero at first. *)
Definition record_state (cc : cpuCollector) (t : TimesStat) (st : string * (TimesStat -> float64))
    : cpuCollector * list call :=
  let '(name, field) := st in
  let now := f64_mul clockTick (field t) in
  let last := default (f64_of_Z 0) (lastUsageTime cc !! name) in
  (with_lastUsageTime cc (<[name := now]> (lastUsageTime cc)),
   record (mUsageTime cc) {[ stateLabel := name ]} (MFloat (f64_sub now last))).

Fixpoint record_states (cc : cpuCollector) (t : TimesStat) (sts : list (string * (TimesStat -> float64)))
    : cpuCollector * list call :=
  match sts with
  | [] => (cc, [])
  | st :: sts =>
    let '(cc, c1) := record_state cc t st in
    let '(cc, c2) := record_states cc t sts in
    (cc, c1 ++ c2)
  end.

(* @ pkg/systemstatsmonitor/cpu_collector.go:177-239 recordUsage *)
Definition recordUsage (cc : cpuCollector) (env : cpuEnv) : outcome (cpuCollector * list call) :=
  match mUsageTime cc with
  | None => Ret (cc, [])
  | Some _ =>
    match cpu_Times env with
    | Err _ => Ret (cc, [])
    | Ok timersStats =>
      timersStat ← slice_get timersStats 0;
      Ret (record_states cc timersStat usage_states)
    end
  end.

Definition stages : list (string * (CPUStat -> float64)) :=
  [("user", sUser); ("nice", sNice); ("system", sSystem); ("idle", sIdle); ("iowait", sIowait);
   ("iRQ", sIRQ); ("softIRQ", sSoftIRQ); ("steal", sSteal); ("guest", sGuest); ("guestNice", sGuestNice)].

Definition stage_tags (i : Z) (stage : string) : gmap string string :=
  <[stageLabel := stage]> {[ cpuLabel := "cpu" +:+ format_int i ]}.

(** The records of one CPU. *)
Definition record_cpu (cc : cpuCollector) (i : Z) (c : CPUStat) : list call :=
  stages ≫= fun st => record (mSystemCPUStat cc) (stage_tags i st.1) (MFloat (st.2 c)).

(* @ pkg/systemstatsmonitor/cpu_collector_unix.go:64-154 recordSystemStats *)
Definition recordSystemStats (cc : cpuCollector) (env : cpuEnv) : list call :=
  match mSystemCPUStat cc, mSystemInterruptsTotal cc, mSystemProcessesTotal cc, mSystemProcsBlocked cc,
        mSystemProcsRunning cc with
  | None, None, None, None, None => []
  | _, _, _, _, _ =>
    match cpu_NewFS env (ccProcPath cc) with
    | Err _ => []
    | Ok _ =>
      match fs_Stat env with
      | Err _ => []
      | Ok stats =>
        record (mSystemProcessesTotal cc) ∅ (MInt (int64 (ProcessCreated stats))) ++
        record (mSystemProcsRunning cc) ∅ (MInt (int64 (ProcessesRunning stats))) ++
        record (mSystemProcsBlocked cc) ∅ (MInt (int64 (ProcessesBlocked stats))) ++
        record (mSystemInterruptsTotal cc) ∅ (MInt (int64 (IRQTotal stats))) ++
        (cpu_order env ≫= fun i =>
           match CPU stats !! i with Some c => record_cpu cc i c | None => [] end)
      end
    end
  end.

(* @ pkg/systemstatsmonitor/cpu_collector.go:241-249 collect *)
Definition cpu_collect (cc : option cpuCollector) (env : cpuEnv) : outcome (option cpuCollector * list call) :=
  match cc with
  | None => Ret (None, [])
  | Some cc =>
    let c1 := recordLoad cc env in
    '(cc, c2) ← recordUsage cc env;
    let c3 := recordSystemStats cc env in
    Ret (Some cc, c1 ++ c2 ++ c3)
  end.

(** ** Usage time *)

Definition cpu_metrics (cc : cpuCollector) : list (option OCMetric) :=
  [mRunnableTaskCount cc; mUsageTime cc; mCpuLoad1m cc; mCpuLoad5m cc; mCpuLoad15m cc;
   mSystemProcessesTotal cc; mSystemProcsRunning cc; mSystemProcsBlocked cc;
   mSystemInterruptsTotal cc; mSystemCPUStat cc].

(** What recording the states does: one record per state, of the difference to
    what was remembered. *)
Lemma record_states_spec cc t sts :
  NoDup sts.*1 ->
  let '(cc', calls) := record_states cc t sts in
  cpu_metrics cc' = cpu_metrics cc /\ ccProcPath cc' = ccProcPath cc /\
  calls = (sts ≫= fun st => record (mUsageTime cc) {[ stateLabel := st.1 ]}
             (MFloat (f64_sub (f64_mul clockTick (st.2 t))
                              (default (f64_of_Z 0) (lastUsageTime cc !! st.1))))) /\
  (forall st, st ∈ sts -> lastUsageTime cc' !! st.1 = Some (f64_mul clockTick (st.2 t))) /\
  (forall n, n ∉ sts.*1 -> lastUsageTime cc' !! n = lastUsageTime cc !! n).
Proof.
  revert cc. induction sts as [|[n0 f0] sts IH]; intros cc HN.
  { split_and!; try done. intros st Hst. by apply not_elem_of_nil in Hst. }
  apply NoDup_cons in HN as [Hn0 HN]. cbn [record_states record_state].
  set (cc1 := with_lastUsageTime cc _).
  assert (H1 : forall n, n <> n0 -> lastUsageTime cc1 !! n = lastUsageTime cc !! n)
    by (intros n Hn; by apply lookup_insert_ne).
  specialize (IH cc1 HN). destruct (record_states cc1 t sts) as [cc2 calls].
  destruct IH as (Hm & Hp & -> & Hin & Hout). split_and!.
  - done.
  - done.
  - rewrite bind_cons. f_equal. apply list_bind_ext_in. intros st Hst. rewrite H1; [done|].
    intros E. apply Hn0, list_elem_of_fmap. by exists st.
  - intros st [->|Hst]%elem_of_cons; [|by apply Hin].
    rewrite Hout by done. apply lookup_insert_eq.
  - intros n [Hn Hns]%not_elem_of_cons. by rewrite Hout, H1.
Qed.

(** The readings of successive collections. *)
Definition times_of (env : cpuEnv) : option TimesStat :=
  match cpu_Times env with Ok (t :: _) => Some t | _ => None end.

Fixpoint usage_run (cc : cpuCollector) (envs : list cpuEnv) : outcome (cpuCollector * list call) :=
  match envs with
  | [] => Ret (cc, [])
  | env :: envs =>
    '(cc, c1) ← recordUsage cc env;
    '(cc, c2) ← usage_run cc envs;
    Ret (cc, c1 ++ c2)
  end.

Fixpoint usage_deltas (last : float64) (ticks : list float64) : list measurement :=
  match ticks with
  | [] => []
  | now :: ticks => MFloat (f64_sub now last) :: usage_deltas now ticks
  end.

Lemma usage_states_NoDup : NoDup usage_states.*1.
Proof. apply (bool_decide_unpack _). vm_compute. exact I. Qed.

(** The records of one reading that belong to one state. *)
Lemma values_states name f (v : string * (TimesStat -> float64) -> measurement) sts m :
  NoDup sts.*1 -> (name, f) ∈ sts ->
  values m {[ stateLabel := name ]}
    (sts ≫= fun st => record (Some (mkOCMetric m)) {[ stateLabel := st.1 ]} (v st)) = [v (name, f)].
Proof.
  induction sts as [|[n0 f0] sts IH]; intros HN Hin; [by apply not_elem_of_nil in Hin|].
  rewrite fmap_cons in HN. apply NoDup_cons in HN as [Hn0 HN]. cbn [fst] in Hn0.
  rewrite bind_cons, values_app, values_record. cbn [fst].
  destruct (decide (n0 = name)) as [->|Hne].
  - rewrite decide_True by done. apply elem_of_cons in Hin as [[= <-]|Hin].
    2:{ exfalso. apply Hn0, list_elem_of_fmap. by exists (name, f). }
    simpl. f_equal. clear IH HN. induction sts as [|[n1 f1] sts IH]; [done|].
    rewrite fmap_cons in Hn0. apply not_elem_of_cons in Hn0 as [H1 H2].
    rewrite bind_cons, values_app, values_record, IH by done. cbn [fst].
    rewrite decide_False; [done|]. intros [_ E].
    by apply (f_equal (lookup stateLabel)) in E; rewrite !lookup_singleton_eq in E; simplify_eq.
  - rewrite decide_False.
    2:{ intros [_ E]. apply (f_equal (lookup stateLabel)) in E. rewrite !lookup_singleton_eq in E. by simplify_eq. }
    apply IH; [done|]. apply elem_of_cons in Hin as [[= -> _]|Hin]; done.
Qed.

(** [recordUsage] panics exactly on an empty list of timers. *)
Lemma recordUsage_panics cc env c :
  recordUsage cc env = Panic c <->
  is_Some (mUsageTime cc) /\ cpu_Times env = Ok [] /\ c = "index out of range".
Proof.
  unfold recordUsage. destruct (mUsageTime cc) as [m|].
  - destruct (cpu_Times env) as [[|t ts]|].
    + change (slice_get [] 0%Z) with (Panic (A := TimesStat) "index out of range"). ret_step. naive_solver.
    + change (slice_get (t :: ts) 0%Z) with (Ret t). ret_step. split; [done | by intros (_ & ? & _)].
    + split; [done | by intros (_ & ? & _)].
  - split; [done | by intros [[] _]].
Qed.

(** The usage time of every state: the collections record [clockTick] times the
    reading less [clockTick] times the reading before it (zero at first); failed
    readings are skipped, and only an empty list of timers ends the process. *)
Theorem cpu_usage_time_deltas cc m envs name f :
  mUsageTime cc = Some (mkOCMetric m) -> lastUsageTime cc = ∅ -> (name, f) ∈ usage_states ->
  Forall (fun env => cpu_Times env <> Ok []) envs ->
  exists cc' calls, usage_run cc envs = Ret (cc', calls) /\
    values m {[ stateLabel := name ]} calls =
    usage_deltas (f64_of_Z 0) ((fun t => f64_mul clockTick (f t)) <$> omap times_of envs).
Proof.
  intros Hm Hlast Hst Hok.
  assert (Hl : f64_of_Z 0 = default (f64_of_Z 0) (lastUsageTime cc !! name)) by (by rewrite Hlast).
  rewrite Hl. clear Hl Hlast. revert cc Hm. induction Hok as [|env envs Hne Hok IH]; intros cc Hm; [by eexists _, _|].
  cbn [usage_run omap list_omap]. unfold recordUsage, times_of. rewrite Hm.
  destruct (cpu_Times env) as [[|t ts]|]; [done | |].
  2:{ ret_step. destruct (IH cc Hm) as (cc' & calls & -> & Hv). ret_step. by eexists _, _. }
  change (slice_get (t :: ts) 0%Z) with (Ret t). ret_step.
  pose proof (record_states_spec cc t usage_states usage_states_NoDup) as Hs.
  destruct (record_states cc t usage_states) as [cc1 c1]. destruct Hs as (Hms & _ & -> & Hin & _).
  assert (Hm1 : mUsageTime cc1 = Some (mkOCMetric m)) by (injection Hms; congruence).
  destruct (IH cc1 Hm1) as (cc' & calls & -> & Hv). ret_step. eexists _, _. split; [done|].
  rewrite values_app, Hv, Hm, (values_states name f _ usage_states m usage_states_NoDup Hst).
  specialize (Hin _ Hst). cbn [fst snd] in Hin. by rewrite Hin.
Qed.

(** A collection ends the process exactly when the usage time is configured and
    the library returns no timers and no error, which it does when /proc/stat
    cannot be read. *)
Theorem cpu_collect_panics cc env :
  (exists c, cpu_collect cc env = Panic c) <->
  exists cc', cc = Some cc' /\ is_Some (mUsageTime cc') /\ cpu_Times env = Ok [].
Proof.
  unfold cpu_collect. destruct cc as [cc|]; [|naive_solver].
  destruct (recordUsage cc env) as [[cc' c2]|c] eqn:E; ret_step.
  - split; [by intros [c ?]|]. intros (cc'' & [= <-] & Hm & Ht).
    pose proof (proj2 (recordUsage_panics cc env _) (conj Hm (conj Ht eq_refl))). congruence.
  - apply recordUsage_panics in E as (Hm & Ht & _). naive_solver.
Qed.

Definition sample_times (user : Z) : TimesStat :=
  let z := f64_of_Z 0 in mkTimes (f64_of_Z user) z z z z z z z z z.
Definition sample_cpu_env (times : result (list TimesStat)) : cpuEnv :=
  mkCpuEnv (Err "no load") times (fun _ => Err "no proc") (Err "no stat") [].
Definition sample_cpu : cpuCollector :=
  mkCpu None (Some (mkOCMetric "usage")) None None None None None None None None
    (mkCPUConfig ∅) "/proc" ∅.

(** Three seconds, a failed reading, then five seconds: 300 and 200 are recorded. *)
Lemma cpu_usage_time_deltas_witness :
  exists cc' calls,
    usage_run sample_cpu [sample_cpu_env (Ok [sample_times 3]); sample_cpu_env (Err "e");
                          sample_cpu_env (Ok [sample_times 5])] = Ret (cc', calls) /\
    values "usage" {[ stateLabel := "user" ]} calls = [MFloat (f64_of_Z 300); MFloat (f64_of_Z 200)].
Proof.
  apply (cpu_usage_time_deltas sample_cpu "usage"
    [sample_cpu_env (Ok [sample_times 3]); sample_cpu_env (Err "e"); sample_cpu_env (Ok [sample_times 5])]
    "user" tUser); [done | done | by left | by repeat constructor].
Defined.

(** ** Every call reaches the library *)
Section Properties.
Context {lib : OpenCensus}.

Record cpu_wf (g : globals) (cc : cpuCollector) : Prop := mkCpuWf {
  cwf_usage : metric_ok g (mUsageTime cc) [stateLabel];
  cwf_stat : metric_ok g (mSystemCPUStat cc) [cpuLabel; stageLabel]
}.

Lemma NewCPUCollector_spec cfg procPath g g' cc :
  NewCPUCollectorOrDie cfg procPath g = Ret (g', cc) ->
  tagMap g ⊆ tagMap g' /\ cpu_wf g' cc /\ lastUsageTime cc = ∅ /\
  mUsageTime cc = metric_named (displayName (cpuMetricsConfigs cfg) CPUUsageTimeID) /\
  mSystemProcessesTotal cc = metric_named (displayName (cpuMetricsConfigs cfg) SystemProcessesTotal).
Proof.
  unfold NewCPUCollectorOrDie. intros H. do 10 new_metric H. injection H as -> <-.
  split_and!; [later_tags | | done..].
  constructor; (eapply metric_ok_mono; [|eassumption]); later_tags.
Qed.

Lemma recordLoad_ok g cc env : Forall (call_ok g) (recordLoad cc env).
Proof.
  unfold recordLoad. destruct (load_Avg env).
  - repeat case_match; rewrite ?Forall_app; split_and?; apply Forall_nil_2 || apply record_untagged_ok.
  - by repeat case_match.
Qed.

Lemma recordSystemStats_ok g cc env : cpu_wf g cc -> Forall (call_ok g) (recordSystemStats cc env).
Proof.
  intros Hwf. unfold recordSystemStats.
  destruct (cpu_NewFS env (ccProcPath cc)); [|by repeat case_match].
  destruct (fs_Stat env) as [stats|]; [|by repeat case_match].
  match goal with |- Forall _ (match _ with Some _ => ?l | None => _ end) => assert (Forall (call_ok g) l) end.
  2:{ by repeat case_match. }
  rewrite !Forall_app. split_and!; try apply record_untagged_ok.
  apply Forall_bind, Forall_true. intros i. unfold compose.
  destruct (CPU stats !! i) as [c|]; [|constructor].
  apply Forall_bind, Forall_true. intros st. eapply record_ok; [apply (cwf_stat _ _ Hwf)|].
  unfold stage_tags. auto with recording.
Qed.

Lemma recordUsage_ok g cc env cc' calls :
  cpu_wf g cc -> recordUsage cc env = Ret (cc', calls) ->
  cpu_wf g cc' /\ cpu_metrics cc' = cpu_metrics cc /\ Forall (call_ok g) calls.
Proof.
  intros Hwf. unfold recordUsage. destruct (mUsageTime cc) as [m|] eqn:Hm; [|by intros [= <- <-]].
  destruct (cpu_Times env) as [[|t ts]|]; [done | | by intros [= <- <-]].
  change (slice_get (t :: ts) 0%Z) with (Ret t). ret_step.
  pose proof (record_states_spec cc t usage_states usage_states_NoDup) as Hs.
  destruct (record_states cc t usage_states) as [cc1 c1]. destruct Hs as (Hms & _ & Hc & _ & _).
  intros [= <- <-]. rewrite Hc.
  split_and!; [|done|].
  - injection Hms as H1 H2 H3 H4 H5 H6 H7 H8 H9 H10. destruct Hwf. constructor; congruence.
  - apply Forall_bind, Forall_true. intros st. eapply record_ok; [apply (cwf_usage _ _ Hwf)|].
    auto with recording.
Qed.

End Properties.
