(* ===== verification/MemoryCollector.v ===== *)
(** The collector of memory statistics
    ([pkg/systemstatsmonitor/memory_collector.go], [memory_collector_unix.go],
    [memory_collector_windows.go]).

    The fields of procfs' [Meminfo] are pointers to uint64, in kilobytes. *)

From S2P Require Import Prelude GoStrings GoTime Options Metrics Recording SystemStatsConfig.

Record Meminfo : Type := mkMeminfo {
  MemTotal : option Z; MemFree : option Z; Buffers : option Z; Cached : option Z; Slab : option Z;
  Dirty : option Z; Writeback : option Z;
  ActiveAnon : option Z; InactiveAnon : option Z; ActiveFile : option Z; InactiveFile : option Z;
  Unevictable : option Z
}.

(** [procfs.NewDefaultFS()] and [proc.Meminfo()]. *)
Record memoryEnv : Type := mkMemoryEnv { NewDefaultFS : result unit; proc_Meminfo : result Meminfo }.

(* @ pkg/systemstatsmonitor/memory_collector.go:26-35 memoryCollector *)
Record memoryCollector : Type := mkMemory {
  mcBytesUsed : option OCMetric;
  mcPercentUsed : option OCMetric;
  mAnonymousUsed : option OCMetric;
  mPageCacheUsed : option OCMetric;
  mUnevictableUsed : option OCMetric;
  mDirtyUsed : option OCMetric;
  mcConfig : MemoryStatsConfig
}.

Section Construction.
Context {lib : OpenCensus}.

(* @ pkg/systemstatsmonitor/memory_collector.go:37-109 NewMemoryCollectorOrDie *)
Definition NewMemoryCollectorOrDie (memoryConfig : MemoryStatsConfig) : ST globals memoryCollector :=
  let name := displayName (memoryMetricsConfigs memoryConfig) in
  bytesUsed ← newInt64OrDie MemoryBytesUsedID (name MemoryBytesUsedID)
    "Memory usage by each memory state, in Bytes. Summing values of all states yields the total memory on the node."
    "Byte" LastValue [stateLabel];
  percentUsed ← newFloat64OrDie MemoryPercentUsedID (name MemoryPercentUsedID)
    "Memory usage in percentage of total memory." "%" LastValue [stateLabel];
  anonymousUsed ← newInt64OrDie MemoryAnonymousUsedID (name MemoryAnonymousUsedID)
    "Anonymous memory usage, in Bytes. Summing values of all states yields the total anonymous memory used."
    "Byte" LastValue [stateLabel];
  pageCacheUsed ← newInt64OrDie MemoryPageCacheUsedID (name MemoryPageCacheUsedID)
    "Page cache memory usage, in Bytes. Summing values of all states yields the total anonymous memory used."
    "Byte" LastValue [stateLabel];
  unevictableUsed ← newInt64OrDie MemoryUnevictableUsedID (name MemoryUnevictableUsedID)
    "Unevictable memory usage, in Bytes" "Byte" LastValue [];
  dirtyUsed ← newInt64OrDie MemoryDirtyUsedID (name MemoryDirtyUsedID)
    "Dirty pages usage, in Bytes. Dirty means the memory is waiting to be written back to disk, and writeback means the memory is actively being written back to disk."
    "Byte" LastValue [stateLabel];
  mret (mkMemory bytesUsed percentUsed anonymousUsed pageCacheUsed unevictableUsed dirtyUsed memoryConfig).
End Construction.

(** [int64(kb)*1024] *)
Definition bytes (kb : Z) : measurement := MInt (int64 (int64 kb * 1024)).

Definition state_tags (state : string) : gmap string string := {[ stateLabel := state ]}.

(** A field of meminfo, when it and the metric exist. *)
Definition record_field (m : option OCMetric) (tags : gmap string string) (kb : option Z) : list call :=
  match kb with
  | Some kb => record m tags (bytes kb)
  | None => []
  end.

(** [*meminfo.MemTotal - *meminfo.MemFree - ...], in uint64, when all are there. *)
(* @ pkg/systemstatsmonitor/memory_collector_unix.go:63-64 collect *)
Definition mem_used (i : Meminfo) : option (Z * Z) :=
  match MemTotal i, MemFree i, Buffers i, Cached i, Slab i with
  | Some total, Some free, Some buffers, Some cached, Some slab =>
    Some (total, uint64 (uint64 (uint64 (uint64 (total - free) - buffers) - cached) - slab))
  | _, _, _, _, _ => None
  end.

(* @ pkg/systemstatsmonitor/memory_collector_unix.go:42-122 collect *)
Definition record_memory (mc : memoryCollector) (i : Meminfo) : list call :=
  record_field (mcBytesUsed mc) (state_tags "free") (MemFree i) ++
  record_field (mcBytesUsed mc) (state_tags "buffered") (Buffers i) ++
  record_field (mcBytesUsed mc) (state_tags "cached") (Cached i) ++
  record_field (mcBytesUsed mc) (state_tags "slab") (Slab i) ++
  record_field (mcBytesUsed mc) (state_tags "used") (snd <$> mem_used i) ++
  match mem_used i with
  | Some (total, used) =>
    if (0 <? total)%Z then
      let ratio := f64_div (f64_of_Z used) (f64_of_Z total) in
      record (mcPercentUsed mc) (state_tags "used") (MFloat (f64_mul ratio (f64_of_Z 100)))
    else []
  | None => []
  end ++
  record_field (mDirtyUsed mc) (state_tags "dirty") (Dirty i) ++
  record_field (mDirtyUsed mc) (state_tags "writeback") (Writeback i) ++
  record_field (mAnonymousUsed mc) (state_tags "active") (ActiveAnon i) ++
  record_field (mAnonymousUsed mc) (state_tags "inactive") (InactiveAnon i) ++
  record_field (mPageCacheUsed mc) (state_tags "active") (ActiveFile i) ++
  record_field (mPageCacheUsed mc) (state_tags "inactive") (InactiveFile i) ++
  record_field (mUnevictableUsed mc) ∅ (Unevictable i).

(* @ pkg/systemstatsmonitor/memory_collector_unix.go:26-123 collect *)
Definition memory_collect (mc : option memoryCollector) (env : memoryEnv) : list call :=
  match mc with
  | None => []
  | Some mc =>
    match NewDefaultFS env with
    | Err _ => []
    | Ok _ =>
      match proc_Meminfo env with
      | Err _ => []
      | Ok meminfo => record_memory mc meminfo
      end
    end
  end.

(** *** On Windows *)

(** The fields of gopsutil's [VirtualMemoryStat] that are read. *)
Record VirtualMemoryStat : Type := mkVirtualMemory { Available : Z; Used : Z; UsedPercent : float64 }.

(* @ pkg/systemstatsmonitor/memory_collector_windows.go:25-44 collect *)
Definition windows_memory_collect (mc : option memoryCollector) (mem_VirtualMemory : result VirtualMemoryStat)
    : list call :=
  match mc with
  | None => []
  | Some mc =>
    match mem_VirtualMemory with
    | Err _ => []
    | Ok meminfo =>
      record (mcBytesUsed mc) (state_tags "free") (bytes (Available meminfo)) ++
      record (mcBytesUsed mc) (state_tags "used") (bytes (Used meminfo)) ++
      record (mcPercentUsed mc) (state_tags "used") (MFloat (UsedPercent meminfo))
    end
  end.

(** ** The states add up *)

Lemma total_field name state m state' kb :
  total name (state_tags state) (record_field m (state_tags state') kb) =
  if decide (m = Some (mkOCMetric name) /\ state' = state)
  then default 0%Z ((fun kb => int64 (int64 kb * 1024)) <$> kb) else 0%Z.
Proof.
  unfold record_field, bytes. destruct kb as [kb|].
  - rewrite total_record. simpl. apply decide_ext. split; intros [? E]; split; [done| |done|by f_equal].
    unfold state_tags in E. apply (f_equal (lookup stateLabel)) in E. rewrite !lookup_singleton_eq in E.
    by injection E.
  - by destruct (decide _).
Qed.

Lemma total_unevictable name state m kb :
  total name (state_tags state) (record_field m ∅ kb) = 0%Z.
Proof.
  unfold record_field, bytes. destruct kb as [kb|]; [|done]. rewrite total_record, decide_False; [done|].
  intros [_ E]. by apply (f_equal (lookup stateLabel)) in E.
Qed.

Lemma total_percent name state m f : total name (state_tags state) (record m (state_tags "used") (MFloat f)) = 0%Z.
Proof. apply total_other, record_Forall. intros _. right. by eexists. Qed.

(** The states of the memory in use, and the field that each reports. *)
Definition memory_state (i : Meminfo) (state : string) : option Z :=
  if String.eqb state "free" then MemFree i
  else if String.eqb state "buffered" then Buffers i
  else if String.eqb state "cached" then Cached i
  else if String.eqb state "slab" then Slab i
  else if String.eqb state "used" then snd <$> mem_used i
  else None.

Definition memory_states : list string := ["free"; "buffered"; "cached"; "slab"; "used"].

Lemma total_memory name mc i state :
  mcBytesUsed mc = Some (mkOCMetric name) -> state ∈ memory_states ->
  total name (state_tags state) (record_memory mc i) =
  default 0%Z ((fun kb => int64 (int64 kb * 1024)) <$> memory_state i state).
Proof.
  intros Hm Hs. unfold record_memory. rewrite !total_app, !total_field, total_unevictable, Hm.
  replace (total name (state_tags state) match mem_used i with None => _ | Some _ => _ end) with 0%Z.
  2:{ destruct (mem_used i) as [[t u]|]; [|done]. destruct (0 <? t)%Z; [by rewrite total_percent | done]. }
  unfold memory_states in Hs. rewrite !elem_of_cons in Hs.
  destruct Hs as [->|[->|[->|[->|[->|Hs]]]]]; [..|by apply not_elem_of_nil in Hs];
    unfold memory_state; cbn [String.eqb Ascii.eqb Bool.eqb];
    repeat first [rewrite decide_True by done | rewrite (decide_False (P := _ /\ _)) by (by intros [_ ?])]; lia.
Qed.

(** The bytes of a number of kilobytes, up to a multiple of 2^64. *)
Lemma bytes_eqm kb : exists k, (int64 (int64 kb * 1024) = kb * 1024 + k * 2 ^ 64)%Z.
Proof.
  destruct (int64_eqm (int64 kb * 1024)) as [k1 ->]. destruct (int64_eqm kb) as [k2 ->].
  exists (k1 + k2 * 1024)%Z. lia.
Qed.

Lemma bytes_small kb : (0 <= kb)%Z -> (kb * 1024 < 2 ^ 63)%Z -> (int64 (int64 kb * 1024) = kb * 1024)%Z.
Proof.
  intros H1 H2. assert (in_int64 kb) by (unfold in_int64, int64_min, int64_max; lia).
  rewrite (int64_id kb), int64_id; [done| |done]. unfold in_int64, int64_min, int64_max. lia.
Qed.

(** C23.  What the description of the metric promises: the values of all states sum up
    to the total memory.  It holds modulo 2^64 for any reading, and exactly when
    the parts do not exceed a total of less than 2^63 bytes. *)
Theorem memory_states_sum_to_total mc i name tot free buffers cached slab :
  mcBytesUsed mc = Some (mkOCMetric name) ->
  MemTotal i = Some tot -> MemFree i = Some free -> Buffers i = Some buffers ->
  Cached i = Some cached -> Slab i = Some slab ->
  let sum := foldr Z.add 0%Z ((fun s => total name (state_tags s) (record_memory mc i)) <$> memory_states) in
  int64 sum = int64 (tot * 1024) /\
  ((0 <= free)%Z -> (0 <= buffers)%Z -> (0 <= cached)%Z -> (0 <= slab)%Z ->
   (free + buffers + cached + slab <= tot)%Z -> (tot * 1024 < 2 ^ 63)%Z ->
   sum = (tot * 1024)%Z /\
   total name (state_tags "used") (record_memory mc i) = ((tot - free - buffers - cached - slab) * 1024)%Z).
Proof.
  intros Hm Ht Hf Hb Hc Hs. cbv zeta. unfold memory_states. cbn [fmap list_fmap foldr].
  rewrite !(total_memory name mc i) by (done || (unfold memory_states; set_solver)).
  unfold memory_state, mem_used. rewrite Ht, Hf, Hb, Hc, Hs.
  cbn [String.eqb Ascii.eqb Bool.eqb fmap option_fmap option_map from_option id snd].
  set (used := uint64 (uint64 (uint64 (uint64 (tot - free) - buffers) - cached) - slab)).
  assert (Hu : exists k, used = (tot - free - buffers - cached - slab + k * 2 ^ 64)%Z).
  { unfold used. destruct (uint64_eqm (tot - free)) as [k1 ->].
    destruct (uint64_eqm (tot - free + k1 * 2 ^ 64 - buffers)) as [k2 ->].
    destruct (uint64_eqm (tot - free + k1 * 2 ^ 64 - buffers + k2 * 2 ^ 64 - cached)) as [k3 ->].
    destruct (uint64_eqm (tot - free + k1 * 2 ^ 64 - buffers + k2 * 2 ^ 64 - cached + k3 * 2 ^ 64 - slab)) as [k4 ->].
    exists (k1 + k2 + k3 + k4)%Z. lia. }
  split.
  - destruct Hu as [k ->]. destruct (bytes_eqm free) as [k1 ->], (bytes_eqm buffers) as [k2 ->],
      (bytes_eqm cached) as [k3 ->], (bytes_eqm slab) as [k4 ->].
    destruct (bytes_eqm (tot - free - buffers - cached - slab + k * 2 ^ 64)) as [k5 ->].
    rewrite <- (int64_add_eqm (tot * 1024) (k1 + k2 + k3 + k4 + k5 + k * 1024)). f_equal. lia.
  - intros. assert (Hus : used = (tot - free - buffers - cached - slab)%Z).
    { assert (0 <= used < 2 ^ 64)%Z by apply uint64_range. destruct Hu as [k Hk]. lia. }
    rewrite Hus, !bytes_small by lia. lia.
Qed.

(** On Windows gopsutil counts in bytes already, and its available and used
    memory make up the total: the states sum up to 1024 times the total. *)
Theorem windows_memory_scaled mc name i tot :
  mcBytesUsed mc = Some (mkOCMetric name) ->
  (0 <= Available i)%Z -> (0 <= Used i)%Z -> (Available i + Used i = tot)%Z -> (tot * 1024 < 2 ^ 63)%Z ->
  let calls := windows_memory_collect (Some mc) (Ok i) in
  (total name (state_tags "free") calls + total name (state_tags "used") calls = 1024 * tot)%Z.
Proof.
  intros Hm Ha Hu Ht Hb. cbv zeta. cbn [windows_memory_collect].
  pose proof (total_field name "free" (mcBytesUsed mc) "free" (Some (Available i))) as H1.
  pose proof (total_field name "free" (mcBytesUsed mc) "used" (Some (Used i))) as H2.
  pose proof (total_field name "used" (mcBytesUsed mc) "free" (Some (Available i))) as H3.
  pose proof (total_field name "used" (mcBytesUsed mc) "used" (Some (Used i))) as H4.
  unfold record_field in *. rewrite !total_app, !total_percent, H1, H2, H3, H4, Hm.
  repeat first [rewrite decide_True by done | rewrite (decide_False (P := _ /\ _)) by (by intros [_ ?])].
  cbn [fmap option_fmap option_map from_option id]. rewrite !bytes_small by lia. lia.
Qed.

Definition sample_meminfo : Meminfo :=
  mkMeminfo (Some 1000%Z) (Some 200%Z) (Some 50%Z) (Some 100%Z) (Some 30%Z) None None None None None None None.
Definition sample_memory : memoryCollector :=
  mkMemory (Some (mkOCMetric "mem")) None None None None None (mkMemoryConfig ∅).

Lemma memory_states_sum_to_total_witness :
  total "mem" (state_tags "used") (record_memory sample_memory sample_meminfo) = (620 * 1024)%Z.
Proof.
  refine (proj2 (proj2 (memory_states_sum_to_total sample_memory sample_meminfo "mem" 1000 200 50 100 30
    eq_refl eq_refl eq_refl eq_refl eq_refl eq_refl) _ _ _ _ _ _)); lia.
Defined.

(** Eight gigabytes of memory, three of them free. *)
Lemma windows_memory_scaled_witness :
  let calls := windows_memory_collect (Some sample_memory) (Ok (mkVirtualMemory (3 * 2 ^ 30) (5 * 2 ^ 30) (f64_of_Z 62))) in
  (total "mem" (state_tags "free") calls + total "mem" (state_tags "used") calls = 1024 * 2 ^ 33)%Z.
Proof.
  exact (windows_memory_scaled sample_memory "mem" (mkVirtualMemory (3 * 2 ^ 30) (5 * 2 ^ 30) (f64_of_Z 62)) (2 ^ 33)
    eq_refl ltac:(done) ltac:(done) ltac:(done) ltac:(done)).
Defined.

(** ** Every call reaches the library *)
Section Properties.
Context {lib : OpenCensus}.

Record memory_wf (g : globals) (mc : memoryCollector) : Prop := mkMemoryWf {
  mwf_bytes : metric_ok g (mcBytesUsed mc) [stateLabel];
  mwf_percent : metric_ok g (mcPercentUsed mc) [stateLabel];
  mwf_anonymous : metric_ok g (mAnonymousUsed mc) [stateLabel];
  mwf_pageCache : metric_ok g (mPageCacheUsed mc) [stateLabel];
  mwf_dirty : metric_ok g (mDirtyUsed mc) [stateLabel]
}.

Lemma NewMemoryCollector_spec cfg g g' mc :
  NewMemoryCollectorOrDie cfg g = Ret (g', mc) -> tagMap g ⊆ tagMap g' /\ memory_wf g' mc.
Proof.
  unfold NewMemoryCollectorOrDie. intros H. do 6 new_metric H. injection H as -> <-.
  split; [later_tags|].
  constructor; (eapply metric_ok_mono; [|eassumption]); later_tags.
Qed.

Lemma record_field_ok g m state kb :
  metric_ok g m [stateLabel] -> Forall (call_ok g) (record_field m (state_tags state) kb).
Proof.
  intros Hm. destruct kb as [kb|]; [|constructor]. eapply record_ok; [exact Hm|].
  unfold state_tags. auto with recording.
Qed.

Lemma memory_collect_ok g mc env : memory_wf g mc -> Forall (call_ok g) (memory_collect (Some mc) env).
Proof.
  intros [H1 H2 H3 H4 H5]. unfold memory_collect. destruct (NewDefaultFS env); [|constructor].
  destruct (proc_Meminfo env) as [i|]; [|constructor]. unfold record_memory. rewrite !Forall_app.
  split_and!; try by apply record_field_ok.
  - destruct (mem_used i) as [[t u]|]; [|constructor]. destruct (0 <? t)%Z; [|constructor].
    eapply record_ok; [exact H2|]. unfold state_tags. auto with recording.
  - unfold record_field. destruct (Unevictable i); [|constructor]. apply record_untagged_ok.
Qed.
End Properties.
