(* ===== verification/HostCollector.v ===== *)
(** The collector of host statistics ([pkg/systemstatsmonitor/host_collector.go])
    with the version of the operating system ([pkg/util/helpers_linux.go]), and
    the constructor of the collector of OS features
    ([pkg/systemstatsmonitor/osfeature_collector.go]), whose collection is in
    [SystemFiles].

    gopsutil's [host] and the reader of /etc/os-release are inputs. *)

From S2P Require Import Prelude GoStrings GoTime GoPath Options Metrics SystemFiles Recording SystemStatsConfig.

(** ** The version of the operating system *)
Abbreviation os_release := (gmap string string) (only parsing).

(** A missing key reads as the empty string. *)
Definition os_field (m : os_release) (key : string) : string := default "" (m !! key).

(* @ pkg/util/helpers_linux.go:80-84 getCOSVersion *)
Definition getCOSVersion (m : os_release) : string :=
  os_field m "ID" +:+ " " +:+ os_field m "VERSION" +:+ "-" +:+ os_field m "BUILD_ID".

(* @ pkg/util/helpers_linux.go:86-90 getDebianVersion *)
Definition getDebianVersion (m : os_release) : string :=
  os_field m "ID" +:+ " " +:+ os_field m "VERSION".

Definition debian_like : list string :=
  ["debian"; "ubuntu"; "centos"; "rocky"; "rhel"; "ol"; "amzn"; "sles"; "mariner"; "azurelinux"; "flatcar"].

(* @ pkg/util/helpers_linux.go:45-78 getOSVersion *)
Definition getOSVersion (osrelease_ReadFile : string -> result os_release) (osReleasePath : string)
    : result string :=
  match osrelease_ReadFile osReleasePath with
  | Err e => Err e
  | Ok m =>
    if String.eqb (os_field m "ID") "cos" then Ok (getCOSVersion m)
    else if existsb (String.eqb (os_field m "ID")) debian_like then Ok (getDebianVersion m)
    else Err "unsupported ID in /etc/os-release"
  end.

(* @ pkg/util/helpers_linux.go:39-43 GetOSVersion *)
Definition GetOSVersion (osrelease_ReadFile : string -> result os_release) : result string :=
  getOSVersion osrelease_ReadFile "/etc/os-release".

(** The version is known exactly for the supported systems, and starts with
    their identifier. *)
Theorem os_version_supported osrelease_ReadFile v :
  GetOSVersion osrelease_ReadFile = Ok v <->
  exists m, osrelease_ReadFile "/etc/os-release" = Ok m /\
    let id := os_field m "ID" in
    (id = "cos" /\ v = "cos " +:+ os_field m "VERSION" +:+ "-" +:+ os_field m "BUILD_ID" \/
     id ∈ debian_like /\ v = id +:+ " " +:+ os_field m "VERSION").
Proof.
  unfold GetOSVersion, getOSVersion. destruct (osrelease_ReadFile "/etc/os-release") as [m|e]; [|naive_solver].
  destruct (String.eqb_spec (os_field m "ID") "cos") as [E|E].
  - unfold getCOSVersion. rewrite E. split.
    + intros [= <-]. exists m. split; [done|]. left. done.
    + intros (m' & [= <-] & [[_ ->]|[Hin _]]); [done|]. cbv zeta in Hin. rewrite E in Hin.
      exfalso. revert Hin. apply (bool_decide_unpack (_ ∉ _)). vm_compute. exact I.
  - destruct (existsb (String.eqb (os_field m "ID")) debian_like) eqn:Ex.
    + apply existsb_exists in Ex as (x & Hx & <-%String.eqb_eq). split.
      * intros [= <-]. exists m. split; [done|]. right. split; [by apply list_elem_of_In | done].
      * intros (m' & [= <-] & [[? _]|[_ ->]]); done.
    + split; [done|]. intros (m' & [= <-] & [[? _]|[Hin _]]); [done|].
      assert (existsb (String.eqb (os_field m "ID")) debian_like = true); [|congruence].
      apply existsb_exists. eexists. split; [by apply list_elem_of_In | apply String.eqb_refl].
Qed.

(** ** The collector *)

(* @ pkg/systemstatsmonitor/host_collector.go:28-31 hostCollector *)
Record hostCollector : Type := mkHost { hcTags : gmap string string; hcUptime : option OCMetric }.

(* @ pkg/systemstatsmonitor/osfeature_collector.go:30-34 osFeatureCollector *)
Record osFeatureCollector : Type := mkOsFeature {
  ofConfig : OSFeatureStatsConfig; ofProcPath : string; ofMetric : option OCMetric
}.

Section Collectors.
Context {lib : OpenCensus}.

(* @ pkg/systemstatsmonitor/host_collector.go:33-63 NewHostCollectorOrDie *)
Definition NewHostCollectorOrDie (host_KernelVersion : result string)
    (osrelease_ReadFile : string -> result os_release) (hostConfig : HostStatsConfig)
    : ST globals hostCollector := fun g =>
  match host_KernelVersion with
  | Err _ => Panic "Failed to retrieve kernel version"
  | Ok kernelVersion =>
    match GetOSVersion osrelease_ReadFile with
    | Err _ => Panic "Failed to retrieve OS version"
    | Ok osVersion =>
      let tags := <["os_version" := osVersion]> {[ "kernel_version" := kernelVersion ]} in
      let name := displayName (hostMetricsConfigs hostConfig) in
      if negb (String.eqb (name "host/uptime") "") then
        (uptime ← newInt64OrDie HostUptimeID (name HostUptimeID)
           "The uptime of the operating system" "second" LastValue ["kernel_version"; "os_version"];
         mret (mkHost tags uptime)) g
      else Ret (g, mkHost tags None)
    end
  end.

(* @ pkg/systemstatsmonitor/host_collector.go:65-81 collect *)
Definition host_collect (hc : option hostCollector) (host_Uptime : result Z) : list call :=
  match hc with
  | None => []
  | Some hc =>
    match host_Uptime with
    | Err _ => []
    | Ok uptime => record (hcUptime hc) (hcTags hc) (MInt (int64 uptime))
    end
  end.

(* @ pkg/systemstatsmonitor/osfeature_collector.go:36-56 NewOsFeatureCollectorOrDie *)
Definition NewOsFeatureCollectorOrDie (osFeatureConfig : OSFeatureStatsConfig) (procPath : string)
    : ST globals osFeatureCollector :=
  let name := displayName (osFeatureMetricsConfigs osFeatureConfig) in
  if negb (String.eqb (name "system/os_feature") "") then
    osFeature ← newInt64OrDie OSFeatureID (name OSFeatureID)
      "OS Features like GPU support, KTD kernel, third party modules as unknown modules. 1 if the feature is enabled and 0, if disabled."
      "1" LastValue [featureLabel; valueLabel];
    mret (mkOsFeature osFeatureConfig procPath osFeature)
  else mret (mkOsFeature osFeatureConfig procPath None).

(** The files a collection reads: the command line, the modules, and what the
    file of known modules holds. *)
Record featureEnv : Type := mkFeatureEnv {
  fe_open : string -> result (list string * bool);
  fe_known : string -> list Module_
}.

(** The collection of [SystemFiles] with the metric it records on. *)
Definition feature_collect (withinQuotes : bool) (oc : option osFeatureCollector) (env : featureEnv)
    : outcome (bool * list call) :=
  match oc with
  | None => Ret (withinQuotes, [])
  | Some oc =>
    '(q, calls) ← osFeature_collect (bool_decide (is_Some (ofMetric oc))) withinQuotes
       (fe_open env (filepath_Join [ofProcPath oc; "/cmdline"]))
       (fe_open env (filepath_Join [ofProcPath oc; "/modules"]))
       (fe_known env (KnownModulesConfigPath (ofConfig oc)));
    Ret (q, calls ≫= fun c => record (ofMetric oc) c.1 (MInt c.2))
  end.

(** ** Every call reaches the library *)
Definition host_labels : list string := ["kernel_version"; "os_version"].

Definition host_wf (g : globals) (hc : hostCollector) : Prop :=
  metric_ok g (hcUptime hc) host_labels /\ tags_within (hcTags hc) host_labels.

Definition feature_wf (g : globals) (oc : osFeatureCollector) : Prop :=
  metric_ok g (ofMetric oc) [featureLabel; valueLabel].

Lemma NewHostCollector_spec kernel osrelease cfg g g' hc :
  NewHostCollectorOrDie kernel osrelease cfg g = Ret (g', hc) -> tagMap g ⊆ tagMap g' /\ host_wf g' hc.
Proof.
  unfold NewHostCollectorOrDie. destruct kernel as [kv|]; [|done].
  destruct (GetOSVersion osrelease) as [ov|]; [|done].
  assert (Ht : tags_within (<["os_version":=ov]> {["kernel_version":=kv]}) host_labels)
    by (unfold host_labels; auto with recording).
  destruct (negb _); intros H.
  - new_metric H. injection H as -> <-. done.
  - injection H as <- <-. split; [done|]. split; [by left | done].
Qed.

Lemma NewOsFeatureCollector_spec cfg procPath g g' oc :
  NewOsFeatureCollectorOrDie cfg procPath g = Ret (g', oc) ->
  tagMap g ⊆ tagMap g' /\ feature_wf g' oc /\ ofConfig oc = cfg.
Proof.
  unfold NewOsFeatureCollectorOrDie. destruct (negb _); intros H.
  - new_metric H. injection H as -> <-. done.
  - injection H as <- <-. split; [done|]. split; [by left | done].
Qed.

Lemma host_collect_ok g hc uptime : host_wf g hc -> Forall (call_ok g) (host_collect (Some hc) uptime).
Proof.
  intros [Hm Ht]. unfold host_collect. destruct uptime; [|constructor]. by eapply record_ok.
Qed.

Lemma osFeature_collect_tags enabled q cmdline modules known q' calls :
  osFeature_collect enabled q cmdline modules known = Ret (q', calls) ->
  Forall (fun c => tags_within c.1 [featureLabel; valueLabel]) calls.
Proof.
  unfold osFeature_collect. destruct enabled; [|by intros [= <- <-]].
  cbn [negb]. destruct (CmdlineArgs q cmdline) as [q1 [args|]]; [|done].
  destruct (Modules modules) as [[ms|]|]; [|done..]. ret_step. intros H.
  assert (Hc : calls = recordFeaturesFromCmdline args ++ recordFeaturesFromModules known ms) by congruence.
  rewrite Hc. apply Forall_app. split.
  - unfold recordFeaturesFromCmdline, feature.
    repeat apply Forall_cons_2; try apply Forall_nil_2; cbn [fst]; auto with recording.
  - unfold recordFeaturesFromModules. destruct (foldl _ _ _) as [gpu unknown].
    repeat apply Forall_cons_2; try apply Forall_nil_2; [destruct (negb _)|];
      unfold feature; cbn [fst]; auto with recording.
Qed.

Lemma feature_collect_ok g q oc env q' calls :
  feature_wf g oc -> feature_collect q (Some oc) env = Ret (q', calls) -> Forall (call_ok g) calls.
Proof.
  intros Hwf. unfold feature_collect.
  destruct (osFeature_collect _ _ _ _ _) as [[q1 cs]|] eqn:E; [|done]. ret_step. intros [= <- <-].
  apply osFeature_collect_tags in E. apply Forall_bind. eapply Forall_impl; [exact E|].
  intros c Hc. unfold compose. by eapply record_ok.
Qed.
End Collectors.
