(* ===== verification/NetCollector.v ===== *)
(** The collector of network statistics
    ([pkg/systemstatsmonitor/net_collector.go]).

    The lines of /proc/net/dev are an input.  A metric is held in an interface:
    the pointer inside may be nil, and is used without a check. *)

From S2P Require Import Prelude GoStrings Regexp GoTime Options Metrics Recording SystemStatsConfig.

(** A line of /proc/net/dev; all fields are uint64. *)
Record NetDevLine : Type := mkNetDevLine {
  RxBytes : Z; RxPackets : Z; RxErrors : Z; RxDropped : Z; RxFIFO : Z; RxFrame : Z; RxCompressed : Z; RxMulticast : Z;
  TxBytes : Z; TxPackets : Z; TxErrors : Z; TxDropped : Z; TxFIFO : Z; TxCollisions : Z; TxCarrier : Z; TxCompressed : Z
}.

(** ** The recorder

    [newInt64Metric] is a field of the recorder, so that a fake can be injected;
    [M] is the type of the metrics it makes. *)
Section Recorder.
Context {G M : Type}.
Variable newInt64Metric : G -> string -> string -> string -> string -> Aggregation -> list string -> G * result M.

(* @ pkg/systemstatsmonitor/net_collector.go:297-300 ifaceStatCollector *)
Record ifaceStatCollector : Type := mkIfaceCollector { ifMetric : M; ifExporter : NetDevLine -> Z }.

(* @ pkg/systemstatsmonitor/net_collector.go:255-259 ifaceStatRecorder *)
Record ifaceStatRecorder : Type := mkRecorder { collectors : gmap string ifaceStatCollector }.

(* @ pkg/systemstatsmonitor/net_collector.go:261-266 newIfaceStatRecorder *)
Definition newIfaceStatRecorder : ifaceStatRecorder := mkRecorder ∅.

(* @ pkg/systemstatsmonitor/net_collector.go:268-284 Register *)
Definition Register (g : G) (r : ifaceStatRecorder) (metricID viewName description unit_ : string)
    (aggregation : Aggregation) (tagNames : list string) (exporter : NetDevLine -> Z)
    : G * (ifaceStatRecorder * result unit) :=
  match collectors r !! metricID with
  | Some _ => (g, (r, Err "metric already registered"))
  | None =>
    let '(g, metric) := newInt64Metric g metricID viewName description unit_ aggregation tagNames in
    match metric with
    | Err e => (g, (r, Err e))
    | Ok metric => (g, (mkRecorder (<[metricID := mkIfaceCollector metric exporter]> (collectors r)), Ok tt))
    end
  end.

(** The calls of [Record], for the collectors in the order they are visited. *)
(* @ pkg/systemstatsmonitor/net_collector.go:286-295 RecordWithSameTags *)
Definition RecordWithSameTags (r : ifaceStatRecorder) (stat : NetDevLine) (tags : gmap string string)
    (order : list string) : list (M * gmap string string * Z) :=
  omap (fun id => (fun c => (ifMetric c, tags, ifExporter c stat)) <$> collectors r !! id) order.
End Recorder.
Arguments ifaceStatCollector M : clear implicits.
Arguments ifaceStatRecorder M : clear implicits.

(** ** The collector *)

(* @ pkg/systemstatsmonitor/net_collector.go:36-40 netCollector *)
Record netCollector : Type := mkNet {
  ncConfig : NetStatsConfig;
  ncProcPath : string;
  recorder : ifaceStatRecorder (option OCMetric)
}.

(** The metrics, with their description, unit and field, in the order they are
    registered. *)
Definition net_metrics : list (string * string * string * (NetDevLine -> Z)) :=
  [(NetDevRxBytes, "Cumulative count of bytes received.", "Byte", RxBytes);
   (NetDevRxPackets, "Cumulative count of packets received.", "1", RxPackets);
   (NetDevRxErrors, "Cumulative count of receive errors encountered.", "1", RxErrors);
   (NetDevRxDropped, "Cumulative count of packets dropped while receiving.", "1", RxDropped);
   (NetDevRxFifo, "Cumulative count of FIFO buffer errors.", "1", RxFIFO);
   (NetDevRxFrame, "Cumulative count of packet framing errors.", "1", RxFrame);
   (NetDevRxCompressed, "Cumulative count of compressed packets received by the device driver.", "1", RxCompressed);
   (NetDevRxMulticast, "Cumulative count of multicast frames received by the device driver.", "1", RxMulticast);
   (NetDevTxBytes, "Cumulative count of bytes transmitted.", "Byte", TxBytes);
   (NetDevTxPackets, "Cumulative count of packets transmitted.", "1", TxPackets);
   (NetDevTxErrors, "Cumulative count of transmit errors encountered.", "1", TxErrors);
   (NetDevTxDropped, "Cumulative count of packets dropped while transmitting.", "1", TxDropped);
   (NetDevTxFifo, "Cumulative count of FIFO buffer errors.", "1", TxFIFO);
   (NetDevTxCollisions, "Cumulative count of collisions detected on the interface.", "1", TxCollisions);
   (NetDevTxCarrier, "Cumulative count of carrier losses detected by the device driver.", "1", TxCarrier);
   (NetDevTxCompressed, "Cumulative count of compressed packets transmitted by the device driver.", "1", TxCompressed)].

(** Which metric reads which column of /proc/net/dev: the columns in the order of
    the file. *)
Example net_metrics_columns :
  (fun x => (x.1.1.1, x.2 (mkNetDevLine 1 2 3 4 5 6 7 8 9 10 11 12 13 14 15 16))) <$> net_metrics =
  [("net/rx_bytes", 1); ("net/rx_packets", 2); ("net/rx_errors", 3); ("net/rx_dropped", 4); ("net/rx_fifo", 5);
   ("net/rx_frame", 6); ("net/rx_compressed", 7); ("net/rx_multicast", 8); ("net/tx_bytes", 9); ("net/tx_packets", 10);
   ("net/tx_errors", 11); ("net/tx_dropped", 12); ("net/tx_fifo", 13); ("net/tx_collisions", 14); ("net/tx_carrier", 15);
   ("net/tx_compressed", 16)]%Z.
Proof. vm_compute. reflexivity. Qed.

Definition net_ids : list string := (fun x => x.1.1.1) <$> net_metrics.

Section Construction.
Context {lib : OpenCensus}.

(* @ pkg/systemstatsmonitor/net_collector.go:29-34 newInt64Metric *)
Definition newInt64Metric (g : globals) (metricID viewName description unit_ : string)
    (aggregation : Aggregation) (tagNames : list string) : globals * result (option OCMetric) :=
  NewInt64Metric tag_NewKey view_Register g metricID viewName description unit_ aggregation tagNames.

(* @ pkg/systemstatsmonitor/net_collector.go:207-219 mustRegisterMetric *)
Definition mustRegisterMetric (nc : netCollector) (metricID description unit_ : string)
    (aggregation : Aggregation) (exporter : NetDevLine -> Z) : ST globals netCollector := fun g =>
  match netMetricsConfigs (ncConfig nc) !! metricID with
  | None => Panic "Metric config not found"
  | Some metricConfig =>
    let '(g, (r, err)) := Register newInt64Metric g (recorder nc) metricID (DisplayName metricConfig)
                            description unit_ aggregation [interfaceNameLabel] exporter in
    match err with
    | Err _ => Panic "Failed to initialize metric"
    | Ok _ => Ret (g, mkNet (ncConfig nc) (ncProcPath nc) r)
    end
  end.

Fixpoint register_all (nc : netCollector) (ms : list (string * string * string * (NetDevLine -> Z)))
    : ST globals netCollector :=
  match ms with
  | [] => mret nc
  | (id, description, unit_, field) :: ms =>
    nc ← mustRegisterMetric nc id description unit_ Sum (fun stat => int64 (field stat));
    register_all nc ms
  end.

(* @ pkg/systemstatsmonitor/net_collector.go:42-195 initOrDie *)
Definition initOrDie (nc : netCollector) : ST globals netCollector := register_all nc net_metrics.

(* @ pkg/systemstatsmonitor/net_collector.go:197-205 NewNetCollectorOrDie *)
Definition NewNetCollectorOrDie (netConfig : NetStatsConfig) (procPath : string) : ST globals netCollector :=
  initOrDie (mkNet netConfig procPath newIfaceStatRecorder).
End Construction.

(** What one collection sees; the orders are those of the two maps. *)
Record netEnv : Type := mkNetEnv {
  net_NewFS : string -> result unit;
  fs_NetDev : result (gmap string NetDevLine);
  iface_order : list string;
  metric_order : string -> list string
}.

Section Collect.
Context `{UC : !Unicode}.

Definition excluded (nc : netCollector) (iface : string) : bool :=
  match R (ExcludeInterfaceRegexp (ncConfig nc)) with
  | None => false
  | Some re => MatchString (reTree re) iface
  end.

Definition iface_tags (iface : string) : gmap string string := {[ interfaceNameLabel := iface ]}.

Definition record_iface (nc : netCollector) (env : netEnv) (iface : string) (stat : NetDevLine) : list call :=
  if excluded nc iface then []
  else (fun c => mkCall c.1.1 c.1.2 (MInt c.2)) <$>
         RecordWithSameTags (recorder nc) stat (iface_tags iface) (metric_order env iface).

(* @ pkg/systemstatsmonitor/net_collector.go:221-244 recordNetDev *)
Definition recordNetDev (nc : netCollector) (env : netEnv) : list call :=
  match net_NewFS env (ncProcPath nc) with
  | Err _ => []
  | Ok _ =>
    match fs_NetDev env with
    | Err _ => []
    | Ok stats =>
      iface_order env ≫= fun iface =>
        match stats !! iface with
        | Some stat => record_iface nc env iface stat
        | None => []
        end
    end
  end.

(* @ pkg/systemstatsmonitor/net_collector.go:246-252 collect *)
Definition net_collect (nc : option netCollector) (env : netEnv) : list call :=
  match nc with
  | None => []
  | Some nc => recordNetDev nc env
  end.
End Collect.

(** ** What the constructor establishes *)
Lemma net_ids_NoDup : NoDup net_ids.
Proof. apply (bool_decide_unpack _). vm_compute. exact I. Qed.

Section Properties.
Context {lib : OpenCensus} `{UC : !Unicode}.

(** A metric of the recorder: its configuration is there, and it is the metric
    of its display name. *)
Definition registered (g : globals) (nc : netCollector) (x : string * string * string * (NetDevLine -> Z)) : Prop :=
  exists mc, netMetricsConfigs (ncConfig nc) !! x.1.1.1 = Some mc /\
    collectors (recorder nc) !! x.1.1.1 =
      Some (mkIfaceCollector (metric_named (DisplayName mc)) (fun stat => int64 (x.2 stat))) /\
    metric_ok g (metric_named (DisplayName mc)) [interfaceNameLabel].

Lemma mustRegisterMetric_spec nc id desc u field g g' nc' :
  mustRegisterMetric nc id desc u Sum (fun stat => int64 (field stat)) g = Ret (g', nc') ->
  tagMap g ⊆ tagMap g' /\ ncConfig nc' = ncConfig nc /\ ncProcPath nc' = ncProcPath nc /\
  registered g' nc' (id, desc, u, field) /\
  forall id', id' <> id -> collectors (recorder nc') !! id' = collectors (recorder nc) !! id'.
Proof.
  unfold mustRegisterMetric, Register. destruct (netMetricsConfigs (ncConfig nc) !! id) as [mc|] eqn:Ec; [|done].
  destruct (collectors (recorder nc) !! id); [done|].
  pose proof (newInt64OrDie_spec id (DisplayName mc) desc u Sum [interfaceNameLabel] g) as Hs.
  unfold newInt64OrDie in Hs. unfold newInt64Metric.
  destruct (NewInt64Metric _ _ _ _ _ _ _ _ _) as [g1 [m|]]; [|done].
  intros [= <- <-]. destruct (Hs g1 m eq_refl) as (Hg & Hok & ->). simpl.
  split_and!; [done.. | |].
  - exists mc. split_and!; [done | | done]. simpl. apply lookup_insert_eq.
  - intros id' Hid. by apply lookup_insert_ne.
Qed.

Lemma register_all_spec nc ms g g' nc' :
  register_all nc ms g = Ret (g', nc') -> NoDup ((fun x => x.1.1.1) <$> ms) ->
  tagMap g ⊆ tagMap g' /\ ncConfig nc' = ncConfig nc /\ ncProcPath nc' = ncProcPath nc /\
  (forall x, x ∈ ms -> registered g' nc' x) /\
  forall id, id ∉ (fun x => x.1.1.1) <$> ms -> collectors (recorder nc') !! id = collectors (recorder nc) !! id.
Proof.
  revert nc g. induction ms as [|[[[id desc] u] field] ms IH]; intros nc g H HN.
  { injection H as -> ->. split_and!; [done.. | |done]. intros x Hx. by apply not_elem_of_nil in Hx. }
  cbn [register_all] in H. rewrite fmap_cons in HN. apply NoDup_cons in HN as [Hid HN]. cbn in Hid.
  apply ST_bind_inv in H as (g1 & nc1 & E1 & H).
  apply mustRegisterMetric_spec in E1 as (Hg1 & Hc1 & Hp1 & Hr1 & Ho1).
  destruct (IH nc1 g1 H HN) as (Hg & Hc & Hp & Hr & Ho). split_and!.
  - by etrans.
  - congruence.
  - congruence.
  - intros x [->|Hx]%elem_of_cons; [|by apply Hr].
    destruct Hr1 as (mc & Hmc & Hcol & Hok). exists mc. cbn [fst snd] in *. rewrite Hc. split_and!; [done | |].
    + by rewrite Ho.
    + by eapply metric_ok_mono.
  - intros id' [Hne Hn]%not_elem_of_cons. cbn in Hne. by rewrite Ho, Ho1.
Qed.

Lemma NewNetCollector_spec cfg procPath g g' nc :
  NewNetCollectorOrDie cfg procPath g = Ret (g', nc) ->
  tagMap g ⊆ tagMap g' /\ ncConfig nc = cfg /\
  (forall x, x ∈ net_metrics -> registered g' nc x) /\
  (forall id, is_Some (collectors (recorder nc) !! id) -> id ∈ net_ids).
Proof.
  intros H. apply register_all_spec in H as (Hg & Hc & _ & Hr & Ho); [|apply net_ids_NoDup].
  split_and!; [done..|]. intros id Hid. destruct (decide (id ∈ net_ids)) as [|Hn]; [done|].
  rewrite (Ho id Hn) in Hid. cbn in Hid. rewrite lookup_empty in Hid. by destruct Hid.
Qed.

(** All sixteen metrics have to be configured: when one is missing, creating the
    collector ends the process. *)
Theorem net_requires_all_metrics cfg procPath g id :
  id ∈ net_ids -> netMetricsConfigs cfg !! id = None ->
  exists c, NewNetCollectorOrDie cfg procPath g = Panic c.
Proof.
  intros Hid Hn. destruct (NewNetCollectorOrDie cfg procPath g) as [[g' nc]|c] eqn:E; [|eauto].
  apply NewNetCollector_spec in E as (_ & Hc & Hr & _).
  apply list_elem_of_fmap in Hid as (x & -> & Hx).
  destruct (Hr x Hx) as (mc & Hmc & _). rewrite Hc in Hmc. congruence.
Qed.

(** ** What is recorded *)

Lemma record_iface_bind nc env iface stat :
  record_iface nc env iface stat =
  if excluded nc iface then []
  else metric_order env iface ≫= fun id =>
         match collectors (recorder nc) !! id with
         | Some c => [mkCall (ifMetric c) (iface_tags iface) (MInt (ifExporter c stat))]
         | None => []
         end.
Proof.
  unfold record_iface, RecordWithSameTags. destruct (excluded nc iface); [done|].
  induction (metric_order env iface) as [|id l IH]; [done|]. rewrite bind_cons, <- IH.
  cbn [omap list_omap]. by destruct (collectors (recorder nc) !! id).
Qed.

Lemma values_other_tags name tags calls :
  Forall (fun c => callTags c <> tags) calls -> values name tags calls = [].
Proof.
  induction 1 as [|c calls Hc _ IH]; [done|]. unfold values in *. rewrite filter_cons.
  by destruct (decide _) as [[_ ?]|].
Qed.

Lemma record_iface_tags nc env iface stat :
  Forall (fun c => callTags c = iface_tags iface) (record_iface nc env iface stat).
Proof.
  rewrite record_iface_bind. destruct (excluded nc iface); [constructor|].
  apply Forall_bind, Forall_true. intros id. unfold compose. destruct (_ !! id); by repeat constructor.
Qed.

(** A configuration that names all metrics, differently. *)
Definition net_names_ok (cfg : NetStatsConfig) : Prop :=
  (forall id mc, id ∈ net_ids -> netMetricsConfigs cfg !! id = Some mc -> DisplayName mc <> "") /\
  (forall id1 id2 mc1 mc2, netMetricsConfigs cfg !! id1 = Some mc1 -> netMetricsConfigs cfg !! id2 = Some mc2 ->
     DisplayName mc1 = DisplayName mc2 -> id1 = id2).

Lemma values_iface nc g cfg env iface stat x :
  ncConfig nc = cfg -> net_names_ok cfg ->
  (forall x, x ∈ net_metrics -> registered g nc x) ->
  (forall id, is_Some (collectors (recorder nc) !! id) -> id ∈ net_ids) ->
  visits (collectors (recorder nc)) (metric_order env iface) -> x ∈ net_metrics ->
  values (displayName (netMetricsConfigs cfg) x.1.1.1) (iface_tags iface) (record_iface nc env iface stat) =
  if excluded nc iface then [] else [MInt (int64 (x.2 stat))].
Proof.
  intros Hc [Hne Hinj] Hr Hall Hv Hx. rewrite record_iface_bind. destruct (excluded nc iface); [done|].
  destruct (Hr x Hx) as (mc & Hmc & Hcol & _). rewrite Hc in Hmc.
  assert (Hid : x.1.1.1 ∈ net_ids) by (apply list_elem_of_fmap; by exists x).
  assert (Hname : displayName (netMetricsConfigs cfg) x.1.1.1 = DisplayName mc) by (unfold displayName; by rewrite Hmc).
  rewrite Hname.
  destruct (values_bind_once (DisplayName mc) (iface_tags iface) (fun id =>
         match collectors (recorder nc) !! id with
         | Some c => [mkCall (ifMetric c) (iface_tags iface) (MInt (ifExporter c stat))]
         | None => []
         end) (metric_order env iface) x.1.1.1) as [H1 _].
  - by eapply visits_NoDup.
  - intros id Hin Hne'. apply (visits_elem (collectors (recorder nc))) in Hin; [|done].
    pose proof (Hall id Hin) as Hid'. apply list_elem_of_fmap in Hid' as (y & -> & Hy).
    destruct (Hr y Hy) as (mc' & Hmc' & Hcol' & _). rewrite Hcol'. rewrite Hc in Hmc'.
    unfold values. rewrite filter_cons. destruct (decide _) as [[E _]|]; [|done]. exfalso.
    cbn in E. apply metric_named_Some in E as [_ [= E]]. apply Hne'. by eapply Hinj.
  - rewrite H1, Hcol; [|by apply (visits_elem (collectors (recorder nc))); eauto].
    unfold values. rewrite filter_cons, decide_True; [done|]. split; [|done]. cbn.
    apply metric_named_Some. split; [|done]. by eapply Hne.
Qed.

(** C25.  Every collection records, for every interface that is not excluded and every
    metric, the current value of the kernel's counter once, whatever the orders
    of the two maps; nothing is recorded for an excluded interface. *)
Theorem net_collect_records cfg procPath g g' nc env stats x iface :
  NewNetCollectorOrDie cfg procPath g = Ret (g', nc) -> net_names_ok cfg ->
  net_NewFS env procPath = Ok tt -> fs_NetDev env = Ok stats -> visits stats (iface_order env) ->
  (forall i, visits (collectors (recorder nc)) (metric_order env i)) -> x ∈ net_metrics ->
  values (displayName (netMetricsConfigs cfg) x.1.1.1) (iface_tags iface) (net_collect (Some nc) env) =
  match stats !! iface with
  | Some stat => if excluded nc iface then [] else [MInt (int64 (x.2 stat))]
  | None => []
  end.
Proof.
  intros HN Hok Hfs Hst Hv Hmo Hx. pose proof HN as Hp.
  apply register_all_spec in Hp as (_ & _ & Hp & _); [|apply net_ids_NoDup].
  apply NewNetCollector_spec in HN as (_ & Hc & Hr & Hall).
  unfold net_collect, recordNetDev. rewrite Hp, Hst. cbn [ncProcPath]. rewrite Hfs.
  destruct (values_bind_once (displayName (netMetricsConfigs cfg) x.1.1.1) (iface_tags iface) (fun i =>
         match stats !! i with Some stat => record_iface nc env i stat | None => [] end)
         (iface_order env) iface) as [H1 H2].
  - by eapply visits_NoDup.
  - intros i _ Hi. destruct (stats !! i) as [stat|]; [|done]. apply values_other_tags.
    eapply Forall_impl; [apply record_iface_tags|]. intros c -> E.
    apply (f_equal (lookup interfaceNameLabel)) in E. unfold iface_tags in E.
    rewrite !lookup_singleton_eq in E. by simplify_eq.
  - destruct (stats !! iface) as [stat|] eqn:Es.
    + rewrite H1; [by eapply values_iface|]. apply (visits_elem stats); eauto.
    + apply H2. intros Hin. apply (visits_elem stats) in Hin as [? ?]; [congruence | done].
Qed.

(** ** Every call reaches the library *)
Definition net_wf (g : globals) (nc : netCollector) : Prop :=
  forall id c, collectors (recorder nc) !! id = Some c ->
    is_Some (ifMetric c) /\ metric_ok g (ifMetric c) [interfaceNameLabel].

(** Every metric that is configured has a name. *)
Definition net_named (cfg : NetStatsConfig) : Prop :=
  forall id mc, id ∈ net_ids -> netMetricsConfigs cfg !! id = Some mc -> DisplayName mc <> "".

Lemma NewNetCollector_wf cfg procPath g g' nc :
  NewNetCollectorOrDie cfg procPath g = Ret (g', nc) -> net_named cfg -> net_wf g' nc.
Proof.
  intros HN Hne id c E. apply NewNetCollector_spec in HN as (_ & Hc & Hr & Hall).
  pose proof (Hall id ltac:(eauto)) as Hid. pose proof Hid as Hid'.
  apply list_elem_of_fmap in Hid' as (y & -> & Hy).
  destruct (Hr y Hy) as (mc & Hmc & Hcol & Hok). rewrite Hc in Hmc. rewrite E in Hcol. injection Hcol as ->.
  split; [|done]. exists (mkOCMetric (DisplayName mc)). apply metric_named_Some. split; [|done]. by eapply Hne.
Qed.

Lemma net_collect_ok g nc env : net_wf g nc -> Forall (call_ok g) (net_collect (Some nc) env).
Proof.
  intros Hwf. unfold net_collect, recordNetDev. destruct (net_NewFS env _); [|constructor].
  destruct (fs_NetDev env) as [stats|]; [|constructor].
  apply Forall_bind, Forall_true. intros iface. unfold compose. destruct (stats !! iface) as [stat|]; [|constructor].
  rewrite record_iface_bind. destruct (excluded nc iface); [constructor|].
  apply Forall_bind, Forall_true. intros id. unfold compose.
  destruct (collectors (recorder nc) !! id) as [c|] eqn:E; [|constructor].
  destruct (Hwf id c E) as [[m Hm] Hok]. constructor; [|constructor]. split; cbn; [by rewrite Hm|].
  intros t Ht. destruct Hok as [Hok|Hok]; [by rewrite Hok in Hm|]. apply Hok.
  revert t Ht. apply tags_within_singleton. by left.
Qed.

(** A metric without a display name: the first interface that is recorded ends
    the process. *)
Theorem net_unnamed_metric_panics cfg procPath g g' nc env stats iface stat id mc calls :
  NewNetCollectorOrDie cfg procPath g = Ret (g', nc) ->
  id ∈ net_ids -> netMetricsConfigs cfg !! id = Some mc -> DisplayName mc = "" ->
  net_NewFS env procPath = Ok tt -> fs_NetDev env = Ok stats -> iface ∈ iface_order env ->
  stats !! iface = Some stat -> excluded nc iface = false -> id ∈ metric_order env iface ->
  calls.*1 = net_collect (Some nc) env ->
  forall gx, exists c, exec gx calls = Panic c.
Proof.
  intros HN Hid Hmc Hname Hfs Hst Hio Hs Hex Hmo Hcalls. pose proof HN as Hp.
  apply register_all_spec in Hp as (_ & _ & Hp & _); [|apply net_ids_NoDup].
  apply NewNetCollector_spec in HN as (_ & Hc & Hr & _).
  apply list_elem_of_fmap in Hid as (x & -> & Hx). destruct (Hr x Hx) as (mc' & Hmc' & Hcol & _).
  rewrite Hc, Hmc in Hmc'. injection Hmc' as <-. rewrite Hname in Hcol.
  assert (Hin : mkCall None (iface_tags iface) (MInt (int64 (x.2 stat))) ∈ net_collect (Some nc) env).
  { unfold net_collect, recordNetDev. rewrite Hp, Hst. cbn [ncProcPath]. rewrite Hfs.
    apply list_elem_of_bind. exists iface. split; [|done]. rewrite Hs, record_iface_bind, Hex.
    apply list_elem_of_bind. exists x.1.1.1. split; [|done]. rewrite Hcol. by left. }
  rewrite <- Hcalls in Hin. clear Hcalls. induction calls as [|[c order] calls IH]; [by apply not_elem_of_nil in Hin|].
  intros gx. cbn [exec]. unfold Record_Int64. apply elem_of_cons in Hin as [E|Hin].
  - cbn [fst] in E. subst c. cbn [callMetric deref]. ret_step. eauto.
  - destruct (callMetric c) as [m|]; cbn [deref]; ret_step; [|eauto].
    destruct (mutators _ _ _) as [ms|]; ret_step.
    + destruct (RecordWithTags _ _ _ _) as [o r]. ret_step.
      destruct (IH Hin (mkGlobals (tagMap gx) (metricMap gx) o)) as [c' ->]. ret_step. eauto.
    + destruct (IH Hin gx) as [c' ->]. ret_step. eauto.
Qed.
End Properties.

(** ** A complete configuration *)
Definition sample_net_config (name : string -> string) : NetStatsConfig :=
  mkNetConfig (list_to_map ((fun id => (id, mkMetricConfig (name id))) <$> net_ids)) (mkIfaceRegexp None).
Definition sample_line : NetDevLine := mkNetDevLine 7 1 0 0 0 0 0 0 0 0 0 0 0 0 0 0.
Definition sample_net (name : string -> string) : globals * netCollector :=
  match NewNetCollectorOrDie (lib := test_library) (sample_net_config name) "/proc" test_globals with
  | Ret r => r
  | Panic _ => (test_globals, mkNet (sample_net_config name) "/proc" newIfaceStatRecorder)
  end.
Definition sample_net_env (nc : netCollector) : netEnv :=
  mkNetEnv (fun _ => Ok tt) (Ok {[ "eth0" := sample_line ]}) ["eth0"]
    (fun _ => (map_to_list (collectors (recorder nc))).*1).

Lemma sample_net_config_lookup name id mc :
  netMetricsConfigs (sample_net_config name) !! id = Some mc -> id ∈ net_ids /\ mc = mkMetricConfig (name id).
Proof.
  intros H. apply elem_of_list_to_map_2 in H. apply list_elem_of_fmap in H as (id' & [= -> ->] & Hin). done.
Qed.

Lemma sample_net_names_ok : net_names_ok (sample_net_config (fun id => id)).
Proof.
  split.
  - intros id mc Hid H. apply sample_net_config_lookup in H as [_ ->]. cbn. intros ->.
    revert Hid. apply (bool_decide_unpack (_ ∉ _)). vm_compute. exact I.
  - intros id1 id2 mc1 mc2 H1 H2. apply sample_net_config_lookup in H1 as [_ ->], H2 as [_ ->]. done.
Qed.

Lemma net_requires_all_metrics_witness :
  exists c, NewNetCollectorOrDie (lib := test_library) (mkNetConfig ∅ (mkIfaceRegexp None)) "/proc" test_globals = Panic c.
Proof.
  apply (net_requires_all_metrics _ _ _ NetDevRxBytes); [by left | done].
Defined.

Lemma sample_net_created name :
  match NewNetCollectorOrDie (lib := test_library) (sample_net_config name) "/proc" test_globals with
  | Ret _ => true
  | Panic _ => false
  end = true ->
  NewNetCollectorOrDie (lib := test_library) (sample_net_config name) "/proc" test_globals =
  Ret ((sample_net name).1, (sample_net name).2).
Proof. unfold sample_net. by destruct (NewNetCollectorOrDie _ _ _) as [[g nc]|]. Qed.

#[local] Existing Instance AsciiUnicode.

Lemma net_collect_records_witness :
  values "net/rx_bytes" (iface_tags "eth0")
    (net_collect (Some (sample_net (fun id => id)).2) (sample_net_env (sample_net (fun id => id)).2)) = [MInt 7].
Proof.
  rewrite (net_collect_records (lib := test_library) (sample_net_config (fun id => id)) "/proc" test_globals
    (sample_net (fun id => id)).1 (sample_net (fun id => id)).2 (sample_net_env (sample_net (fun id => id)).2)
    {[ "eth0" := sample_line ]} (NetDevRxBytes, "Cumulative count of bytes received.", "Byte", RxBytes)
    "eth0").
  - vm_compute. reflexivity.
  - apply sample_net_created. vm_compute. reflexivity.
  - exact sample_net_names_ok.
  - reflexivity.
  - reflexivity.
  - apply (bool_decide_unpack _). vm_compute. exact I.
  - intros i. unfold visits. reflexivity.
  - by left.
Defined.

Lemma net_unnamed_metric_panics_witness :
  exists c, exec (lib := test_library) (sample_net (fun _ => "")).1
    ((fun c => (c, [])) <$> net_collect (Some (sample_net (fun _ => "")).2)
       (sample_net_env (sample_net (fun _ => "")).2)) = Panic c.
Proof.
  apply (net_unnamed_metric_panics (lib := test_library) (sample_net_config (fun _ => "")) "/proc" test_globals
    (sample_net (fun _ => "")).1 (sample_net (fun _ => "")).2 (sample_net_env (sample_net (fun _ => "")).2)
    {[ "eth0" := sample_line ]} "eth0" sample_line NetDevRxBytes (mkMetricConfig "")).
  - apply sample_net_created. vm_compute. reflexivity.
  - by left.
  - vm_compute. reflexivity.
  - reflexivity.
  - reflexivity.
  - reflexivity.
  - by left.
  - reflexivity.
  - vm_compute. reflexivity.
  - apply (bool_decide_unpack _). vm_compute. exact I.
  - by rewrite <- list_fmap_compose, list_fmap_id.
Defined.
