(* ===== verification/SystemStatsMonitor.v ===== *)
(** The system stats monitor
    ([pkg/systemstatsmonitor/system_stats_monitor.go]): its construction from a
    configuration file, one round of its collectors, and its loop as a transition
    system with the tomb that stops it.

    A round executes the calls of [Record] the collectors make; each visits its
    tags in the order the environment chooses. *)

From S2P Require Import Prelude GoStrings Regexp GoTime GoPath Options Metrics ProblemDetector Transitions SystemFiles.
From S2P Require Import Recording SystemStatsConfig DiskCollector CPUCollector MemoryCollector HostCollector NetCollector.

Definition SystemStatsMonitorName : string := "system-stats-monitor".

(* @ pkg/systemstatsmonitor/system_stats_monitor.go:42-52 systemStatsMonitor *)
Record systemStatsMonitor : Type := mkSSM {
  ssmConfigPath : string;
  ssmConfig : SystemStatsConfig;
  ssmCPU : option cpuCollector;
  ssmDisk : option diskCollector;
  ssmHost : option hostCollector;
  ssmMemory : option memoryCollector;
  ssmNet : option netCollector;
  ssmOsFeature : option osFeatureCollector;
  ssmTomb : Tomb
}.

Definition with_known_modules (c : SystemStatsConfig) (path : string) : SystemStatsConfig :=
  mkSSConfig (CPUConfig c) (DiskConfig c) (HostConfig c) (MemoryConfig c)
    (mkOSFeatureConfig (osFeatureMetricsConfigs (OsFeatureConfig c)) path)
    (NetConfig c) (ssInvokeIntervalString c) (ssInvokeInterval c) (ProcPath c).

(** The path of the known modules is relative to the configuration file. *)
Definition resolve_known_modules (configPath : string) (c : SystemStatsConfig) : SystemStatsConfig :=
  let path := KnownModulesConfigPath (OsFeatureConfig c) in
  if negb (filepath_IsAbs path) then with_known_modules c (filepath_Join [filepath_Dir configPath; path])
  else c.

(** A collector exists when metrics are configured for it. *)
Definition configured (m : gmap string MetricConfig) : bool := negb (size m =? 0).

Section Monitor.
Context {lib : OpenCensus} `{UC : !Unicode}.
(** The file system, the JSON decoder, and what identifies the host. *)
Variable os_ReadFile : string -> result string.
Variable json_Unmarshal : string -> result SystemStatsConfig.
Variable os_Stat : string -> result unit.
Variable host_KernelVersion : result string.
Variable osrelease_ReadFile : string -> result (gmap string string).

Abbreviation state := (globals (Key := Key) (OC := OC)).

Definition when {A} (b : bool) (m : ST state A) : ST state (option A) :=
  if b then a ← m; mret (Some a) else mret None.

(** The collectors of a validated configuration. *)
(* @ pkg/systemstatsmonitor/system_stats_monitor.go:80-104 NewSystemStatsMonitorOrDie *)
Definition new_collectors (configPath : string) (config : SystemStatsConfig) : ST state systemStatsMonitor :=
  cpu ← when (configured (cpuMetricsConfigs (CPUConfig config)))
          (NewCPUCollectorOrDie (CPUConfig config) (ProcPath config));
  disk ← when (configured (diskMetricsConfigs (DiskConfig config)))
          (NewDiskCollectorOrDie (DiskConfig config));
  host ← when (configured (hostMetricsConfigs (HostConfig config)))
          (NewHostCollectorOrDie host_KernelVersion osrelease_ReadFile (HostConfig config));
  memory ← when (configured (memoryMetricsConfigs (MemoryConfig config)))
          (NewMemoryCollectorOrDie (MemoryConfig config));
  let features := configured (osFeatureMetricsConfigs (OsFeatureConfig config)) in
  let config := if features then resolve_known_modules configPath config else config in
  osFeature ← when features (NewOsFeatureCollectorOrDie (OsFeatureConfig config) (ProcPath config));
  net ← when (configured (netMetricsConfigs (NetConfig config)))
          (NewNetCollectorOrDie (NetConfig config) (ProcPath config));
  mret (mkSSM configPath config cpu disk host memory net osFeature NewTomb).

(* @ pkg/systemstatsmonitor/system_stats_monitor.go:54-106 NewSystemStatsMonitorOrDie *)
Definition NewSystemStatsMonitorOrDie (configPath : string) : ST state systemStatsMonitor := fun g =>
  match os_ReadFile configPath with
  | Err _ => Panic "Failed to read configuration file"
  | Ok f =>
    match json_Unmarshal f with
    | Err _ => Panic "Failed to unmarshal configuration file"
    | Ok config =>
      match ssc_ApplyConfiguration config with
      | (_, Err _) => Panic "Failed to apply configuration"
      | (config, Ok _) =>
        match ssc_Validate os_Stat config with
        | Err _ => Panic "Failed to validate configuration"
        | Ok _ => new_collectors configPath config g
        end
      end
    end
  end.

(** ** One round *)
Record roundEnv : Type := mkRoundEnv {
  re_cpu : cpuEnv; re_disk : diskEnv; re_uptime : result Z; re_memory : memoryEnv;
  re_feature : featureEnv; re_net : netEnv
}.

(** The flag is package [system]'s, whether a quote is open in the command line. *)
(* @ pkg/systemstatsmonitor/system_stats_monitor.go:125-130 monitorLoop *)
Definition collect_all (ssm : systemStatsMonitor) (withinQuotes : bool) (env : roundEnv)
    : outcome (systemStatsMonitor * bool * list call) :=
  '(cpu, c1) ← cpu_collect (ssmCPU ssm) (re_cpu env);
  let '(disk, c2) := disk_collect (ssmDisk ssm) (re_disk env) in
  let c3 := host_collect (ssmHost ssm) (re_uptime env) in
  let c4 := memory_collect (ssmMemory ssm) (re_memory env) in
  '(withinQuotes, c5) ← feature_collect withinQuotes (ssmOsFeature ssm) (re_feature env);
  let c6 := net_collect (ssmNet ssm) (re_net env) in
  Ret (mkSSM (ssmConfigPath ssm) (ssmConfig ssm) cpu disk (ssmHost ssm) (ssmMemory ssm) (ssmNet ssm)
         (ssmOsFeature ssm) (ssmTomb ssm),
       withinQuotes, c1 ++ c2 ++ c3 ++ c4 ++ c5 ++ c6).

(** ** The loop *)
Inductive ssm_pc : Type := PBegin | PWait | PExited | PCrashed (cause : string).

(** [sCalls] are the calls made so far, with the orders of their tags. *)
Record ssm_sys : Type := mkSys {
  sMonitor : systemStatsMonitor;
  sQuotes : bool;
  sGlobals : state;
  sPc : ssm_pc;
  sCalls : list (call * list string)
}.

(** The loop collects once, unless it is stopped already, and then at every tick
    (of which a stopped loop may still see one, since [select] chooses); [AStop]
    is the first half of [Stop]. *)
Inductive ssm_action : Type := ARound (env : roundEnv) (orders : call -> list string) | ALeave | AStop.

Definition set_tomb (ssm : systemStatsMonitor) (t : Tomb) : systemStatsMonitor :=
  mkSSM (ssmConfigPath ssm) (ssmConfig ssm) (ssmCPU ssm) (ssmDisk ssm) (ssmHost ssm) (ssmMemory ssm)
    (ssmNet ssm) (ssmOsFeature ssm) t.

Definition ssm_round (s : ssm_sys) (env : roundEnv) (orders : call -> list string) : ssm_sys :=
  match collect_all (sMonitor s) (sQuotes s) env with
  | Panic c => mkSys (sMonitor s) (sQuotes s) (sGlobals s) (PCrashed c) (sCalls s)
  | Ret (ssm, q, calls) =>
    let calls := (fun c => (c, orders c)) <$> calls in
    match exec (sGlobals s) calls with
    | Panic c => mkSys ssm q (sGlobals s) (PCrashed c) (sCalls s)
    | Ret (g, _) => mkSys ssm q g PWait (sCalls s ++ calls)
    end
  end.

(* @ pkg/systemstatsmonitor/system_stats_monitor.go:114-147 monitorLoop *)
Definition ssm_exec (s : ssm_sys) (a : ssm_action) : option ssm_sys :=
  let stopping := Tomb_Stopping (ssmTomb (sMonitor s)) in
  match a with
  | ARound env orders =>
    match sPc s with
    | PBegin => if stopping then None else Some (ssm_round s env orders)
    | PWait => Some (ssm_round s env orders)
    | _ => None
    end
  | ALeave =>
    match sPc s with
    | PBegin | PWait =>
      if stopping then
        match Tomb_Done (ssmTomb (sMonitor s)) with
        | Ret t => Some (mkSys (set_tomb (sMonitor s) t) (sQuotes s) (sGlobals s) PExited (sCalls s))
        | Panic c => Some (mkSys (sMonitor s) (sQuotes s) (sGlobals s) (PCrashed c) (sCalls s))
        end
      else None
    | _ => None
    end
  | AStop =>
    match Tomb_Stop_close (ssmTomb (sMonitor s)) with
    | Ret t => Some (mkSys (set_tomb (sMonitor s) t) (sQuotes s) (sGlobals s) (sPc s) (sCalls s))
    | Panic _ => None
    end
  end.

(** No channel and no error; the loop starts.  (A ticker of a positive interval
    can be created; the configuration was validated.) *)
(* @ pkg/systemstatsmonitor/system_stats_monitor.go:108-112 Start *)
Definition ssm_Start (ssm : systemStatsMonitor) (withinQuotes : bool) (g : state)
    : outcome (result bool * ssm_sys) :=
  if (0 <? ssInvokeInterval (ssmConfig ssm))%Z then Ret (Ok false, mkSys ssm withinQuotes g PBegin [])
  else Panic "non-positive interval for NewTicker".

(** ** Every call of every round reaches the library *)
Definition opt_wf {A} (P : A -> Prop) (o : option A) : Prop := match o with Some a => P a | None => True end.

Record ssm_wf (g : state) (ssm : systemStatsMonitor) : Prop := mkSsmWf {
  swf_cpu : opt_wf (cpu_wf g) (ssmCPU ssm);
  swf_disk : opt_wf (disk_wf g) (ssmDisk ssm);
  swf_host : opt_wf (host_wf g) (ssmHost ssm);
  swf_memory : opt_wf (memory_wf g) (ssmMemory ssm);
  swf_net : opt_wf (net_wf g) (ssmNet ssm);
  swf_feature : opt_wf (feature_wf g) (ssmOsFeature ssm)
}.

Lemma when_inv {A} b (m : ST state A) g g' o (P : state -> A -> Prop) :
  when b m g = Ret (g', o) ->
  (forall g1 a, b = true -> m g = Ret (g1, a) -> tagMap g ⊆ tagMap g1 /\ P g1 a) ->
  tagMap g ⊆ tagMap g' /\ opt_wf (P g') o.
Proof.
  unfold when. destruct b; intros H Hm.
  - apply ST_bind_inv in H as (g1 & a & E & H). injection H as -> <-. simpl. by apply Hm.
  - injection H as <- <-. done.
Qed.

(** What is known stays known. *)
Lemma wf_mono g g' :
  tagMap g ⊆ tagMap g' ->
  (forall cc, cpu_wf g cc -> cpu_wf g' cc) /\ (forall dc, disk_wf g dc -> disk_wf g' dc) /\
  (forall hc, host_wf g hc -> host_wf g' hc) /\ (forall mc, memory_wf g mc -> memory_wf g' mc) /\
  (forall oc, feature_wf g oc -> feature_wf g' oc).
Proof.
  intros Hg. pose proof (fun m l => metric_ok_mono g g' m l Hg) as Hm.
  split_and!.
  - intros cc []. constructor; auto.
  - intros dc []. constructor; auto.
  - intros hc []. split; auto.
  - intros mc []. constructor; auto.
  - intros oc. apply Hm.
Qed.

Lemma opt_wf_mono {A} (P : state -> A -> Prop) g g' o :
  (forall a, P g a -> P g' a) -> opt_wf (P g) o -> opt_wf (P g') o.
Proof. destruct o; simpl; auto. Qed.

Lemma new_collectors_wf configPath config g g' ssm :
  new_collectors configPath config g = Ret (g', ssm) ->
  net_named (NetConfig config) ->
  ssm_wf g' ssm /\ ssmTomb ssm = NewTomb /\ ssInvokeInterval (ssmConfig ssm) = ssInvokeInterval config /\
  ssmConfig ssm = (if configured (osFeatureMetricsConfigs (OsFeatureConfig config))
                   then resolve_known_modules configPath config else config).
Proof.
  unfold new_collectors. intros H Hnet.
  apply ST_bind_inv in H as (g1 & cpu & E & H).
  apply (when_inv _ _ _ _ _ cpu_wf) in E as [Hg1 H1].
  2:{ intros ga a _ Ha. apply NewCPUCollector_spec in Ha. naive_solver. }
  apply ST_bind_inv in H as (g2 & disk & E & H).
  apply (when_inv _ _ _ _ _ disk_wf) in E as [Hg2 H2].
  2:{ intros ga a _ Ha. apply NewDiskCollector_spec in Ha. naive_solver. }
  apply ST_bind_inv in H as (g3 & host & E & H).
  apply (when_inv _ _ _ _ _ host_wf) in E as [Hg3 H3].
  2:{ intros ga a _ Ha. by apply NewHostCollector_spec in Ha. }
  apply ST_bind_inv in H as (g4 & memory & E & H).
  apply (when_inv _ _ _ _ _ memory_wf) in E as [Hg4 H4].
  2:{ intros ga a _ Ha. by apply NewMemoryCollector_spec in Ha. }
  cbv zeta in H. set (config' := if configured _ then _ else config) in H.
  apply ST_bind_inv in H as (g5 & feat & E & H).
  apply (when_inv _ _ _ _ _ feature_wf) in E as [Hg5 H5].
  2:{ intros ga a _ Ha. apply NewOsFeatureCollector_spec in Ha. naive_solver. }
  apply ST_bind_inv in H as (g6 & net & E & H).
  assert (Hn' : NetConfig config' = NetConfig config).
  { unfold config', resolve_known_modules. destruct (configured _); [|done]. by destruct (negb _). }
  apply (when_inv _ _ _ _ _ net_wf) in E as [Hg6 H6].
  2:{ intros ga a _ Ha. pose proof Ha as Ha'. apply NewNetCollector_spec in Ha' as [Hgm _].
      split; [done|]. eapply NewNetCollector_wf; [exact Ha|]. by rewrite Hn'. }
  injection H as <- <-. split_and!; [|done | |done].
  - constructor; simpl; [eapply (opt_wf_mono cpu_wf); [|exact H1] | eapply (opt_wf_mono disk_wf); [|exact H2]
      | eapply (opt_wf_mono host_wf); [|exact H3] | eapply (opt_wf_mono memory_wf); [|exact H4]
      | exact H6 | eapply (opt_wf_mono feature_wf); [|exact H5]];
      apply wf_mono; later_tags.
  - simpl. unfold config', resolve_known_modules. destruct (configured _); [|done]. by destruct (negb _).
Qed.

(** The configuration and the collector of OS features, without further
    hypotheses. *)
Lemma new_collectors_config configPath config g g' ssm :
  new_collectors configPath config g = Ret (g', ssm) -> NetConfig (ssmConfig ssm) = NetConfig config.
Proof.
  unfold new_collectors. intros H.
  do 6 (apply ST_bind_inv in H as (? & ? & _ & H)). injection H as _ <-. simpl.
  unfold resolve_known_modules. destruct (configured _); [|done]. by destruct (negb _).
Qed.

Lemma new_collectors_feature configPath config g g' ssm oc :
  new_collectors configPath config g = Ret (g', ssm) -> ssmOsFeature ssm = Some oc ->
  ofConfig oc = OsFeatureConfig (resolve_known_modules configPath config).
Proof.
  unfold new_collectors. intros H Hoc.
  do 4 (apply ST_bind_inv in H as (? & ? & _ & H)).
  apply ST_bind_inv in H as (g5 & feat & E & H). apply ST_bind_inv in H as (? & ? & _ & H).
  injection H as _ <-. simpl in Hoc. subst feat. unfold when in E.
  destruct (configured (osFeatureMetricsConfigs (OsFeatureConfig config))).
  - apply ST_bind_inv in E as (g6 & a & E & Ha). injection Ha as _ ->.
    by apply NewOsFeatureCollector_spec in E as (_ & _ & ?).
  - by injection E.
Qed.

(** What ends the process in a round: an empty list of CPU timers, when the usage
    time is collected; and when the features of the system are, a command line that
    cannot be read or has no line, modules that cannot be read, or a line of them
    with fewer than three fields. *)
Definition usage_metric (ssm : systemStatsMonitor) : option OCMetric := ssmCPU ssm ≫= mUsageTime.

Definition features_fatal (cmdline modules : result (list string * bool)) : bool :=
  match ReadFileIntoLines cmdline with Ok (_ :: _) => false | _ => true end ||
  match ReadFileIntoLines modules with Ok lines => existsb (fun l => length (strings_Fields l) <? 3) lines | Err _ => true end.

Definition round_fatal (ssm : systemStatsMonitor) (env : roundEnv) : bool :=
  match usage_metric ssm, cpu_Times (re_cpu env) with Some _, Ok [] => true | _, _ => false end ||
  match ssmOsFeature ssm with
  | Some oc =>
    bool_decide (is_Some (ofMetric oc)) &&
    features_fatal (fe_open (re_feature env) (filepath_Join [ofProcPath oc; "/cmdline"]))
                   (fe_open (re_feature env) (filepath_Join [ofProcPath oc; "/modules"]))
  | None => false
  end.

Lemma moduleLines_fatal lines :
  match moduleLines lines with Ret _ => false | Panic _ => true end = existsb (fun l => length (strings_Fields l) <? 3) lines.
Proof.
  destruct (existsb _ lines) eqn:E.
  - destruct (moduleLines lines) as [ms|] eqn:Em; [|done]. apply existsb_exists in E as (l & Hl & Hlt).
    assert (HF : Forall (fun l => 3 <= length (strings_Fields l)) lines) by (apply moduleLines_Ret; eauto).
    apply Nat.ltb_lt in Hlt. rewrite Forall_forall in HF. specialize (HF l ltac:(by apply list_elem_of_In)). lia.
  - assert (HF : Forall (fun l => 3 <= length (strings_Fields l)) lines).
    { apply Forall_forall. intros l Hl. apply Nat.nlt_ge. intros Hlt. apply not_true_iff_false in E. apply E.
      apply existsb_exists. exists l. split; [by apply list_elem_of_In|by apply Nat.ltb_lt]. }
    by apply moduleLines_Ret in HF as [ms ->].
Qed.

Lemma feature_collect_fatal q oc env :
  match feature_collect q oc env with Ret _ => false | Panic _ => true end =
  match oc with
  | Some oc =>
    bool_decide (is_Some (ofMetric oc)) &&
    features_fatal (fe_open env (filepath_Join [ofProcPath oc; "/cmdline"])) (fe_open env (filepath_Join [ofProcPath oc; "/modules"]))
  | None => false
  end.
Proof.
  unfold feature_collect. destruct oc as [oc|]; [|done]. unfold osFeature_collect.
  destruct (bool_decide (is_Some (ofMetric oc))); cbn [negb andb]; [|done]. unfold features_fatal, CmdlineArgs, Modules.
  destruct (ReadFileIntoLines (fe_open env (filepath_Join [ofProcPath oc; "/cmdline"]))) as [[|line more]|]; [done| |done].
  destruct (FieldsFunc splitAfterSpace q "" line) as [q' words]. cbn [orb].
  destruct (ReadFileIntoLines (fe_open env (filepath_Join [ofProcPath oc; "/modules"]))) as [lines|]; [|done].
  rewrite <- moduleLines_fatal. by destruct (moduleLines lines).
Qed.

(** The parts of a monitor that a round does not change. *)
Definition same_static (ssm ssm' : systemStatsMonitor) : Prop :=
  ssmHost ssm' = ssmHost ssm /\ ssmMemory ssm' = ssmMemory ssm /\ ssmNet ssm' = ssmNet ssm /\
  ssmOsFeature ssm' = ssmOsFeature ssm /\ ssmTomb ssm' = ssmTomb ssm /\ ssmConfig ssm' = ssmConfig ssm /\
  usage_metric ssm' = usage_metric ssm.

Lemma cpu_collect_fatal g cc env :
  opt_wf (cpu_wf g) cc ->
  match cpu_collect cc env with
  | Panic _ => match cc ≫= mUsageTime, cpu_Times env with Some _, Ok [] => true | _, _ => false end = true
  | Ret (cc', calls) =>
    match cc ≫= mUsageTime, cpu_Times env with Some _, Ok [] => true | _, _ => false end = false /\
    opt_wf (cpu_wf g) cc' /\ cc' ≫= mUsageTime = cc ≫= mUsageTime /\ Forall (call_ok g) calls
  end.
Proof.
  destruct cc as [cc|]; intros Hwf; [|by split_and!]. cbn [mbind option_bind].
  unfold cpu_collect. destruct (recordUsage cc env) as [[cc' c2]|c] eqn:E.
  - pose proof E as E'. apply (recordUsage_ok g) in E as (Hwf' & Hm & H2); [|done]. ret_step. split_and!.
    + destruct (mUsageTime cc) eqn:Eu; [|done]. destruct (cpu_Times env) as [[|]|] eqn:Et; try done.
      assert (Hp : recordUsage cc env = Panic "index out of range") by (apply recordUsage_panics; eauto). congruence.
    + done.
    + by injection Hm.
    + rewrite !Forall_app. split_and!; [apply recordLoad_ok | done | by apply recordSystemStats_ok].
  - ret_step. apply recordUsage_panics in E as ([m ->] & -> & _). done.
Qed.

Lemma collect_all_fatal g ssm q env :
  ssm_wf g ssm ->
  match collect_all ssm q env with
  | Panic _ => round_fatal ssm env = true
  | Ret (ssm', q', calls) =>
    round_fatal ssm env = false /\ ssm_wf g ssm' /\ same_static ssm ssm' /\ Forall (call_ok g) calls
  end.
Proof.
  intros [W1 W2 W3 W4 W5 W6]. unfold collect_all, round_fatal, usage_metric.
  pose proof (cpu_collect_fatal g (ssmCPU ssm) (re_cpu env) W1) as H1.
  destruct (cpu_collect (ssmCPU ssm) (re_cpu env)) as [[cpu c1]|]; ret_step; [|by rewrite H1].
  destruct H1 as (-> & Hw1 & Hu & Hc1). cbn [orb].
  assert (H2 : exists disk c2, disk_collect (ssmDisk ssm) (re_disk env) = (disk, c2) /\
                 opt_wf (disk_wf g) disk /\ Forall (call_ok g) c2).
  { destruct (ssmDisk ssm) as [dc|]; [|by exists None, []].
    destruct (disk_collect_ok g dc (re_disk env) W2) as (dc' & c2 & -> & ? & ?).
    by exists (Some dc'), c2. }
  destruct H2 as (disk & c2 & -> & Hw2 & Hc2). rewrite <- (feature_collect_fatal q).
  destruct (feature_collect q (ssmOsFeature ssm) (re_feature env)) as [[q' c5]|] eqn:E5; ret_step; [|done].
  split; [done|]. split; [by constructor|]. split; [by repeat split|]. rewrite !Forall_app. split_and!; [done | done | | | |].
  - destruct (ssmHost ssm); [by apply host_collect_ok | constructor].
  - destruct (ssmMemory ssm); [by apply memory_collect_ok | constructor].
  - destruct (ssmOsFeature ssm) as [oc|]; [by eapply feature_collect_ok|].
    simpl in E5. by injection E5 as <- <-.
  - destruct (ssmNet ssm); [by apply net_collect_ok | constructor].
Qed.

(** The requests made so far account for the state of the library. *)
Record ssm_inv (g0 : state) (ssm0 : systemStatsMonitor) (s : ssm_sys) : Prop := mkSsmInv {
  sinv_wf : ssm_wf g0 (sMonitor s);
  sinv_fatal : forall env, round_fatal (sMonitor s) env = round_fatal ssm0 env;
  sinv_tags : tagMap (sGlobals s) = tagMap g0;
  sinv_done : tDoneClosed (ssmTomb (sMonitor s)) = true <-> sPc s = PExited;
  sinv_calls : exists reqs, Forall2 (carries g0) (sCalls s) reqs /\ (library_run (oc g0) reqs).1 = oc (sGlobals s)
}.

Definition crashed (s : ssm_sys) : Prop := exists c, sPc s = PCrashed c.

(** A round that ends the process, and rounds that visit all tags of a call. *)
Definition fatal_round (ssm : systemStatsMonitor) (a : ssm_action) : Prop :=
  match a with ARound env _ => round_fatal ssm env = true | _ => False end.
Definition orders_ok (a : ssm_action) : Prop :=
  match a with ARound _ orders => forall c, visits (callTags c) (orders c) | _ => True end.

Lemma carries_tags g g' c req : tagMap g = tagMap g' -> carries g c req -> carries g' c req.
Proof. unfold carries. intros ->. done. Qed.

Lemma ssm_round_inv g0 ssm0 s env orders :
  ssm_inv g0 ssm0 s -> sPc s <> PExited -> orders_ok (ARound env orders) ->
  ssm_inv g0 ssm0 (ssm_round s env orders) /\ (crashed (ssm_round s env orders) <-> round_fatal ssm0 env = true).
Proof.
  intros [Hwf Hf Ht Hd (reqs & HR & Ho)] Hpc Hv. unfold ssm_round, crashed.
  assert (Hnd : tDoneClosed (ssmTomb (sMonitor s)) = false) by (apply not_true_is_false; intros E; by apply Hd in E).
  pose proof (collect_all_fatal g0 (sMonitor s) (sQuotes s) env Hwf) as Hc. rewrite Hf in Hc.
  destruct (collect_all (sMonitor s) (sQuotes s) env) as [[[ssm' q'] calls]|c].
  2: { split; [|rewrite Hc; cbn; naive_solver]. constructor; simpl; [done|done|done|by rewrite Hnd|eauto]. }
  destruct Hc as (Hnf & Hwf' & (Hs1 & Hs2 & Hs3 & Hs4 & Hs5 & Hs6 & Hs7) & Hok).
  destruct (exec_ok (sGlobals s) ((fun c => (c, orders c)) <$> calls)) as (reqs' & HR' & ->).
  { apply Forall_fmap. eapply Forall_impl; [exact Hok|]. intros c Hc. split; [|apply Hv].
    eapply call_ok_mono; [|exact Hc]. by rewrite Ht. }
  destruct (library_run (oc (sGlobals s)) reqs') as [o rs] eqn:El. cbn [sPc]. split; [|rewrite Hnf; naive_solver].
  constructor; simpl; [done| |done| |].
  - intros env'. rewrite <- Hf. unfold round_fatal. by rewrite Hs7, Hs4.
  - rewrite Hs5, Hnd. done.
  - exists (reqs ++ reqs'). split.
    + apply Forall2_app; [done|]. eapply Forall2_impl; [exact HR'|]. intros c req. by apply carries_tags.
    + rewrite library_run_app. simpl. by rewrite Ho, El.
Qed.

Lemma set_tomb_wf g ssm t : ssm_wf g ssm -> ssm_wf g (set_tomb ssm t).
Proof. intros []. by constructor. Qed.

Lemma ssm_exec_inv g0 ssm0 s a s' :
  ssm_inv g0 ssm0 s -> orders_ok a -> ssm_exec s a = Some s' ->
  ssm_inv g0 ssm0 s' /\ (crashed s' <-> crashed s \/ fatal_round ssm0 a).
Proof.
  intros Hinv Hok He. pose proof Hinv as [Hwf Hf Ht Hd Hc]. destruct a as [env orders| |]; unfold ssm_exec in He.
  - assert (Hr : sPc s = PBegin \/ sPc s = PWait) by (destruct (sPc s); try done; auto).
    assert (s' = ssm_round s env orders) as ->.
    { destruct Hr as [Epc|Epc]; rewrite Epc in He; [destruct (Tomb_Stopping _); [done|]|]; by injection He. }
    destruct (ssm_round_inv g0 ssm0 s env orders Hinv) as [Hi Hcr]; [destruct Hr; congruence|done|].
    split; [done|]. rewrite Hcr. cbn. split; [by right|]. intros [[c Hc']|?]; [destruct Hr; congruence|done].
  - assert (Hr : sPc s = PBegin \/ sPc s = PWait) by (destruct (sPc s); try done; auto).
    assert (Hnd : tDoneClosed (ssmTomb (sMonitor s)) = false).
    { apply not_true_is_false. intros E. apply Hd in E. destruct Hr; congruence. }
    assert (s' = mkSys (set_tomb (sMonitor s) (mkTomb (tStopClosed (ssmTomb (sMonitor s))) true)) (sQuotes s) (sGlobals s) PExited (sCalls s)) as ->.
    { unfold Tomb_Done in He. rewrite Hnd in He. destruct Hr as [Epc|Epc]; rewrite Epc in He; destruct (Tomb_Stopping _); try done; by injection He. }
    split; [constructor; simpl; (done || by apply set_tomb_wf)|].
    split; [by intros [? ?]|]. intros [[c Hc']|[]]. destruct Hr; congruence.
  - unfold Tomb_Stop_close in He. destruct (tStopClosed _); [done|]. injection He as <-.
    split; [constructor; simpl; (done || by apply set_tomb_wf)|]. unfold crashed. cbn. naive_solver.
Qed.

Lemma ssm_runs_inv g0 ssm0 s0 tr s :
  ssm_inv g0 ssm0 s0 -> sPc s0 = PBegin -> Forall orders_ok tr -> runs ssm_exec s0 tr s ->
  ssm_inv g0 ssm0 s /\ (crashed s <-> Exists (fatal_round ssm0) tr).
Proof.
  intros H0 Hb HF Hr. induction Hr as [|tr s1 a s2 Hr IH Ha].
  { split; [done|]. rewrite Exists_nil. split; [|done]. intros [c Hc]. congruence. }
  apply Forall_app in HF as [HF [Hfa _]%Forall_cons]. destruct (IH HF) as [IH1 IH2].
  destruct (ssm_exec_inv _ _ _ _ _ IH1 Hfa Ha) as [Hi Hc]. split; [done|].
  rewrite Exists_app, Exists_cons, Exists_nil, Hc, IH2. naive_solver.
Qed.

(** The invariant holds when the loop starts. *)
Lemma created_monitor_starts configPath g0 g ssm q :
  NewSystemStatsMonitorOrDie configPath g0 = Ret (g, ssm) -> net_named (NetConfig (ssmConfig ssm)) ->
  exists s0, ssm_Start ssm q g = Ret (Ok false, s0) /\ ssm_inv g ssm s0 /\ sPc s0 = PBegin /\ sCalls s0 = [].
Proof.
  unfold NewSystemStatsMonitorOrDie. destruct (os_ReadFile configPath) as [f|]; [|done].
  destruct (json_Unmarshal f) as [config0|]; [|done].
  destruct (ssc_ApplyConfiguration config0) as [config [[]|]]; [|done].
  destruct (ssc_Validate os_Stat config) as [[]|] eqn:Ev; [|done]. intros H Hnet.
  assert (Hi : (0 <? ssInvokeInterval config)%Z = true).
  { unfold ssc_Validate in Ev. destruct (Z.leb_spec (ssInvokeInterval config) 0); [done|]. by apply Z.ltb_lt. }
  pose proof (new_collectors_config configPath config g0 g ssm H) as Hnc. rewrite Hnc in Hnet.
  apply new_collectors_wf in H as (Hwf & Htomb & Hint & _); [|done].
  eexists. unfold ssm_Start. rewrite Hint, Hi. split; [done|]. split; [|done].
  constructor; simpl; [done | done | done | by rewrite Htomb |]. by exists [].
Qed.

(** C15.  A monitor that was created, with named network metrics, runs: its loop
    starts, and in every run of it the process dies exactly in a round that finds
    no CPU timer or cannot read the command line or the modules ([round_fatal]),
    and in no other.  All calls of [Record] of the completed rounds have reached the
    library, in order, with the name, the value and all tags of the call: no metric
    is nil and no tag is unknown. *)
Theorem system_stats_calls_reach_library configPath g0 g ssm q :
  NewSystemStatsMonitorOrDie configPath g0 = Ret (g, ssm) -> net_named (NetConfig (ssmConfig ssm)) ->
  exists s0, ssm_Start ssm q g = Ret (Ok false, s0) /\
  forall tr s, runs ssm_exec s0 tr s -> Forall orders_ok tr ->
    (crashed s <-> Exists (fatal_round ssm) tr) /\
    exists reqs, Forall2 (carries g) (sCalls s) reqs /\ (library_run (oc g) reqs).1 = oc (sGlobals s).
Proof.
  intros HN Hnet. destruct (created_monitor_starts _ _ _ _ q HN Hnet) as (s0 & Hs & Hinv & Hb & _).
  exists s0. split; [done|]. intros tr s Hr HF. destruct (ssm_runs_inv _ _ _ _ _ Hinv Hb HF Hr) as [[] Hc].
  done.
Qed.

(** Stopping completes: in every run in which the process is alive, once [Stop] has
    closed the stop channel the loop has left, or leaving is possible, and then
    [Stop] returns. *)
Theorem system_stats_stop_returns configPath g0 g ssm q s0 tr s :
  NewSystemStatsMonitorOrDie configPath g0 = Ret (g, ssm) -> net_named (NetConfig (ssmConfig ssm)) ->
  ssm_Start ssm q g = Ret (Ok false, s0) -> runs ssm_exec s0 tr s -> Forall orders_ok tr ->
  (forall c, sPc s <> PCrashed c) -> Tomb_Stopping (ssmTomb (sMonitor s)) = true ->
  Tomb_Stop_returns (ssmTomb (sMonitor s)) = true \/
  exists s', ssm_exec s ALeave = Some s' /\ sPc s' = PExited /\
             Tomb_Stop_returns (ssmTomb (sMonitor s')) = true.
Proof.
  intros HN Hnet Hs Hr HF Ha Hstop. destruct (created_monitor_starts _ _ _ _ q HN Hnet) as (s0' & Hs' & Hinv & Hb & _).
  rewrite Hs in Hs'. injection Hs' as <-. destruct (ssm_runs_inv _ _ _ _ _ Hinv Hb HF Hr) as [[_ _ _ Hd _] _].
  unfold Tomb_Stop_returns. destruct (tDoneClosed (ssmTomb (sMonitor s))) eqn:Ed; [by left|]. right.
  unfold ssm_exec. rewrite Hstop. unfold Tomb_Done. rewrite Ed.
  destruct (sPc s) eqn:Epc; [by eexists.. | | by destruct (Ha cause)]. by assert (false = true) by (by apply Hd).
Qed.

(** With an absolute path of its own, the monitor reads the known modules from
    an absolute path: the configured one, or relative to its directory. *)
Theorem known_modules_path_absolute configPath g0 g ssm oc :
  NewSystemStatsMonitorOrDie configPath g0 = Ret (g, ssm) -> ssmOsFeature ssm = Some oc ->
  filepath_IsAbs configPath = true ->
  filepath_IsAbs (KnownModulesConfigPath (ofConfig oc)) = true.
Proof.
  unfold NewSystemStatsMonitorOrDie. destruct (os_ReadFile configPath) as [f|]; [|done].
  destruct (json_Unmarshal f) as [config0|]; [|done].
  destruct (ssc_ApplyConfiguration config0) as [config [[]|]]; [|done].
  destruct (ssc_Validate os_Stat config) as [[]|]; [|done]. intros H Hoc Habs.
  apply new_collectors_feature with (oc := oc) in H; [|done]. rewrite H. unfold resolve_known_modules.
  destruct (filepath_IsAbs (KnownModulesConfigPath (OsFeatureConfig config))) eqn:E; [done|].
  cbn [negb with_known_modules OsFeatureConfig KnownModulesConfigPath].
  by apply Join_IsAbs, Dir_IsAbs.
Qed.
End Monitor.

(** ** A concrete monitor *)
#[local] Existing Instance AsciiUnicode.
#[local] Existing Instance test_library.

Definition sample_config : SystemStatsConfig :=
  mkSSConfig (mkCPUConfig ∅) sample_disk_config (mkHostConfig ∅) (mkMemoryConfig ∅)
    (mkOSFeatureConfig {[ OSFeatureID := mkMetricConfig "os_feature" ]} "")
    (mkNetConfig ∅ (mkIfaceRegexp None)) "" 0 "".

Definition new_sample : ST globals systemStatsMonitor :=
  NewSystemStatsMonitorOrDie (fun _ => Ok "{}") (fun _ => Ok sample_config) (fun _ => Ok tt)
    (Err "no kernel") (fun _ => Err "no release") "/config/system-stats-monitor.json".

Definition sample_ssm : globals * systemStatsMonitor :=
  match new_sample test_globals with
  | Ret r => r
  | Panic _ => (test_globals, mkSSM "" sample_config None None None None None None NewTomb)
  end.

Lemma sample_created : new_sample test_globals = Ret (sample_ssm.1, sample_ssm.2).
Proof.
  assert (H : match new_sample test_globals with Ret _ => true | Panic _ => false end = true)
    by (vm_compute; reflexivity).
  unfold sample_ssm. by destruct (new_sample test_globals) as [[g ssm]|].
Qed.

Lemma sample_named : net_named (NetConfig (ssmConfig sample_ssm.2)).
Proof.
  intros id mc _ H. replace (netMetricsConfigs (NetConfig (ssmConfig sample_ssm.2))) with (∅ : gmap string MetricConfig) in H
    by (vm_compute; reflexivity). by rewrite lookup_empty in H.
Qed.

(** A round that reads the command line and the modules, and one that cannot. *)
Definition sample_env (cmdline : result (list string * bool)) : roundEnv :=
  mkRoundEnv (mkCpuEnv (Err "no load") (Ok []) (fun _ => Err "no proc") (Err "no stat") []) (sample_disk_env 5)
    (Err "no uptime") (mkMemoryEnv (Err "no proc") (Err "no meminfo"))
    (mkFeatureEnv (fun path => if String.eqb path "/proc/cmdline" then cmdline
                               else Ok (["nvidia 100 0 - Live 0x0 (POE)"], false)) (fun _ => []))
    (mkNetEnv (fun _ => Err "no proc") (Err "no devices") [] (fun _ => [])).
Definition all_tags (c : call) : list string := (map_to_list (callTags c)).*1.
Lemma round_orders env : orders_ok (ARound env all_tags).
Proof. intros c. unfold visits, all_tags. reflexivity. Qed.

Definition good_round : ssm_action := ARound (sample_env (Ok (["csm.enabled=1 quiet"], false))) all_tags.
Definition bad_round : ssm_action := ARound (sample_env (Err "no cmdline")) all_tags.

Definition sample_sys : ssm_sys := mkSys sample_ssm.2 false sample_ssm.1 PBegin [].
Definition sample_after (tr : list ssm_action) : ssm_sys := default sample_sys (run_from ssm_exec sample_sys tr).

(** The first round makes six calls, which reach the library; the second ends the
    process. *)
Lemma system_stats_calls_reach_library_witness :
  ~ crashed (sample_after [good_round]) /\ crashed (sample_after [good_round; bad_round]) /\
  exists reqs, length reqs = 6 /\ (library_run (oc sample_ssm.1) reqs).1 = oc (sGlobals (sample_after [good_round])).
Proof.
  destruct (system_stats_calls_reach_library (fun _ => Ok "{}") (fun _ => Ok sample_config) (fun _ => Ok tt)
    (Err "no kernel") (fun _ => Err "no release") "/config/system-stats-monitor.json" test_globals
    sample_ssm.1 sample_ssm.2 false sample_created sample_named) as (s0 & H & Hrun).
  assert (E : ssm_Start sample_ssm.2 false sample_ssm.1 = Ret (Ok false, sample_sys)) by (vm_compute; reflexivity).
  rewrite E in H. injection H as <-.
  assert (Hr : forall tr, is_Some (run_from ssm_exec sample_sys tr) -> runs ssm_exec sample_sys tr (sample_after tr)).
  { intros tr [s Hs]. apply run_from_runs. unfold sample_after. by rewrite Hs. }
  destruct (Hrun [good_round] (sample_after [good_round])) as [Hc1 (reqs & HR & Ho)].
  { apply Hr. vm_compute. eexists. reflexivity. }
  { apply Forall_cons. split; [apply round_orders|apply Forall_nil_2]. }
  destruct (Hrun [good_round; bad_round] (sample_after [good_round; bad_round])) as [Hc2 _].
  { apply Hr. vm_compute. eexists. reflexivity. }
  { apply Forall_cons. split; [apply round_orders|]. apply Forall_cons. split; [apply round_orders|apply Forall_nil_2]. }
  split_and!.
  - rewrite Hc1, Exists_cons, Exists_nil. intros [Hf|[]]. vm_compute in Hf. discriminate Hf.
  - rewrite Hc2, !Exists_cons. right. left. vm_compute. reflexivity.
  - exists reqs. split; [|exact Ho]. apply Forall2_length in HR. rewrite <- HR. vm_compute. reflexivity.
Defined.

Definition sample_stopped : ssm_sys := mkSys (set_tomb sample_ssm.2 (mkTomb true false)) false sample_ssm.1 PBegin [].

Lemma system_stats_stop_returns_witness :
  exists s', ssm_exec sample_stopped ALeave = Some s' /\ sPc s' = PExited.
Proof.
  destruct (system_stats_stop_returns (fun _ => Ok "{}") (fun _ => Ok sample_config) (fun _ => Ok tt)
    (Err "no kernel") (fun _ => Err "no release") "/config/system-stats-monitor.json" test_globals
    sample_ssm.1 sample_ssm.2 false sample_sys [AStop] sample_stopped sample_created sample_named)
    as [H|(s' & H1 & H2 & _)].
  - vm_compute. reflexivity.
  - apply runs_one. vm_compute. reflexivity.
  - by repeat constructor.
  - vm_compute. discriminate.
  - reflexivity.
  - done.
  - by exists s'.
Defined.

Lemma known_modules_path_absolute_witness :
  filepath_IsAbs "/config/guestosconfig/known-modules.json" = true.
Proof.
  apply (known_modules_path_absolute (fun _ => Ok "{}") (fun _ => Ok sample_config) (fun _ => Ok tt)
    (Err "no kernel") (fun _ => Err "no release") "/config/system-stats-monitor.json" test_globals
    sample_ssm.1 sample_ssm.2
    (mkOsFeature (mkOSFeatureConfig {[ OSFeatureID := mkMetricConfig "os_feature" ]}
                    "/config/guestosconfig/known-modules.json") "/proc" (Some (mkOCMetric "os_feature"))) sample_created).
  - vm_compute. reflexivity.
  - reflexivity.
Defined.
