(* ===== verification/Stackdriver.v ===== *)
(** The Stackdriver exporter ([pkg/exporters/stackdriver]): the metric types, the
    metadata of the instance with its retries, and the construction.

    The metadata server, the OpenCensus exporter of Stackdriver, the file system
    and the JSON decoder are parameters.  [retry.Do] is followed as far as the
    exporter uses it: a number of attempts, zero meaning no limit. *)

From S2P Require Import Prelude GoStrings GoTime GoPath Options Metrics Recording SystemStatsConfig.

(** ** Metric types *)

(* @ pkg/exporters/stackdriver/stackdriver_exporter.go:50-96 NPDMetricToSDMetric *)
Definition NPDMetricToSDMetric : list (string * string) :=
  [(CPURunnableTaskCountID, "compute.googleapis.com/guest/cpu/runnable_task_count");
   (CPUUsageTimeID, "compute.googleapis.com/guest/cpu/usage_time");
   (CPULoad1m, "compute.googleapis.com/guest/cpu/load_1m");
   (CPULoad5m, "compute.googleapis.com/guest/cpu/load_5m");
   (CPULoad15m, "compute.googleapis.com/guest/cpu/load_15m");
   (DiskAvgQueueLenID, "compute.googleapis.com/guest/disk/queue_length");
   (DiskBytesUsedID, "compute.googleapis.com/guest/disk/bytes_used");
   (DiskPercentUsedID, "compute.googleapis.com/guest/disk/percent_used");
   (DiskIOTimeID, "compute.googleapis.com/guest/disk/io_time");
   (DiskMergedOpsCountID, "compute.googleapis.com/guest/disk/merged_operation_count");
   (DiskOpsBytesID, "compute.googleapis.com/guest/disk/operation_bytes_count");
   (DiskOpsCountID, "compute.googleapis.com/guest/disk/operation_count");
   (DiskOpsTimeID, "compute.googleapis.com/guest/disk/operation_time");
   (DiskWeightedIOID, "compute.googleapis.com/guest/disk/weighted_io_time");
   (HostUptimeID, "compute.googleapis.com/guest/system/uptime");
   (MemoryAnonymousUsedID, "compute.googleapis.com/guest/memory/anonymous_used");
   (MemoryBytesUsedID, "compute.googleapis.com/guest/memory/bytes_used");
   (MemoryDirtyUsedID, "compute.googleapis.com/guest/memory/dirty_used");
   (MemoryPageCacheUsedID, "compute.googleapis.com/guest/memory/page_cache_used");
   (MemoryUnevictableUsedID, "compute.googleapis.com/guest/memory/unevictable_used");
   (MemoryPercentUsedID, "compute.googleapis.com/guest/memory/percent_used");
   (ProblemCounterID, "compute.googleapis.com/guest/system/problem_count");
   (ProblemGaugeID, "compute.googleapis.com/guest/system/problem_state");
   (OSFeatureID, "compute.googleapis.com/guest/system/os_feature_enabled");
   (SystemProcessesTotal, "kubernetes.io/internal/node/guest/system/processes_total");
   (SystemProcsRunning, "kubernetes.io/internal/node/guest/system/procs_running");
   (SystemProcsBlocked, "kubernetes.io/internal/node/guest/system/procs_blocked");
   (SystemInterruptsTotal, "kubernetes.io/internal/node/guest/system/interrupts_total");
   (SystemCPUStat, "kubernetes.io/internal/node/guest/system/cpu_stat");
   (NetDevRxBytes, "kubernetes.io/internal/node/guest/net/rx_bytes");
   (NetDevRxPackets, "kubernetes.io/internal/node/guest/net/rx_packets");
   (NetDevRxErrors, "kubernetes.io/internal/node/guest/net/rx_errors");
   (NetDevRxDropped, "kubernetes.io/internal/node/guest/net/rx_dropped");
   (NetDevRxFifo, "kubernetes.io/internal/node/guest/net/rx_fifo");
   (NetDevRxFrame, "kubernetes.io/internal/node/guest/net/rx_frame");
   (NetDevRxCompressed, "kubernetes.io/internal/node/guest/net/rx_compressed");
   (NetDevRxMulticast, "kubernetes.io/internal/node/guest/net/rx_multicast");
   (NetDevTxBytes, "kubernetes.io/internal/node/guest/net/tx_bytes");
   (NetDevTxPackets, "kubernetes.io/internal/node/guest/net/tx_packets");
   (NetDevTxErrors, "kubernetes.io/internal/node/guest/net/tx_errors");
   (NetDevTxDropped, "kubernetes.io/internal/node/guest/net/tx_dropped");
   (NetDevTxFifo, "kubernetes.io/internal/node/guest/net/tx_fifo");
   (NetDevTxCollisions, "kubernetes.io/internal/node/guest/net/tx_collisions");
   (NetDevTxCarrier, "kubernetes.io/internal/node/guest/net/tx_carrier");
   (NetDevTxCompressed, "kubernetes.io/internal/node/guest/net/tx_compressed")].

Fixpoint assoc (k : string) (l : list (string * string)) : option string :=
  match l with
  | [] => None
  | (k', v) :: l => if String.eqb k k' then Some v else assoc k l
  end.

(* @ pkg/exporters/stackdriver/stackdriver_exporter.go:98-118 getMetricTypeConversionFunction *)
Definition getMetricTypeConversionFunction (mm : MetricMapping) (customMetricPrefix viewName : string) : string :=
  let fallbackMetricType :=
    if String.eqb customMetricPrefix "" then "" else filepath_Join [customMetricPrefix; viewName] in
  match ViewNameToMetricID mm viewName with
  | None => fallbackMetricType
  | Some metricID =>
    match assoc metricID NPDMetricToSDMetric with
    | None => fallbackMetricType
    | Some stackdriverMetricType => stackdriverMetricType
    end
  end.

(** ** The metadata of the instance *)

(* @ pkg/exporters/stackdriver/gce/type.go:26-31 Metadata *)
Record Metadata : Type := mkMetadata {
  ProjectID : string; Zone : string; InstanceID : string; InstanceName : string
}.

(* @ pkg/exporters/stackdriver/gce/type.go:33-38 HasMissingField *)
Definition HasMissingField (md : Metadata) : bool :=
  String.eqb (ProjectID md) "" || String.eqb (Zone md) "" ||
  String.eqb (InstanceID md) "" || String.eqb (InstanceName md) "".

(** The answers of the metadata server to one attempt. *)
Record gceServer : Type := mkServer {
  srvProjectID : result string; srvZone : result string;
  srvInstanceID : result string; srvInstanceName : result string
}.

(** A field that is set is kept; one that cannot be fetched stays empty. *)
Definition fetch (field : string) (answer : result string) : string * bool :=
  if String.eqb field "" then match answer with Ok v => (v, true) | Err _ => ("", false) end
  else (field, true).

(* @ pkg/exporters/stackdriver/gce/type.go:40-71 PopulateFromGCE *)
Definition PopulateFromGCE (md : Metadata) (srv : gceServer) : Metadata * bool :=
  let '(project, ok) := fetch (ProjectID md) (srvProjectID srv) in
  let md := mkMetadata project (Zone md) (InstanceID md) (InstanceName md) in
  if negb ok then (md, false)
  else
    let '(zone, ok) := fetch (Zone md) (srvZone srv) in
    let md := mkMetadata project zone (InstanceID md) (InstanceName md) in
    if negb ok then (md, false)
    else
      let '(instance, ok) := fetch (InstanceID md) (srvInstanceID srv) in
      let md := mkMetadata project zone instance (InstanceName md) in
      if negb ok then (md, false)
      else
        let '(name, ok) := fetch (InstanceName md) (srvInstanceName srv) in
        (mkMetadata project zone instance name, ok).

(** ** The configuration *)

(* @ pkg/exporters/stackdriver/config/config.go:32-40 StackdriverExporterConfig *)
Record StackdriverExporterConfig : Type := mkSDConfig {
  ExportPeriod : string;
  APIEndpoint : string;
  GCEMetadata : Metadata;
  MetadataFetchTimeout : string;
  MetadataFetchInterval : string;
  PanicOnMetadataFetchFailure : bool;
  CustomMetricPrefix : string
}.

Definition with_metadata (c : StackdriverExporterConfig) (md : Metadata) : StackdriverExporterConfig :=
  mkSDConfig (ExportPeriod c) (APIEndpoint c) md (MetadataFetchTimeout c) (MetadataFetchInterval c)
    (PanicOnMetadataFetchFailure c) (CustomMetricPrefix c).

(* @ pkg/exporters/stackdriver/config/config.go:42-56 ApplyConfiguration *)
Definition sec_ApplyConfiguration (c : StackdriverExporterConfig) : StackdriverExporterConfig :=
  mkSDConfig (or_default (ExportPeriod c) (Duration_String (60 * Second)))
    (or_default (APIEndpoint c) "monitoring.googleapis.com:443")
    (GCEMetadata c)
    (or_default (MetadataFetchTimeout c) (Duration_String (600 * Second)))
    (or_default (MetadataFetchInterval c) (Duration_String (10 * Second)))
    (PanicOnMetadataFetchFailure c) (CustomMetricPrefix c).

(** ** Retries *)

(** How far [retry.Do] has come with the answers of the server so far: it
    returned, or it is still retrying. *)
Inductive retried : Type := Succeeded (md : Metadata) | GaveUp (md : Metadata) | Retrying (md : Metadata).

(** [attempts] is the limit less the attempts made, [None] for no limit. *)
Fixpoint retry_Do (attempts : option Z) (md : Metadata) (servers : list gceServer) : retried :=
  match servers with
  | [] => Retrying md
  | srv :: servers =>
    let '(md, ok) := PopulateFromGCE md srv in
    if ok then Succeeded md
    else
      match attempts with
      | None => retry_Do None md servers
      | Some n => if (n =? 1)%Z then GaveUp md else retry_Do (Some (n - 1)%Z) md servers
      end
  end.

(** [uint(timeout/interval)], with the panic of a zero divisor; zero is no limit. *)
Definition fetch_attempts (timeout interval : Duration) : outcome (option Z) :=
  if (interval =? 0)%Z then Panic "integer divide by zero"
  else
    let n := uint64 (int64 (Z.quot timeout interval)) in
    Ret (if (n =? 0)%Z then None else Some n).

(** The metadata after populating it, [None] while that has not ended. *)
(* @ pkg/exporters/stackdriver/stackdriver_exporter.go:154-184 populateMetadataOrDie *)
Definition populateMetadataOrDie (c : StackdriverExporterConfig) (servers : list gceServer)
    : outcome (option StackdriverExporterConfig) :=
  if negb (HasMissingField (GCEMetadata c)) then Ret (Some c)
  else
    match ParseDuration (MetadataFetchTimeout c) with
    | Err _ => Panic "Failed to parse MetadataFetchTimeout"
    | Ok timeout =>
      match ParseDuration (MetadataFetchInterval c) with
      | Err _ => Panic "Failed to parse MetadataFetchInterval"
      | Ok interval =>
        attempts ← fetch_attempts timeout interval;
        match retry_Do attempts (GCEMetadata c) servers with
        | Succeeded md => Ret (Some (with_metadata c md))
        | GaveUp md =>
          if PanicOnMetadataFetchFailure c then Panic "Failed to populate GCE metadata"
          else Ret (Some (with_metadata c md))
        | Retrying _ => Ret None
        end
      end
    end.

(** ** Construction *)

(** What is handed to the Stackdriver library. *)
Record exporterOptions : Type := mkExporterOptions {
  eoProjectID : string; eoInstanceID : string; eoZone : string; eoInstanceName : string;
  eoEndpoint : string; eoMetricPrefix : string
}.

Section Exporter.
Variable stackdriver_NewExporter : exporterOptions -> result unit.
Variable os_ReadFile : string -> result string.
Variable json_Unmarshal : string -> result StackdriverExporterConfig.

(** The options and the reporting period that were set up. *)
(* @ pkg/exporters/stackdriver/stackdriver_exporter.go:124-152 setupOpenCensusViewExporterOrDie *)
Definition setupOpenCensusViewExporterOrDie (c : StackdriverExporterConfig)
    : outcome (exporterOptions * Duration) :=
  let md := GCEMetadata c in
  let options := mkExporterOptions (ProjectID md) (InstanceID md) (Zone md) (InstanceName md)
                   (APIEndpoint c) (CustomMetricPrefix c) in
  match stackdriver_NewExporter options with
  | Err _ => Panic "Failed to create Stackdriver OpenCensus view exporter"
  | Ok _ =>
    match ParseDuration (ExportPeriod c) with
    | Err _ => Panic "Failed to parse ExportPeriod"
    | Ok exportPeriod => Ret (options, exportPeriod)
    end
  end.

(** [clo] is the path of the options, [None] when they have another type.  The
    result is nil without a path; [None] while the metadata is fetched. *)
(* @ pkg/exporters/stackdriver/stackdriver_exporter.go:200-229 NewExporterOrDie *)
Definition NewExporterOrDie (clo : option string) (servers : list gceServer)
    : outcome (option (option (StackdriverExporterConfig * exporterOptions * Duration))) :=
  match clo with
  | None => Panic "Wrong type for the command line options of Stackdriver Exporter"
  | Some configPath =>
    if String.eqb configPath "" then Ret (Some None)
    else
      match os_ReadFile configPath with
      | Err _ => Panic "Failed to read configuration file"
      | Ok f =>
        match json_Unmarshal f with
        | Err _ => Panic "Failed to unmarshal configuration file"
        | Ok config =>
          populated ← populateMetadataOrDie (sec_ApplyConfiguration config) servers;
          match populated with
          | None => Ret None
          | Some config =>
            '(options, period) ← setupOpenCensusViewExporterOrDie config;
            Ret (Some (Some (config, options, period)))
          end
        end
      end
  end.
End Exporter.

(** ** Every metric has a type of its own *)
Lemma sd_types_total : Forall (fun id => is_Some (assoc id NPDMetricToSDMetric)) MetricIDs.
Proof. apply (bool_decide_unpack _). vm_compute. exact I. Qed.

Lemma sd_types_inj : NoDup (omap (fun id => assoc id NPDMetricToSDMetric) MetricIDs).
Proof. apply (bool_decide_unpack _). vm_compute. exact I. Qed.

Lemma NewInt64Metric_keeps_mapping {Key OC} (newKey : string -> result Key) register g id name desc u agg tags
    (g' : globals (Key := Key) (OC := OC)) r other :
  NewInt64Metric newKey register g id name desc u agg tags = (g', r) -> other <> name ->
  ViewNameToMetricID (metricMap g') other = ViewNameToMetricID (metricMap g) other.
Proof.
  unfold NewInt64Metric. intros H Hne. destruct (String.eqb name ""); [by injection H as <- _|].
  assert (Hm : ViewNameToMetricID (AddMapping (metricMap g) id name) other = ViewNameToMetricID (metricMap g) other)
    by (unfold ViewNameToMetricID, AddMapping; simpl; by apply lookup_insert_ne).
  destruct (getTagKeysFromNames _ _ _) as [tm [ks|]]; [|by injection H as <- _].
  destruct (_ || _); [|by injection H as <- _]. simpl in H.
  by destruct (register _ _ _ _ _) as [o [[]|]]; injection H as <- _.
Qed.

Lemma omap_NoDup_inj {A B} (f : A -> option B) l x y b :
  NoDup (omap f l) -> x ∈ l -> y ∈ l -> f x = Some b -> f y = Some b -> NoDup l -> x = y.
Proof.
  intros HN Hx Hy Hfx Hfy Hl. induction l as [|z l IH]; [by apply not_elem_of_nil in Hx|].
  apply NoDup_cons in Hl as [Hz Hl]. cbn [omap list_omap] in HN.
  apply elem_of_cons in Hx as [->|Hx], Hy as [->|Hy].
  - done.
  - rewrite Hfx in HN. apply NoDup_cons in HN as [Hn _]. exfalso. apply Hn, list_elem_of_omap. eauto.
  - rewrite Hfy in HN. apply NoDup_cons in HN as [Hn _]. exfalso. apply Hn, list_elem_of_omap. eauto.
  - apply IH; [|done..]. destruct (f z); [by apply NoDup_cons in HN as [_ ?] | done].
Qed.

(** C24.  A metric of the program is exported under the Stackdriver type of its
    identifier, which no other identifier has, whatever prefix is configured and
    whatever metrics with other names are created after it. *)
Theorem stackdriver_metric_types {lib : OpenCensus} g id name desc u agg tags g1 m defs g2 prefix :
  NewInt64Metric tag_NewKey view_Register g id name desc u agg tags = (g1, Ok (Some m)) -> id ∈ MetricIDs ->
  g2 = foldl (fun g '(i, n, d, un, a, ts) => (NewInt64Metric tag_NewKey view_Register g i n d un a ts).1) g1 defs ->
  Forall (fun '(i, n, d, un, a, ts) => n <> name) defs ->
  exists t, assoc id NPDMetricToSDMetric = Some t /\
    getMetricTypeConversionFunction (metricMap g2) prefix (mName m) = t /\
    forall id', id' ∈ MetricIDs -> assoc id' NPDMetricToSDMetric = Some t -> id' = id.
Proof.
  intros HN Hid -> Hdefs. apply NewInt64Metric_Some in HN as (-> & _ & _ & _ & _ & Hmap).
  assert (Hmap2 : ViewNameToMetricID (metricMap (foldl (fun g '(i, n, d, un, a, ts) =>
    (NewInt64Metric tag_NewKey view_Register g i n d un a ts).1) g1 defs)) name = Some id).
  { revert g1 Hmap. induction Hdefs as [|[[[[[i n] d] un] a] ts] defs Hne _ IH]; intros g1 Hmap; [done|].
    simpl. apply IH. destruct (NewInt64Metric _ _ _ _ _ _ _ _ _) as [g' r] eqn:E. simpl.
    by rewrite (NewInt64Metric_keeps_mapping _ _ _ _ _ _ _ _ _ _ _ name E). }
  pose proof sd_types_total as Ht. rewrite Forall_forall in Ht. destruct (Ht id Hid) as [t Et].
  exists t. split_and!; [done | |].
  - unfold getMetricTypeConversionFunction. cbn [mName]. by rewrite Hmap2, Et.
  - intros id' Hid' Et'. eapply omap_NoDup_inj; [apply sd_types_inj | done.. | apply MetricIDs_NoDup].
Qed.

(** ** Fetching the metadata *)

(** The attempts one after the other: the metadata after each, and whether it
    succeeded. *)
Fixpoint tries (md : Metadata) (servers : list gceServer) : list (Metadata * bool) :=
  match servers with
  | [] => []
  | srv :: servers => PopulateFromGCE md srv :: tries (PopulateFromGCE md srv).1 servers
  end.

Lemma retry_Do_limited n md servers :
  (0 < n)%Z -> (n <= Z.of_nat (length servers))%Z ->
  let tried := take (Z.to_nat n) (tries md servers) in
  retry_Do (Some n) md servers =
  match find snd tried with
  | Some (md', _) => Succeeded md'
  | None => GaveUp (default md (fst <$> last tried))
  end.
Proof.
  revert n md. induction servers as [|srv servers IH]; intros n md Hn Hl; [simpl in Hl; lia|].
  cbn [retry_Do tries length] in *. replace (Z.to_nat n) with (S (Z.to_nat (n - 1))) by lia. cbn [take find].
  destruct (PopulateFromGCE md srv) as [md1 ok] eqn:E. cbn [fst snd]. destruct ok; [done|].
  destruct (Z.eqb_spec n 1) as [->|Hne]; [done|].
  rewrite IH by lia. destruct (find snd _) as [[md' b]|]; [done|]. f_equal.
  rewrite last_cons. by destruct (last (take (Z.to_nat (n - 1)) (tries md1 servers))) as [[md2 b2]|].
Qed.

Lemma retry_Do_unlimited md servers :
  find snd (tries md servers) = None -> exists md', retry_Do None md servers = Retrying md'.
Proof.
  revert md. induction servers as [|srv servers IH]; intros md H; [by exists md|].
  cbn [retry_Do tries find] in *. destruct (PopulateFromGCE md srv) as [md1 [|]]; [done|]. by apply IH.
Qed.

(** With an interval of at most the timeout, the number of attempts is their
    quotient, and it is enough to know that many answers of the server: the first
    attempt that succeeds gives the metadata; when none does, the process ends if
    it was configured to, and otherwise the exporter continues with what was
    fetched. *)
Theorem metadata_fetch_bounded c timeout interval servers :
  HasMissingField (GCEMetadata c) = true ->
  ParseDuration (MetadataFetchTimeout c) = Ok timeout -> ParseDuration (MetadataFetchInterval c) = Ok interval ->
  (0 < interval <= timeout)%Z -> (timeout <= int64_max)%Z ->
  (timeout / interval <= Z.of_nat (length servers))%Z ->
  let tried := take (Z.to_nat (timeout / interval)) (tries (GCEMetadata c) servers) in
  populateMetadataOrDie c servers =
  match find snd tried with
  | Some (md, _) => Ret (Some (with_metadata c md))
  | None =>
    if PanicOnMetadataFetchFailure c then Panic "Failed to populate GCE metadata"
    else Ret (Some (with_metadata c (default (GCEMetadata c) (fst <$> last tried))))
  end.
Proof.
  intros Hmiss Ht Hi Hle Hmax Hlen tried. unfold populateMetadataOrDie. rewrite Hmiss, Ht, Hi. cbn [negb].
  assert (Hq : (1 <= timeout / interval <= timeout)%Z).
  { split; [apply Z.div_le_lower_bound; lia|]. apply Z.div_le_upper_bound; nia. }
  unfold fetch_attempts. rewrite (proj2 (Z.eqb_neq interval 0)) by lia. rewrite Z.quot_div_nonneg by lia.
  rewrite int64_id by (unfold in_int64, int64_min; lia). unfold uint64, int64_max in *.
  rewrite Z.mod_small by lia. rewrite (proj2 (Z.eqb_neq _ 0)) by lia. ret_step.
  rewrite retry_Do_limited by lia. fold tried. by destruct (find snd tried) as [[md b]|].
Qed.

(** With a timeout shorter than the interval there is no limit: as long as the
    server does not answer, the exporter is not created and the process neither
    ends nor continues. *)
Theorem metadata_fetch_unbounded c timeout interval servers :
  HasMissingField (GCEMetadata c) = true ->
  ParseDuration (MetadataFetchTimeout c) = Ok timeout -> ParseDuration (MetadataFetchInterval c) = Ok interval ->
  (0 <= timeout < interval)%Z -> find snd (tries (GCEMetadata c) servers) = None ->
  populateMetadataOrDie c servers = Ret None.
Proof.
  intros Hmiss Ht Hi Hlt Hno. unfold populateMetadataOrDie. rewrite Hmiss, Ht, Hi. cbn [negb].
  unfold fetch_attempts. rewrite (proj2 (Z.eqb_neq interval 0)) by lia.
  rewrite Z.quot_small by lia. change (uint64 (int64 0)) with 0%Z. ret_step.
  destruct (retry_Do_unlimited _ _ Hno) as [md' E]. change (if (0 =? 0)%Z then None else Some 0%Z) with (@None Z).
  by rewrite E.
Qed.

(** *** Configured fields are kept *)
Definition md_fields : list (Metadata -> string) := [ProjectID; Zone; InstanceID; InstanceName].

Definition kept (md md' : Metadata) : Prop := forall f, f ∈ md_fields -> f md <> "" -> f md' = f md.

Lemma kept_trans md1 md2 md3 : kept md1 md2 -> kept md2 md3 -> kept md1 md3.
Proof. intros H1 H2 f Hf Hne. rewrite H2; [by apply H1 | done | by rewrite H1]. Qed.

Lemma fetch_kept field answer v ok : fetch field answer = (v, ok) -> field <> "" -> v = field.
Proof.
  unfold fetch. intros H Hne. rewrite (proj2 (String.eqb_neq _ _)) in H by done. by injection H.
Qed.

Lemma PopulateFromGCE_kept md srv : kept md (PopulateFromGCE md srv).1.
Proof.
  intros f Hf Hne. unfold PopulateFromGCE.
  destruct (fetch (ProjectID md) (srvProjectID srv)) as [p ok1] eqn:E1.
  destruct (fetch (Zone md) (srvZone srv)) as [z ok2] eqn:E2.
  destruct (fetch (InstanceID md) (srvInstanceID srv)) as [i ok3] eqn:E3.
  destruct (fetch (InstanceName md) (srvInstanceName srv)) as [n ok4] eqn:E4.
  unfold md_fields in Hf. rewrite !elem_of_cons in Hf.
  destruct Hf as [->|[->|[->|[->|Hf]]]]; [..|by apply not_elem_of_nil in Hf];
    destruct ok1, ok2, ok3; cbn; rewrite ?E2, ?E3, ?E4; cbn; rewrite ?E3, ?E4; cbn; rewrite ?E4; cbn;
    eauto using fetch_kept.
Qed.

Definition retried_md (r : retried) : Metadata :=
  match r with Succeeded md | GaveUp md | Retrying md => md end.

Lemma retry_Do_kept attempts md servers : kept md (retried_md (retry_Do attempts md servers)).
Proof.
  revert attempts md. induction servers as [|srv servers IH]; intros attempts md; [done|].
  cbn [retry_Do]. pose proof (PopulateFromGCE_kept md srv) as Hk.
  destruct (PopulateFromGCE md srv) as [md1 [|]]; [done|]. cbn [fst] in Hk.
  destruct attempts as [n|]; [|by eapply kept_trans].
  destruct (n =? 1)%Z; [done|]. by eapply kept_trans.
Qed.

Lemma populate_kept c servers c' :
  populateMetadataOrDie c servers = Ret (Some c') ->
  kept (GCEMetadata c) (GCEMetadata c') /\ c' = with_metadata c (GCEMetadata c').
Proof.
  unfold populateMetadataOrDie. destruct (negb _); [intros [= <-]; by destruct c|].
  destruct (ParseDuration (MetadataFetchTimeout c)) as [timeout|]; [|done].
  destruct (ParseDuration (MetadataFetchInterval c)) as [interval|]; [|done].
  destruct (fetch_attempts timeout interval) as [attempts|]; [|done]. ret_step.
  pose proof (retry_Do_kept attempts (GCEMetadata c) servers) as Hk.
  destruct (retry_Do attempts (GCEMetadata c) servers) as [md|md|md]; cbn [retried_md] in Hk; [| |done].
  - by intros [= <-].
  - destruct (PanicOnMetadataFetchFailure c); [done|]. by intros [= <-].
Qed.

(** An exporter that was created reports under the identity of the configuration
    file: a field that is set there is handed to Stackdriver as it is, whatever
    the metadata server answers; the endpoint, the prefix and the period are
    those of the file or their defaults. *)
Theorem stackdriver_configured_identity NewExporter ReadFile Unmarshal path servers config options period :
  NewExporterOrDie NewExporter ReadFile Unmarshal (Some path) servers = Ret (Some (Some (config, options, period))) ->
  exists f file, ReadFile path = Ok f /\ Unmarshal f = Ok file /\
    let md := mkMetadata (eoProjectID options) (eoZone options) (eoInstanceID options) (eoInstanceName options) in
    kept (GCEMetadata file) md /\ GCEMetadata config = md /\
    eoEndpoint options = or_default (APIEndpoint file) "monitoring.googleapis.com:443" /\
    eoMetricPrefix options = CustomMetricPrefix file /\
    ParseDuration (or_default (ExportPeriod file) "1m0s") = Ok period.
Proof.
  unfold NewExporterOrDie. destruct (String.eqb path ""); [done|].
  destruct (ReadFile path) as [f|]; [|done]. destruct (Unmarshal f) as [file|] eqn:Eu; [|done].
  destruct (populateMetadataOrDie (sec_ApplyConfiguration file) servers) as [[c'|]|] eqn:Ep; [|done..].
  apply populate_kept in Ep as [Hk Hc]. ret_step. unfold setupOpenCensusViewExporterOrDie.
  destruct (NewExporter _) as [[]|]; [|done]. destruct (ParseDuration (ExportPeriod c')) as [p|] eqn:Epd; [|done].
  ret_step. intros [= <- <- <-]. exists f, file. split; [done|]. split; [done|]. cbv zeta. cbn.
  rewrite Hc in Epd. cbn in Epd. destruct (GCEMetadata c') as [a b d e] eqn:Em. cbn.
  split_and!; [done | done | by rewrite Hc | by rewrite Hc | exact Epd].
Qed.

(** ** Concrete configurations *)
Definition sample_sd (timeout : string) : StackdriverExporterConfig :=
  mkSDConfig "" "" (mkMetadata "project" "" "" "") timeout "10s" true "".
Definition down : gceServer := mkServer (Err "e") (Err "e") (Err "e") (Err "e").
Definition up : gceServer := mkServer (Ok "other") (Ok "zone") (Ok "42") (Ok "vm").

Lemma metadata_fetch_bounded_witness :
  populateMetadataOrDie (sample_sd "20s") [down; up] =
  Ret (Some (with_metadata (sample_sd "20s") (mkMetadata "project" "zone" "42" "vm"))).
Proof.
  exact (metadata_fetch_bounded (sample_sd "20s") (20 * Second) (10 * Second) [down; up] eq_refl eq_refl eq_refl
    ltac:(unfold Second; lia) ltac:(vm_compute; done) ltac:(vm_compute; done)).
Defined.

Lemma metadata_fetch_unbounded_witness : populateMetadataOrDie (sample_sd "5s") [down; down; down] = Ret None.
Proof.
  apply (metadata_fetch_unbounded (sample_sd "5s") (5 * Second) (10 * Second));
    [reflexivity | reflexivity | reflexivity | unfold Second; lia | reflexivity].
Defined.

Lemma stackdriver_metric_types_witness :
  exists t, assoc HostUptimeID NPDMetricToSDMetric = Some t /\ t = "compute.googleapis.com/guest/system/uptime".
Proof.
  destruct (stackdriver_metric_types (lib := test_library) test_globals HostUptimeID "host/uptime" "d" "s"
    LastValue ["kernel_version"] _ _ [] _ "" eq_refl ltac:(apply (bool_decide_unpack _); vm_compute; exact I)
    eq_refl ltac:(constructor)) as (t & H & _).
  exists t. split; [done|]. by injection H.
Defined.

Lemma stackdriver_configured_identity_witness :
  exists f file, (fun _ : string => Ok "{}") "sd.json" = Ok f /\ (fun _ : string => Ok (sample_sd "20s")) f = Ok file.
Proof.
  destruct (stackdriver_configured_identity (fun _ => Ok tt) (fun _ => Ok "{}") (fun _ => Ok (sample_sd "20s"))
    "sd.json" [down; up] _ _ _ eq_refl) as (f & file & H1 & H2 & _).
  by exists f, file.
Defined.
