(* ===== verification/TailReader.v ===== *)
(** The reader that follows a log file through rotations
    ([third_party/forked/cadvisor/tail/tail_linux.go]): the watch goroutine, the
    lock it shares with [Read], and [Close], as a transition system.

    inotify, the file system and the timer are inputs of the steps. *)

From S2P Require Import Prelude GoStrings GoConv GoTime GoPath FilelogWatcher Transitions.

(** ** State *)
Definition defaultRetryInterval : Duration := (100 * Millisecond)%Z.
Definition maxRetryInterval : Duration := (30 * Second)%Z.

(** A [bufio.Reader] on a file: what it has read ahead, and whether the file is
    still open. *)
Record fileReader : Type := mkReader { rBuffered : string; rOpen : bool }.

(** Where the watch goroutine is: before [attemptOpen], opening with an interval
    or waiting for it (both with the lock), before [AddWatch], in the select, or
    gone. *)
Inductive tail_pc : Type :=
| TStart | TTry (interval : Duration) | TSleep (interval : Duration) | TOpened | TWatching | TEnded.

(** [tAttempts] and [tWaited] describe the current [attemptOpen]. *)
(* @ third_party/forked/cadvisor/tail/tail_linux.go:31-44 Tail *)
Record Tail : Type := mkTail {
  tReader : option fileReader;
  tReaderErr : option read_err;
  tFilename : string;
  tStopped : bool;
  tPc : tail_pc;
  tAttempts : nat;
  tWaited : Duration
}.

(** The goroutine of [watchLoop] is started at once.  [inotify_NewWatcher] may fail. *)
(* @ third_party/forked/cadvisor/tail/tail_linux.go:46-71 NewTail *)
Definition NewTail (inotify_NewWatcher : result unit) (filename : string) : result Tail :=
  match inotify_NewWatcher with
  | Err _ => Err "inotify init failed"
  | Ok _ => Ok (mkTail None (Some EOF) filename false TStart 0 0)
  end.

(** [bufio.Reader.Read] of at most [n > 0] bytes: what is buffered, or one read
    of the file, whose answer is the data there ("" at the end of the file). *)
Definition bufio_Read (r : fileReader) (n : nat) (data : string) : fileReader * (string * read_err) :=
  if String.eqb (rBuffered r) "" then
    if rOpen r then
      if String.eqb data "" then (r, ("", EOF))
      else (mkReader (sdrop n data) (rOpen r), (stake n data, NoErr))
    else (r, ("", ReadErr))
  else (mkReader (sdrop n (rBuffered r)) (rOpen r), (stake n (rBuffered r), NoErr)).

Definition set_reader (t : Tail) (r : option fileReader) : Tail :=
  mkTail r (tReaderErr t) (tFilename t) (tStopped t) (tPc t) (tAttempts t) (tWaited t).

(* @ third_party/forked/cadvisor/tail/tail_linux.go:73-81 Read *)
Definition Tail_Read (t : Tail) (n : nat) (data : string) : outcome (Tail * (string * read_err)) :=
  match tReaderErr t with
  | Some e => Ret (t, ("", e))
  | None =>
    r ← deref (tReader t);
    let '(r, res) := bufio_Read r n data in
    Ret (set_reader t (Some r), res)
  end.

(* @ third_party/forked/cadvisor/tail/tail_linux.go:85-89 Close *)
Definition Tail_Close (t : Tail) : outcome Tail :=
  if tStopped t then Panic "close of closed channel"
  else Ret (mkTail (tReader t) (tReaderErr t) (tFilename t) true (tPc t) (tAttempts t) (tWaited t)).

(** ** Steps *)
Inductive tail_action : Type :=
| TaOpen (ok : bool)             (* os.Open *)
| TaLock                         (* attemptOpen takes the lock *)
| TaTimer                        (* the interval is over *)
| TaStopSeen                     (* a select sees the closed channel *)
| TaWatch (ok : bool)            (* AddWatch *)
| TaEvent (name : string)        (* an event of the directory *)
| TaRead (n : nat) (data : string)
| TaClose.

Definition set_pc (t : Tail) (pc : tail_pc) : Tail :=
  mkTail (tReader t) (tReaderErr t) (tFilename t) (tStopped t) pc (tAttempts t) (tWaited t).

(** The deferred [t.file.Close()]. *)
Definition close_file (t : Tail) : Tail := set_reader t ((fun r => mkReader (rBuffered r) false) <$> tReader t).

(** The lock is held by [attemptOpen]. *)
Definition locked (t : Tail) : bool :=
  match tPc t with TTry _ | TSleep _ => true | _ => false end.

(** One attempt: open the file, or wait, or give up. *)
(* @ third_party/forked/cadvisor/tail/tail_linux.go:91-124 attemptOpen *)
Definition attemptOpen (t : Tail) (interval : Duration) (opened : bool) : Tail :=
  if opened then
    mkTail (Some (mkReader "" true)) (tReaderErr t) (tFilename t) (tStopped t) TOpened (S (tAttempts t)) (tWaited t)
  else if (maxRetryInterval <=? interval)%Z then
    mkTail (tReader t) (Some ReadErr) (tFilename t) (tStopped t) TEnded (S (tAttempts t)) (tWaited t)
  else mkTail (tReader t) (tReaderErr t) (tFilename t) (tStopped t) (TSleep interval) (S (tAttempts t)) (tWaited t).

(** An event of the directory is compared after cleaning its path. *)
(* @ third_party/forked/cadvisor/tail/tail_linux.go:136-162 watchFile *)
Definition watchFile_event (t : Tail) (name : string) : Tail :=
  if String.eqb (filepath_Clean name) (tFilename t) then set_pc (close_file t) TStart else t.

(** The watch goroutine, [Read] and [Close]. *)
(* @ third_party/forked/cadvisor/tail/tail_linux.go:126-162 watchLoop *)
Definition tail_exec (t : Tail) (a : tail_action) : option Tail :=
  match a, tPc t with
  | TaLock, TStart =>
    Some (mkTail (tReader t) None (tFilename t) (tStopped t) (TTry defaultRetryInterval) 0 0)
  | TaOpen ok, TTry interval => Some (attemptOpen t interval ok)
  | TaTimer, TSleep interval =>
    Some (mkTail (tReader t) (tReaderErr t) (tFilename t) (tStopped t) (TTry (interval * 2)%Z)
            (tAttempts t) (tWaited t + interval)%Z)
  | TaStopSeen, TSleep _ =>
    if tStopped t
    then Some (mkTail (tReader t) (Some EOF) (tFilename t) true TEnded (tAttempts t) (tWaited t))
    else None
  | TaWatch ok, TOpened => Some (if ok : bool then set_pc t TWatching else set_pc (close_file t) TEnded)
  | TaEvent name, TWatching => Some (watchFile_event t name)
  | TaStopSeen, TWatching => if tStopped t then Some (set_pc (close_file t) TEnded) else None
  | TaRead n data, _ =>
    if locked t then None
    else match Tail_Read t n data with Ret (t, _) => Some t | Panic _ => None end
  | TaClose, _ => match Tail_Close t with Ret t => Some t | Panic _ => None end
  | _, _ => None
  end.

(** ** The reader and the lock *)

(** What holds at each place; [k] failed attempts doubled the interval [k] times. *)
Definition pc_ok (t : Tail) : Prop :=
  match tPc t with
  | TStart => (tReader t = None /\ tReaderErr t = Some EOF) \/
              (tReaderErr t = None /\ exists r, tReader t = Some r /\ rOpen r = false)
  | TTry i => tReaderErr t = None /\ (i = defaultRetryInterval * 2 ^ Z.of_nat (tAttempts t))%Z /\
              tAttempts t <= 9 /\ (tWaited t = defaultRetryInterval * (2 ^ Z.of_nat (tAttempts t) - 1))%Z
  | TSleep i => tReaderErr t = None /\
              exists k, tAttempts t = S k /\ k <= 8 /\ (i = defaultRetryInterval * 2 ^ Z.of_nat k)%Z /\
                        (tWaited t = defaultRetryInterval * (2 ^ Z.of_nat k - 1))%Z
  | TOpened | TWatching => tReaderErr t = None /\ exists r, tReader t = Some r /\ rOpen r = true
  | TEnded => is_Some (tReaderErr t) \/ exists r, tReader t = Some r
  end.

Record tail_inv (filename : string) (t : Tail) : Prop := mkTailInv {
  tinv_name : tFilename t = filename;
  tinv_pc : pc_ok t;
  tinv_bound : tAttempts t <= 10 /\ (0 <= tWaited t <= 51100 * Millisecond)%Z
}.

Lemma bufio_Read_open r n data : rOpen (bufio_Read r n data).1 = rOpen r.
Proof. unfold bufio_Read. by repeat case_match. Qed.

Lemma NewTail_inv watcher filename t : NewTail watcher filename = Ok t -> tail_inv filename t.
Proof.
  unfold NewTail. destruct watcher; [|done]. intros [= <-]. constructor; simpl; [done | by left |].
  unfold Millisecond. lia.
Qed.

(** Reading changes what is buffered only. *)
Lemma Tail_Read_inv filename t n data t' res :
  tail_inv filename t -> locked t = false -> Tail_Read t n data = Ret (t', res) -> tail_inv filename t'.
Proof.
  intros [Hf Hp Hb] Hl. unfold Tail_Read. destruct (tReaderErr t) as [e|] eqn:Ee; [by intros [= <- <-]|].
  destruct (tReader t) as [r|] eqn:Er; [|done]. cbn [deref]. ret_step.
  pose proof (bufio_Read_open r n data) as Ho. destruct (bufio_Read r n data) as [r' res'].
  intros [= <- <-]. constructor; simpl; [done | | done]. unfold pc_ok, locked in *. cbn [tPc set_reader tReader tReaderErr].
  destruct (tPc t); try done.
  - right. split; [done|]. destruct Hp as [[? _]|[_ (r0 & E & Hr0)]]; [congruence|]. rewrite Er in E. injection E as <-.
    exists r'. split; [done|]. simpl in Ho. congruence.
  - destruct Hp as [_ (r0 & E & Hr0)]. rewrite Er in E. injection E as <-. split; [done|].
    exists r'. split; [done|]. simpl in Ho. congruence.
  - destruct Hp as [_ (r0 & E & Hr0)]. rewrite Er in E. injection E as <-. split; [done|].
    exists r'. split; [done|]. simpl in Ho. congruence.
  - right. by exists r'.
Qed.

Lemma attemptOpen_inv filename t i ok :
  tail_inv filename t -> tPc t = TTry i -> tail_inv filename (attemptOpen t i ok).
Proof.
  intros [Hf Hp Hb] Epc. unfold pc_ok in Hp. rewrite Epc in Hp. destruct Hp as (He & Hi & Ha & Hw).
  unfold attemptOpen. destruct ok; [|destruct (Z.leb_spec maxRetryInterval i) as [Hmax|Hmax]].
  - constructor; simpl; [done | | lia]. unfold pc_ok. simpl. eauto.
  - constructor; simpl; [done | | lia]. left. by eexists.
  - constructor; simpl; [done | | lia]. unfold pc_ok. simpl. split; [done|]. exists (tAttempts t).
    split_and!; [done | | done | done].
    destruct (decide (tAttempts t = 9)) as [E9|]; [|lia]. rewrite E9 in Hi.
    unfold maxRetryInterval, defaultRetryInterval, Second, Millisecond in *. vm_compute in Hi. lia.
Qed.

Lemma tail_exec_inv filename t a t' : tail_inv filename t -> tail_exec t a = Some t' -> tail_inv filename t'.
Proof.
  intros Hinv He. pose proof Hinv as [Hf Hp Hb]. unfold tail_exec in He. destruct a.
  - destruct (tPc t) eqn:Epc; try done. injection He as <-. by apply attemptOpen_inv.
  - destruct (tPc t); try done. injection He as <-.
    constructor; simpl; [done | | unfold Millisecond; lia]. unfold pc_ok. simpl.
    split_and!; [done | by rewrite Z.mul_1_r | lia | by rewrite Z.mul_0_r].
  - unfold pc_ok in Hp. destruct (tPc t) as [|i|i| | |] eqn:Epc; try done. injection He as <-.
    destruct Hp as (He' & k & Ha & Hk & -> & Hw). rewrite Hw in *.
    assert (Hpow : (2 ^ Z.of_nat (S k) = 2 * 2 ^ Z.of_nat k)%Z) by (rewrite Nat2Z.inj_succ, Z.pow_succ_r; lia).
    assert (Hle : (2 ^ Z.of_nat k <= 2 ^ 8)%Z) by (apply Z.pow_le_mono_r; lia).
    assert (Hge : (0 < 2 ^ Z.of_nat k)%Z) by (apply Z.pow_pos_nonneg; lia).
    constructor; simpl; [done | | unfold defaultRetryInterval, Millisecond in *; lia].
    unfold pc_ok. simpl. rewrite Ha, Hpow. split_and!; [done | lia | lia | lia].
  - destruct (tPc t) eqn:Epc; try done; destruct (tStopped t); try done; injection He as <-.
    + constructor; simpl; [done | | lia]. left. by eexists.
    + unfold pc_ok in Hp. rewrite Epc in Hp. destruct Hp as (_ & r & Hr & _).
      constructor; simpl; [done | | lia]. right. simpl. rewrite Hr. by eexists.
  - destruct (tPc t) eqn:Epc; try done. injection He as <-. unfold pc_ok in Hp. rewrite Epc in Hp.
    destruct Hp as (He' & r & Hr & Ho). destruct ok.
    + constructor; simpl; [done | | lia]. unfold pc_ok. simpl. eauto.
    + constructor; simpl; [done | | lia]. right. simpl. rewrite Hr. by eexists.
  - destruct (tPc t) eqn:Epc; try done. injection He as <-. unfold watchFile_event.
    destruct (String.eqb _ _); [|done]. unfold pc_ok in Hp. rewrite Epc in Hp. destruct Hp as (He' & r & Hr & Ho).
    constructor; simpl; [done | | lia]. right. simpl. rewrite Hr. split; [done|]. by eexists.
  - destruct (locked t) eqn:El; [done|]. destruct (Tail_Read t n data) as [[t1 res]|] eqn:Er; [|done].
    injection He as <-. by eapply Tail_Read_inv.
  - unfold Tail_Close in He. destruct (tStopped t); [done|]. injection He as <-. by constructor.
Qed.

Lemma tail_runs_inv watcher filename t0 tr t :
  NewTail watcher filename = Ok t0 -> runs tail_exec t0 tr t -> tail_inv filename t.
Proof.
  intros H0 Hr. eapply (runs_invariant tail_exec (tail_inv filename)); [|by eapply NewTail_inv | done].
  intros s a s'. apply tail_exec_inv.
Qed.

(** ** Properties *)

Lemma tail_readable filename t n data :
  tail_inv filename t -> locked t = false ->
  exists t' res, Tail_Read t n data = Ret (t', res) /\
    (tReader t = None -> res = ("", default EOF (tReaderErr t)) /\ is_Some (tReaderErr t)).
Proof.
  intros [_ Hp _] Hl. unfold Tail_Read.
  destruct (tReaderErr t) as [e|] eqn:Ee; [by eauto 10|].
  assert (Hrd : exists r, tReader t = Some r).
  { unfold pc_ok, locked in *. rewrite Ee in Hp. destruct (tPc t); try done; naive_solver. }
  destruct Hrd as [r Hrd]. rewrite Hrd. cbn [deref]. ret_step.
  destruct (bufio_Read r n data) as [r' res]. eexists _, _. split; [done|]. by intros ?.
Qed.

(** [Read] never dereferences a nil reader, whenever it gets the lock, in any
    interleaving with the watch goroutine and [Close]: until the first open it
    reports the end of the file. *)
Theorem tail_read_returns watcher filename t0 tr t n data :
  NewTail watcher filename = Ok t0 -> runs tail_exec t0 tr t -> locked t = false ->
  exists t' res, Tail_Read t n data = Ret (t', res) /\
    (tReader t = None -> res = ("", default EOF (tReaderErr t)) /\ is_Some (tReaderErr t)).
Proof. intros H0 Hr. apply (tail_readable filename), (tail_runs_inv _ _ _ _ _ H0 Hr). Qed.

(** Opening is tried at most ten times, and the lock is held for at most 51.1
    seconds of waiting: for so long [Read], and with it the stop of a watcher that
    reads, can block. *)
Theorem tail_open_bounded watcher filename t0 tr t :
  NewTail watcher filename = Ok t0 -> runs tail_exec t0 tr t ->
  tAttempts t <= 10 /\ (0 <= tWaited t <= 51100 * Millisecond)%Z.
Proof. intros H0 Hr. by destruct (tail_runs_inv _ _ _ _ _ H0 Hr). Qed.

(** A rotation is noticed exactly when the configured path is in its cleaned form:
    the event of the file is named after the directory and compared with the path
    as it was given. *)
Theorem rotation_noticed_iff_clean watcher filename t0 tr t init b :
  NewTail watcher filename = Ok t0 -> runs tail_exec t0 tr t -> tPc t = TWatching ->
  split_byte 47 filename = init ++ [b] ->
  exists t', tail_exec t (TaEvent (filepath_Dir filename +:+ slash +:+ b)) = Some t' /\
    (filepath_Clean filename = filename -> tPc t' = TStart) /\
    (filepath_Clean filename <> filename -> t' = t).
Proof.
  intros H0 Hr Hpc Hs. pose proof (tail_runs_inv _ _ _ _ _ H0 Hr) as [Hf _ _].
  unfold tail_exec. rewrite Hpc. eexists. split; [done|]. unfold watchFile_event.
  rewrite (Clean_Dir_base filename init b Hs), Hf.
  destruct (String.eqb_spec (filepath_Clean filename) filename); done.
Qed.

Lemma rotation_closes filename t name :
  tail_inv filename t -> tPc t = TWatching -> filepath_Clean name = filename ->
  tail_exec t (TaEvent name) = Some (set_pc (close_file t) TStart) /\
  locked (set_pc (close_file t) TStart) = false /\
  forall n data, (forall r, tReader t = Some r -> rBuffered r = "") ->
    exists t'', Tail_Read (set_pc (close_file t) TStart) n data = Ret (t'', ("", ReadErr)).
Proof.
  intros [Hf Hp _] Hpc Hname. unfold tail_exec, watchFile_event.
  rewrite Hpc, Hname, Hf, String.eqb_refl. unfold pc_ok in Hp. rewrite Hpc in Hp. destruct Hp as (He & r & Hrd & _).
  split_and!; [done..|]. intros n data Hbuf. specialize (Hbuf r Hrd). unfold Tail_Read. cbn. rewrite He, Hrd. cbn.
  unfold bufio_Read. cbn. rewrite Hbuf. cbn. eauto.
Qed.

(** Once a rotation was noticed the old file is closed, and until the goroutine
    has taken the lock a [Read] that finds nothing buffered fails with an error
    that is not the end of the file; this ends the watcher that reads. *)
Theorem rotation_breaks_reader watcher filename t0 tr t name t' :
  NewTail watcher filename = Ok t0 -> runs tail_exec t0 tr t -> tPc t = TWatching ->
  tail_exec t (TaEvent name) = Some t' -> filepath_Clean name = filename ->
  locked t' = false /\
  forall n data, (forall r, tReader t = Some r -> rBuffered r = "") ->
    exists t'', Tail_Read t' n data = Ret (t'', ("", ReadErr)).
Proof.
  intros H0 Hr Hpc He Hname. pose proof (tail_runs_inv _ _ _ _ _ H0 Hr) as Hinv.
  destruct (rotation_closes filename t name Hinv Hpc Hname) as (E & H). rewrite E in He. by injection He as <-.
Qed.

(** *** A run *)
Definition sample_tail (filename : string) : Tail := mkTail None (Some EOF) filename false TStart 0 0.
Definition watching_tail (filename : string) : Tail :=
  mkTail (Some (mkReader "" true)) None filename false TWatching 1 0.

Lemma sample_tail_runs filename :
  runs tail_exec (sample_tail filename) [TaLock; TaOpen true; TaWatch true] (watching_tail filename).
Proof. apply run_from_runs. reflexivity. Qed.

Lemma tail_read_returns_witness :
  exists t' res, Tail_Read (watching_tail "/var/log/messages") 10 "x" = Ret (t', res).
Proof.
  destruct (tail_read_returns (Ok tt) "/var/log/messages" (sample_tail "/var/log/messages")
    [TaLock; TaOpen true; TaWatch true] (watching_tail "/var/log/messages") 10 "x" eq_refl
    (sample_tail_runs _) eq_refl) as (t' & res & H & _). by exists t', res.
Defined.

Lemma tail_open_bounded_witness : tAttempts (watching_tail "/var/log/messages") <= 10.
Proof.
  exact (proj1 (tail_open_bounded (Ok tt) "/var/log/messages" (sample_tail "/var/log/messages")
    [TaLock; TaOpen true; TaWatch true] (watching_tail "/var/log/messages") eq_refl (sample_tail_runs _))).
Defined.

Lemma rotation_noticed_iff_clean_witness :
  exists t', tail_exec (watching_tail "/var/log//messages") (TaEvent "/var/log/messages") = Some t' /\
             t' = watching_tail "/var/log//messages".
Proof.
  destruct (rotation_noticed_iff_clean (Ok tt) "/var/log//messages" (sample_tail "/var/log//messages")
    [TaLock; TaOpen true; TaWatch true] (watching_tail "/var/log//messages") [""; "var"; "log"; ""] "messages"
    eq_refl (sample_tail_runs _) eq_refl eq_refl) as (t' & H1 & _ & H2).
  exists t'. split; [exact H1|]. apply H2. vm_compute. discriminate.
Defined.

Lemma rotation_breaks_reader_witness :
  exists t'', Tail_Read (set_pc (close_file (watching_tail "/var/log/messages")) TStart) 10 "x"
              = Ret (t'', ("", ReadErr)).
Proof.
  refine (proj2 (rotation_breaks_reader (Ok tt) "/var/log/messages" (sample_tail "/var/log/messages")
    [TaLock; TaOpen true; TaWatch true] (watching_tail "/var/log/messages") "/var/log/messages" _ eq_refl
    (sample_tail_runs _) eq_refl eq_refl eq_refl) 10 "x" _).
  by intros r [= <-].
Defined.
