(* ===== verification/WindowsService.v ===== *)
(** The Windows service around the main program
    ([cmd/nodeproblemdetector/node_problem_detector_windows.go]): how it is run,
    and a transition system of its three goroutines.

    The service control manager receives every status that is sent; its requests
    are inputs, as is the return of the main program, which may never happen: no
    theorem relies on it. *)

From S2P Require Import Prelude Transitions.

(** ** How it is run *)

(** [svc.IsWindowsService] may fail. *)
(* @ cmd/nodeproblemdetector/node_problem_detector_windows.go:84-91 isRunningAsWindowsService *)
Definition isRunningAsWindowsService (svc_IsWindowsService : result bool) : bool :=
  match svc_IsWindowsService with
  | Err _ => false
  | Ok runningAsService => runningAsService
  end.

Inductive event_log : Type := EventLog | DebugLog.
Inductive run_function : Type := svc_Run | debug_Run.

(** Where the service logs to. *)
(* @ cmd/nodeproblemdetector/node_problem_detector_windows.go:93-107 setupLogging *)
Definition setupLogging (runningAsService : bool) (eventlog_Open : result unit) : event_log :=
  if runningAsService then match eventlog_Open with Ok _ => EventLog | Err _ => DebugLog end
  else DebugLog.

(* @ cmd/nodeproblemdetector/node_problem_detector_windows.go:109-119 initializeRun *)
Definition initializeRun (svc_IsWindowsService : result bool) (eventlog_Open : result unit)
    : event_log * run_function :=
  let runningAsService := isRunningAsWindowsService svc_IsWindowsService in
  let elog := setupLogging runningAsService eventlog_Open in
  (elog, if runningAsService then svc_Run else debug_Run).

(** ** The service *)
Inductive svc_state : Type := StartPending | Running | StopPending | Paused | Stopped.
#[export] Instance svc_state_eq_dec : EqDecision svc_state.
Proof. solve_decision. Defined.

(** A status: its state, and whether stop and shutdown are accepted. *)
Record SvcStatus : Type := mkStatus { svcState : svc_state; svcAccepts : bool }.

Inductive svc_cmd : Type := CmdInterrogate | CmdStop | CmdShutdown | CmdPause | CmdContinue | CmdOther.

(** The goroutine of [Execute] itself ... *)
Inductive main_pc : Type := MStartPending | MRunning | MWaitApp | MWaitSvc | MStopped | MReturned.
#[export] Instance main_pc_eq_dec : EqDecision main_pc.
Proof. solve_decision. Defined.
(** ... the one of the application ... *)
Inductive app_pc : Type := AppIdle | AppRuns | AppReturned | AppDone.
(** ... and the one that serves the control requests. *)
Inductive ctl_pc : Type :=
| CtlIdle | CtlSelect | CtlSend (s : SvcStatus) | CtlSleep (s : SvcStatus) | CtlSendAgain (s : SvcStatus) | CtlDone.

Record service : Type := mkService {
  wMain : main_pc;
  wApp : app_pc;
  wCtl : ctl_pc;
  wCancelled : bool;
  wSent : list SvcStatus
}.

Definition new_service : service := mkService MStartPending AppIdle CtlIdle false [].

Inductive svc_action : Type :=
| WMain                                       (* Execute sends, or stops waiting *)
| WAppReturns                                 (* input: npdMain returns, with or without an error *)
| WAppSends                                   (* the application reports StopPending *)
| WRequest (c : svc_cmd) (current : SvcStatus) (* a control request *)
| WCtl                                        (* the control goroutine sends, or has slept *)
| WCtxDone.                                   (* the control goroutine sees the context *)

(** What the control goroutine does with a request. *)
(* @ cmd/nodeproblemdetector/node_problem_detector_windows.go:155-173 Execute.func2 *)
Definition serve (s : service) (c : svc_cmd) (current : SvcStatus) : service :=
  match c with
  | CmdInterrogate => mkService (wMain s) (wApp s) (CtlSend current) (wCancelled s) (wSent s)
  | CmdStop | CmdShutdown => mkService (wMain s) (wApp s) CtlSelect true (wSent s)
  | CmdPause => mkService (wMain s) (wApp s) (CtlSendAgain (mkStatus Paused true)) (wCancelled s) (wSent s)
  | CmdContinue => mkService (wMain s) (wApp s) (CtlSendAgain (mkStatus Running true)) (wCancelled s) (wSent s)
  | CmdOther => s
  end.

Definition send (s : service) (st : SvcStatus) (main : main_pc) (app : app_pc) (ctl : ctl_pc) : service :=
  mkService main app ctl (wCancelled s) (wSent s ++ [st]).

(* @ cmd/nodeproblemdetector/node_problem_detector_windows.go:126-189 Execute *)
Definition svc_exec (s : service) (a : svc_action) : option service :=
  match a with
  | WMain =>
    match wMain s with
    | MStartPending => Some (send s (mkStatus StartPending false) MRunning (wApp s) (wCtl s))
    | MRunning => Some (send s (mkStatus Running true) MWaitApp AppRuns CtlSelect)
    | MWaitApp =>
      match wApp s with
      | AppDone => Some (mkService MWaitSvc (wApp s) (wCtl s) (wCancelled s) (wSent s))
      | _ => None
      end
    | MWaitSvc =>
      match wCtl s with
      | CtlDone => Some (mkService MStopped (wApp s) (wCtl s) (wCancelled s) (wSent s))
      | _ => None
      end
    | MStopped => Some (send s (mkStatus Stopped true) MReturned (wApp s) (wCtl s))
    | MReturned => None
    end
  | WAppReturns =>
    match wApp s with
    | AppRuns => Some (mkService (wMain s) AppReturned (wCtl s) (wCancelled s) (wSent s))
    | _ => None
    end
  | WAppSends =>
    match wApp s with
    | AppReturned => Some (send s (mkStatus StopPending false) (wMain s) AppDone (wCtl s))
    | _ => None
    end
  | WRequest c current => match wCtl s with CtlSelect => Some (serve s c current) | _ => None end
  | WCtl =>
    match wCtl s with
    | CtlSend st => Some (send s st (wMain s) (wApp s) (CtlSleep st))
    | CtlSleep st => Some (mkService (wMain s) (wApp s) (CtlSendAgain st) (wCancelled s) (wSent s))
    | CtlSendAgain st => Some (send s st (wMain s) (wApp s) CtlSelect)
    | _ => None
    end
  | WCtxDone =>
    match wCtl s with
    | CtlSelect => if wCancelled s then Some (mkService (wMain s) (wApp s) CtlDone (wCancelled s) (wSent s)) else None
    | _ => None
    end
  end.

(** *** What is sent, and when the service ends *)
Definition started_up (s : service) : Prop :=
  exists mid, wSent s = mkStatus StartPending false :: mkStatus Running true :: mid.

Record svc_inv (s : service) : Prop := mkSvcInv {
  winv_main :
    match wMain s with
    | MStartPending => wApp s = AppIdle /\ wCtl s = CtlIdle /\ wSent s = []
    | MRunning => wApp s = AppIdle /\ wCtl s = CtlIdle /\ wSent s = [mkStatus StartPending false]
    | MWaitApp => wApp s <> AppIdle /\ wCtl s <> CtlIdle /\ started_up s
    | MWaitSvc => wApp s = AppDone /\ wCtl s <> CtlIdle /\ started_up s
    | MStopped => wApp s = AppDone /\ wCtl s = CtlDone /\ started_up s
    | MReturned => wApp s = AppDone /\ wCtl s = CtlDone /\
        exists mid, wSent s = mkStatus StartPending false :: mkStatus Running true :: mid ++ [mkStatus Stopped true]
    end;
  winv_done : wCtl s = CtlDone -> wCancelled s = true
}.

Lemma started_up_send s st m a c : started_up s -> started_up (send s st m a c).
Proof. intros [mid E]. exists (mid ++ [st]). simpl. by rewrite E. Qed.

Lemma svc_exec_inv s a s' : svc_inv s -> svc_exec s a = Some s' -> svc_inv s'.
Proof.
  intros [Hm Hd] He. destruct s as [m ap ctl cancelled sent]. unfold svc_exec in He. cbn in *.
  destruct a; cbn in He.
  - destruct m; cbn in *.
    + injection He as <-. destruct Hm as (-> & -> & ->). by constructor.
    + injection He as <-. destruct Hm as (-> & -> & ->). constructor; cbn; [|done].
      split_and!; [done..|]. by exists [].
    + destruct ap; try done. injection He as <-. constructor; cbn; [|done]. by destruct Hm as (_ & ? & ?).
    + destruct ctl; try done. injection He as <-. constructor; cbn; [|done]. by destruct Hm as (? & _ & ?).
    + injection He as <-. destruct Hm as (? & ? & mid & E). constructor; cbn; [|done].
      split_and!; [done..|]. exists mid. cbn in E. by rewrite E.
    + done.
  - destruct ap; try done. injection He as <-. constructor; cbn; [|done]. destruct m; naive_solver.
  - destruct ap; try done. injection He as <-. constructor; cbn; [|done].
    destruct m; try naive_solver. destruct Hm as (? & ? & ?). split_and!; [done..|].
    exact (started_up_send (mkService MWaitApp AppReturned ctl cancelled sent) _ MWaitApp AppDone ctl ltac:(done)).
  - destruct ctl; try done. injection He as <-.
    destruct c; constructor; cbn; try done; destruct m; cbn in *; naive_solver.
  - destruct ctl as [| |st|st|st|]; try done; injection He as <-; (constructor; cbn; [|done]); destruct m; try naive_solver;
      destruct Hm as (? & ? & mid & E); split_and!; try done; exists (mid ++ [st]) || exists mid; cbn in *; by rewrite E.
  - destruct ctl; try done. destruct cancelled; [|done]. injection He as <-. constructor; cbn; [|done].
    destruct m; naive_solver.
Qed.

Lemma svc_runs_inv tr s : runs svc_exec new_service tr s -> svc_inv s.
Proof.
  apply (runs_invariant svc_exec svc_inv); [by apply svc_exec_inv|]. by constructor.
Qed.

(** *** Who asks the service to stop *)
Definition is_stop (a : svc_action) : bool :=
  match a with WRequest CmdStop _ | WRequest CmdShutdown _ => true | _ => false end.

(** The inputs from outside: the requests and the return of [npdMain]. *)
Definition is_request (a : svc_action) : bool := match a with WRequest _ _ => true | _ => false end.
Definition is_own (a : svc_action) : bool := match a with WRequest _ _ | WAppReturns => false | _ => true end.

(** Only a stop or shutdown request cancels the context. *)
Lemma svc_exec_cancelled s a s' :
  svc_exec s a = Some s' -> wCancelled s' = wCancelled s || is_stop a.
Proof.
  intros He. destruct s as [m ap ctl cancelled sent]. cbn.
  assert (forall b, b = b || false) by (intros []; done).
  destruct a as [| | |c current| |]; cbn in He |- *.
  - destruct m; try destruct ap; try destruct ctl; simplify_eq; cbn; auto.
  - destruct ap; simplify_eq; cbn; auto.
  - destruct ap; simplify_eq; cbn; auto.
  - destruct ctl; simplify_eq; destruct c; cbn; auto; by rewrite orb_true_r.
  - destruct ctl; simplify_eq; cbn; auto.
  - destruct ctl, cancelled; simplify_eq; cbn; auto.
Qed.

Lemma svc_runs_cancelled s tr s' :
  runs svc_exec s tr s' -> wCancelled s' = wCancelled s || existsb is_stop tr.
Proof.
  intros Hr. induction Hr as [|tr s1 a s2 Hr IH Ha]; [by rewrite orb_false_r|].
  rewrite (svc_exec_cancelled _ _ _ Ha), IH, existsb_app. cbn. by rewrite orb_false_r, orb_assoc.
Qed.

(** The steps that are left when no request arrives any more. *)
Definition svc_measure (s : service) : nat :=
  match wMain s with
  | MStartPending => 30 | MRunning => 20 | MWaitApp => 3 | MWaitSvc => 2 | MStopped => 1 | MReturned => 0
  end +
  match wApp s with AppRuns => 2 | AppReturned => 1 | _ => 0 end +
  match wCtl s with CtlSend _ => 4 | CtlSleep _ => 3 | CtlSendAgain _ => 2 | CtlSelect => 1 | _ => 0 end.

Lemma svc_exec_measure s a s' :
  is_request a = false -> svc_exec s a = Some s' -> svc_measure s' < svc_measure s.
Proof.
  intros Ha He. destruct s as [m ap ctl cancelled sent]. destruct a; try done; cbn in He; unfold svc_measure; cbn.
  - destruct m; try destruct ap; try destruct ctl; simplify_eq; cbn; lia.
  - destruct ap; simplify_eq; cbn; lia.
  - destruct ap; simplify_eq; cbn; lia.
  - destruct ctl; simplify_eq; cbn; lia.
  - destruct ctl, cancelled; simplify_eq; cbn; lia.
Qed.

(** All that is left to do is up to [npdMain]. *)
Definition waits_for_npdMain (s : service) : Prop := wMain s = MWaitApp /\ wApp s = AppRuns /\ wCtl s = CtlDone.

(** A cancelled service that has not returned can go on by itself, or waits for
    [npdMain]. *)
Lemma svc_progress s :
  svc_inv s -> wCancelled s = true -> wMain s <> MReturned ->
  (exists a s', is_own a = true /\ svc_exec s a = Some s') \/ waits_for_npdMain s.
Proof.
  intros [Hm _] Hc Hr. destruct s as [m ap ctl cancelled sent]. unfold waits_for_npdMain. cbn in *. subst cancelled.
  destruct m; [left; by exists WMain; eexists..| | |left; by exists WMain; eexists|done].
  - destruct Hm as (Happ & Hctl & _).
    destruct ctl; [done|left; by exists WCtxDone; eexists|left; by exists WCtl; eexists..|].
    destruct ap; [done|by right| |]; left; [by exists WAppSends; eexists|by exists WMain; eexists].
  - destruct Hm as (_ & Hctl & _). left.
    destruct ctl; [done|by exists WCtxDone; eexists|by exists WCtl; eexists..|by exists WMain; eexists].
Qed.

Lemma own_no_request a : is_own a = true -> is_request a = false.
Proof. by destruct a. Qed.

(** [npdMain] does not start again. *)
Lemma app_returned_step s a s' :
  wMain s <> MStartPending -> wMain s <> MRunning -> wApp s <> AppRuns -> svc_exec s a = Some s' ->
  wMain s' <> MStartPending /\ wMain s' <> MRunning /\ wApp s' <> AppRuns.
Proof.
  intros H1 H2 H3 He. destruct s as [m ap ctl cancelled sent]. cbn in *.
  destruct a as [| | |c current| |]; cbn in He; [destruct m; try done; try destruct ap; try destruct ctl; simplify_eq; by cbn|..].
  - by destruct ap.
  - destruct ap; simplify_eq; by cbn.
  - destruct ctl; simplify_eq; by destruct c.
  - destruct ctl; simplify_eq; by cbn.
  - destruct ctl, cancelled; simplify_eq; by cbn.
Qed.

Lemma runs_cons s a s1 tr s2 :
  svc_exec s a = Some s1 -> runs svc_exec s1 tr s2 -> runs svc_exec s (a :: tr) s2.
Proof. intros Ha Hr. exact (runs_app svc_exec s [a] s1 tr s2 (runs_one svc_exec s a s1 Ha) Hr). Qed.

Lemma svc_drains n s :
  svc_measure s <= n -> svc_inv s -> wCancelled s = true ->
  wMain s <> MStartPending -> wMain s <> MRunning -> wApp s <> AppRuns ->
  exists tr s', length tr <= n /\ forallb is_own tr = true /\ runs svc_exec s tr s' /\ wMain s' = MReturned.
Proof.
  revert s. induction n as [n IH] using lt_wf_ind. intros s Hn Hinv Hc H1 H2 H3.
  destruct (decide (wMain s = MReturned)) as [Hm|Hm]; [exists [], s; split_and!; [cbn; lia|done|constructor|done]|].
  destruct (svc_progress s Hinv Hc Hm) as [(a & s1 & Ha & He)|(_ & ? & _)]; [|done].
  pose proof (svc_exec_measure s a s1 (own_no_request _ Ha) He) as Hlt.
  destruct (app_returned_step _ _ _ H1 H2 H3 He) as (H1' & H2' & H3').
  destruct (IH (svc_measure s1) ltac:(lia) s1) as (tr & s' & Hl & Hreq & Hr & Hmain); try done.
  - by eapply svc_exec_inv.
  - by rewrite (svc_exec_cancelled _ _ _ He), Hc.
  - exists (a :: tr), s'. split_and!; [cbn; lia|cbn; by rewrite Ha|by eapply runs_cons|done].
Qed.

(** No request is served before the two goroutines run. *)
Lemma svc_early tr s :
  runs svc_exec new_service tr s -> wMain s = MStartPending \/ wMain s = MRunning -> wCancelled s = false.
Proof.
  intros Hr. induction Hr as [|tr s1 a s2 Hr IH Ha]; [done|]. intros Hm.
  pose proof (svc_runs_inv tr s1 Hr) as [Hinv _]. rewrite (svc_exec_cancelled _ _ _ Ha).
  destruct s1 as [m ap ctl cancelled sent]. cbn in *.
  destruct a; cbn in Ha |- *.
  - destruct m; try destruct ap; try destruct ctl; simplify_eq; cbn in *; rewrite ?orb_false_r; (by destruct Hm; simplify_eq) || (by apply IH; auto).
  - destruct ap; simplify_eq; cbn in *. by rewrite IH by auto.
  - destruct ap; simplify_eq; cbn in *. by rewrite IH by auto.
  - destruct ctl; simplify_eq. destruct Hm as [Hm|Hm]; destruct c; cbn in Hm; subst m; naive_solver.
  - destruct ctl; simplify_eq; cbn in *; by rewrite IH by auto.
  - destruct ctl, cancelled; simplify_eq; cbn in *; by rewrite IH by auto.
Qed.

Lemma svc_measure_cancelled tr s :
  runs svc_exec new_service tr s -> existsb is_stop tr = true -> svc_measure s <= 9.
Proof.
  intros Hr Hs. pose proof (svc_early tr s Hr) as He. pose proof (svc_runs_cancelled _ _ _ Hr) as Hc.
  rewrite Hs in Hc. cbn in Hc. rewrite Hc in He. unfold svc_measure.
  destruct (wMain s); try discriminate (He ltac:(auto)); destruct (wApp s), (wCtl s); cbn; lia.
Qed.

Lemma svc_runs_measure s tr s' :
  runs svc_exec s tr s' -> forallb (negb ∘ is_request) tr = true -> length tr + svc_measure s' <= svc_measure s.
Proof.
  intros Hr. induction Hr as [|tr s1 a s2 Hr IH Ha]; [done|].
  rewrite forallb_app, length_app. cbn. intros [Ht Hq]%andb_true_iff.
  rewrite andb_true_r, negb_true_iff in Hq.
  pose proof (svc_exec_measure _ _ _ Hq Ha). specialize (IH Ht). lia.
Qed.

(** A service that has returned reported, in this order, StartPending, Running,
    whatever the requests and the application made it report, and Stopped; by
    then the application has reported that it stops and the control loop has
    seen the cancelled context. *)
Theorem service_statuses tr s :
  runs svc_exec new_service tr s -> wMain s = MReturned ->
  (exists mid, wSent s = mkStatus StartPending false :: mkStatus Running true :: mid ++ [mkStatus Stopped true]) /\
  wApp s = AppDone /\ wCtl s = CtlDone /\ wCancelled s = true.
Proof.
  intros Hr Hm. destruct (svc_runs_inv tr s Hr) as [Hinv Hd]. rewrite Hm in Hinv.
  destruct Hinv as (Ha & Hc & Hs). auto.
Qed.

(** Where the status [Stopped] may come from before the end: the service manager
    itself, which hands its current status to the service. *)
Definition echoed (tr : list svc_action) (st : SvcStatus) : Prop :=
  svcState st = Stopped -> WRequest CmdInterrogate st ∈ tr.
Definition ctl_echoed (tr : list svc_action) (c : ctl_pc) : Prop :=
  match c with CtlSend st | CtlSleep st | CtlSendAgain st => echoed tr st | _ => True end.

Lemma echoed_snoc tr a st : echoed tr st -> echoed (tr ++ [a]) st.
Proof. intros H E. apply elem_of_app. left. by apply H. Qed.

Lemma svc_echoes tr s :
  runs svc_exec new_service tr s -> existsb is_stop tr = false -> Forall (echoed tr) (wSent s) /\ ctl_echoed tr (wCtl s).
Proof.
  intros Hr. induction Hr as [|tr s1 a s2 Hr IH Ha]; [by repeat constructor|].
  rewrite existsb_app. intros [Hn _]%orb_false_iff. destruct (IH Hn) as [H1 H2]. clear IH.
  assert (Hm : wMain s1 <> MStopped).
  { intros E. destruct (svc_runs_inv tr s1 Hr) as [Hinv Hd]. rewrite E in Hinv. destruct Hinv as (_ & Hc & _).
    pose proof (svc_runs_cancelled _ _ _ Hr) as Hx. rewrite Hn, (Hd Hc) in Hx. done. }
  assert (K1 : Forall (echoed (tr ++ [a])) (wSent s1)) by (eapply Forall_impl; [exact H1|by apply echoed_snoc]).
  assert (K2 : ctl_echoed (tr ++ [a]) (wCtl s1)) by (destruct (wCtl s1); try done; by apply echoed_snoc).
  assert (K3 : forall st, svcState st <> Stopped -> echoed (tr ++ [a]) st) by (intros st Hst ?; done).
  destruct s1 as [m ap ctl cancelled sent]. cbn in *.
  destruct a as [| | |c current| |]; cbn in Ha.
  - destruct m; try destruct ap; try destruct ctl; simplify_eq; (split; [|done]); cbn; rewrite ?Forall_app; repeat constructor; auto.
  - destruct ap; simplify_eq; by split.
  - destruct ap; simplify_eq; (split; [|done]); cbn. apply Forall_app. split; [done|]. repeat constructor. by apply K3.
  - destruct ctl; simplify_eq. destruct c; (split; [done|]); cbn; try done; try (by apply K3).
    intros _. apply elem_of_app. right. by left.
  - destruct ctl; simplify_eq; (split; [|done]); cbn; rewrite ?Forall_app; repeat constructor; auto.
  - destruct ctl, cancelled; simplify_eq; by split.
Qed.

(** C39.  Without a stop or shutdown request the service neither returns nor reports
    Stopped, even when the application has returned with an error: nothing else
    cancels the context that the control loop waits for.  (The only status
    Stopped it can send is one that an interrogation handed to it.) *)
Theorem service_waits_for_request tr s :
  runs svc_exec new_service tr s -> existsb is_stop tr = false ->
  wMain s <> MReturned /\
  (forall st, st ∈ wSent s -> svcState st = Stopped -> WRequest CmdInterrogate st ∈ tr).
Proof.
  intros Hr Hn. split.
  - pose proof (svc_runs_cancelled _ _ _ Hr) as Hc. rewrite Hn in Hc. cbn in Hc.
    destruct (svc_runs_inv tr s Hr) as [Hinv Hd]. intros E; rewrite E in Hinv; destruct Hinv as (_ & Hctl & _).
    by rewrite (Hd Hctl) in Hc.
  - intros st Hst. exact (proj1 (Forall_forall _ _) (proj1 (svc_echoes tr s Hr Hn)) st Hst).
Qed.

(** C37.  After a stop or shutdown request nothing but [npdMain] can hold up the
    service.  Whatever was being served: without another request it makes at most
    nine more steps; in every state on the way it has returned, or one of its own
    goroutines can take a step, or it waits for [npdMain], the control loop having
    ended; and once [npdMain] has returned, its own steps lead to its return. *)
Theorem service_stops tr s tr' s' :
  runs svc_exec new_service tr s -> existsb is_stop tr = true ->
  runs svc_exec s tr' s' -> forallb (negb ∘ is_request) tr' = true ->
  length tr' <= 9 /\
  (wMain s' = MReturned \/ (exists a s'', is_own a = true /\ svc_exec s' a = Some s'') \/ waits_for_npdMain s') /\
  (wApp s' <> AppRuns -> exists tr'' s'', length tr'' <= 9 /\ forallb is_own tr'' = true /\
     runs svc_exec s' tr'' s'' /\ wMain s'' = MReturned).
Proof.
  intros Hr Hs Hr' Hq. pose proof (svc_measure_cancelled tr s Hr Hs) as Hn.
  pose proof (svc_runs_measure s tr' s' Hr' Hq) as Hle.
  pose proof (runs_app svc_exec _ _ _ _ _ Hr Hr') as Hrr. pose proof (svc_runs_inv _ _ Hrr) as Hinv.
  pose proof (svc_runs_cancelled _ _ _ Hrr) as Hc. rewrite existsb_app, Hs in Hc. cbn in Hc. split_and!.
  - lia.
  - destruct (decide (wMain s' = MReturned)) as [|Hm]; [by left|right]. by apply svc_progress.
  - intros Ha. pose proof (svc_early _ _ Hrr) as He. rewrite Hc in He.
    apply svc_drains; try done; [lia|intros E; discriminate (He (or_introl E))|intros E; discriminate (He (or_intror E))].
Qed.

(** *** Witnesses *)

(** A service asked to pause, then to stop. *)
Definition stop_trace : list svc_action :=
  [WMain; WMain; WRequest CmdPause (mkStatus Running true); WCtl; WRequest CmdStop (mkStatus Running true)].

Definition stop_rest : list svc_action := [WCtxDone; WAppReturns; WAppSends; WMain; WMain; WMain].

(** The application fails at once, and the service manager keeps asking. *)
Definition failed_trace : list svc_action :=
  [WMain; WMain; WAppReturns; WAppSends; WMain; WRequest CmdInterrogate (mkStatus StopPending false); WCtl; WCtl; WCtl].

Definition after (tr : list svc_action) : service := default new_service (run_from svc_exec new_service tr).

Lemma service_statuses_witness :
  exists mid, wSent (after (stop_trace ++ stop_rest)) =
    mkStatus StartPending false :: mkStatus Running true :: mid ++ [mkStatus Stopped true].
Proof.
  apply (service_statuses (stop_trace ++ stop_rest)); [|reflexivity].
  apply run_from_runs. reflexivity.
Defined.

Lemma service_waits_for_request_witness :
  wApp (after failed_trace) = AppDone /\ wMain (after failed_trace) <> MReturned /\
  (forall st, st ∈ wSent (after failed_trace) -> svcState st = Stopped -> WRequest CmdInterrogate st ∈ failed_trace).
Proof.
  split; [reflexivity|]. apply (service_waits_for_request failed_trace); [|reflexivity].
  apply run_from_runs. reflexivity.
Defined.

(** The application has returned when the stop request is served; and before, the
    service waits for it. *)
Lemma service_stops_witness :
  waits_for_npdMain (after (stop_trace ++ [WCtxDone])) /\
  exists tr' s', length tr' <= 9 /\ forallb is_own tr' = true /\
    runs svc_exec (after (stop_trace ++ [WCtxDone; WAppReturns])) tr' s' /\ wMain s' = MReturned.
Proof.
  split; [by split_and!|].
  apply (service_stops stop_trace (after stop_trace) [WCtxDone; WAppReturns]); try reflexivity; [..|discriminate];
    apply run_from_runs; reflexivity.
Defined.
