(* ===== verification/TailedFilelog.v ===== *)
(** The file log watcher on top of the reader that follows the file:
    [FilelogWatcher] and [TailReader] composed by the [bufio.Reader] between them
    ([pkg/systemlogmonitor/logwatchers/filelog/log_watcher.go], [ReadString] and
    the deferred [Close] of [watchLoop]).

    The watch loop, the log monitor, and the goroutine of the reader interleave
    freely; a [ReadString] is as many reads as it needs, each of them a step. *)

From S2P Require Import Prelude GoStrings GoTime GoConv GoPath Types LogMonitor ProblemDetector Transitions FilelogWatcher LogSources TailReader.

(** ** Cutting at a newline *)
Lemma byte_is_eq z c : byte_is z c = true -> c = byte_of z.
Proof.
  unfold byte_is, byte_val, byte_of. intros <-%Z.eqb_eq. by rewrite N2Z.id, ascii_N_embedding.
Qed.

Lemma cut_byte_spec z s :
  match cut_byte z s with
  | (a, Some b) => s = a +:+ String (byte_of z) b /\ free_of z a = true
  | (a, None) => a = s /\ free_of z s = true
  end.
Proof.
  unfold free_of. induction s as [|c s IH]; [done|]. cbn [cut_byte].
  destruct (byte_is z c) eqn:E; [by rewrite (byte_is_eq z c E)|].
  destruct (cut_byte z s) as [a [b|]]; destruct IH as [Es Hf].
  - rewrite Es. split; [done|]. cbn. by rewrite E, Hf.
  - rewrite Es. split; [done|]. cbn. by rewrite E, Hf.
Qed.

Lemma cut_byte_free z s : free_of z s = true -> cut_byte z s = (s, None).
Proof.
  unfold free_of. induction s as [|c s IH]; [done|]. cbn. intros [Hc Hs]%andb_true_iff.
  apply negb_true_iff in Hc. by rewrite Hc, IH.
Qed.

(** Texts one after the other. *)
Definition texts (l : list string) : string := foldr String.append "" l.

Lemma texts_snoc l s : texts (l ++ [s]) = texts l +:+ s.
Proof.
  unfold texts. induction l as [|x l IH]; cbn; [by rewrite append_nil_r|]. by rewrite IH, append_assoc.
Qed.

Definition is_prefix (p s : string) : Prop := exists r, s = p +:+ r.

(** ** The composition *)

(** [cBuf] is what the outer [bufio.Reader] and the fragments of [ReadString]
    hold; [cFiles] records what was read of each file that was opened. *)
Record tailed : Type := mkTailed {
  cF : fsys;
  cT : Tail;
  cBuf : string;
  cFiles : list string
}.

Inductive tailed_action : Type :=
| CaWatcher (a : faction)                          (* the watch loop, or the log monitor *)
| CaTail (a : tail_action)                         (* the goroutine of the reader *)
| CaRead (n : nat) (data : string) (now : Time).   (* a turn of ReadString *)

(** The end of the loop closes the reader. *)
Definition close_on_exit (before after : fpc) (t : Tail) : outcome Tail :=
  match before, after with
  | FExited, _ => Ret t
  | _, FExited => Tail_Close t
  | _, _ => Ret t
  end.

(** Whether a read reaches the file. *)
Definition reaches_file (t : Tail) : bool :=
  match tReaderErr t, tReader t with
  | None, Some r => String.eqb (rBuffered r) "" && rOpen r
  | _, _ => false
  end.

Definition grow_last (l : list string) (data : string) : list string :=
  match last l with
  | Some x => removelast l ++ [x +:+ data]
  | None => l
  end.

Section Composition.
Variable time_ParseInLocation : string -> string -> result Time.
Variable Time_Year : Time -> Z.
Variable Time_AddYears : Time -> Z -> Time.
Local Abbreviation fexec := (fexec time_ParseInLocation Time_Year Time_AddYears).

(** The watcher after a step of its loop, with the reader closed if it ended. *)
Definition watcher_step (s : tailed) (a : faction) (t : Tail) (buf : string) (files : list string)
    : option tailed :=
  match fexec (cF s) a with
  | None => None
  | Some f =>
    match close_on_exit (fPc (fw (cF s))) (fPc (fw f)) t with
    | Ret t => Some (mkTailed f t buf files)
    | Panic _ => None
    end
  end.

(** One turn of [ReadString]: a line that is there, or a read of the tail. *)
(* @ pkg/systemlogmonitor/logwatchers/filelog/log_watcher.go:109-113 watchLoop *)
Definition read_turn (s : tailed) (n : nat) (data : string) (now : Time) : option tailed :=
  match cut_byte 10 (cBuf s) with
  | (line, Some rest) => watcher_step s (FaRead (line +:+ newline) NoErr now) (cT s) rest (cFiles s)
  | (_, None) =>
    if locked (cT s) then None
    else
      match Tail_Read (cT s) n data with
      | Panic _ => None
      | Ret (t, (chunk, err)) =>
        let files := if reaches_file (cT s) then grow_last (cFiles s) data else cFiles s in
        match err with
        | NoErr => Some (mkTailed (cF s) t (cBuf s +:+ chunk) files)
        | EOF => watcher_step s (FaRead (cBuf s) EOF now) t "" files
        | ReadErr => watcher_step s (FaRead (cBuf s) ReadErr now) t (cBuf s) files
        end
      end
  end.

Definition cexec (s : tailed) (a : tailed_action) : option tailed :=
  match a with
  | CaWatcher (FaRead _ _ _) => None
  | CaWatcher a => watcher_step s a (cT s) (cBuf s) (cFiles s)
  | CaTail (TaRead _ _) | CaTail TaClose => None
  | CaTail a =>
    match tail_exec (cT s) a with
    | None => None
    | Some t =>
      Some (mkTailed (cF s) t (cBuf s)
              (match a with TaOpen true => cFiles s ++ [""] | _ => cFiles s end))
    end
  | CaRead n data now =>
    match fPc (fw (cF s)) with FRead => read_turn s n data now | _ => None end
  end.

(** ** Steps of the parts *)

(** What a step of the watcher reads, and that the end is final. *)
Lemma fexec_text f a f' :
  fexec f a = Some f' ->
  frText f' = frText f +:+ match a with FaRead line (NoErr | EOF) _ => line | _ => "" end.
Proof.
  intros H. unfold FilelogWatcher.fexec in H.
  destruct a as [|line err now| | |], (fPc (fw f)); try done;
    try (destruct (read_ok line err); [|done]; injection H as <-; by destruct err; rewrite ?append_nil_r);
    repeat case_match; simplify_eq; cbn; by rewrite append_nil_r.
Qed.

Lemma fexec_exited f a f' : fexec f a = Some f' -> fPc (fw f) = FExited -> fPc (fw f') = FExited.
Proof.
  intros H Hpc. unfold FilelogWatcher.fexec in H. rewrite Hpc in H.
  destruct a; try done; repeat case_match; simplify_eq; done.
Qed.

(** What was received or is on its way stays so once the loop has ended. *)
Lemma fexec_exited_logs f a f' :
  fexec f a = Some f' -> fPc (fw f) = FExited ->
  frReceived f' ++ in_flight (fw f') = frReceived f ++ in_flight (fw f).
Proof.
  intros H Hpc. unfold FilelogWatcher.fexec in H. rewrite Hpc in H.
  destruct a; try done; [|by repeat case_match; simplify_eq].
  destruct (Tomb_Stopping (fTomb (fw f))); [done|]. destruct (fLogCh (fw f)) as [|log ch] eqn:E; [done|].
  injection H as <-. unfold in_flight. cbn. by rewrite E, Hpc, <- app_assoc.
Qed.

Definition buffered (t : Tail) : option string := rBuffered <$> tReader t.

(** The goroutine of the reader replaces it or leaves what is buffered. *)
Lemma tail_goroutine t a t' :
  tail_exec t a = Some t' -> match a with TaRead _ _ | TaClose => False | _ => True end ->
  tStopped t' = tStopped t /\
  match a with
  | TaOpen true => buffered t' = Some ""
  | _ => buffered t' = buffered t
  end.
Proof.
  intros H Ha. unfold tail_exec in H. unfold buffered.
  assert (Hclose : rBuffered <$> tReader (close_file t) = rBuffered <$> tReader t) by (cbn; by destruct (tReader t)).
  destruct a; try done; destruct (tPc t); try done.
  - injection H as <-. unfold attemptOpen. by repeat case_match.
  - by injection H as <-.
  - by injection H as <-.
  - destruct (tStopped t); [|done]. by injection H as <-.
  - destruct (tStopped t) eqn:E; [|done]. injection H as <-. by rewrite <- E.
  - injection H as <-. by destruct ok.
  - injection H as <-. unfold watchFile_event. by destruct (String.eqb _ _).
Qed.

(** A read of the tail hands on what is buffered, or what it reads of the file. *)
Lemma Tail_Read_text t n data t' chunk err :
  Tail_Read t n data = Ret (t', (chunk, err)) ->
  tStopped t' = tStopped t /\ (err <> NoErr -> chunk = "") /\
  match buffered t with
  | None => buffered t' = None /\ chunk = ""
  | Some b => exists b', buffered t' = Some b' /\
      b +:+ (if reaches_file t then data else "") = chunk +:+ b'
  end.
Proof.
  unfold Tail_Read, buffered, reaches_file. destruct (tReaderErr t) as [e|].
  { intros [= <- <- <-]. split_and!; [done..|]. destruct (tReader t) as [r|]; [|done].
    cbn. eexists. split; [done|]. by rewrite append_nil_r. }
  destruct (tReader t) as [r|]; [|done]. cbn. unfold bufio_Read.
  destruct (String.eqb_spec (rBuffered r) "") as [E|E]; [destruct (rOpen r)|]; cbn;
    [destruct (String.eqb_spec data "") as [->|]| |]; intros [= <- <- <-]; cbn;
    (split_and!; [done| |eexists; split; [done|]]); try done.
  - by rewrite append_nil_r.
  - by rewrite E, stake_sdrop.
  - by rewrite append_nil_r.
  - by rewrite append_nil_r, stake_sdrop.
Qed.

Lemma grow_last_snoc l x d : grow_last (l ++ [x]) d = l ++ [x +:+ d].
Proof. unfold grow_last. by rewrite last_snoc, removelast_last. Qed.

Lemma grow_last_nil l : grow_last l "" = l.
Proof. destruct l as [|x l] using rev_ind; [done|]. by rewrite grow_last_snoc, append_nil_r. Qed.

(** ** The invariant *)

(** The text the loop has read, and what the outer reader holds, are prefixes of
    the files one after the other; of the last file nothing is missing but what
    the tail has read ahead. *)
Definition read_so_far (s : tailed) : Prop :=
  match buffered (cT s) with
  | None => cFiles s = [] /\ frText (cF s) +:+ cBuf s = ""
  | Some b => exists parts files p, cFiles s = files ++ [p +:+ b] /\ Forall2 is_prefix parts files /\
      frText (cF s) +:+ cBuf s = texts (parts ++ [p])
  end.

Local Abbreviation finv := (finv time_ParseInLocation Time_Year Time_AddYears).

Record cinv (w : filelogWatcher) (filename : string) (s : tailed) : Prop := mkCInv {
  cinv_f : finv w (cF s);
  cinv_t : tail_inv filename (cT s);
  cinv_stop : tStopped (cT s) = true <-> fPc (fw (cF s)) = FExited;
  cinv_text : read_so_far s
}.

Lemma close_on_exit_cases before after t t' :
  close_on_exit before after t = Ret t' ->
  (t' = t /\ (before = FExited \/ after <> FExited)) \/
  (before <> FExited /\ after = FExited /\ Tail_Close t = Ret t').
Proof. unfold close_on_exit. destruct before, after; intros H; simplify_eq; auto. Qed.

Lemma watcher_step_inv w filename s a t buf files s' :
  finv w (cF s) -> tail_inv filename t -> (tStopped t = true <-> fPc (fw (cF s)) = FExited) ->
  watcher_step s a t buf files = Some s' ->
  finv w (cF s') /\ tail_inv filename (cT s') /\ (tStopped (cT s') = true <-> fPc (fw (cF s')) = FExited) /\
  buffered (cT s') = buffered t /\ cBuf s' = buf /\ cFiles s' = files /\ fexec (cF s) a = Some (cF s').
Proof.
  intros Hf Ht Hs. unfold watcher_step. destruct (fexec (cF s) a) as [f|] eqn:Ef; [|done].
  destruct (close_on_exit _ _ t) as [t'|] eqn:Ec; [|done]. intros [= <-]. cbn.
  assert (Hfin : finv w f) by (eapply finv_step; [exact Hf | exact Ef]).
  pose proof (fexec_exited (cF s) a f Ef) as Hex.
  destruct (close_on_exit_cases _ _ _ _ Ec) as [[-> Hpc]|(Hb & Hpc & Hcl)].
  - split_and!; try done. rewrite Hs. split; [exact Hex|]. by destruct Hpc.
  - assert (Htx : tail_exec t TaClose = Some t') by (unfold tail_exec; by rewrite Hcl).
    pose proof (tail_exec_inv _ _ _ _ Ht Htx). unfold Tail_Close in Hcl.
    destruct (tStopped t); [done|]. by injection Hcl as <-.
Qed.

Lemma read_so_far_same s s' :
  read_so_far s -> buffered (cT s') = buffered (cT s) -> cFiles s' = cFiles s ->
  frText (cF s') +:+ cBuf s' = frText (cF s) +:+ cBuf s -> read_so_far s'.
Proof. unfold read_so_far. by intros H -> -> ->. Qed.

Lemma watcher_other_inv w filename s a s' :
  cinv w filename s -> match a with FaRead _ _ _ => False | _ => True end ->
  watcher_step s a (cT s) (cBuf s) (cFiles s) = Some s' -> cinv w filename s'.
Proof.
  intros [Hf Ht Hs Hx] Ha H.
  destruct (watcher_step_inv w filename _ _ _ _ _ _ Hf Ht Hs H) as (Hf' & Ht' & Hs' & Eb & Ebuf & Efl & Ef).
  constructor; [done..|]. eapply read_so_far_same; [exact Hx|done..|].
  rewrite Ebuf, (fexec_text _ _ _ Ef). destruct a; try done; by rewrite append_nil_r.
Qed.

(** What a read of the tail adds to the buffer. *)
Lemma read_so_far_grow s t chunk err n data :
  read_so_far s -> Tail_Read (cT s) n data = Ret (t, (chunk, err)) ->
  read_so_far (mkTailed (cF s) t (cBuf s +:+ chunk)
    (if reaches_file (cT s) then grow_last (cFiles s) data else cFiles s)).
Proof.
  intros Hx Hr. destruct (Tail_Read_text _ _ _ _ _ _ Hr) as (_ & _ & Hb). unfold read_so_far in *. cbn.
  destruct (buffered (cT s)) as [b|] eqn:Eb.
  - destruct Hb as (b' & -> & Hb'). destruct Hx as (parts & files & p & -> & Hp & Et).
    exists parts, files, (p +:+ chunk). rewrite append_assoc, Et, !texts_snoc, append_assoc. split_and!; [|done..].
    rewrite <- append_assoc, <- Hb', append_assoc.
    destruct (reaches_file (cT s)); [by rewrite grow_last_snoc | by rewrite append_nil_r].
  - destruct Hb as [-> ->]. destruct Hx as [-> Et]. rewrite append_nil_r. split; [|done].
    by destruct (reaches_file (cT s)).
Qed.

Lemma read_turn_inv w filename s n data now s' :
  cinv w filename s -> read_turn s n data now = Some s' -> cinv w filename s'.
Proof.
  intros [Hf Ht Hs Hx] H. unfold read_turn in H. pose proof (cut_byte_spec 10 (cBuf s)) as Hcut.
  destruct (cut_byte 10 (cBuf s)) as [line [rest|]].
  - destruct Hcut as [Eb _].
    destruct (watcher_step_inv w filename _ _ _ _ _ _ Hf Ht Hs H) as (Hf' & Ht' & Hs' & Ebf & Ebuf & Efl & Ef).
    constructor; [done..|]. eapply read_so_far_same; [exact Hx|done..|].
    rewrite Ebuf, (fexec_text _ _ _ Ef), Eb. unfold newline. by rewrite <- !append_assoc.
  - destruct (locked (cT s)) eqn:El; [done|].
    destruct (Tail_Read (cT s) n data) as [[t [chunk err]]|] eqn:Er; [|done].
    pose proof (read_so_far_grow _ _ _ _ _ _ Hx Er) as Hg.
    pose proof (Tail_Read_inv _ _ _ _ _ _ Ht El Er) as Ht1.
    destruct (Tail_Read_text _ _ _ _ _ _ Er) as (Est & Hchunk & _). rewrite <- Est in Hs. cbv zeta in H.
    destruct err.
    + injection H as <-. by constructor.
    + rewrite (Hchunk ltac:(done)), append_nil_r in Hg.
      destruct (watcher_step_inv w filename _ _ _ _ _ _ Hf Ht1 Hs H) as (Hf' & Ht' & Hs' & Ebf & Ebuf & Efl & Ef).
      constructor; [done..|]. eapply read_so_far_same; [exact Hg|done..|]. cbn.
      by rewrite Ebuf, (fexec_text _ _ _ Ef), append_nil_r.
    + rewrite (Hchunk ltac:(done)), append_nil_r in Hg.
      destruct (watcher_step_inv w filename _ _ _ _ _ _ Hf Ht1 Hs H) as (Hf' & Ht' & Hs' & Ebf & Ebuf & Efl & Ef).
      constructor; [done..|]. eapply read_so_far_same; [exact Hg|done..|]. cbn.
      by rewrite Ebuf, (fexec_text _ _ _ Ef), append_nil_r.
Qed.

Lemma tail_goroutine_inv w filename s a t :
  cinv w filename s -> match a with TaRead _ _ | TaClose => False | _ => True end ->
  tail_exec (cT s) a = Some t ->
  cinv w filename (mkTailed (cF s) t (cBuf s) (match a with TaOpen true => cFiles s ++ [""] | _ => cFiles s end)).
Proof.
  intros [Hf Ht Hs Hx] Ha H. destruct (tail_goroutine _ _ _ H Ha) as [Est Hb].
  constructor; cbn; [done|by eapply tail_exec_inv|by rewrite Est|].
  assert (Hcase : (exists b, a = TaOpen b /\ b = true) \/ buffered t = buffered (cT s) /\
    match a with TaOpen true => cFiles s ++ [""] | _ => cFiles s end = cFiles s)
    by (destruct a as [[|]| | | | | | |]; eauto).
  destruct Hcase as [(b & -> & ->)|[Eb ->]]; [|by apply (read_so_far_same s)].
  unfold read_so_far in *. cbn. rewrite Hb. destruct (buffered (cT s)) as [b|].
  - destruct Hx as (parts & files & p & -> & Hp & Et). exists (parts ++ [p]), (files ++ [p +:+ b]), "".
    split_and!; [done| |by rewrite texts_snoc, append_nil_r].
    apply Forall2_app; [done|]. constructor; [by exists b|constructor].
  - destruct Hx as [-> Et]. exists [], [], "". by split_and!.
Qed.

Lemma cexec_inv w filename s a s' : cinv w filename s -> cexec s a = Some s' -> cinv w filename s'.
Proof.
  intros Hi H. destruct a as [a|a|n data now]; cbn [cexec] in H.
  - destruct a; try done; by eapply watcher_other_inv; [exact Hi| |exact H].
  - destruct a as [b| | | | | | |]; try done;
      (destruct (tail_exec (cT s) _) as [t|] eqn:E; [|done]; injection H as <-;
       refine (tail_goroutine_inv w filename s _ t Hi _ E); exact I).
  - destruct (fPc (fw (cF s))); try done. by eapply read_turn_inv.
Qed.

(** ** As a source of logs *)
Lemma watcher_step_received s a t buf files s' :
  a <> FaRecv -> watcher_step s a t buf files = Some s' -> frReceived (cF s') = frReceived (cF s).
Proof.
  unfold watcher_step. destruct (fexec (cF s) a) as [f|] eqn:E; [|done]. intros Ha.
  destruct (close_on_exit _ _ _); [|done]. intros [= <-]. cbn. by eapply file_step_received.
Qed.

Lemma cexec_received s a s' : a <> CaWatcher FaRecv -> cexec s a = Some s' -> frReceived (cF s') = frReceived (cF s).
Proof.
  intros Ha H. destruct a as [a|a|n data now]; cbn [cexec] in H.
  - assert (Hn : a <> FaRecv) by congruence.
    destruct a; try done; exact (watcher_step_received _ _ _ _ _ _ Hn H).
  - destruct a; try done; (destruct (tail_exec (cT s) _); [|done]); by injection H as <-.
  - destruct (fPc (fw (cF s))); try done. unfold read_turn in H. destruct (cut_byte 10 (cBuf s)) as [line [rest|]].
    + by eapply watcher_step_received; [|exact H].
    + destruct (locked (cT s)); [done|]. destruct (Tail_Read (cT s) n data) as [[t [chunk err]]|]; [|done].
      destruct err; [by injection H as <-|by eapply watcher_step_received; [|exact H]..].
Qed.

Definition tailed_step (s : tailed) (a : tailed_action) : option tailed :=
  match a with CaWatcher FaRecv => None | _ => cexec s a end.
Definition tailed_recv (s : tailed) : option (Log * tailed) :=
  log ← head (fLogCh (fw (cF s))); s' ← cexec s (CaWatcher FaRecv); Some (log, s').

(** The watcher that follows a file is a source of logs for the whole process: the
    theorems on the way from the sources to the node apply to it. *)
Definition tailed_LogWatcher : LogWatcher tailed tailed_action.
Proof.
  refine {| watch_step := tailed_step; watch_recv := tailed_recv;
            watch_inv := fun s => exists w filename, cinv w filename s;
            received := fun s => frReceived (cF s);
            produced := fun s => file_produced time_ParseInLocation Time_Year Time_AddYears (cF s);
            settled := fun s => match in_flight (fw (cF s)) with [] => true | _ => false end |}.
  - intros s a s' (w & fn & Hi) He.
    assert (Ha : a <> CaWatcher FaRecv) by (by intros ->).
    assert (Hc : cexec s a = Some s') by (destruct a as [[]| |]; done).
    split; [exists w, fn; by eapply cexec_inv|by eapply cexec_received].
  - intros s log s' (w & fn & Hi). unfold tailed_recv. destruct (fLogCh (fw (cF s))) as [|lg ch] eqn:E; [done|].
    cbn [head mbind option_bind]. destruct (cexec s (CaWatcher FaRecv)) as [s1|] eqn:Er; [|done]. intros [= <- <-].
    split; [exists w, fn; by eapply cexec_inv|].
    cbn [cexec] in Er. unfold watcher_step in Er. cbn [FilelogWatcher.fexec] in Er. rewrite E in Er.
    destruct (Tomb_Stopping _); [done|]. cbn in Er. destruct (close_on_exit _ _ _); [|done]. by injection Er as <-.
  - intros s (w & fn & [[(Hc & Ht & Hs) _ Hl _ _ _ _] _ _ _]) Hset. unfold file_produced, processed. rewrite Hc, Ht, Hs.
    destruct (in_flight (fw (cF s))); [|done]. by rewrite app_nil_r in Hl.
Defined.

Definition start_tailed (w : filelogWatcher) (t : Tail) : tailed := mkTailed (watching w) t "" [].

(** What [Watch] starts; the tail is the one that [getLogReader] opens. *)
Definition open_tail (watcher : result unit) (path : string) : result unit :=
  match NewTail watcher path with Ok _ => Ok tt | Err e => Err e end.

Variable regexp_MustCompile : string -> outcome (string -> list string).
Variables (sysinfo : result Z) (now0 : Time) (cfg : WatcherConfig) (stat : string -> result unit).
Variables (w0 w : filelogWatcher) (watcher : result unit) (t0 : Tail).
Hypothesis created : NewSyslogWatcherOrDie regexp_MustCompile sysinfo now0 cfg = Ret w0.
Hypothesis started : filelog_Watch stat (open_tail watcher) w0 = Ok w.
Hypothesis tail_created : NewTail watcher (wcLogPath cfg) = Ok t0.

Lemma cruns_inv tr s : runs cexec (start_tailed w t0) tr s -> cinv w (wcLogPath cfg) s.
Proof.
  apply (runs_invariant cexec (cinv w (wcLogPath cfg))); [intros ? ? ?; apply cexec_inv|].
  destruct (finv_watching _ time_ParseInLocation Time_Year Time_AddYears _ _ _ _ _ _ _ created started) as (H0 & _ & _).
  constructor; [exact H0|by eapply NewTail_inv| |].
  - unfold NewTail in tail_created. destruct watcher; [|done]. injection tail_created as <-. cbn.
    split; [done|]. unfold filelog_Watch in started. destruct (getLogReader _ _ _); [|done]. by injection started as <-.
  - unfold NewTail in tail_created. destruct watcher; [|done]. by injection tail_created as <-.
Qed.

(** C26.  The watcher reads the files it follows, one after the other, from their
    beginnings: in every interleaving with the goroutine of the tail and the log
    monitor, the text it has read is a prefix of each file in turn, of the last
    file all but what the tail has read ahead, and the logs it delivered are those
    of the complete lines of that text.  Nothing panics: the tail has a reader
    whenever the lock is free, it is closed at most once, when the loop ends, and
    the loop does not crash. *)
Theorem tailed_filelog_reads_files tr s :
  runs cexec (start_tailed w t0) tr s ->
  (exists parts, Forall2 is_prefix parts (cFiles s) /\ frText (cF s) +:+ cBuf s = texts parts /\
     (forall b, buffered (cT s) = Some b -> exists p, last parts = Some p /\ last (cFiles s) = Some (p +:+ b))) /\
  (exists lines, split_byte 10 (frText (cF s)) = lines ++ [fBuffer (fw (cF s))] /\
     (frLines (cF s)).*1 = (fun l => l +:+ newline) <$> lines /\
     frReceived (cF s) ++ in_flight (fw (cF s)) =
       processed time_ParseInLocation Time_Year Time_AddYears w (frLines (cF s))) /\
  fPc (fw (cF s)) <> FCrashed /\
  (locked (cT s) = false -> forall n data, exists r, Tail_Read (cT s) n data = Ret r) /\
  (fPc (fw (cF s)) <> FExited -> exists t, Tail_Close (cT s) = Ret t).
Proof.
  intros Hr. destruct (cruns_inv tr s Hr) as [Hf Ht Hs Hx]. split_and!.
  - unfold read_so_far in Hx. destruct (buffered (cT s)) as [b|].
    + destruct Hx as (parts & files & p & Efl & Hp & Et). exists (parts ++ [p]). rewrite Efl. split_and!; [|done|].
      * apply Forall2_app; [done|]. constructor; [by exists b|constructor].
      * intros b' [= <-]. exists p. by rewrite !last_snoc.
    + destruct Hx as [-> Et]. by exists [].
  - destruct Hf as [_ (ls & Hls & Hl) Hlog _ _ _ _]. by exists ls.
  - by destruct Hf.
  - intros Hl n data. destruct (tail_readable _ (cT s) n data Ht Hl) as (t' & res & H & _). eauto.
  - intros Hpc. unfold Tail_Close. destruct (tStopped (cT s)); [by destruct Hpc; apply Hs|]. eauto.
Qed.

(** A watcher that has ended delivers nothing more. *)
Lemma cexec_exited s a s' :
  cexec s a = Some s' -> fPc (fw (cF s)) = FExited ->
  fPc (fw (cF s')) = FExited /\
  frReceived (cF s') ++ in_flight (fw (cF s')) = frReceived (cF s) ++ in_flight (fw (cF s)).
Proof.
  intros H Hpc. destruct a as [a|a|n data now]; cbn [cexec] in H.
  - assert (Hw : watcher_step s a (cT s) (cBuf s) (cFiles s) = Some s') by (by destruct a).
    unfold watcher_step in Hw. destruct (fexec (cF s) a) as [f|] eqn:Ef; [|done].
    destruct (close_on_exit _ _ _); [|done]. injection Hw as <-. cbn.
    split; [by eapply fexec_exited|by eapply fexec_exited_logs].
  - destruct a; try done; (destruct (tail_exec (cT s) _); [|done]); by injection H as <-.
  - by rewrite Hpc in H.
Qed.

End Composition.

(** ** Witnesses *)
Definition follow_exec := cexec demo_parse demo_year demo_add.
Definition follow_start : tailed := start_tailed demo_started (sample_tail "/var/log/syslog").

(** A line in two reads, then half of the next line. *)
Definition follow_trace : list tailed_action :=
  [CaTail TaLock; CaTail (TaOpen true); CaTail (TaWatch true);
   CaWatcher FaSelect; CaRead 4 ("kernel: oops" +:+ newline +:+ "ker") 1%Z; CaRead 4 "" 1%Z; CaRead 4 "" 1%Z;
   CaRead 9 "" 1%Z; CaRead 9 "" 2%Z; CaWatcher FaSend; CaWatcher FaSelect].

Definition follow_state : tailed := default follow_start (run_from follow_exec follow_start follow_trace).

Lemma tailed_filelog_reads_files_witness :
  runs follow_exec follow_start follow_trace follow_state /\
  exists parts, Forall2 is_prefix parts [("kernel: oops" +:+ newline +:+ "ker")] /\
    frText (cF follow_state) +:+ cBuf follow_state = texts parts.
Proof.
  assert (Hr : runs follow_exec follow_start follow_trace follow_state)
    by (apply run_from_runs; vm_compute; reflexivity).
  split; [exact Hr|].
  destruct (tailed_filelog_reads_files demo_parse demo_year demo_add demo_compile (Ok 7200%Z) (9 * Hour)%Z
    demo_watcher demo_open _ demo_started (Ok tt) (sample_tail "/var/log/syslog") eq_refl eq_refl eq_refl
    follow_trace follow_state Hr) as ((parts & Hp & Ht & _) & _).
  assert (Efl : cFiles follow_state = [("kernel: oops" +:+ newline +:+ "ker")]) by (vm_compute; reflexivity).
  exists parts. rewrite <- Efl. split; [exact Hp | exact Ht].
Defined.

