(* ===== verification/Program.v ===== *)
(** The program from its first statement: what the packages register when they
    are loaded, the flags, and the entry points of
    [cmd/nodeproblemdetector], [cmd/healthchecker] and [cmd/logcounter] up to
    where [ProblemDetector], [HealthChecker], [LogCounter] and [WindowsService]
    take over.

    The flag libraries are modelled by the names that are defined; parsing the
    command line is a parameter. *)

From S2P Require Import WindowsService Platform HealthChecker LogCounter Prelude GoStrings GoTime Types Options StartTime LogMonitor ProblemDetector FilelogWatcher KmsgWatcher JournaldWatcher SystemStatsMonitor.

(** ** Registration *)

(** The watchers that a build with all plugins has. *)
Inductive AnyWatcher : Type :=
| WFilelog (w : filelogWatcher)
| WJournald (w : journaldWatcher)
| WKmsg (w : kernelLogWatcher).

Section LogWatchers.
Variable regexp_MustCompile : string -> outcome (string -> list string).
(** What the constructors read: the uptime and the clock. *)
Variables (sysinfo : result Z) (now : Time).

Abbreviation createFuncs := (gmap string (WatcherConfig -> outcome AnyWatcher)).

(* @ pkg/systemlogmonitor/logwatchers/register_filelog.go:23-28 init *)
Definition register_filelog (m : createFuncs) : createFuncs :=
  registerLogWatcher m "filelog" (fun cfg => w ← NewSyslogWatcherOrDie regexp_MustCompile sysinfo now cfg; Ret (WFilelog w)).

(* @ pkg/systemlogmonitor/logwatchers/register_journald.go:25-30 init *)
Definition register_journald (m : createFuncs) : createFuncs :=
  registerLogWatcher m "journald" (fun cfg => w ← NewJournaldWatcher sysinfo now cfg; Ret (WJournald w)).

(* @ pkg/systemlogmonitor/logwatchers/register_kmsg.go:21-23 init *)
Definition register_kmsg (m : createFuncs) : createFuncs :=
  registerLogWatcher m "kmsg" (fun cfg => w ← NewKmsgWatcher sysinfo now cfg; Ret (WKmsg w)).

(** The files of a package are initialised in the order of their names. *)
Definition log_watchers : createFuncs := register_kmsg (register_journald (register_filelog ∅)).

(** The plugin of the configuration selects the watcher, and nothing else does. *)
Theorem log_watcher_by_plugin cfg :
  GetLogWatcherOrDie log_watchers cfg =
  if String.eqb (wcPlugin cfg) "filelog" then w ← NewSyslogWatcherOrDie regexp_MustCompile sysinfo now cfg; Ret (WFilelog w)
  else if String.eqb (wcPlugin cfg) "journald" then w ← NewJournaldWatcher sysinfo now cfg; Ret (WJournald w)
  else if String.eqb (wcPlugin cfg) "kmsg" then w ← NewKmsgWatcher sysinfo now cfg; Ret (WKmsg w)
  else Panic "No create function found for plugin".
Proof.
  unfold GetLogWatcherOrDie, log_watchers, register_kmsg, register_journald, register_filelog, registerLogWatcher.
  destruct (String.eqb_spec (wcPlugin cfg) "filelog") as [->|H1]; [done|].
  destruct (String.eqb_spec (wcPlugin cfg) "journald") as [->|H2]; [done|].
  destruct (String.eqb_spec (wcPlugin cfg) "kmsg") as [->|H3]; [done|].
  by rewrite !lookup_insert_ne, lookup_empty by done.
Qed.
End LogWatchers.

Section Daemons.
Context {Monitor : Type}.
(** [NewLogMonitorOrDie], [NewCustomPluginMonitorOrDie] and
    [NewSystemStatsMonitorOrDie] as monitors. *)
Variables newLog newCustom newStats : string -> outcome Monitor.

Definition optionDescription : string := "Set to config file paths.".

(* @ pkg/systemlogmonitor/log_monitor.go:37-46 init *)
Definition register_log (m : gmap string (ProblemDaemonHandler (Monitor := Monitor))) :=
  RegisterProblemDaemon systemLogMonitorName (mkDaemonHandler newLog optionDescription) m.
(* @ pkg/custompluginmonitor/custom_plugin_monitor.go:35-44 init *)
Definition register_custom (m : gmap string (ProblemDaemonHandler (Monitor := Monitor))) :=
  RegisterProblemDaemon customPluginMonitorName (mkDaemonHandler newCustom optionDescription) m.
(* @ pkg/systemstatsmonitor/system_stats_monitor.go:33-40 init *)
Definition register_stats (m : gmap string (ProblemDaemonHandler (Monitor := Monitor))) :=
  RegisterProblemDaemon SystemStatsMonitorName (mkDaemonHandler newStats optionDescription) m.

(** The imports of [cmd/nodeproblemdetector/problemdaemonplugins]. *)
Definition daemon_handlers : gmap string (ProblemDaemonHandler (Monitor := Monitor)) :=
  register_stats (register_log (register_custom ∅)).

Definition daemon_names : list string := [customPluginMonitorName; systemLogMonitorName; SystemStatsMonitorName].

(** The registry holds the three kinds of daemons, each with its own
    constructor; any order of its iteration names exactly them. *)
Theorem daemon_registry order :
  (forall h, daemon_handlers !! systemLogMonitorName = Some h <-> h = mkDaemonHandler newLog optionDescription) /\
  (forall h, daemon_handlers !! customPluginMonitorName = Some h <-> h = mkDaemonHandler newCustom optionDescription) /\
  (forall h, daemon_handlers !! SystemStatsMonitorName = Some h <-> h = mkDaemonHandler newStats optionDescription) /\
  (visits daemon_handlers order <-> order ≡ₚ daemon_names).
Proof.
  unfold daemon_handlers, register_stats, register_log, register_custom, RegisterProblemDaemon.
  split_and!.
  - intros h. rewrite lookup_insert_ne, lookup_insert_eq by done. naive_solver.
  - intros h. rewrite !lookup_insert_ne, lookup_insert_eq by done. naive_solver.
  - intros h. rewrite lookup_insert_eq. naive_solver.
  - assert (Hn : NoDup daemon_names) by (apply (bool_decide_unpack _); vm_compute; exact I).
    assert (Hd : forall t, is_Some ((<[SystemStatsMonitorName := mkDaemonHandler newStats optionDescription]>
      (<[systemLogMonitorName := mkDaemonHandler newLog optionDescription]>
      (<[customPluginMonitorName := mkDaemonHandler newCustom optionDescription]>
        (∅ : gmap string (ProblemDaemonHandler (Monitor := Monitor)))))) !! t) <-> t ∈ daemon_names).
    { intros t. rewrite !lookup_insert_is_Some', lookup_empty. unfold daemon_names. rewrite !elem_of_cons, elem_of_nil.
      split; [intros [<-|[<-|[<-|[? [=]]]]]; auto|]. intros [->|[->|[->|[]]]]; auto. }
    split.
    + intros Hv. apply NoDup_Permutation; [by eapply visits_NoDup|done|]. intros t. rewrite <- Hd. by apply visits_elem.
    + intros Hp. unfold visits. apply NoDup_Permutation; [by rewrite Hp|apply NoDup_fst_map_to_list|].
      intros t. rewrite Hp, <- Hd. symmetry. apply visits_elem. unfold visits. done.
Qed.
End Daemons.

(** ** Starting the daemons *)

(** [Start] of a log monitor fails when its watcher cannot watch; the other two
    kinds always start, and a system stats monitor has no channel. *)
(* @ pkg/systemlogmonitor/log_monitor.go:112-121 Start *)
Definition logMonitor_Start (watch : result unit) : result bool :=
  match watch with Err e => Err e | Ok _ => Ok true end.
(* @ pkg/custompluginmonitor/custom_plugin_monitor.go:111-116 Start *)
Definition customPluginMonitor_Start : result bool := Ok true.
Definition systemStatsMonitor_Start : result bool := Ok false.

Inductive daemon : Type := DLog (watch : result unit) | DCustom | DStats.
Definition daemon_Start (d : daemon) : result bool :=
  match d with
  | DLog watch => logMonitor_Start watch
  | DCustom => customPluginMonitor_Start
  | DStats => systemStatsMonitor_Start
  end.

(** [Run] gives up exactly when there is nothing but log monitors whose sources
    cannot be watched; otherwise it listens to every custom plugin monitor and to
    the log monitors that could be started. *)
Theorem run_gives_up_without_sources daemons :
  match RunStart (daemon_Start <$> daemons) with
  | Err _ => Forall (fun d => exists e, d = DLog (Err e)) daemons
  | Ok chans => forall k, k ∈ chans <-> daemons !! k = Some DCustom \/ daemons !! k = Some (DLog (Ok tt))
  end.
Proof.
  pose proof (RunStart_spec (daemon_Start <$> daemons)) as H. destruct (RunStart _) as [chans|].
  - destruct H as [_ H]. intros k. rewrite H, list_lookup_fmap.
    destruct (daemons !! k) as [[[[]|e]| |]|]; cbn; naive_solver.
  - rewrite Forall_fmap in H. eapply Forall_impl; [exact H|]. intros [[[]|e]| |]; cbn; try done. by eexists.
Qed.

(** ** Flags *)

(** The flags of klog that are offered. *)
Definition offered : list string := ["v"; "vmodule"; "logtostderr"].

Definition mark_hidden (fs : list string) (name : string) : result unit :=
  if bool_decide (name ∈ fs) then Ok tt else Err "flag does not exist".

(** [goFlags] are the flags that packages of the build define in [flag.CommandLine],
    [klogNames] those of klog in the order they are visited. *)
Definition klog_flags (goFlags klogNames : list string) : outcome (list string) :=
  define_flags goFlags (filter (fun n => n ∈ offered) klogNames).

Definition hide_or_die (fs : list string) (name : string) : outcome unit :=
  match mark_hidden fs name with Ok _ => Ret tt | Err _ => Panic "Failed to mark hidden flag" end.

(** The first part of the entry points: the flags that are defined, and the
    options with their defaults. *)
(* @ cmd/nodeproblemdetector/node_problem_detector_unix.go:34-56 main *)
Definition setup_flags (goFlags klogNames exporterFlags daemonOrder : list string)
    : outcome (list string * NodeProblemDetectorOptions) :=
  fs ← klog_flags goFlags klogNames;
  _ ← hide_or_die fs "vmodule";
  _ ← hide_or_die fs "logtostderr";
  AddFlags (NewNodeProblemDetectorOptions (GetProblemDaemonNames daemonOrder)) fs exporterFlags
    (GetProblemDaemonNames daemonOrder).

(* @ pkg/exporters/stackdriver/stackdriver_exporter.go:195-198 SetFlags *)
Definition stackdriver_flags : list string := ["exporter.stackdriver"].

Lemma define_flags_Ret fs names :
  NoDup names -> (forall n, n ∈ names -> n ∉ fs) -> define_flags fs names = Ret (fs ++ names).
Proof.
  revert fs. induction names as [|n names IH]; intros fs HN Hf; cbn [define_flags]; [by rewrite app_nil_r|].
  apply NoDup_cons in HN as [Hn HN]. rewrite bool_decide_false by (apply Hf; by left).
  rewrite IH; [by rewrite <- app_assoc|done|].
  intros m Hm [Hin|Hin]%elem_of_app; [by apply (Hf m); [right|]|].
  apply list_elem_of_singleton in Hin as ->. done.
Qed.

(** The flags that the program defines itself. *)
Definition own_flags : list string :=
  base_flags ++ stackdriver_flags ++ map (fun n => "config." +:+ n) daemon_names.

(** Start-up never dies of its flags: whatever order the registry of daemons is
    visited in, when klog has its flags and no other package of the build
    defines one of these names, all flags are defined, once each, and the options
    hold their defaults, with an empty list of paths for each kind of daemon. *)
Theorem flags_accepted goFlags klogNames order :
  order ≡ₚ daemon_names -> NoDup klogNames -> "vmodule" ∈ klogNames -> "logtostderr" ∈ klogNames ->
  (forall n, n ∈ goFlags -> n ∉ offered ++ own_flags) ->
  exists npdo,
    setup_flags goFlags klogNames stackdriver_flags order =
      Ret (((goFlags ++ filter (fun n => n ∈ offered) klogNames) ++ base_flags) ++ stackdriver_flags
             ++ map (fun n => "config." +:+ n) order, npdo) /\
    EnableK8sExporter npdo = true /\ ServerPort npdo = 20256%Z /\ PrometheusServerPort npdo = 20257%Z /\
    forall t, MonitorConfigPaths npdo !! t = if bool_decide (t ∈ daemon_names) then Some [] else None.
Proof.
  intros Hp Hk Hv Hl Hgo. unfold setup_flags, klog_flags.
  assert (Hown : NoDup (offered ++ own_flags)) by (apply (bool_decide_unpack _); vm_compute; exact I).
  apply NoDup_app in Hown as (_ & Hoff & Hown).
  rewrite define_flags_Ret; [|by apply NoDup_filter|].
  2: { intros n [Hn _]%list_elem_of_filter Hin. apply (Hgo n Hin), elem_of_app. by left. }
  cbn [mbind outcome_bind]. set (fs := goFlags ++ _).
  assert (Hh : forall n, n ∈ offered -> n ∈ klogNames -> hide_or_die fs n = Ret tt).
  { intros n Hn Hin. unfold hide_or_die, mark_hidden. rewrite bool_decide_true; [done|].
    apply elem_of_app. right. by apply list_elem_of_filter. }
  rewrite !Hh by (done || (unfold offered; set_solver)). cbn [mbind outcome_bind].
  assert (Hfs : forall n, n ∈ own_flags -> n ∉ fs).
  { intros n Hn [Hin|[Hin _]%list_elem_of_filter]%elem_of_app.
    - apply (Hgo n Hin), elem_of_app. by right.
    - by apply (Hoff n). }
  assert (Hperm : map (fun n => "config." +:+ n) order ≡ₚ map (fun n => "config." +:+ n) daemon_names)
    by (by apply Permutation_map).
  unfold own_flags in *. apply NoDup_app in Hown as (Hb & Hbs & Hrest).
  apply NoDup_app in Hrest as (Hs & Hsd & Hd).
  unfold AddFlags, GetProblemDaemonNames. rewrite (define_flags_Ret fs base_flags); [|done|].
  2: { intros n Hn. apply Hfs, elem_of_app. by left. }
  cbn [mbind outcome_bind]. rewrite define_flags_Ret; [|done|].
  2: { intros n Hn [Hin|Hin]%elem_of_app.
       - apply (Hfs n); [|done]. apply elem_of_app. right. apply elem_of_app. by left.
       - apply (Hbs n Hin), elem_of_app. by left. }
  cbn [mbind outcome_bind]. rewrite define_flags_Ret; [|by rewrite Hperm|].
  2: { intros n Hn. rewrite Hperm in Hn. intros [[Hin|Hin]%elem_of_app|Hin]%elem_of_app.
       - apply (Hfs n); [|done]. apply elem_of_app. right. apply elem_of_app. by right.
       - apply (Hbs n Hin), elem_of_app. by right.
       - by apply (Hsd n). }
  cbn [mbind outcome_bind]. eexists. split; [by rewrite <- !app_assoc|]. split_and!; try done.
  intros t. cbn [MonitorConfigPaths NewNodeProblemDetectorOptions zero_options].
  assert (Hfold : forall names (m : gmap string (list string)),
    foldl (fun paths n => <[n := []]> paths) m names !! t = if bool_decide (t ∈ names) then Some [] else m !! t).
  { clear. induction names as [|n names IH]; intros m; cbn [foldl]; [done|]. rewrite IH.
    destruct (decide (n = t)) as [->|Hne].
    - rewrite lookup_insert_eq. rewrite (bool_decide_true (t ∈ t :: names)) by by left. by destruct (bool_decide _).
    - rewrite lookup_insert_ne by done. destruct (bool_decide (t ∈ names)) eqn:E.
      + apply bool_decide_eq_true in E. by rewrite bool_decide_true by by right.
      + apply bool_decide_eq_false in E. rewrite bool_decide_false; [done|]. by intros [?|?]%elem_of_cons. }
  rewrite !Hfold, lookup_empty.
  destruct (decide (t ∈ daemon_names)) as [Ht|Ht].
  - rewrite !bool_decide_true by (done || by rewrite Hp). done.
  - rewrite !bool_decide_false by (done || by rewrite Hp). done.
Qed.

(** The same for the two tools, which define their own flags. *)
(* @ cmd/healthchecker/health_checker.go:32-54 main *)
Definition health_flags (goFlags klogNames : list string) (os : GOOS) (patterns : LogPatternFlag)
    : outcome (list string * HealthCheckerOptions) :=
  fs ← klog_flags goFlags klogNames;
  _ ← hide_or_die fs "vmodule";
  _ ← hide_or_die fs "logtostderr";
  let '(hco, names) := hco_AddFlags os patterns in
  fs ← define_flags fs names;
  Ret (fs, hco).

(** The log counter ignores a failure to hide a flag. *)
(* @ cmd/logcounter/log_counter.go:35-50 main *)
Definition counter_flags (goFlags klogNames : list string) : outcome (list string * LogCounterOptions) :=
  fs ← klog_flags goFlags klogNames;
  let '(lco, names) := lco_AddFlags in
  fs ← define_flags fs names;
  Ret (fs, lco).

(** Neither tool dies of its flags, under the same conditions. *)
Theorem tool_flags_accepted goFlags klogNames os patterns :
  NoDup klogNames -> "vmodule" ∈ klogNames -> "logtostderr" ∈ klogNames ->
  (forall n, n ∈ goFlags -> n ∉ offered ++ (hco_AddFlags os patterns).2 ++ lco_AddFlags.2) ->
  health_flags goFlags klogNames os patterns =
    Ret ((goFlags ++ filter (fun n => n ∈ offered) klogNames) ++ (hco_AddFlags os patterns).2, (hco_AddFlags os patterns).1) /\
  counter_flags goFlags klogNames =
    Ret ((goFlags ++ filter (fun n => n ∈ offered) klogNames) ++ lco_AddFlags.2, lco_AddFlags.1).
Proof.
  intros Hk Hv Hl Hgo. unfold health_flags, counter_flags, klog_flags.
  assert (Hh : NoDup (offered ++ (hco_AddFlags os patterns).2)) by (destruct os; apply (bool_decide_unpack _); vm_compute; exact I).
  assert (Hc : NoDup (offered ++ lco_AddFlags.2)) by (apply (bool_decide_unpack _); vm_compute; exact I).
  apply NoDup_app in Hh as (_ & Hho & Hh). apply NoDup_app in Hc as (_ & Hco & Hc).
  rewrite define_flags_Ret; [|by apply NoDup_filter|].
  2: { intros n [Hn _]%list_elem_of_filter Hin. apply (Hgo n Hin), elem_of_app. by left. }
  cbn [mbind outcome_bind].
  assert (Hdisj : forall names : list string, (forall n, n ∈ names -> n ∈ (hco_AddFlags os patterns).2 ++ lco_AddFlags.2) ->
    (forall n, n ∈ offered -> n ∉ names) ->
    forall n, n ∈ names -> n ∉ goFlags ++ filter (fun n => n ∈ offered) klogNames).
  { intros names Hn1 Hn2 n Hn [Hin|[Hin _]%list_elem_of_filter]%elem_of_app.
    - apply (Hgo n Hin), elem_of_app. right. by apply Hn1.
    - by apply (Hn2 n). }
  assert (Hhide : forall n, n ∈ offered -> n ∈ klogNames ->
    hide_or_die (goFlags ++ filter (fun n => n ∈ offered) klogNames) n = Ret tt).
  { intros n Hn Hin. unfold hide_or_die, mark_hidden. rewrite bool_decide_true; [done|].
    apply elem_of_app. right. by apply list_elem_of_filter. }
  split.
  - rewrite !Hhide by (done || (unfold offered; set_solver)). cbn [mbind outcome_bind].
    destruct (hco_AddFlags os patterns) as [hco names]. cbn [fst snd] in *.
    rewrite define_flags_Ret; [done|done|]. apply Hdisj; [|done]. intros n Hn. apply elem_of_app. by left.
  - destruct lco_AddFlags as [lco names]. cbn [fst snd] in *.
    rewrite define_flags_Ret; [done|done|]. apply Hdisj; [|done]. intros n Hn. apply elem_of_app. by right.
Qed.

(** ** The entry points of the detector *)
Section Entry.
Context {Monitor Exporter CommandLineOptions : Type}.
Variable prometheus_NewExporter : result Exporter.
Variable url_Parse_ok : string -> bool.
Variable os_Getenv : string -> string.
Variable os_Hostname : result string.
Variable k8s_NewExporterOrDie : NodeProblemDetectorOptions -> outcome (option Exporter).
Variable daemonHandlers : gmap string (ProblemDaemonHandler (Monitor := Monitor)).
Variable exporterHandlers : gmap string (ExporterHandler Exporter CommandLineOptions).
(** Parsing the command line with the flags that are defined ends the process on a
    bad flag. *)
Variable pflag_Parse : list string -> NodeProblemDetectorOptions -> outcome NodeProblemDetectorOptions.
(** What [Start] of a monitor answers. *)
Variable start_monitor : Monitor -> result bool.
Variables (goFlags klogNames exporterFlags : list string).

Definition npd_main := npdMain (Monitor := Monitor) (Exporter := Exporter) (CommandLineOptions := CommandLineOptions)
  prometheus_NewExporter url_Parse_ok os_Getenv os_Hostname k8s_NewExporterOrDie daemonHandlers exporterHandlers.

(** [npdMain] with the call of [Run], up to the loop: the monitors it listens to;
    [None] when only the version is printed. *)
Definition npd_run (npdo : NodeProblemDetectorOptions) (pathOrder exporterOrder : list string)
    : outcome (result (option (list nat))) :=
  m ← npd_main npdo pathOrder exporterOrder;
  match m with
  | None => Ret (Ok None)
  | Some (daemons, _) =>
    match RunStart (start_monitor <$> daemons) with
    | Err e => Ret (Err e)
    | Ok chans => Ret (Ok (Some chans))
    end
  end.

(* @ cmd/nodeproblemdetector/node_problem_detector_unix.go:58-65 main *)
Definition unix_main (daemonOrder pathOrder exporterOrder : list string) : outcome (option (list nat)) :=
  r ← setup_flags goFlags klogNames exporterFlags daemonOrder;
  let '(fs, npdo) := r : list string * NodeProblemDetectorOptions in
  npdo ← pflag_Parse fs npdo;
  r ← npd_run npdo pathOrder exporterOrder;
  match r with
  | Err _ => Panic "Problem detector failed with error"
  | Ok chans => Ret chans
  end.

(** On Windows the options go to the service, which is run one way or the other. *)
(* @ cmd/nodeproblemdetector/node_problem_detector_windows.go:47-82 main *)
Definition windows_main (daemonOrder : list string) (svc_IsWindowsService : result bool) (eventlog_Open : result unit)
    : outcome (NodeProblemDetectorOptions * event_log * run_function) :=
  r ← setup_flags goFlags klogNames exporterFlags daemonOrder;
  let '(fs, npdo) := r : list string * NodeProblemDetectorOptions in
  npdo ← pflag_Parse fs npdo;
  let '(elog, runFunc) := initializeRun svc_IsWindowsService eventlog_Open in
  Ret (npdo, elog, runFunc).

(** The program reaches its loop exactly with what it was configured to do: the
    daemons of the parsed options, of which at least one could be started, and it
    then listens to exactly those that were started and report problems. *)
Theorem unix_main_reaches_loop daemonOrder pathOrder exporterOrder chans :
  unix_main daemonOrder pathOrder exporterOrder = Ret (Some chans) ->
  exists fs npdo0 npdo daemons exps,
    setup_flags goFlags klogNames exporterFlags daemonOrder = Ret (fs, npdo0) /\
    pflag_Parse fs npdo0 = Ret npdo /\
    npd_main npdo pathOrder exporterOrder = Ret (Some (daemons, exps)) /\
    Exists (fun d => is_ok (start_monitor d) = true) daemons /\
    forall k, k ∈ chans <-> exists d, daemons !! k = Some d /\ start_monitor d = Ok true.
Proof.
  unfold unix_main. destruct (setup_flags goFlags klogNames exporterFlags daemonOrder) as [[fs npdo0]|]; [|done]. cbn [mbind outcome_bind].
  destruct (pflag_Parse fs npdo0) as [npdo|] eqn:Ep; [|done]. cbn [mbind outcome_bind]. unfold npd_run.
  destruct (npd_main npdo pathOrder exporterOrder) as [[[daemons exps]|]|] eqn:Em; [|done..]. cbn [mbind outcome_bind].
  pose proof (RunStart_spec (start_monitor <$> daemons)) as Hs.
  destruct (RunStart (start_monitor <$> daemons)) as [cs|]; [|done]. intros [= <-]. destruct Hs as [Hex Hk].
  exists fs, npdo0, npdo, daemons, exps. split_and!; try done.
  - apply Exists_exists in Hex as (r & Hin & Hr). apply list_elem_of_fmap in Hin as (d & -> & Hd).
    apply Exists_exists. eauto.
  - intros k. rewrite Hk, list_lookup_fmap_Some. split; intros (d & H1 & H2); exists d; by split.
Qed.
End Entry.

(** ** Witnesses *)
Definition sample_klog : list string := ["add_dir_header"; "alsologtostderr"; "logtostderr"; "stderrthreshold"; "v"; "vmodule"].

Lemma log_registry_sample :
  GetLogWatcherOrDie (log_watchers demo_compile (Ok 7200%Z) (9 * Hour)%Z) (mkWatcherConfig "kmsgg" ∅ [] "" "" "") =
  Panic "No create function found for plugin".
Proof. by rewrite log_watcher_by_plugin. Qed.

Lemma flags_accepted_witness :
  exists npdo, MonitorConfigPaths npdo !! systemLogMonitorName = Some [] /\ EnableK8sExporter npdo = true.
Proof.
  destruct (flags_accepted [] sample_klog [SystemStatsMonitorName; systemLogMonitorName; customPluginMonitorName])
    as (npdo & _ & He & _ & _ & Hp).
  - apply (bool_decide_unpack _). vm_compute. exact I.
  - apply (bool_decide_unpack _). vm_compute. exact I.
  - apply (bool_decide_unpack _). vm_compute. exact I.
  - apply (bool_decide_unpack _). vm_compute. exact I.
  - intros n H. by apply elem_of_nil in H.
  - exists npdo. split; [|done]. by rewrite Hp.
Defined.

Lemma unix_main_reaches_loop_witness :
  let main := unix_main (Exporter := nat) (CommandLineOptions := unit) (Ok 0) (fun _ => true) (fun _ => "node-1") (Err "none")
    (fun _ => Ret None) sample_handlers ∅
    (fun _ o => Ret (with_paths o ["kernel.json"] [] (MonitorConfigPaths o))) (fun _ => Ok true) [] sample_klog stackdriver_flags in
  main [systemLogMonitorName] [systemLogMonitorName] [] = Ret (Some [0]) /\
  exists daemons, Exists (fun d : string => is_ok (Ok true : result bool) = true) daemons.
Proof.
  intros main. assert (H : main [systemLogMonitorName] [systemLogMonitorName] [] = Ret (Some [0])) by (vm_compute; reflexivity).
  split; [exact H|].
  destruct (unix_main_reaches_loop (Exporter := nat) (CommandLineOptions := unit) (Ok 0) (fun _ => true) (fun _ => "node-1") (Err "none")
    (fun _ => Ret None) sample_handlers ∅
    (fun _ o => Ret (with_paths o ["kernel.json"] [] (MonitorConfigPaths o))) (fun _ => Ok true) [] sample_klog stackdriver_flags
    [systemLogMonitorName] [systemLogMonitorName] [] [0] H) as (_ & _ & _ & daemons & _ & _ & _ & _ & Hex & _).
  by exists daemons.
Defined.
