(* ===== verification/OtherPlatforms.v ===== *)
(** The files that the builds for Windows and Darwin have instead of the Linux
    ones, where they say that something is not supported: the kernel log watcher,
    the health checker on Darwin, the path of the proc file system and two of the
    three CPU collections on Windows.  What the configuration files that rely on
    them lead to. *)

From S2P Require Import Prelude GoStrings GoTime Types Options Metrics LogMonitor FilelogWatcher JournaldWatcher CustomPluginConfig Platform HealthChecker Recording SystemStatsConfig CPUCollector Program.

(** ** The kernel log watcher *)

(* @ pkg/systemlogmonitor/logwatchers/kmsg/log_watcher_windows.go:28-31 NewKmsgWatcher *)
Definition windows_NewKmsgWatcher {W : Type} (cfg : WatcherConfig) : outcome W := Panic "kmsg parser is not supported".
(* @ pkg/systemlogmonitor/logwatchers/kmsg/log_watcher_darwin.go:28-31 NewKmsgWatcher *)
Definition darwin_NewKmsgWatcher {W : Type} (cfg : WatcherConfig) : outcome W := Panic "kmsg parser is not supported".

Section LogWatchers.
Variable regexp_MustCompile : string -> outcome (string -> list string).
Variables (sysinfo : result Z) (now : Time).
(** One of the two constructors above. *)
Variable NewKmsgWatcher : WatcherConfig -> outcome AnyWatcher.
Hypothesis unsupported : forall cfg, exists c, NewKmsgWatcher cfg = Panic c.

Definition other_log_watchers : gmap string (WatcherConfig -> outcome AnyWatcher) :=
  registerLogWatcher (register_journald sysinfo now (register_filelog regexp_MustCompile sysinfo now ∅)) "kmsg" NewKmsgWatcher.

(** A configuration for the kernel log takes the process down at start-up; the
    others are served as on Linux. *)
Theorem other_watcher_by_plugin cfg :
  if String.eqb (wcPlugin cfg) "kmsg"
  then exists c, GetLogWatcherOrDie other_log_watchers cfg = Panic c
  else GetLogWatcherOrDie other_log_watchers cfg = GetLogWatcherOrDie (log_watchers regexp_MustCompile sysinfo now) cfg.
Proof.
  unfold GetLogWatcherOrDie, other_log_watchers, log_watchers, register_kmsg, registerLogWatcher.
  destruct (String.eqb_spec (wcPlugin cfg) "kmsg") as [->|H]; [rewrite lookup_insert_eq; apply unsupported|].
  by rewrite !lookup_insert_ne by done.
Qed.
End LogWatchers.

Lemma other_watcher_by_plugin_witness :
  exists c, GetLogWatcherOrDie
    (other_log_watchers (fun _ => Panic "unused") (Ok 1%Z) 1 windows_NewKmsgWatcher)
    (mkWatcherConfig "kmsg" ∅ [] "" "" "") = Panic c.
Proof.
  exact (other_watcher_by_plugin (fun _ => Panic "unused") (Ok 1%Z) 1 windows_NewKmsgWatcher
    (fun _ => ex_intro _ _ eq_refl) (mkWatcherConfig "kmsg" ∅ [] "" "" "")).
Defined.

(** ** The health checker on Darwin *)

(* @ pkg/healthchecker/health_checker_darwin.go:28-32 getUptimeFunc *)
Definition darwin_getUptimeFunc (service : string) : outcome (H (result Duration)) := Panic "getUptimeFunc is not supported".
(* @ pkg/healthchecker/health_checker_darwin.go:34-38 getRepairFunc *)
Definition darwin_getRepairFunc (hco : HealthCheckerOptions) : outcome (H unit) := Panic "getRepairFunc is not supported".
(* @ pkg/healthchecker/health_checker_darwin.go:40-45 checkForPattern *)
Definition darwin_checkForPattern (service logStartTime logPattern : string) (logCountThreshold : Z)
    : outcome (result bool) := Panic "checkForPattern is not supported".
(* @ pkg/healthchecker/health_checker_darwin.go:47-50 getDockerPath *)
Definition darwin_getDockerPath : outcome string := Panic "getDockerPath is not supported".

Section Darwin.
Variable getHealthCheckFunc : HealthCheckerOptions -> option (H (result bool)).
(** What [main] does with a checker. *)
Variable check_and_exit : healthChecker -> outcome Z.

(** The statements of [NewHealthChecker] with the functions above. *)
Definition darwin_NewHealthChecker (hco : HealthCheckerOptions) : outcome healthChecker :=
  let check := getHealthCheckFunc hco in
  repair ← darwin_getRepairFunc hco;
  uptime ← darwin_getUptimeFunc (hcoService hco);
  Ret (mkHC (hcoComponent hco) (hcoService hco) (hcoEnableRepair hco) check repair uptime (hcoCriCtlPath hco)
         (hcoHealthCheckTimeout hco) (hcoCoolDownTime hco) (hcoLoopBackTime hco) (hcoLogPatterns hco)).

Definition darwin_health_main (hco : HealthCheckerOptions) : outcome Z :=
  let hco := SetDefaults hco in
  match IsValid hco with
  | Err _ => Ret Cpm.Unknown
  | Ok _ => hc ← darwin_NewHealthChecker hco; check_and_exit hc
  end.

(** There is no health check on Darwin: valid options end in a fatal error before
    anything is checked, invalid ones in the exit code for unknown. *)
Theorem darwin_health_main_dies hco :
  if is_ok (IsValid (SetDefaults hco))
  then exists c, darwin_health_main hco = Panic c
  else darwin_health_main hco = Ret Cpm.Unknown.
Proof. unfold darwin_health_main. destruct (IsValid _); cbn; [by eexists|done]. Qed.
End Darwin.

(** ** System statistics *)

(* @ pkg/systemstatsmonitor/types/config_windows.go:19-24 validateProcPath *)
Definition windows_validateProcPath (c : SystemStatsConfig) : result unit := Ok tt.
(* @ pkg/systemstatsmonitor/types/config_darwin.go:19-24 validateProcPath *)
Definition darwin_validateProcPath (c : SystemStatsConfig) : result unit := Ok tt.

(** [Validate] of [types/config.go] with the path check of either system. *)
Definition other_ssc_Validate (validateProcPath : SystemStatsConfig -> result unit) (c : SystemStatsConfig) : result unit :=
  if (ssInvokeInterval c <=? 0)%Z then Err "InvokeInterval must be above 0s"
  else
    match validateProcPath c with
    | Err _ => Err "ProcPath check failed"
    | Ok _ =>
      if (LsblkTimeout (DiskConfig c) <=? 0)%Z then Err "LsblkTimeout must be above 0s"
      else if (ssInvokeInterval c <? LsblkTimeout (DiskConfig c))%Z
      then Err "LsblkTimeout must be shorter than ssc.InvokeInterval"
      else Ok tt
    end.

(** A configuration is accepted exactly when its durations are in order, whatever
    its path of the proc file system. *)
Theorem other_config_accepted c :
  (other_ssc_Validate windows_validateProcPath c = Ok tt <-> (0 < LsblkTimeout (DiskConfig c) <= ssInvokeInterval c)%Z) /\
  other_ssc_Validate darwin_validateProcPath c = other_ssc_Validate windows_validateProcPath c.
Proof.
  split; [|done]. unfold other_ssc_Validate, windows_validateProcPath.
  destruct (Z.leb_spec (ssInvokeInterval c) 0); [split; [done|lia]|].
  destruct (Z.leb_spec (LsblkTimeout (DiskConfig c)) 0); [split; [done|lia]|].
  destruct (Z.ltb_spec (ssInvokeInterval c) (LsblkTimeout (DiskConfig c))); (split; [done || lia|done || lia]).
Qed.

(* @ pkg/systemstatsmonitor/cpu_collector_windows.go:19-21 recordLoad *)
Definition windows_recordLoad (cc : cpuCollector) (env : cpuEnv) : list call := [].
(* @ pkg/systemstatsmonitor/cpu_collector_windows.go:23-25 recordSystemStats *)
Definition windows_recordSystemStats (cc : cpuCollector) (env : cpuEnv) : list call := [].

Definition windows_cpu_collect (cc : option cpuCollector) (env : cpuEnv) : outcome (option cpuCollector * list call) :=
  match cc with
  | None => Ret (None, [])
  | Some cc =>
    let c1 := windows_recordLoad cc env in
    '(cc, c2) ← recordUsage cc env;
    let c3 := windows_recordSystemStats cc env in
    Ret (Some cc, c1 ++ c2 ++ c3)
  end.

(** A collection on Windows leaves the collector as one on Linux does and dies
    when that does; its calls are those of the usage times, among the calls of the
    other. *)
Theorem windows_cpu_collect_subset cc env :
  match cpu_collect cc env, windows_cpu_collect cc env with
  | Ret (s1, c1), Ret (s2, c2) => s1 = s2 /\ c2 ⊆+ c1
  | Panic m1, Panic m2 => m1 = m2
  | _, _ => False
  end.
Proof.
  destruct cc as [cc|]; cbn; [|done]. destruct (recordUsage cc env) as [[cc' c2]|]; cbn; [|done].
  split; [done|]. rewrite app_nil_r. apply submseteq_inserts_l, submseteq_inserts_r. done.
Qed.
